(** * Precise stepping: block compiler, step generators, merger and producer

    A shallow embedding of [lib/Marlin/Marlin/src/feature/precise_stepping/precise_stepping.cpp].

    Conventions.
    - [double] values are Rocq's primitive binary64 floats; [float] values are
      binary64 floats that went through [float32] (rounding to binary32).
    - Fixed-width integers are [Z] with the wrap-around written where the code
      can reach it; bit sets are [Z] with [Z.land], [Z.lor], [Z.shiftl].
    - Pointers into the move segment queue are indices of its [data] array,
      pointers to a step generator are slots of the generator pool; [None] is
      [nullptr].
    - A computation whose C++ behaviour is undefined (a conversion of a double
      that does not fit [int32_t], an access through a null pointer) or that
      ends in the fatal error handler has no result: such functions return
      [option]. An [assert] is compiled out. *)

From Stdlib Require Import ZArith Lia Bool List Floats.
From stdpp Require Import base option list.
From stdpp Require Import relations.

Set Warnings "-inexact-float".
Open Scope Z_scope.

(** ** Numbers *)

Module Num.

(** The value of a 32-bit two's complement integer after wrap-around. *)
Definition int32 (z : Z) : Z := (z + 2 ^ 31) mod 2 ^ 32 - 2 ^ 31.

Definition in_int32 (z : Z) : Prop := - 2 ^ 31 <= z < 2 ^ 31.

(** [std::numeric_limits<double>::max()] *)
Definition DBL_MAX : float := 0x1.fffffffffffffp+1023%float.

(** [a != b] on doubles *)
Definition fneq (a b : float) : bool := negb (a =? b)%float.

(** [std::max(a, b)], that is [(a < b) ? b : a] *)
Definition fmax (a b : float) : float := if (a <? b)%float then b else a.

(** [SQR(x)] *)
Definition SQR (x : float) : float := (x * x)%float.

(** [isnan(x)] *)
Definition isnan (x : float) : bool := negb (x =? x)%float.

(** The integer part of a finite value, rounding toward zero. *)
Definition trunc_SF (x : spec_float) : option Z :=
  match x with
  | S754_zero _ => Some 0
  | S754_finite s m e => Some (cond_Zopp s (Z.shiftl (Z.pos m) e))
  | S754_infinity _ | S754_nan => None
  end.

(** [int32_t(x)] for a double [x]: the value truncated toward zero when it
    fits, undefined otherwise. *)
Definition double_to_int32 (x : float) : option Z :=
  match trunc_SF (Prim2SF x) with
  | Some z => if (- 2 ^ 31 <=? z) && (z <? 2 ^ 31) then Some z else None
  | None => None
  end.

(** [double(z)] for a 32-bit integer [z] (exact). *)
Definition Z_to_double (z : Z) : float :=
  if z <? 0 then (- of_uint63 (Uint63.of_Z (- z)))%float
  else of_uint63 (Uint63.of_Z z).

(** [float(x)]: the binary32 value nearest to the double [x], kept as a
    double. *)
Definition float32 (x : float) : float :=
  match Prim2SF x with
  | S754_finite s m e =>
      match binary_round 24 128 s m e with
      | S754_finite s' m' e' => SF2Prim (binary_round prec emax s' m' e')
      | r => SF2Prim r
      end
  | _ => x
  end.

End Num.
Import Num.

(** ** Axes and per-axis tuples *)

Inductive AxisEnum := X_AXIS | Y_AXIS | Z_AXIS | E_AXIS.

#[global] Instance AxisEnum_eq_dec : EqDecision AxisEnum.
Proof. solve_decision. Defined.

Definition axis_index (a : AxisEnum) : Z :=
  match a with X_AXIS => 0 | Y_AXIS => 1 | Z_AXIS => 2 | E_AXIS => 3 end.

Definition axis_eqb (a b : AxisEnum) : bool := axis_index a =? axis_index b.

Definition all_axes : list AxisEnum := [X_AXIS; Y_AXIS; Z_AXIS; E_AXIS].

(** [_BV(i)] *)
Definition _BV (a : AxisEnum) : Z := Z.shiftl 1 (axis_index a).

(** [xyze_long_t], [xyze_double_t], ... and the four-element arrays indexed
    by an axis number. *)
Record xyze (A : Type) := XYZE { ax_x : A; ax_y : A; ax_z : A; ax_e : A }.
Arguments XYZE {A}.
Arguments ax_x {A}.
Arguments ax_y {A}.
Arguments ax_z {A}.
Arguments ax_e {A}.

Definition xyze_get {A} (v : xyze A) (a : AxisEnum) : A :=
  match a with
  | X_AXIS => ax_x v | Y_AXIS => ax_y v | Z_AXIS => ax_z v | E_AXIS => ax_e v
  end.

Definition xyze_set {A} (v : xyze A) (a : AxisEnum) (w : A) : xyze A :=
  match a with
  | X_AXIS => XYZE w (ax_y v) (ax_z v) (ax_e v)
  | Y_AXIS => XYZE (ax_x v) w (ax_z v) (ax_e v)
  | Z_AXIS => XYZE (ax_x v) (ax_y v) w (ax_e v)
  | E_AXIS => XYZE (ax_x v) (ax_y v) (ax_z v) w
  end.

Definition xyze_all {A} (w : A) : xyze A := XYZE w w w w.

Definition xyze_map {A B} (f : A -> B) (u : xyze A) : xyze B :=
  XYZE (f (ax_x u)) (f (ax_y u)) (f (ax_z u)) (f (ax_e u)).

Definition xyze_map2 {A B C} (f : A -> B -> C) (u : xyze A) (v : xyze B) : xyze C :=
  XYZE (f (ax_x u) (ax_x v)) (f (ax_y u) (ax_y v))
       (f (ax_z u) (ax_z v)) (f (ax_e u) (ax_e v)).

(** ** Data model

    The structs are declared in headers that are not among the sources; each
    record has the fields this file reads or writes, with the types of the
    expressions that use them. *)

(** [block_t], the planner's motion block (the fields this file reads). *)
Record block_t := Block {
  steps : xyze Z;            (* uint32_t per axis *)
  direction_bits : Z;        (* uint8_t, bit i set: axis i moves backwards *)
  millimeters : float;
  acceleration : float;
  initial_speed : float;
  nominal_speed : float;
  final_speed : float;
  sync_position : bool;      (* flag.sync_position *)
  position : xyze Z          (* target position of a sync block *)
}.

(** [move_t], one move segment. *)
Record move_t := Move {
  move_time : float;         (* the field [move_t]: duration in seconds *)
  start_v : float;
  half_accel : float;
  print_time : float;
  axes_r : xyze float;
  start_pos : xyze float;
  mflags : Z;                (* [flags], MoveFlag_t *)
  reference_cnt : Z
}.

(** [step_event_t], a queued step event in the tick domain. *)
Record step_event_t := StepEvent {
  time_ticks : Z;            (* int32_t, relative to the previous event *)
  flags : Z                  (* StepEventFlag_t *)
}.

(** [step_event_info_t], a generator's next event in the time domain. *)
Record step_event_info_t := StepEventInfo {
  time : float;
  iflags : Z
}.

(** [move_segment_queue_t]: a ring over [data] with a producer cursor [head],
    the Step-ISR's cursor [tail] and the generators' cursor
    [unprocessed_tail]. *)
Record move_segment_queue_t := MoveSegmentQueue {
  mq_data : list move_t;
  mq_head : nat;
  mq_tail : nat;
  mq_unprocessed_tail : nat
}.

(** [step_event_queue_t]: a ring over [data] with cursors [head], [tail]. *)
Record step_event_queue_t := StepEventQueue {
  sq_data : list step_event_t;
  sq_head : nat;
  sq_tail : nat
}.

(** [classic_step_generator_t] (with the fields of its bases). *)
Record classic_step_generator_t := ClassicStepGenerator {
  axis : AxisEnum;
  current_move : option nat;           (* const move_t *, an index of [mq_data] *)
  reached_end_of_move_queue : bool;
  g_start_v : float;                   (* float *)
  g_accel : float;                     (* float *)
  g_start_pos : float;                 (* float *)
  step_dir : bool
}.

(** The generator functions a [next_step_func] slot can hold. Without
    ADVANCED_STEP_GENERATORS only the classic one is ever stored. *)
Inductive generator_next_step_f := classic_next_step_f.

(** [step_generator_state_t], the merger state. A [step_generator] slot is a
    pointer into [step_generators_pool] (the slot of the pool it points at) or
    [nullptr]. *)
Record step_generator_state_t := StepGeneratorState {
  sflags : Z;                                   (* cached dir and active bits *)
  previous_step_time : float;
  buffered_step : step_event_t;
  current_distance : xyze Z;                    (* xyze_long_t *)
  left_insert_start_of_move_segment : Z;
  step_event_index : xyze AxisEnum;             (* slot 0 is the nearest event *)
  step_events : xyze step_event_info_t;
  next_step_func : xyze (option generator_next_step_f);
  step_generator : xyze (option AxisEnum);      (* basic_step_generator_t * *)
  initialized : bool
}.

Inductive StepGeneratorStatus :=
| STEP_GENERATOR_STATUS_OK
| STEP_GENERATOR_STATUS_FULL_STEP_EVENT_QUEUE
| STEP_GENERATOR_STATUS_NO_STEP_EVENT_PRODUCED.

(** Modelled from the spec: the planner's block queue ([planner.h] is not
    among the sources). One queue of blocks, oldest first, with two cursors:
    the first [processed] blocks were handed to the move segment queue and
    wait for the Step-ISR to discard them, the block after them is the
    current unprocessed one. *)
Record planner_t := Planner {
  block_buffer : list block_t;
  processed : nat;
  delay_before_delivering : Z
}.

(** The part of [Stepper] this file writes. *)
Record stepper_t := Stepper {
  count_position : xyze Z;
  axis_did_move : Z
}.

(** The static members of [PreciseStepping], with the planner and the stepper
    they act on. *)
Record state := State {
  move_segment_queue : move_segment_queue_t;
  step_event_queue : step_event_queue_t;
  left_ticks_to_next_step_event : Z;
  ticks_per_sec : float;
  step_generator_state : step_generator_state_t;
  step_generators_pool : xyze classic_step_generator_t;
  max_lookback_time : float;
  total_print_time : float;
  total_start_pos : xyze float;
  total_start_pos_steps : xyze Z;
  waiting_before_delivering_start_time : Z;
  stop_pending : bool;
  step_dl_miss : Z;
  step_ev_miss : Z;
  planner : planner_t;
  stepper : stepper_t
}.

Definition set_move_segment_queue (v : move_segment_queue_t) (s : state) : state :=
  State v (step_event_queue s) (left_ticks_to_next_step_event s) (ticks_per_sec s) (step_generator_state s) (step_generators_pool s) (max_lookback_time s) (total_print_time s) (total_start_pos s) (total_start_pos_steps s) (waiting_before_delivering_start_time s) (stop_pending s) (step_dl_miss s) (step_ev_miss s) (planner s) (stepper s).

Definition set_step_event_queue (v : step_event_queue_t) (s : state) : state :=
  State (move_segment_queue s) v (left_ticks_to_next_step_event s) (ticks_per_sec s) (step_generator_state s) (step_generators_pool s) (max_lookback_time s) (total_print_time s) (total_start_pos s) (total_start_pos_steps s) (waiting_before_delivering_start_time s) (stop_pending s) (step_dl_miss s) (step_ev_miss s) (planner s) (stepper s).

Definition set_left_ticks_to_next_step_event (v : Z) (s : state) : state :=
  State (move_segment_queue s) (step_event_queue s) v (ticks_per_sec s) (step_generator_state s) (step_generators_pool s) (max_lookback_time s) (total_print_time s) (total_start_pos s) (total_start_pos_steps s) (waiting_before_delivering_start_time s) (stop_pending s) (step_dl_miss s) (step_ev_miss s) (planner s) (stepper s).

Definition set_step_generator_state (v : step_generator_state_t) (s : state) : state :=
  State (move_segment_queue s) (step_event_queue s) (left_ticks_to_next_step_event s) (ticks_per_sec s) v (step_generators_pool s) (max_lookback_time s) (total_print_time s) (total_start_pos s) (total_start_pos_steps s) (waiting_before_delivering_start_time s) (stop_pending s) (step_dl_miss s) (step_ev_miss s) (planner s) (stepper s).

Definition set_step_generators_pool (v : xyze classic_step_generator_t) (s : state) : state :=
  State (move_segment_queue s) (step_event_queue s) (left_ticks_to_next_step_event s) (ticks_per_sec s) (step_generator_state s) v (max_lookback_time s) (total_print_time s) (total_start_pos s) (total_start_pos_steps s) (waiting_before_delivering_start_time s) (stop_pending s) (step_dl_miss s) (step_ev_miss s) (planner s) (stepper s).

Definition set_total_print_time (v : float) (s : state) : state :=
  State (move_segment_queue s) (step_event_queue s) (left_ticks_to_next_step_event s) (ticks_per_sec s) (step_generator_state s) (step_generators_pool s) (max_lookback_time s) v (total_start_pos s) (total_start_pos_steps s) (waiting_before_delivering_start_time s) (stop_pending s) (step_dl_miss s) (step_ev_miss s) (planner s) (stepper s).

Definition set_total_start_pos (v : xyze float) (s : state) : state :=
  State (move_segment_queue s) (step_event_queue s) (left_ticks_to_next_step_event s) (ticks_per_sec s) (step_generator_state s) (step_generators_pool s) (max_lookback_time s) (total_print_time s) v (total_start_pos_steps s) (waiting_before_delivering_start_time s) (stop_pending s) (step_dl_miss s) (step_ev_miss s) (planner s) (stepper s).

Definition set_total_start_pos_steps (v : xyze Z) (s : state) : state :=
  State (move_segment_queue s) (step_event_queue s) (left_ticks_to_next_step_event s) (ticks_per_sec s) (step_generator_state s) (step_generators_pool s) (max_lookback_time s) (total_print_time s) (total_start_pos s) v (waiting_before_delivering_start_time s) (stop_pending s) (step_dl_miss s) (step_ev_miss s) (planner s) (stepper s).

Definition set_waiting_before_delivering_start_time (v : Z) (s : state) : state :=
  State (move_segment_queue s) (step_event_queue s) (left_ticks_to_next_step_event s) (ticks_per_sec s) (step_generator_state s) (step_generators_pool s) (max_lookback_time s) (total_print_time s) (total_start_pos s) (total_start_pos_steps s) v (stop_pending s) (step_dl_miss s) (step_ev_miss s) (planner s) (stepper s).

Definition set_stop_pending (v : bool) (s : state) : state :=
  State (move_segment_queue s) (step_event_queue s) (left_ticks_to_next_step_event s) (ticks_per_sec s) (step_generator_state s) (step_generators_pool s) (max_lookback_time s) (total_print_time s) (total_start_pos s) (total_start_pos_steps s) (waiting_before_delivering_start_time s) v (step_dl_miss s) (step_ev_miss s) (planner s) (stepper s).

Definition set_step_dl_miss (v : Z) (s : state) : state :=
  State (move_segment_queue s) (step_event_queue s) (left_ticks_to_next_step_event s) (ticks_per_sec s) (step_generator_state s) (step_generators_pool s) (max_lookback_time s) (total_print_time s) (total_start_pos s) (total_start_pos_steps s) (waiting_before_delivering_start_time s) (stop_pending s) v (step_ev_miss s) (planner s) (stepper s).

Definition set_step_ev_miss (v : Z) (s : state) : state :=
  State (move_segment_queue s) (step_event_queue s) (left_ticks_to_next_step_event s) (ticks_per_sec s) (step_generator_state s) (step_generators_pool s) (max_lookback_time s) (total_print_time s) (total_start_pos s) (total_start_pos_steps s) (waiting_before_delivering_start_time s) (stop_pending s) (step_dl_miss s) v (planner s) (stepper s).

Definition set_planner (v : planner_t) (s : state) : state :=
  State (move_segment_queue s) (step_event_queue s) (left_ticks_to_next_step_event s) (ticks_per_sec s) (step_generator_state s) (step_generators_pool s) (max_lookback_time s) (total_print_time s) (total_start_pos s) (total_start_pos_steps s) (waiting_before_delivering_start_time s) (stop_pending s) (step_dl_miss s) (step_ev_miss s) v (stepper s).

Definition set_stepper (v : stepper_t) (s : state) : state :=
  State (move_segment_queue s) (step_event_queue s) (left_ticks_to_next_step_event s) (ticks_per_sec s) (step_generator_state s) (step_generators_pool s) (max_lookback_time s) (total_print_time s) (total_start_pos s) (total_start_pos_steps s) (waiting_before_delivering_start_time s) (stop_pending s) (step_dl_miss s) (step_ev_miss s) (planner s) v.

Definition set_sflags (v : Z) (s : step_generator_state_t) : step_generator_state_t :=
  StepGeneratorState v (previous_step_time s) (buffered_step s) (current_distance s) (left_insert_start_of_move_segment s) (step_event_index s) (step_events s) (next_step_func s) (step_generator s) (initialized s).

Definition set_previous_step_time (v : float) (s : step_generator_state_t) : step_generator_state_t :=
  StepGeneratorState (sflags s) v (buffered_step s) (current_distance s) (left_insert_start_of_move_segment s) (step_event_index s) (step_events s) (next_step_func s) (step_generator s) (initialized s).

Definition set_buffered_step (v : step_event_t) (s : step_generator_state_t) : step_generator_state_t :=
  StepGeneratorState (sflags s) (previous_step_time s) v (current_distance s) (left_insert_start_of_move_segment s) (step_event_index s) (step_events s) (next_step_func s) (step_generator s) (initialized s).

Definition set_current_distance (v : xyze Z) (s : step_generator_state_t) : step_generator_state_t :=
  StepGeneratorState (sflags s) (previous_step_time s) (buffered_step s) v (left_insert_start_of_move_segment s) (step_event_index s) (step_events s) (next_step_func s) (step_generator s) (initialized s).

Definition set_left_insert_start_of_move_segment (v : Z) (s : step_generator_state_t) : step_generator_state_t :=
  StepGeneratorState (sflags s) (previous_step_time s) (buffered_step s) (current_distance s) v (step_event_index s) (step_events s) (next_step_func s) (step_generator s) (initialized s).

Definition set_step_event_index (v : xyze AxisEnum) (s : step_generator_state_t) : step_generator_state_t :=
  StepGeneratorState (sflags s) (previous_step_time s) (buffered_step s) (current_distance s) (left_insert_start_of_move_segment s) v (step_events s) (next_step_func s) (step_generator s) (initialized s).

Definition set_step_events (v : xyze step_event_info_t) (s : step_generator_state_t) : step_generator_state_t :=
  StepGeneratorState (sflags s) (previous_step_time s) (buffered_step s) (current_distance s) (left_insert_start_of_move_segment s) (step_event_index s) v (next_step_func s) (step_generator s) (initialized s).

Definition set_next_step_func (v : xyze (option generator_next_step_f)) (s : step_generator_state_t) : step_generator_state_t :=
  StepGeneratorState (sflags s) (previous_step_time s) (buffered_step s) (current_distance s) (left_insert_start_of_move_segment s) (step_event_index s) (step_events s) v (step_generator s) (initialized s).

Definition set_step_generator (v : xyze (option AxisEnum)) (s : step_generator_state_t) : step_generator_state_t :=
  StepGeneratorState (sflags s) (previous_step_time s) (buffered_step s) (current_distance s) (left_insert_start_of_move_segment s) (step_event_index s) (step_events s) (next_step_func s) v (initialized s).

Definition set_initialized (v : bool) (s : step_generator_state_t) : step_generator_state_t :=
  StepGeneratorState (sflags s) (previous_step_time s) (buffered_step s) (current_distance s) (left_insert_start_of_move_segment s) (step_event_index s) (step_events s) (next_step_func s) (step_generator s) v.

Definition set_current_move (v : option nat) (s : classic_step_generator_t) : classic_step_generator_t :=
  ClassicStepGenerator (axis s) v (reached_end_of_move_queue s) (g_start_v s) (g_accel s) (g_start_pos s) (step_dir s).

Definition set_reached_end_of_move_queue (v : bool) (s : classic_step_generator_t) : classic_step_generator_t :=
  ClassicStepGenerator (axis s) (current_move s) v (g_start_v s) (g_accel s) (g_start_pos s) (step_dir s).

Definition set_reference_cnt (v : Z) (s : move_t) : move_t :=
  Move (move_time s) (start_v s) (half_accel s) (print_time s) (axes_r s) (start_pos s) (mflags s) v.

(** ** Vocabulary of the statements: numbers and rings *)

(** A double that is not below zero: NaN, a zero of either sign, or a
    positive value. *)
Definition SF_nonneg (x : spec_float) : Prop :=
  match x with
  | S754_finite s _ _ | S754_infinity s => s = false
  | _ => True
  end.

(** [z] is the value of [x] truncated toward zero, stated on the mantissa
    and the exponent of [x]. *)
Definition is_truncation_of (x : spec_float) (z : Z) : Prop :=
  match x with
  | S754_zero _ => z = 0
  | S754_finite s m e =>
      exists n, z = cond_Zopp s n /\ 0 <= n /\
        n * 2 ^ Z.max 0 (- e) <= Z.pos m * 2 ^ Z.max 0 e < (n + 1) * 2 ^ Z.max 0 (- e)
  | _ => False
  end.

(** Follows the specification's words, to be compared with
    [generate_next_step_event]: round(x), the integer nearest to [x], a half
    rounding away from zero. *)
Definition round_SF (x : spec_float) : option Z :=
  match x with
  | S754_zero _ => Some 0
  | S754_finite s m e =>
      Some (cond_Zopp s
              (if 0 <=? e then Z.pos m * 2 ^ e
               else (Z.pos m + 2 ^ (- e - 1)) / 2 ^ (- e)))
  | S754_infinity _ | S754_nan => None
  end.

(** Follows the specification's words:
    [time_ticks = round((time - previous_step_time) * ticks_per_sec)]. *)
Definition spec_time_ticks (time previous_step_time ticks_per_sec : float) : option Z :=
  round_SF (Prim2SF ((time - previous_step_time) * ticks_per_sec)%float).

(** The slots of a ring of [n] slots from [tail] up to [head], oldest
    first. *)
Definition ring_contents {A} (n : nat) (data : list A) (head tail : nat) : list A :=
  omap (fun k => data !! ((tail + k) mod n)%nat) (seq 0 ((head + n - tail) mod n)%nat).

(** ** What the sources take from headers that are not among them

    Constants, flag values and small helpers of [precise_stepping.hpp],
    [internal.hpp], [common.hpp], [planner.h] and the board configuration.
    The development is parametric in them. A helper is given the part of
    the state its call names and returns the part it may write: the
    four-argument [calc_time_for_distance] its arguments,
    [step_generator_state_update_nearest_idx] the pending events and their
    order, [step_generator_state_restart] the merger state and the
    generators behind its pointers, [step_generator_state_clear] the merger
    state. The widths of [MoveFlag_t] and [StepEventFlag_t] are not in the
    sources; flags are kept as integers. *)
Class Config := {
  EPSILON : float;
  EPSILON_DISTANCE : float;
  MAX_PRINT_TIME : float;
  MOVE_SEGMENT_QUEUE_SIZE : nat;
  MOVE_SEGMENT_QUEUE_MIN_FREE_SLOTS : Z;
  STEP_EVENT_QUEUE_SIZE : nat;
  MAX_STEP_EVENTS_PRODUCED_PER_ONE_CALL : nat;
  BLOCK_BUFFER_SIZE : Z;
  (* MoveFlag *)
  MOVE_FLAG_ACCELERATION_PHASE : Z;
  MOVE_FLAG_CRUISE_PHASE : Z;
  MOVE_FLAG_DECELERATION_PHASE : Z;
  MOVE_FLAG_FIRST_MOVE_SEGMENT_OF_BLOCK : Z;
  MOVE_FLAG_LAST_MOVE_SEGMENT_OF_BLOCK : Z;
  MOVE_FLAG_BEGINNING_EMPTY_MOVE : Z;
  MOVE_FLAG_ENDING_EMPTY_MOVE : Z;
  MOVE_FLAG_DIR_SHIFT : Z;
  MOVE_FLAG_X_ACTIVE : Z;
  MOVE_FLAG_Y_ACTIVE : Z;
  MOVE_FLAG_Z_ACTIVE : Z;
  MOVE_FLAG_E_ACTIVE : Z;
  (* StepEventFlag *)
  STEP_EVENT_FLAG_STEP_X : Z;
  STEP_EVENT_FLAG_X_DIR : Z;
  STEP_EVENT_FLAG_X_ACTIVE : Z;
  STEP_EVENT_FLAG_BEGINNING_OF_MOVE_SEGMENT : Z;
  STEP_EVENT_END_OF_MOTION : Z;
  STEP_EVENT_FLAG_AXIS_MASK : Z;
  STEP_EVENT_FLAG_AXIS_OTHER_MASK : Z;
  STEP_EVENT_FLAG_DIR_MASK : Z;
  (* Planner *)
  mm_per_step : AxisEnum -> float;
  mm_per_half_step : AxisEnum -> float;
  is_move : block_t -> bool;
  nonbusy_movesplanned : planner_t -> Z;
  has_blocks_queued : state -> bool;
  (* internal.hpp *)
  calc_time_for_distance : float -> float -> float -> bool -> float;
  calc_end_position : xyze float -> xyze float -> float -> xyze float;
  get_move_step_dir : move_t -> AxisEnum -> bool;
  step_generator_state_update_nearest_idx :
    xyze step_event_info_t -> xyze AxisEnum -> xyze AxisEnum;
  step_generator_state_restart :
    step_generator_state_t -> xyze classic_step_generator_t ->
    step_generator_state_t * xyze classic_step_generator_t;
  step_generator_state_clear : step_generator_state_t -> step_generator_state_t
}.

Section Embedding.

Context `{cfg : Config}.

(** ** The two rings *)

(** Modelled from the spec: index arithmetic of the move segment ring
    ([precise_stepping.hpp] is not among the sources). One slot stays unused,
    so that [head = tail] means empty. *)
Definition move_segment_queue_next_index (i : nat) : nat :=
  ((i + 1) mod MOVE_SEGMENT_QUEUE_SIZE)%nat.

(** Modelled from the spec: the number of segments between [tail] and
    [head]. *)
Definition move_segment_queue_size (q : move_segment_queue_t) : nat :=
  ((mq_head q + MOVE_SEGMENT_QUEUE_SIZE - mq_tail q) mod MOVE_SEGMENT_QUEUE_SIZE)%nat.

(** Modelled from the spec: the ring is full when advancing [head] would
    reach [tail]. *)
Definition is_move_segment_queue_full (q : move_segment_queue_t) : bool :=
  Nat.eqb (mq_tail q) (move_segment_queue_next_index (mq_head q)).

(** Modelled from the spec: [free_slots(MoveSegQ)]. *)
Definition move_segment_queue_free_slots (q : move_segment_queue_t) : Z :=
  Z.of_nat MOVE_SEGMENT_QUEUE_SIZE - 1 - Z.of_nat (move_segment_queue_size q).

(** Modelled from the spec: the slot at [head] and the head that follows it,
    [nullptr] when the ring is full. *)
Definition get_next_free_move_segment (q : move_segment_queue_t) : option (nat * nat) :=
  if is_move_segment_queue_full q then None
  else Some (mq_head q, move_segment_queue_next_index (mq_head q)).

(** Modelled from the spec: the segment after [current], [nullptr] when
    [current] is the newest one. *)
Definition move_segment_queue_next_move (q : move_segment_queue_t) (current : nat) : option nat :=
  let next := move_segment_queue_next_index current in
  if Nat.eqb next (mq_head q) then None else Some next.

(** Modelled from the spec: the oldest segment a generator still needs. *)
Definition get_current_unprocessed_move_segment (q : move_segment_queue_t) : option nat :=
  if Nat.eqb (mq_unprocessed_tail q) (mq_head q) then None
  else Some (mq_unprocessed_tail q).

(** Modelled from the spec: move [unprocessed_tail] past the segment it is
    at. *)
Definition discard_current_unprocessed_move_segment (q : move_segment_queue_t) : move_segment_queue_t :=
  if Nat.eqb (mq_unprocessed_tail q) (mq_head q) then q
  else MoveSegmentQueue (mq_data q) (mq_head q) (mq_tail q)
         (move_segment_queue_next_index (mq_unprocessed_tail q)).

(** Modelled from the spec: [move_segment_queue_clear]. *)
Definition move_segment_queue_clear (q : move_segment_queue_t) : move_segment_queue_t :=
  MoveSegmentQueue (mq_data q) 0 0 0.

(** Writing the [head] and the storage of the move segment ring. *)
Definition mq_set_head (h : nat) (q : move_segment_queue_t) : move_segment_queue_t :=
  MoveSegmentQueue (mq_data q) h (mq_tail q) (mq_unprocessed_tail q).

Definition mq_set_data (d : list move_t) (q : move_segment_queue_t) : move_segment_queue_t :=
  MoveSegmentQueue d (mq_head q) (mq_tail q) (mq_unprocessed_tail q).

(** The segments from [tail] up to [head], oldest first. *)
Definition move_segment_queue_contents (q : move_segment_queue_t) : list move_t :=
  omap (fun k => mq_data q !! ((mq_tail q + k) mod MOVE_SEGMENT_QUEUE_SIZE)%nat)
      (seq 0 (move_segment_queue_size q)).

(** Modelled from the spec: index arithmetic of the step event ring. *)
Definition step_event_queue_next_index (i : nat) : nat :=
  ((i + 1) mod STEP_EVENT_QUEUE_SIZE)%nat.

(** Modelled from the spec: the number of step events between [tail] and
    [head]. *)
Definition step_event_queue_size (q : step_event_queue_t) : nat :=
  ((sq_head q + STEP_EVENT_QUEUE_SIZE - sq_tail q) mod STEP_EVENT_QUEUE_SIZE)%nat.

(** Modelled from the spec: [is_step_event_queue_full]. *)
Definition is_step_event_queue_full (q : step_event_queue_t) : bool :=
  Nat.eqb (sq_tail q) (step_event_queue_next_index (sq_head q)).

(** Modelled from the spec: the slot at [head] and the head that follows it,
    [nullptr] when the ring is full. *)
Definition get_next_free_step_event (q : step_event_queue_t) : option (nat * nat) :=
  if is_step_event_queue_full q then None
  else Some (sq_head q, step_event_queue_next_index (sq_head q)).

(** Modelled from the spec: [step_event_queue_clear]. *)
Definition step_event_queue_clear (q : step_event_queue_t) : step_event_queue_t :=
  StepEventQueue (sq_data q) 0 0.

(** The events from [tail] up to [head], oldest first: what the Step-ISR
    will consume. *)
Definition step_event_queue_contents (q : step_event_queue_t) : list step_event_t :=
  omap (fun k => sq_data q !! ((sq_tail q + k) mod STEP_EVENT_QUEUE_SIZE)%nat)
      (seq 0 (step_event_queue_size q)).

(** [*slot = ev; step_event_queue.head = next_head] *)
Definition step_event_queue_write (slot next_head : nat) (ev : step_event_t)
    (q : step_event_queue_t) : step_event_queue_t :=
  StepEventQueue (<[slot := ev]> (sq_data q)) next_head (sq_tail q).

(** ** Block to segment compiler *)

(** [get_oriented_steps_from_block]: the block's step counts as
    [xyze_long_t], each multiplied by the sign of its direction bit. *)
Definition get_oriented_steps_from_block (block : block_t) : xyze Z :=
  let direction :=
    XYZE (if Z.land (direction_bits block) (_BV X_AXIS) =? 0 then 1 else -1)
         (if Z.land (direction_bits block) (_BV Y_AXIS) =? 0 then 1 else -1)
         (if Z.land (direction_bits block) (_BV Z_AXIS) =? 0 then 1 else -1)
         (if Z.land (direction_bits block) (_BV E_AXIS) =? 0 then 1 else -1) in
  xyze_map2 (fun s d => int32 (int32 s * d)) (steps block) direction.

(** [convert_oriented_steps_to_distance] *)
Definition convert_oriented_steps_to_distance (steps : xyze Z) : xyze float :=
  XYZE (Z_to_double (ax_x steps) * mm_per_step X_AXIS)%float
       (Z_to_double (ax_y steps) * mm_per_step Y_AXIS)%float
       (Z_to_double (ax_z steps) * mm_per_step Z_AXIS)%float
       (Z_to_double (ax_e steps) * mm_per_step E_AXIS)%float.

(** [get_active_axis_flags_from_block] *)
Definition get_active_axis_flags_from_block (block : block_t) : Z :=
  Z.lor (Z.lor (Z.lor
    (if 0 <? ax_x (steps block) then MOVE_FLAG_X_ACTIVE else 0)
    (if 0 <? ax_y (steps block) then MOVE_FLAG_Y_ACTIVE else 0))
    (if 0 <? ax_z (steps block) then MOVE_FLAG_Z_ACTIVE else 0))
    (if 0 <? ax_e (steps block) then MOVE_FLAG_E_ACTIVE else 0).

(** [append_move_segment_to_queue]: fill the slot at [head] and advance
    [head]; [false] and no change when the ring is full. *)
Definition append_move_segment_to_queue (move_time start_v half_accel print_time : float)
    (axes_r start_pos : xyze float) (flags : Z) (s : state) : bool * state :=
  let q := move_segment_queue s in
  match get_next_free_move_segment q with
  | Some (m, next_move_segment_queue_head) =>
      let mv := Move move_time start_v half_accel print_time axes_r start_pos flags 0 in
      (true,
       set_move_segment_queue
         (mq_set_head next_move_segment_queue_head (mq_set_data (<[m := mv]> (mq_data q)) q)) s)
  | None => (false, s)
  end.

(** [calc_axes_r_from_block] *)
Definition calc_axes_r_from_block (block : block_t) : xyze float :=
  let millimeters_inv := (1 / millimeters block)%float in
  let r (i : AxisEnum) : float :=
    if xyze_get (steps block) i =? 0 then 0%float
    else
      let a := (Z_to_double (xyze_get (steps block) i) * millimeters_inv * mm_per_step i)%float in
      if Z.land (direction_bits block) (_BV i) =? 0 then a else (a * -1)%float in
  XYZE (r X_AXIS) (r Y_AXIS) (r Z_AXIS) (r E_AXIS).

(** [calc_velocity_after_acceleration] *)
Definition calc_velocity_after_acceleration (start_v accel dist : float) : float :=
  PrimFloat.sqrt (2 * dist * accel + SQR start_v)%float.

(** [calc_distance_required_to_reach_cruise_velocity] *)
Definition calc_distance_required_to_reach_cruise_velocity (start_v cruise_v accel : float) : float :=
  ((SQR cruise_v - SQR start_v) / (2 * accel))%float.

(** [calc_distance_required_to_reach_cruise_velocity_clamped] *)
Definition calc_distance_required_to_reach_cruise_velocity_clamped (start_v cruise_v accel : float) : float :=
  let dist_out := calc_distance_required_to_reach_cruise_velocity start_v cruise_v accel in
  if (dist_out <? EPSILON_DISTANCE)%float then 0%float else dist_out.

(** [calc_distance_in_which_we_start_decelerating] *)
Definition calc_distance_in_which_we_start_decelerating (start_v end_v accel dist : float) : float :=
  ((2 * dist * accel + SQR end_v - SQR start_v) / (4 * accel))%float.

(** [calc_distance_in_which_we_start_decelerating_clamped] *)
Definition calc_distance_in_which_we_start_decelerating_clamped (start_v end_v accel dist : float) : float :=
  let dist_out := calc_distance_in_which_we_start_decelerating start_v end_v accel dist in
  if (dist_out <=? EPSILON_DISTANCE)%float then 0%float
  else if (dist - EPSILON_DISTANCE <? dist_out)%float then dist
  else dist_out.

(** The locals [accel_dist], [decel_dist], [cruise_dist], [cruise_v] of
    [append_move_segments_to_queue] once its lines 196-213 have run. *)
Record trapezoid := Trapezoid {
  accel_dist : float;
  decel_dist : float;
  cruise_dist : float;
  cruise_v : float
}.

(** [append_move_segments_to_queue], lines 196-213: the three distances and
    the cruise velocity of the block. *)
Definition block_trapezoid (block : block_t) : trapezoid :=
  let millimeters := millimeters block in
  let accel := acceleration block in
  let start_v := initial_speed block in
  let end_v := final_speed block in
  let cruise_v := nominal_speed block in
  let accel_dist := calc_distance_required_to_reach_cruise_velocity_clamped start_v cruise_v accel in
  let decel_dist := calc_distance_required_to_reach_cruise_velocity_clamped end_v cruise_v accel in
  let cruise_dist := (millimeters - accel_dist - decel_dist)%float in
  if (cruise_dist <? EPSILON_DISTANCE)%float then
    let accel_dist := calc_distance_in_which_we_start_decelerating_clamped start_v end_v accel millimeters in
    let decel_dist := fmax (millimeters - accel_dist)%float 0%float in
    let cruise_dist := 0%float in
    let cruise_v := calc_velocity_after_acceleration start_v accel accel_dist in
    Trapezoid accel_dist decel_dist cruise_dist cruise_v
  else Trapezoid accel_dist decel_dist cruise_dist cruise_v.

(** [(accel_dist != 0.) + (decel_dist != 0.) + (cruise_dist != 0.)] *)
Definition move_blocks_required (t : trapezoid) : Z :=
  Z.b2z (fneq (accel_dist t) 0) + Z.b2z (fneq (decel_dist t) 0) + Z.b2z (fneq (cruise_dist t) 0).

(** Modelled from the spec: [reset_reached_end_of_move_queue_flag], which
    clears every generator's end-of-queue indicator. *)
Definition reset_reached_end_of_move_queue_flag (s : state) : state :=
  set_step_generators_pool
    (xyze_map (set_reached_end_of_move_queue false) (step_generators_pool s)) s.

(** [uint16_t(block.direction_bits & 0x0F) << MOVE_FLAG_DIR_SHIFT] *)
Definition block_dir_flags (block : block_t) : Z :=
  Z.shiftl (Z.land (direction_bits block) 15) MOVE_FLAG_DIR_SHIFT.


(** [append_move_segments_to_queue] *)
Definition append_move_segments_to_queue (block : block_t) (s : state) : bool * state :=
  let print_time := total_print_time s in
  let start_pos := total_start_pos s in
  let accel := acceleration block in
  let start_v := initial_speed block in
  let end_v := final_speed block in
  let t := block_trapezoid block in
  if move_segment_queue_free_slots (move_segment_queue s)
       <? move_blocks_required t + MOVE_SEGMENT_QUEUE_MIN_FREE_SLOTS
  then (false, s)
  else
    let active_axis := get_active_axis_flags_from_block block in
    let axes_r := calc_axes_r_from_block block in
    let half_accel := (0.5 * accel)%float in
    let '(s, print_time, start_pos) :=
      if fneq (accel_dist t) 0 then
        let accel_t := ((cruise_v t - start_v) / accel)%float in
        let flags :=
          Z.lor (Z.lor (Z.lor (Z.lor MOVE_FLAG_ACCELERATION_PHASE
            MOVE_FLAG_FIRST_MOVE_SEGMENT_OF_BLOCK)
            (if fneq (cruise_dist t) 0 || fneq (decel_dist t) 0 then 0
             else MOVE_FLAG_LAST_MOVE_SEGMENT_OF_BLOCK))
            (block_dir_flags block))
            active_axis in
        let s := snd (append_move_segment_to_queue accel_t start_v half_accel print_time
                        axes_r start_pos flags s) in
        (s, (print_time + accel_t)%float, calc_end_position start_pos axes_r (accel_dist t))
      else (s, print_time, start_pos) in
    let '(s, print_time, start_pos) :=
      if fneq (cruise_dist t) 0 then
        let cruise_t := (cruise_dist t / cruise_v t)%float in
        let flags :=
          Z.lor (Z.lor (Z.lor (Z.lor MOVE_FLAG_CRUISE_PHASE
            (if fneq (accel_dist t) 0 then 0 else MOVE_FLAG_FIRST_MOVE_SEGMENT_OF_BLOCK))
            (if fneq (decel_dist t) 0 then 0 else MOVE_FLAG_LAST_MOVE_SEGMENT_OF_BLOCK))
            (block_dir_flags block))
            active_axis in
        let s := snd (append_move_segment_to_queue cruise_t (cruise_v t) 0 print_time
                        axes_r start_pos flags s) in
        (s, (print_time + cruise_t)%float, calc_end_position start_pos axes_r (cruise_dist t))
      else (s, print_time, start_pos) in
    let '(s, print_time) :=
      if fneq (decel_dist t) 0 then
        let decel_t := ((cruise_v t - end_v) / accel)%float in
        let flags :=
          Z.lor (Z.lor (Z.lor (Z.lor MOVE_FLAG_DECELERATION_PHASE
            MOVE_FLAG_LAST_MOVE_SEGMENT_OF_BLOCK)
            (if fneq (accel_dist t) 0 || fneq (cruise_dist t) 0 then 0
             else MOVE_FLAG_FIRST_MOVE_SEGMENT_OF_BLOCK))
            (block_dir_flags block))
            active_axis in
        let s := snd (append_move_segment_to_queue decel_t (cruise_v t) (- half_accel) print_time
                        axes_r start_pos flags s) in
        (s, (print_time + decel_t)%float)
      else (s, print_time) in
    let steps :=
      xyze_map2 (fun a b => int32 (a + b)) (total_start_pos_steps s)
                (get_oriented_steps_from_block block) in
    let s := set_total_start_pos_steps steps s in
    let s := set_total_start_pos (convert_oriented_steps_to_distance steps) s in
    let s := set_total_print_time print_time s in
    (true, reset_reached_end_of_move_queue_flag s).


(** ** Classic step generator (build without COREXY) *)

(** [get_move_axis_r] *)
Definition get_move_axis_r (move : move_t) (axis : AxisEnum) : float :=
  float32 (xyze_get (axes_r move) axis).

(** [classic_step_generator_update], given the segment [current_move] points
    at. *)
Definition classic_step_generator_update (current : move_t) (g : classic_step_generator_t)
    : classic_step_generator_t :=
  let axis_r := get_move_axis_r current (axis g) in
  let '(sv, acc) :=
    if (axis_r =? 0)%float then (0%float, 0%float)
    else (float32 (float32 (start_v current) * axis_r)%float,
          float32 (float32 (2 * float32 (half_accel current)) * axis_r)%float) in
  ClassicStepGenerator (axis g) (current_move g) (reached_end_of_move_queue g)
    sv acc
    (float32 (xyze_get (start_pos current) (axis g)))
    (get_move_step_dir current (axis g)).

(** [move.reference_cnt += d] on the segment in slot [i]. The width of the
    field is not in the sources; the count is kept as an integer. *)
Definition add_reference_cnt (d : Z) (i : nat) (q : move_segment_queue_t) : move_segment_queue_t :=
  mq_set_data (alter (fun m => set_reference_cnt (reference_cnt m + d) m) i (mq_data q)) q.

(** [PreciseStepping::move_segment_processed_handler] *)
Definition move_segment_processed_handler (s : state) : state :=
  let q := move_segment_queue s in
  match get_current_unprocessed_move_segment q with
  | Some move =>
      match mq_data q !! move with
      | Some m =>
          if reference_cnt m =? 0 then
            let s := set_move_segment_queue (discard_current_unprocessed_move_segment q) s in
            let sgs := step_generator_state s in
            set_step_generator_state
              (set_left_insert_start_of_move_segment
                 (left_insert_start_of_move_segment sgs + 1) sgs) s
          else s
      | None => s
      end
  | None => s
  end.

(** [classic_step_generator_next_step_event] for the pool's generator [a].
    One unfolding of [fuel] per pass of the do-while loop. *)
Fixpoint classic_step_generator_next_step_event_loop (fuel : nat) (a : AxisEnum)
    (flush_time : float) (s : state) : option (step_event_info_t * state) :=
  match fuel with
  | O => None
  | S fuel =>
      let g := xyze_get (step_generators_pool s) a in
      let sgs := step_generator_state s in
      let q := move_segment_queue s in
      cur ← current_move g;
      move ← mq_data q !! cur;
      let half_step_dist := mm_per_half_step (axis g) in
      let current_distance_mm :=
        float32 (float32 (Z_to_double (xyze_get (current_distance sgs) (axis g)))
                 * mm_per_step (axis g))%float in
      let next_target :=
        float32 (current_distance_mm
                 + (if step_dir g then half_step_dist else - half_step_dist))%float in
      let next_distance := float32 (next_target - g_start_pos g)%float in
      (* calc_time_for_distance(step_generator, next_distance), lines 266-267 *)
      let step_time :=
        calc_time_for_distance (g_start_v g) (g_accel g) next_distance (step_dir g) in
      let step_time_d := step_time in
      let elapsed_time := (step_time_d + print_time move)%float in
      if isnan step_time || (move_time move + EPSILON <? step_time_d)%float then
        match move_segment_queue_next_move q cur with
        | Some next_move =>
            let q := add_reference_cnt (-1) cur q in
            let g := set_current_move (Some next_move) g in
            let q := add_reference_cnt 1 next_move q in
            current ← mq_data q !! next_move;
            let g := classic_step_generator_update current g in
            let current_axis_dir_flag := Z.shiftl STEP_EVENT_FLAG_X_DIR (axis_index (axis g)) in
            let fl := Z.land (sflags sgs) (Z.lnot current_axis_dir_flag) in
            let fl := Z.lor fl (if step_dir g then 0 else current_axis_dir_flag) in
            let current_axis_active_flag := Z.shiftl STEP_EVENT_FLAG_X_ACTIVE (axis_index (axis g)) in
            let fl := Z.land fl (Z.lnot current_axis_active_flag) in
            let fl := Z.lor fl (Z.land (mflags current) current_axis_active_flag) in
            let s := set_move_segment_queue q s in
            let s := set_step_generators_pool (xyze_set (step_generators_pool s) a g) s in
            let s := set_step_generator_state (set_sflags fl sgs) s in
            let s := move_segment_processed_handler s in
            classic_step_generator_next_step_event_loop fuel a flush_time s
        | None =>
            let g := set_reached_end_of_move_queue true g in
            Some (StepEventInfo DBL_MAX 0,
                  set_step_generators_pool (xyze_set (step_generators_pool s) a g) s)
        end
      else if (flush_time <? elapsed_time)%float then
        let g := set_reached_end_of_move_queue true g in
        Some (StepEventInfo DBL_MAX 0,
              set_step_generators_pool (xyze_set (step_generators_pool s) a g) s)
      else
        let fl := Z.lor (Z.shiftl STEP_EVENT_FLAG_STEP_X (axis_index (axis g))) (sflags sgs) in
        let cd := xyze_get (current_distance sgs) (axis g) in
        let cd := int32 (cd + (if step_dir g then 1 else -1)) in
        Some (StepEventInfo elapsed_time fl,
              set_step_generator_state
                (set_current_distance (xyze_set (current_distance sgs) (axis g) cd) sgs) s)
  end.

(** [classic_step_generator_next_step_event]: the loop moves along the ring
    from [current_move] and stops before [head], so it runs at most
    [MOVE_SEGMENT_QUEUE_SIZE] times. *)
Definition classic_step_generator_next_step_event (a : AxisEnum) (flush_time : float)
    (s : state) : option (step_event_info_t * state) :=
  classic_step_generator_next_step_event_loop MOVE_SEGMENT_QUEUE_SIZE a flush_time s.

(** [classic_step_generator_init] for the segment in slot [move] and the
    pool's generator [a]. *)
Definition classic_step_generator_init (move : nat) (a : AxisEnum) (s : state) : option state :=
  let g := xyze_get (step_generators_pool s) a in
  let sgs := step_generator_state s in
  let q := move_segment_queue s in
  let axis := axis g in
  m ← mq_data q !! move;
  let g := set_current_move (Some move) g in
  let sg := xyze_set (step_generator sgs) axis (Some a) in
  let nf := xyze_set (next_step_func sgs) axis (Some classic_next_step_f) in
  let fl := Z.lor (sflags sgs)
              (Z.land (mflags m) (Z.shiftl STEP_EVENT_FLAG_X_DIR (axis_index axis))) in
  let fl := Z.lor fl
              (Z.land (mflags m) (Z.shiftl STEP_EVENT_FLAG_X_ACTIVE (axis_index axis))) in
  let q := add_reference_cnt 1 move q in
  let g := classic_step_generator_update m g in
  let s := set_move_segment_queue q s in
  let s := set_step_generators_pool (xyze_set (step_generators_pool s) a g) s in
  Some (set_step_generator_state
          (set_step_generator sg (set_next_step_func nf (set_sflags fl sgs))) s).

(** [step_generator_next_step_event]: the call through
    [next_step_func[axis]] on the generator [step_generator[axis]] points
    at. *)
Definition step_generator_next_step_event (axis : AxisEnum) (flush_time : float) (s : state)
    : option (step_event_info_t * state) :=
  match xyze_get (next_step_func (step_generator_state s)) axis with
  | Some classic_next_step_f =>
      g ← xyze_get (step_generator (step_generator_state s)) axis;
      classic_step_generator_next_step_event g flush_time s
  | None => None
  end.


(** ** Multi-axis merger *)

(** [generate_next_step_event]. [step_event] is the caller's out-parameter;
    the result is [(done, step_event, state)]. Asserts are compiled out. *)
Definition generate_next_step_event (step_event : step_event_t) (flush_time : float) (s : state)
    : option (bool * step_event_t * state) :=
  let step_state := step_generator_state s in
  let old_nearest_step_event_idx := ax_x (step_event_index step_state) in
  let old_nearest_step_event :=
    time (xyze_get (step_events step_state) old_nearest_step_event_idx) in
  '(step_event, s) ←
    (if fneq old_nearest_step_event 0 && fneq old_nearest_step_event DBL_MAX then
       let step_time_absolute := old_nearest_step_event in
       let step_time_relative := (step_time_absolute - previous_step_time step_state)%float in
       let step_time_relative :=
         if (step_time_relative <? 0)%float then 0%float else step_time_relative in
       ticks ← double_to_int32 (step_time_relative * ticks_per_sec s)%float;
       let fl := iflags (xyze_get (step_events step_state) old_nearest_step_event_idx) in
       let '(fl, left_insert) :=
         if left_insert_start_of_move_segment step_state =? 0
         then (fl, left_insert_start_of_move_segment step_state)
         else (Z.lor fl STEP_EVENT_FLAG_BEGINNING_OF_MOVE_SEGMENT,
               left_insert_start_of_move_segment step_state - 1) in
       Some (StepEvent ticks fl,
             set_step_generator_state
               (set_previous_step_time step_time_absolute
                  (set_left_insert_start_of_move_segment left_insert step_state)) s)
     else Some (StepEvent (time_ticks step_event) 0, s));
  '(new_nearest_step_event, s) ←
    step_generator_next_step_event old_nearest_step_event_idx flush_time s;
  let step_state := step_generator_state s in
  let evs := xyze_set (step_events step_state) old_nearest_step_event_idx new_nearest_step_event in
  let idx := step_generator_state_update_nearest_idx evs (step_event_index step_state) in
  let s := set_step_generator_state
             (set_step_event_index idx (set_step_events evs step_state)) s in
  Some ((time (xyze_get evs (ax_x idx)) =? DBL_MAX)%float, step_event, s).

(** ** Move-ISR producer *)

(** [append_move_discarding_step_event] *)
Definition append_move_discarding_step_event (extra_step_flags : Z) (s : state) : bool * state :=
  let step_state := step_generator_state s in
  match get_next_free_step_event (step_event_queue s) with
  | Some (slot, next_step_event_queue_head) =>
      let ev := StepEvent 0
                  (Z.lor (Z.lor (sflags step_state) STEP_EVENT_FLAG_BEGINNING_OF_MOVE_SEGMENT)
                         extra_step_flags) in
      let s := set_step_event_queue
                 (step_event_queue_write slot next_step_event_queue_head ev (step_event_queue s)) s in
      (true, set_step_generator_state (set_previous_step_time 0%float step_state) s)
  | None => (false, s)
  end.

(** Modelled from the spec: [is_ending_empty_move], the segment carries the
    EndingEmpty flag. *)
Definition is_ending_empty_move (m : move_t) : bool :=
  negb (Z.land (mflags m) MOVE_FLAG_ENDING_EMPTY_MOVE =? 0).

(** [step_generator->reached_end_of_move_queue = false] through the pointer
    in slot [i] of [step_generator_state.step_generator]. *)
Definition step_generator_reset_reached_end (i : AxisEnum) (s : state) : option state :=
  g ← xyze_get (step_generator (step_generator_state s)) i;
  let pool := step_generators_pool s in
  Some (set_step_generators_pool
          (xyze_set pool g (set_reached_end_of_move_queue false (xyze_get pool g))) s).

(** [PreciseStepping::step_generator_state_init] for the segment in slot
    [move]; the fatal error has no result. *)
Definition step_generator_state_init (move : nat) (s : state) : option state :=
  m ← mq_data (move_segment_queue s) !! move;
  if (move_time m <? max_lookback_time s)%float then None
  else
    let sgs := step_generator_state s in
    let sgs := set_sflags 0 sgs in
    let sgs := set_previous_step_time 0%float sgs in
    let sgs := set_buffered_step (StepEvent (time_ticks (buffered_step sgs)) 0) sgs in
    let sgs := set_current_distance (xyze_all 0) sgs in
    let sgs := set_left_insert_start_of_move_segment 0 sgs in
    let sgs := set_step_event_index (XYZE X_AXIS Y_AXIS Z_AXIS E_AXIS) sgs in
    let sgs := set_step_events (xyze_all (StepEventInfo 0%float 0)) sgs in
    let s := set_step_generator_state sgs s in
    s ← step_generator_reset_reached_end X_AXIS s;
    s ← step_generator_reset_reached_end Y_AXIS s;
    s ← step_generator_reset_reached_end Z_AXIS s;
    s ← step_generator_reset_reached_end E_AXIS s;
    s ← classic_step_generator_init move X_AXIS s;
    s ← classic_step_generator_init move Y_AXIS s;
    s ← classic_step_generator_init move Z_AXIS s;
    s ← classic_step_generator_init move E_AXIS s;
    Some (set_step_generator_state (set_initialized true (step_generator_state s)) s).

(** [process_one_move_segment_from_queue], lines 914-945: accumulate the new
    step event into the buffered step, or flush the buffered step into the
    slot [next_step_event] and replace it. *)
Definition buffer_step_event (next_step_event : option (nat * nat))
    (new_step_event : step_event_t) (s : state) : option state :=
  let sgs := step_generator_state s in
  if flags new_step_event =? 0 then Some s
  else if flags (buffered_step sgs) =? 0 then
    Some (set_step_generator_state (set_buffered_step new_step_event sgs) s)
  else if (time_ticks new_step_event =? 0)
       && (Z.land (Z.land (flags (buffered_step sgs)) (flags new_step_event))
                  (Z.lor STEP_EVENT_FLAG_AXIS_MASK STEP_EVENT_FLAG_AXIS_OTHER_MASK) =? 0)
       && (Z.land (Z.lxor (flags (buffered_step sgs)) (flags new_step_event))
                  STEP_EVENT_FLAG_DIR_MASK =? 0)
  then
    let merged := StepEvent (time_ticks (buffered_step sgs))
                    (Z.lor (flags (buffered_step sgs)) (flags new_step_event)) in
    Some (set_step_generator_state (set_buffered_step merged sgs) s)
  else
    '(slot, next_step_event_queue_head) ← next_step_event;
    let s := set_step_event_queue
               (step_event_queue_write slot next_step_event_queue_head (buffered_step sgs)
                  (step_event_queue s)) s in
    Some (set_step_generator_state (set_buffered_step new_step_event sgs) s).

(** How the for loop of [process_one_move_segment_from_queue] ends: by the
    early return, or with a value of [produced_step_events_cnt]. *)
Inductive produce_result :=
| ReturnFullStepEventQueue
| LoopExit (produced_step_events_cnt : nat).

(** The for loop of [process_one_move_segment_from_queue]; [n] passes are
    left before [produced_step_events_cnt] reaches
    MAX_STEP_EVENTS_PRODUCED_PER_ONE_CALL. *)
Fixpoint produce_step_events (n : nat) (flush_time : float) (s : state)
    : option (produce_result * state) :=
  match n with
  | O => Some (LoopExit MAX_STEP_EVENTS_PRODUCED_PER_ONE_CALL, s)
  | S n =>
      let next_step_event := get_next_free_step_event (step_event_queue s) in
      if negb (flags (buffered_step (step_generator_state s)) =? 0)
         && negb (bool_decide (is_Some next_step_event))
      then Some (ReturnFullStepEventQueue, s)
      else
        '(done, new_step_event, s) ← generate_next_step_event (StepEvent 0 0) flush_time s;
        s ← buffer_step_event next_step_event new_step_event s;
        if (done : bool) then Some (LoopExit 0, s)
        else produce_step_events n flush_time s
  end.


(** The while loop of [process_one_move_segment_from_queue] that places
    discarding step events; it runs at most
    [left_insert_start_of_move_segment] times, [fuel] counts them. *)
Fixpoint append_pending_discarding_step_events (fuel : nat) (s : state) : state :=
  match fuel with
  | O => s
  | S fuel =>
      if 0 <? left_insert_start_of_move_segment (step_generator_state s) then
        match append_move_discarding_step_event 0 s with
        | (true, s) =>
            let sgs := step_generator_state s in
            append_pending_discarding_step_events fuel
              (set_step_generator_state
                 (set_left_insert_start_of_move_segment
                    (left_insert_start_of_move_segment sgs - 1) sgs) s)
        | (false, s) => s
        end
      else s
  end.

(** [process_one_move_segment_from_queue], lines 957-994: what is done when
    no step event was produced. *)
Definition finish_ending_move (s : state) : option (StepGeneratorStatus * state) :=
  match get_current_unprocessed_move_segment (move_segment_queue s) with
  | None => Some (STEP_GENERATOR_STATUS_NO_STEP_EVENT_PRODUCED, s)
  | Some unprocessed_move =>
      m ← mq_data (move_segment_queue s) !! unprocessed_move;
      if is_ending_empty_move m then
        let sgs := step_generator_state s in
        let flushed :=
          if flags (buffered_step sgs) =? 0 then Some s
          else
            match get_next_free_step_event (step_event_queue s) with
            | None => None
            | Some (slot, next_step_event_queue_head) =>
                let s := set_step_event_queue
                           (step_event_queue_write slot next_step_event_queue_head
                              (buffered_step sgs) (step_event_queue s)) s in
                Some (set_step_generator_state
                        (set_buffered_step (StepEvent (time_ticks (buffered_step sgs)) 0) sgs) s)
            end in
        match flushed with
        | None => Some (STEP_GENERATOR_STATUS_FULL_STEP_EVENT_QUEUE, s)
        | Some s =>
            let s := append_pending_discarding_step_events
                       (Z.to_nat (left_insert_start_of_move_segment (step_generator_state s))) s in
            let s :=
              if left_insert_start_of_move_segment (step_generator_state s) =? 0 then
                if is_step_event_queue_full (step_event_queue s) then s
                else
                  let s := set_move_segment_queue
                             (discard_current_unprocessed_move_segment (move_segment_queue s)) s in
                  snd (append_move_discarding_step_event STEP_EVENT_END_OF_MOTION s)
              else s in
            Some (STEP_GENERATOR_STATUS_NO_STEP_EVENT_PRODUCED, s)
        end
      else Some (STEP_GENERATOR_STATUS_NO_STEP_EVENT_PRODUCED, s)
  end.

(** [PreciseStepping::process_one_move_segment_from_queue] *)
Definition process_one_move_segment_from_queue (s : state) : option (StepGeneratorStatus * state) :=
  '(r, s) ←
    match get_current_unprocessed_move_segment (move_segment_queue s) with
    | Some move =>
        s ← (if initialized (step_generator_state s) then Some s
              else step_generator_state_init move s);
        let flush_time := (total_print_time s - max_lookback_time s)%float in
        let '(sgs, pool) :=
          step_generator_state_restart (step_generator_state s) (step_generators_pool s) in
        let s := set_step_generators_pool pool (set_step_generator_state sgs s) in
        produce_step_events MAX_STEP_EVENTS_PRODUCED_PER_ONE_CALL flush_time s
    | None => Some (LoopExit 0, s)
    end;
  match r with
  | ReturnFullStepEventQueue => Some (STEP_GENERATOR_STATUS_FULL_STEP_EVENT_QUEUE, s)
  | LoopExit O => finish_ending_move s
  | LoopExit (S _) => Some (STEP_GENERATOR_STATUS_OK, s)
  end.

(** ** Halt, reset, and block intake *)

(** [PreciseStepping::reset_from_halt] *)
Definition reset_from_halt (s : state) : state :=
  let s := set_step_generator_state (step_generator_state_clear (step_generator_state s)) s in
  let s := set_total_print_time 0%float s in
  let s := set_total_start_pos (XYZE 0 0 0 0)%float s in
  set_total_start_pos_steps (XYZE 0 0 0 0) s.

(** Modelled from the spec: [Planner::clear_block_buffer], which empties the
    block queue. *)
Definition clear_block_buffer (p : planner_t) : planner_t :=
  Planner [] 0 (delay_before_delivering p).

(** [PreciseStepping::reset_queues]. Suspending the stepper and masking the
    move interrupt only fence the body off from the two ISRs. *)
Definition reset_queues (s : state) : state :=
  let s := set_step_event_queue (step_event_queue_clear (step_event_queue s)) s in
  let s := set_move_segment_queue (move_segment_queue_clear (move_segment_queue s)) s in
  let s := reset_from_halt s in
  let s := set_planner (clear_block_buffer (planner s)) s in
  let s := set_step_dl_miss 0 s in
  let s := set_step_ev_miss 0 s in
  let s := set_left_ticks_to_next_step_event 0 s in
  let s := set_stepper (Stepper (count_position (stepper s)) 0) s in
  set_stop_pending false s.

(** [PreciseStepping::loop], without the deadline and event debugging. *)
Definition loop (s : state) : state :=
  if stop_pending s then reset_queues s else s.


(** [append_beginning_empty_move] *)
Definition append_beginning_empty_move (s : state) : option nat * state :=
  let q := move_segment_queue s in
  match get_next_free_move_segment q with
  | Some (move, next_move_segment_queue_head) =>
      let m := Move (max_lookback_time s + 0.001)%float 0%float 0%float 0%float
                 (XYZE 0 0 0 0)%float (total_start_pos s) MOVE_FLAG_BEGINNING_EMPTY_MOVE 0 in
      let s := set_move_segment_queue
                 (mq_set_head next_move_segment_queue_head
                    (mq_set_data (<[move := m]> (mq_data q)) q)) s in
      let s := set_total_print_time (print_time m + move_time m)%float s in
      (Some move, reset_reached_end_of_move_queue_flag s)
  | None => (None, s)
  end.

(** [append_block_discarding_move] *)
Definition append_block_discarding_move (s : state) : option nat * state :=
  let q := move_segment_queue s in
  match get_next_free_move_segment q with
  | Some (move, next_move_segment_queue_head) =>
      let m := Move 0%float 0%float 0%float (total_print_time s)
                 (XYZE 0 0 0 0)%float (total_start_pos s)
                 (Z.lor MOVE_FLAG_FIRST_MOVE_SEGMENT_OF_BLOCK MOVE_FLAG_LAST_MOVE_SEGMENT_OF_BLOCK) 0 in
      (Some move,
       set_move_segment_queue
         (mq_set_head next_move_segment_queue_head
            (mq_set_data (<[move := m]> (mq_data q)) q)) s)
  | None => (None, s)
  end.

(** [append_ending_empty_move] *)
Definition append_ending_empty_move (s : state) : option nat * state :=
  let q := move_segment_queue s in
  match get_next_free_move_segment q with
  | Some (move, next_move_segment_queue_head) =>
      let m := Move MAX_PRINT_TIME 0%float 0%float (total_print_time s)
                 (XYZE 0 0 0 0)%float (total_start_pos s) MOVE_FLAG_ENDING_EMPTY_MOVE 0 in
      let s := set_move_segment_queue
                 (mq_set_head next_move_segment_queue_head
                    (mq_set_data (<[move := m]> (mq_data q)) q)) s in
      let s := set_total_print_time (print_time m + move_time m)%float s in
      (Some move, reset_reached_end_of_move_queue_flag s)
  | None => (None, s)
  end.

(** Modelled from the spec: [Planner::get_current_unprocessed_block], the
    oldest block not yet cut into move segments, [nullptr] when there is
    none. *)
Definition get_current_unprocessed_block (p : planner_t) : option block_t :=
  block_buffer p !! processed p.

(** Modelled from the spec: [Planner::discard_current_unprocessed_block],
    which counts the current unprocessed block among the processed ones. *)
Definition discard_current_unprocessed_block (p : planner_t) : planner_t :=
  if bool_decide (processed p < length (block_buffer p))%nat
  then Planner (block_buffer p) (S (processed p)) (delay_before_delivering p)
  else p.

(** Modelled from the spec: [Planner::discard_current_block], which frees
    the oldest block. *)
Definition discard_current_block (p : planner_t) : planner_t :=
  Planner (tail (block_buffer p)) (Nat.pred (processed p)) (delay_before_delivering p).

(** Modelled from the spec: [Planner::movesplanned_processed], the number
    of blocks that are processed and not yet freed. *)
Definition movesplanned_processed (p : planner_t) : Z := Z.of_nat (processed p).

(** Modelled from the spec: every generator reported the end of the visible
    move queue. *)
Definition has_all_generators_reached_end_of_move_queue (s : state) : bool :=
  forallb (fun a => reached_end_of_move_queue (xyze_get (step_generators_pool s) a)) all_axes.

(** Modelled from the spec: [Stepper::_set_position], which loads a position
    into the step counters of the stepper. *)
Definition _set_position (pos : xyze Z) (st : stepper_t) : stepper_t :=
  Stepper pos (axis_did_move st).

(** [PreciseStepping::is_waiting_before_delivering]; [now] is what
    [ticks_ms()] reads. *)
Definition is_waiting_before_delivering (now : Z) (s : state) : bool * state :=
  let p := planner s in
  let gate :=
    if delay_before_delivering p =? 0 then (false, s)
    else if waiting_before_delivering_start_time s =? 0 then
      (true, set_waiting_before_delivering_start_time now s)
    else if (3 <=? nonbusy_movesplanned p)
         || (delay_before_delivering p
               <=? (now - waiting_before_delivering_start_time s) mod 2 ^ 32)
    then (false,
          set_waiting_before_delivering_start_time 0
            (set_planner (Planner (block_buffer p) (processed p) 0) s))
    else (true, s) in
  match gate with
  | (true, s) => (true, s)
  | (false, s) =>
      if BLOCK_BUFFER_SIZE / 2 <=? movesplanned_processed (planner s) then
        if has_all_generators_reached_end_of_move_queue s then (false, s) else (true, s)
      else (false, s)
  end.

(** How the block-fetching loop of [process_queue_of_blocks] ends: by a
    [return], or with [current_block]. *)
Inductive fetch_result :=
| FetchReturn
| FetchBlock (current_block : option block_t).

(** The while loop of [process_queue_of_blocks]; each pass but the last
    consumes one block of the planner, [fuel] counts the passes. *)
Fixpoint fetch_next_block (fuel : nat) (s : state) : fetch_result * state :=
  match get_current_unprocessed_block (planner s) with
  | None => (FetchBlock None, s)
  | Some current_block =>
      if is_move current_block then (FetchBlock (Some current_block), s)
      else
        match fuel with
        | O => (FetchReturn, s)
        | S fuel =>
            if (total_print_time s =? 0)%float then
              let s := set_stepper (_set_position (position current_block) (stepper s)) s in
              let s := set_planner (discard_current_unprocessed_block (planner s)) s in
              let s := set_planner (discard_current_block (planner s)) s in
              fetch_next_block fuel s
            else
              match append_block_discarding_move s with
              | (None, s) => (FetchReturn, s)
              | (Some _, s) =>
                  let s := set_planner (discard_current_unprocessed_block (planner s)) s in
                  fetch_next_block fuel s
              end
        end
  end.

(** [PreciseStepping::process_queue_of_blocks]; [now] is what [ticks_ms()]
    reads. *)
Definition process_queue_of_blocks (now : Z) (s : state) : state :=
  match is_waiting_before_delivering now s with
  | (true, s) => s
  | (false, s) =>
      let halted :=
        if (MAX_PRINT_TIME <=? total_print_time s)%float then
          if has_blocks_queued s then None else Some (reset_from_halt s)
        else Some s in
      match halted with
      | None => s
      | Some s =>
          match fetch_next_block (length (block_buffer (planner s))) s with
          | (FetchReturn, s) => s
          | (FetchBlock None, s) =>
              if fneq (total_print_time s) 0 && has_all_generators_reached_end_of_move_queue s
              then snd (append_ending_empty_move s)
              else s
          | (FetchBlock (Some current_block), s) =>
              let started :=
                if (total_print_time s =? 0)%float then
                  match append_beginning_empty_move s with
                  | (None, _) => None
                  | (Some _, s) => Some s
                  end
                else Some s in
              match started with
              | None => s
              | Some s =>
                  match append_move_segments_to_queue current_block s with
                  | (true, s) => set_planner (discard_current_unprocessed_block (planner s)) s
                  | (false, s) => s
                  end
              end
          end
      end
  end.

(** ** Vocabulary of the statements *)

(** The move segment ring is laid out as the code expects: a [data] array of
    MOVE_SEGMENT_QUEUE_SIZE slots and cursors inside it. *)
Definition move_segment_queue_wf (q : move_segment_queue_t) : Prop :=
  length (mq_data q) = MOVE_SEGMENT_QUEUE_SIZE
  /\ (mq_head q < MOVE_SEGMENT_QUEUE_SIZE)%nat
  /\ (mq_tail q < MOVE_SEGMENT_QUEUE_SIZE)%nat.

(** Likewise for the step event ring. *)
Definition step_event_queue_wf (q : step_event_queue_t) : Prop :=
  length (sq_data q) = STEP_EVENT_QUEUE_SIZE
  /\ (sq_head q < STEP_EVENT_QUEUE_SIZE)%nat
  /\ (sq_tail q < STEP_EVENT_QUEUE_SIZE)%nat.

(** [m.flags & f] is non-zero. *)
Definition has_move_flag (f : Z) (m : move_t) : bool :=
  negb (Z.land (mflags m) f =? 0).

(** The values a move segment's flags are assembled from, besides
    FirstSegOfBlock and LastSegOfBlock. *)
Definition move_flag_others : list Z :=
  [MOVE_FLAG_ACCELERATION_PHASE; MOVE_FLAG_CRUISE_PHASE; MOVE_FLAG_DECELERATION_PHASE;
   Z.shiftl 15 MOVE_FLAG_DIR_SHIFT;
   MOVE_FLAG_X_ACTIVE; MOVE_FLAG_Y_ACTIVE; MOVE_FLAG_Z_ACTIVE; MOVE_FLAG_E_ACTIVE].

(** The MoveFlag values are flags: the phase, first and last values are not
    zero, and the first and last values share no bit with each other or with
    the other values. *)
Record move_flags_wf : Prop := {
  accel_phase_nz : MOVE_FLAG_ACCELERATION_PHASE <> 0;
  cruise_phase_nz : MOVE_FLAG_CRUISE_PHASE <> 0;
  decel_phase_nz : MOVE_FLAG_DECELERATION_PHASE <> 0;
  first_nz : MOVE_FLAG_FIRST_MOVE_SEGMENT_OF_BLOCK <> 0;
  last_nz : MOVE_FLAG_LAST_MOVE_SEGMENT_OF_BLOCK <> 0;
  first_last :
    Z.land MOVE_FLAG_LAST_MOVE_SEGMENT_OF_BLOCK MOVE_FLAG_FIRST_MOVE_SEGMENT_OF_BLOCK = 0;
  first_others :
    Forall (fun m => Z.land m MOVE_FLAG_FIRST_MOVE_SEGMENT_OF_BLOCK = 0) move_flag_others;
  last_others :
    Forall (fun m => Z.land m MOVE_FLAG_LAST_MOVE_SEGMENT_OF_BLOCK = 0) move_flag_others
}.

(** How many of the segments carry the flag [f]. *)
Definition count_move_flag (f : Z) (segs : list move_t) : nat :=
  length (List.filter (has_move_flag f) segs).

(** Segments in the order accel, cruise, decel, each phase at most once. *)
Definition phases_in_order (segs : list move_t) : Prop :=
  exists a c d : list move_t,
    segs = a ++ c ++ d
    /\ (length a <= 1)%nat /\ (length c <= 1)%nat /\ (length d <= 1)%nat
    /\ Forall (fun m => has_move_flag MOVE_FLAG_ACCELERATION_PHASE m = true) a
    /\ Forall (fun m => has_move_flag MOVE_FLAG_CRUISE_PHASE m = true) c
    /\ Forall (fun m => has_move_flag MOVE_FLAG_DECELERATION_PHASE m = true) d.

(** Each segment starts when the one before it ends: the first at [t], and
    the time after the last one is [t_end]. *)
Fixpoint print_time_chain (t : float) (segs : list move_t) (t_end : float) : Prop :=
  match segs with
  | [] => t_end = t
  | m :: segs => print_time m = t /\ print_time_chain (t + move_time m)%float segs t_end
  end.

(** The flags of a pushed segment: a phase value, the two optional block
    markers, the direction bits and the active-axis bits. *)
Definition segment_flags (phase a1 a2 : Z) (b : block_t) : Z :=
  Z.lor (Z.lor (Z.lor (Z.lor phase a1) a2) (block_dir_flags b))
        (get_active_axis_flags_from_block b).


(** The block's step count on axis [i] with the sign of its direction bit. *)
Definition signed_steps (b : block_t) (i : AxisEnum) : Z :=
  if Z.land (direction_bits b) (_BV i) =? 0
  then xyze_get (steps b) i else - xyze_get (steps b) i.

(** The cruise distance [append_move_segments_to_queue] computes first
    (line 204). *)
Definition first_cruise_dist (b : block_t) : float :=
  (millimeters b
   - calc_distance_required_to_reach_cruise_velocity_clamped
       (initial_speed b) (nominal_speed b) (acceleration b)
   - calc_distance_required_to_reach_cruise_velocity_clamped
       (final_speed b) (nominal_speed b) (acceleration b))%float.

(** Follows the specification's words, to be compared with
    [block_trapezoid]: the acceleration distance of a trapezoid without
    cruise phase, (2 S a + end_v^2 - start_v^2) / (4 a) clamped to [0, S]. *)
Definition spec_no_cruise_accel_dist (b : block_t) : float :=
  let S := millimeters b in
  let a := acceleration b in
  let d := ((2 * S * a + SQR (final_speed b) - SQR (initial_speed b)) / (4 * a))%float in
  if (d <? 0)%float then 0%float else if (S <? d)%float then S else d.


(** The generator's [current_move] points at slot [i]. *)
Definition points_at (i : nat) (g : classic_step_generator_t) : bool :=
  match current_move g with
  | Some j => Nat.eqb j i
  | None => false
  end.

(** The number of step generators whose [current_move] points at slot [i]. *)
Definition generators_at (s : state) (i : nat) : Z :=
  let pool := step_generators_pool s in
  Z.b2z (points_at i (ax_x pool)) + Z.b2z (points_at i (ax_y pool))
  + Z.b2z (points_at i (ax_z pool)) + Z.b2z (points_at i (ax_e pool)).

(** Reference-count soundness on the slots in [live]: the [reference_cnt] of
    each of them is the number of generators that point at it. *)
Definition reference_cnt_sound (live : nat -> Prop) (s : state) : Prop :=
  forall i m, live i -> mq_data (move_segment_queue s) !! i = Some m ->
              reference_cnt m = generators_at s i.

(** Every slot of the ring. *)
Definition every_slot (i : nat) : Prop := True.

(** The [reference_cnt] of every slot changed from [s] to [s'] by [delta]. *)
Definition reference_cnt_changed (s s' : state) (delta : nat -> Z) : Prop :=
  length (mq_data (move_segment_queue s')) = length (mq_data (move_segment_queue s))
  /\ forall i m, mq_data (move_segment_queue s) !! i = Some m ->
       exists m', mq_data (move_segment_queue s') !! i = Some m'
                  /\ reference_cnt m' = reference_cnt m + delta i.

(** What a step of the merger leaves alone: the step event queue, the
    buffered step and the tick rate. *)
Definition producer_frame (s s' : state) : Prop :=
  step_event_queue s' = step_event_queue s
  /\ buffered_step (step_generator_state s') = buffered_step (step_generator_state s)
  /\ ticks_per_sec s' = ticks_per_sec s.

(** What a step generator leaves alone besides: the merger's clock, its
    four pending events and their order. *)
Definition generator_frame (s s' : state) : Prop :=
  producer_frame s s'
  /\ previous_step_time (step_generator_state s') = previous_step_time (step_generator_state s)
  /\ step_events (step_generator_state s') = step_events (step_generator_state s)
  /\ step_event_index (step_generator_state s') = step_event_index (step_generator_state s).

(** The producer's invariant for a property [P] of step events at the tick
    rate [tps]: the step event ring is laid out as expected, and the
    buffered step, when there is one, satisfies [P]. *)
Definition producer_inv (P : step_event_t -> Prop) (tps : float) (s : state) : Prop :=
  step_event_queue_wf (step_event_queue s)
  /\ ticks_per_sec s = tps
  /\ (flags (buffered_step (step_generator_state s)) <> 0 ->
      P (buffered_step (step_generator_state s))).

(** From [s] to [s'] the step event queue only grew, by events that satisfy
    [P]. *)
Definition producer_writes (P : step_event_t -> Prop) (s s' : state) : Prop :=
  exists new : list step_event_t,
    step_event_queue_contents (step_event_queue s')
    = step_event_queue_contents (step_event_queue s) ++ new
    /\ Forall P new.

(** [STEP_EVENT_FLAG_STEP_X << axis] *)
Definition step_bit (a : AxisEnum) : Z :=
  Z.shiftl STEP_EVENT_FLAG_STEP_X (axis_index a).

(** [STEP_EVENT_FLAG_X_ACTIVE << axis] *)
Definition active_bit (a : AxisEnum) : Z :=
  Z.shiftl STEP_EVENT_FLAG_X_ACTIVE (axis_index a).

(** [STEP_EVENT_FLAG_X_DIR << axis] *)
Definition dir_bit (a : AxisEnum) : Z :=
  Z.shiftl STEP_EVENT_FLAG_X_DIR (axis_index a).

(** Follows the specification's words, to be compared with
    [buffer_step_event]: the new event is merged when its [time_ticks] is 0,
    it repeats no step or active bit already set in the buffer, and its
    direction bits are identical to the buffer's. *)
Definition spec_mergeable (buf new : step_event_t) : bool :=
  (time_ticks new =? 0)
  && forallb (fun a => Z.land (Z.land (flags buf) (flags new))
                              (Z.lor (step_bit a) (active_bit a)) =? 0) all_axes
  && forallb (fun a => Z.land (Z.lxor (flags buf) (flags new)) (dir_bit a) =? 0) all_axes.

(** Follows the specification's words, to be compared with [reset_queues]:
    the counters of the engine are unchanged. *)
Definition counters_unchanged (s s' : state) : Prop :=
  step_dl_miss s' = step_dl_miss s /\ step_ev_miss s' = step_ev_miss s.

(** The nearest-event test of [generate_next_step_event]: the time is
    neither of the two sentinels. *)
Definition is_step_time (t : float) : bool := fneq t 0 && fneq t DBL_MAX.

(** Every pending event of the merger that is not a sentinel carries the
    Step bit of its axis. *)
Definition pending_events_carry_step (s : state) : Prop :=
  forall a,
    let ev := xyze_get (step_events (step_generator_state s)) a in
    is_step_time (time ev) = true -> Z.land (iflags ev) (step_bit a) <> 0.

(** A generator pointer of the merger leads to a generator for the
    pointer's axis, as [step_generator_state.step_generator[axis] =
    &step_generator] of [classic_step_generator_init] leaves it. *)
Definition generators_linked (s : state) : Prop :=
  forall a g,
    xyze_get (step_generator (step_generator_state s)) a = Some g ->
    axis (xyze_get (step_generators_pool s) g) = a.

(** The sum of the delays of the first [i + 1] events. *)
Definition delay_prefix_sum (l : list step_event_t) (i : nat) : Z :=
  foldr Z.add 0 (map time_ticks (take (S i) l)).


(** The distance from slot [a] forward to slot [b] of the move segment
    ring. *)
Definition ring_distance (a b : nat) : nat :=
  ((b + MOVE_SEGMENT_QUEUE_SIZE - a) mod MOVE_SEGMENT_QUEUE_SIZE)%nat.

(** Slot [i] holds a segment of the move segment queue: it lies from [tail]
    up to [head]. *)
Definition in_move_segment_queue (q : move_segment_queue_t) (i : nat) : Prop :=
  (i < MOVE_SEGMENT_QUEUE_SIZE)%nat
  /\ (ring_distance (mq_tail q) i < ring_distance (mq_tail q) (mq_head q))%nat.

(** The cursors of the ring are in the order [tail], [unprocessed_tail],
    [head], and every attached generator points at a segment of the queue. *)
Definition generators_in_queue (s : state) : Prop :=
  let q := move_segment_queue s in
  move_segment_queue_wf q
  /\ (mq_unprocessed_tail q < MOVE_SEGMENT_QUEUE_SIZE)%nat
  /\ (ring_distance (mq_tail q) (mq_unprocessed_tail q)
      <= ring_distance (mq_tail q) (mq_head q))%nat
  /\ forall a cur,
       current_move (xyze_get (step_generators_pool s) a) = Some cur ->
       in_move_segment_queue q cur.

(** The invariant of the Move-ISR about reference counts: the generators
    point into the queue, the counts are sound on every slot, and before the
    merger is initialised no generator is attached. *)
Definition reference_cnt_inv (s : state) : Prop :=
  generators_in_queue s
  /\ reference_cnt_sound every_slot s
  /\ (initialized (step_generator_state s) = false ->
      forall a, current_move (xyze_get (step_generators_pool s) a) = None).


(** [classic_step_generator_next_step_event], lines 320-324: the time, from
    the start of its current segment, at which the generator [g] is half a
    step beyond the step count [cd]. *)
Definition classic_step_time (g : classic_step_generator_t) (cd : Z) : float :=
  let half_step_dist := mm_per_half_step (axis g) in
  let current_distance_mm :=
    float32 (float32 (Z_to_double cd) * mm_per_step (axis g))%float in
  let next_target :=
    float32 (current_distance_mm
             + (if step_dir g then half_step_dist else - half_step_dist))%float in
  let next_distance := float32 (next_target - g_start_pos g)%float in
  calc_time_for_distance (g_start_v g) (g_accel g) next_distance (step_dir g).

(** The merger can call every generator: each axis has its function and a
    pointer to a generator that is attached to a segment. *)
Definition merger_ready (s : state) : Prop :=
  forall a,
    xyze_get (next_step_func (step_generator_state s)) a = Some classic_next_step_f
    /\ exists g,
         xyze_get (step_generator (step_generator_state s)) a = Some g
         /\ is_Some (current_move (xyze_get (step_generators_pool s) g)).

(** The blocks of the planner that are not yet cut into move segments,
    oldest first. *)
Definition unprocessed_blocks (p : planner_t) : list block_t :=
  drop (processed p) (block_buffer p).

(** The segment [append_block_discarding_move] queues for a sync block. *)
Definition block_discarding_move (s : state) : move_t :=
  Move 0%float 0%float 0%float (total_print_time s) (XYZE 0 0 0 0)%float (total_start_pos s)
    (Z.lor MOVE_FLAG_FIRST_MOVE_SEGMENT_OF_BLOCK MOVE_FLAG_LAST_MOVE_SEGMENT_OF_BLOCK) 0.

(** ** The Move-ISR *)

(** Modelled from the spec: [Planner::movesplanned], the number of blocks in
    the planner's queue. *)
Definition movesplanned (p : planner_t) : Z := Z.of_nat (length (block_buffer p)).

(** Modelled from the spec: [has_unprocessed_move_segments_queued], a
    segment is queued that the generators have not finished. *)
Definition has_unprocessed_move_segments_queued (q : move_segment_queue_t) : bool :=
  negb (Nat.eqb (mq_unprocessed_tail q) (mq_head q)).

(** The for loop of [PreciseStepping::move_isr] from the pass [i] on.
    [now k] is what [ticks_ms()] reads in pass [k]; [fuel] counts the
    passes. *)
Fixpoint move_isr_loop (fuel : nat) (i : nat) (now : nat -> Z) (s : state) : option state :=
  if Z.of_nat i <=? movesplanned (planner s) then
    match fuel with
    | O => None
    | S fuel =>
        let s := process_queue_of_blocks (now i) s in
        if negb (has_unprocessed_move_segments_queued (move_segment_queue s)) then Some s
        else
          '(status, s) ← process_one_move_segment_from_queue s;
          match status with
          | STEP_GENERATOR_STATUS_NO_STEP_EVENT_PRODUCED => move_isr_loop fuel (S i) now s
          | _ => Some s
          end
    end
  else Some s.

(** [PreciseStepping::move_isr]. The planner gets no new block while the
    loop runs and every pass raises [i], so the loop makes at most
    [movesplanned() + 1] passes. *)
Definition move_isr (now : nat -> Z) (s : state) : option state :=
  if stop_pending s then Some s
  else
    '(status, s) ← process_one_move_segment_from_queue s;
    match status with
    | STEP_GENERATOR_STATUS_OK => Some s
    | STEP_GENERATOR_STATUS_FULL_STEP_EVENT_QUEUE =>
        Some (process_queue_of_blocks (now 0%nat) s)
    | STEP_GENERATOR_STATUS_NO_STEP_EVENT_PRODUCED =>
        move_isr_loop (S (Z.to_nat (movesplanned (planner s)))) 0 now s
    end.

(** [PreciseStepping::update_maximum_lookback_time] (build without
    ADVANCED_STEP_GENERATORS). *)
Definition update_maximum_lookback_time (s : state) : state :=
  State (move_segment_queue s) (step_event_queue s) (left_ticks_to_next_step_event s)
    (ticks_per_sec s) (step_generator_state s) (step_generators_pool s) 0%float
    (total_print_time s) (total_start_pos s) (total_start_pos_steps s)
    (waiting_before_delivering_start_time s) (stop_pending s) (step_dl_miss s)
    (step_ev_miss s) (planner s) (stepper s).

(** ** Vocabulary of the statements about the BeginningOfMoveSegment marker *)

(** [ev.flags & STEP_EVENT_FLAG_BEGINNING_OF_MOVE_SEGMENT] is non-zero. *)
Definition begins_move_segment (ev : step_event_t) : bool :=
  negb (Z.land (flags ev) STEP_EVENT_FLAG_BEGINNING_OF_MOVE_SEGMENT =? 0).

(** How many of the events [l] carry the marker. *)
Definition count_markers (l : list step_event_t) : Z :=
  foldr (fun ev n => Z.b2z (begins_move_segment ev) + n) 0 l.

(** The markers on their way to the Step-ISR: those the merger still has to
    place, the one in the buffered step, and those in the step event
    queue. *)
Definition markers_pending (s : state) : Z :=
  left_insert_start_of_move_segment (step_generator_state s)
  + Z.b2z (begins_move_segment (buffered_step (step_generator_state s)))
  + count_markers (step_event_queue_contents (step_event_queue s)).

(** The move segments the generators are through with and the Step-ISR has
    not retired: those from [tail] up to [unprocessed_tail]. *)
Definition segments_to_retire (q : move_segment_queue_t) : Z :=
  Z.of_nat (ring_distance (mq_tail q) (mq_unprocessed_tail q)).

(** The cursors of the move segment ring are inside it and in the order
    [tail], [unprocessed_tail], [head]. *)
Definition cursors_in_order (q : move_segment_queue_t) : Prop :=
  move_segment_queue_wf q
  /\ (mq_unprocessed_tail q < MOVE_SEGMENT_QUEUE_SIZE)%nat
  /\ (ring_distance (mq_tail q) (mq_unprocessed_tail q)
      <= ring_distance (mq_tail q) (mq_head q))%nat.

(** The markers the merger has handed on: one for every segment to retire
    but for those it still has to place. *)
Definition marker_debt (s : state) : Z :=
  segments_to_retire (move_segment_queue s)
  - left_insert_start_of_move_segment (step_generator_state s).

(** The markers in the buffered step and in the step event queue. *)
Definition markers_in_flight (s : state) : Z :=
  Z.b2z (begins_move_segment (buffered_step (step_generator_state s)))
  + count_markers (step_event_queue_contents (step_event_queue s)).

(** From [s] to [s'] the generators went on along the move segment queue:
    the cursors stay in order, [tail] stays, and every segment they are
    through with has one more marker to place. *)
Definition markers_kept (s s' : state) : Prop :=
  cursors_in_order (move_segment_queue s')
  /\ mq_tail (move_segment_queue s') = mq_tail (move_segment_queue s)
  /\ marker_debt s' = marker_debt s
  /\ left_insert_start_of_move_segment (step_generator_state s)
     <= left_insert_start_of_move_segment (step_generator_state s')
  /\ initialized (step_generator_state s') = initialized (step_generator_state s).

(** What the balance of markers reads from a state, but for the cached
    flags: the size of the move segment ring and its cursors, the step event
    queue, and the merger's markers to place, buffered step, pending events
    and [initialized]. *)
Definition marker_view (s : state) :=
  let q := move_segment_queue s in
  let sgs := step_generator_state s in
  (length (mq_data q), mq_head q, mq_tail q, mq_unprocessed_tail q, step_event_queue s,
   left_insert_start_of_move_segment sgs, buffered_step sgs, step_events sgs,
   initialized sgs).

(** From [s] to [s'] move segments were queued and nothing else happened to
    the two queues and the merger: the step event queue, the merger's state
    and the cursors [tail] and [unprocessed_tail] are the same, and [head]
    went forward. *)
Definition segments_queued (s s' : state) : Prop :=
  let q := move_segment_queue s in
  let q' := move_segment_queue s' in
  step_event_queue s' = step_event_queue s
  /\ step_generator_state s' = step_generator_state s
  /\ length (mq_data q') = length (mq_data q)
  /\ mq_tail q' = mq_tail q
  /\ mq_unprocessed_tail q' = mq_unprocessed_tail q
  /\ (move_segment_queue_wf q ->
      (mq_head q' < MOVE_SEGMENT_QUEUE_SIZE)%nat
      /\ (ring_distance (mq_tail q) (mq_head q) <= ring_distance (mq_tail q) (mq_head q'))%nat).

(** The BeginningOfMoveSegment flag is one bit, it lies in the mask by
    which the merger keeps two events apart, and no step, direction or
    active-axis flag of an axis is that bit. *)
Record marker_flag_wf : Prop := {
  marker_one_bit :
    exists k, 0 <= k /\ STEP_EVENT_FLAG_BEGINNING_OF_MOVE_SEGMENT = Z.shiftl 1 k;
  marker_in_merge_mask :
    Z.land STEP_EVENT_FLAG_BEGINNING_OF_MOVE_SEGMENT
      (Z.lor STEP_EVENT_FLAG_AXIS_MASK STEP_EVENT_FLAG_AXIS_OTHER_MASK)
    = STEP_EVENT_FLAG_BEGINNING_OF_MOVE_SEGMENT;
  marker_no_axis_bit :
    forall a,
      Z.land (step_bit a) STEP_EVENT_FLAG_BEGINNING_OF_MOVE_SEGMENT = 0
      /\ Z.land (dir_bit a) STEP_EVENT_FLAG_BEGINNING_OF_MOVE_SEGMENT = 0
      /\ Z.land (active_bit a) STEP_EVENT_FLAG_BEGINNING_OF_MOVE_SEGMENT = 0
}.

(** [step_generator_state_restart] leaves alone what the markers are
    counted from: the number of markers to place, the buffered step, the
    cached flags, the flags of the pending events and [initialized]. *)
Definition restart_keeps_markers : Prop :=
  forall sgs pool,
    let sgs' := fst (step_generator_state_restart sgs pool) in
    left_insert_start_of_move_segment sgs' = left_insert_start_of_move_segment sgs
    /\ buffered_step sgs' = buffered_step sgs
    /\ sflags sgs' = sflags sgs
    /\ initialized sgs' = initialized sgs
    /\ forall a, iflags (xyze_get (step_events sgs') a) = iflags (xyze_get (step_events sgs) a).

(** The invariant that ties the two ISRs together: the rings are laid out as
    expected with their cursors in order, and every move segment the
    generators are through with and the Step-ISR has not retired has exactly
    one marker on its way to the Step-ISR. The cached flags and the pending
    events carry no marker of their own, and before the merger is
    initialised none is owed or buffered. *)
Definition markers_balanced (s : state) : Prop :=
  let q := move_segment_queue s in
  let sgs := step_generator_state s in
  cursors_in_order q
  /\ step_event_queue_wf (step_event_queue s)
  /\ segments_to_retire q = markers_pending s
  /\ 0 <= left_insert_start_of_move_segment sgs
  /\ Z.land (sflags sgs) STEP_EVENT_FLAG_BEGINNING_OF_MOVE_SEGMENT = 0
  /\ (forall a,
        Z.land (iflags (xyze_get (step_events sgs) a))
          STEP_EVENT_FLAG_BEGINNING_OF_MOVE_SEGMENT = 0)
  /\ (initialized sgs = false ->
      left_insert_start_of_move_segment sgs = 0
      /\ begins_move_segment (buffered_step sgs) = false).

(** ** Vocabulary of the statements about the Move-ISR *)

(** What the Move-ISR producer has no business with: everything but the two
    queues, the merger's state and the generators. *)
Definition engine_rest (s : state) :=
  (left_ticks_to_next_step_event s, ticks_per_sec s, max_lookback_time s,
   total_print_time s, total_start_pos s, total_start_pos_steps s,
   waiting_before_delivering_start_time s, stop_pending s, step_dl_miss s, step_ev_miss s,
   planner s, stepper s).

(** What block intake leaves alone, halt or not: the step event queue and
    the tick rate; and the planner gets no new block. *)
Definition intake_frame (s s' : state) : Prop :=
  step_event_queue s' = step_event_queue s
  /\ ticks_per_sec s' = ticks_per_sec s
  /\ (length (block_buffer (planner s')) <= length (block_buffer (planner s)))%nat.


End Embedding.

(** ** A sample configuration

    Values for the parameters of [Config], used to run the definitions on
    concrete inputs: a 1 MHz stepper timer, 100 steps per millimeter on
    every axis, small queues. [has_blocks_queued] says whether a move
    segment or a step event is still queued. *)
Module Sample.

Definition sample_calc_time_for_distance (start_velocity acceleration distance : float)
    (step_dir : bool) : float :=
  if (acceleration =? 0)%float then
    if (start_velocity =? 0)%float then nan
    else float32 (distance / start_velocity)%float
  else
    let sqr := float32 (float32 (float32 (2 * acceleration) * distance)
                        + float32 (start_velocity * start_velocity))%float in
    if (sqr <? 0)%float then nan
    else
      let r := float32 (PrimFloat.sqrt sqr) in
      float32 (float32 ((if step_dir then r else - r) - start_velocity) / acceleration)%float.

Definition sample_calc_end_position (start_pos axes_r : xyze float) (dist : float) : xyze float :=
  xyze_map2 (fun p r => (p + r * dist)%float) start_pos axes_r.

Definition sample_get_move_step_dir (m : move_t) (a : AxisEnum) : bool :=
  Z.land (mflags m) (Z.shiftl 16 (axis_index a)) =? 0.

Definition sample_update_nearest_idx (evs : xyze step_event_info_t) (idx : xyze AxisEnum)
    : xyze AxisEnum :=
  let best :=
    fold_left (fun b a => if (time (xyze_get evs a) <? time (xyze_get evs b))%float then a else b)
              [Y_AXIS; Z_AXIS; E_AXIS] X_AXIS in
  match filter (fun a => negb (axis_eqb a best)) all_axes with
  | [a1; a2; a3] => XYZE best a1 a2 a3
  | _ => idx
  end.

Definition sample_config : Config := {|
  EPSILON := 0.000000001;
  EPSILON_DISTANCE := 0.000001;
  MAX_PRINT_TIME := 10000000;
  MOVE_SEGMENT_QUEUE_SIZE := 8;
  MOVE_SEGMENT_QUEUE_MIN_FREE_SLOTS := 1;
  STEP_EVENT_QUEUE_SIZE := 16;
  MAX_STEP_EVENTS_PRODUCED_PER_ONE_CALL := 4;
  BLOCK_BUFFER_SIZE := 16;
  MOVE_FLAG_ACCELERATION_PHASE := 1;
  MOVE_FLAG_DECELERATION_PHASE := 2;
  MOVE_FLAG_CRUISE_PHASE := 4;
  MOVE_FLAG_DIR_SHIFT := 4;
  MOVE_FLAG_X_ACTIVE := 256;
  MOVE_FLAG_Y_ACTIVE := 512;
  MOVE_FLAG_Z_ACTIVE := 1024;
  MOVE_FLAG_E_ACTIVE := 2048;
  MOVE_FLAG_FIRST_MOVE_SEGMENT_OF_BLOCK := 4096;
  MOVE_FLAG_LAST_MOVE_SEGMENT_OF_BLOCK := 8192;
  MOVE_FLAG_BEGINNING_EMPTY_MOVE := 16384;
  MOVE_FLAG_ENDING_EMPTY_MOVE := 32768;
  STEP_EVENT_FLAG_STEP_X := 1;
  STEP_EVENT_FLAG_X_DIR := 16;
  STEP_EVENT_FLAG_X_ACTIVE := 256;
  STEP_EVENT_FLAG_BEGINNING_OF_MOVE_SEGMENT := 4096;
  STEP_EVENT_END_OF_MOTION := 8192;
  STEP_EVENT_FLAG_AXIS_MASK := 15;
  STEP_EVENT_FLAG_AXIS_OTHER_MASK := 12288;
  STEP_EVENT_FLAG_DIR_MASK := 240;
  mm_per_step := fun _ => float32 0.01;
  mm_per_half_step := fun _ => float32 0.005;
  is_move := fun b => negb (sync_position b);
  nonbusy_movesplanned := fun p => Z.of_nat (length (block_buffer p) - processed p);
  has_blocks_queued := fun s =>
    negb (Nat.eqb (mq_tail (move_segment_queue s)) (mq_head (move_segment_queue s)))
    || negb (Nat.eqb (sq_tail (step_event_queue s)) (sq_head (step_event_queue s)));
  calc_time_for_distance := sample_calc_time_for_distance;
  calc_end_position := sample_calc_end_position;
  get_move_step_dir := sample_get_move_step_dir;
  step_generator_state_update_nearest_idx := sample_update_nearest_idx;
  step_generator_state_restart := fun sgs pool => (sgs, pool);
  step_generator_state_clear := set_initialized false
|}.

Definition zero_move : move_t :=
  Move 0 0 0 0 (XYZE 0 0 0 0)%float (XYZE 0 0 0 0)%float 0 0.

Definition boot_generator (a : AxisEnum) : classic_step_generator_t :=
  ClassicStepGenerator a None false 0 0 0 false.

(** The state after [PreciseStepping::init], with the merger's generator
    pointers at the generators of the pool. *)
Definition boot : state := {|
  move_segment_queue := MoveSegmentQueue (repeat zero_move 8) 0 0 0;
  step_event_queue := StepEventQueue (repeat (StepEvent 0 0) 16) 0 0;
  left_ticks_to_next_step_event := 0;
  ticks_per_sec := float32 1000000;
  step_generator_state :=
    StepGeneratorState 0 0 (StepEvent 0 0) (xyze_all 0) 0
      (XYZE X_AXIS Y_AXIS Z_AXIS E_AXIS) (xyze_all (StepEventInfo 0 0))
      (xyze_all None)
      (XYZE (Some X_AXIS) (Some Y_AXIS) (Some Z_AXIS) (Some E_AXIS)) false;
  step_generators_pool :=
    XYZE (boot_generator X_AXIS) (boot_generator Y_AXIS)
         (boot_generator Z_AXIS) (boot_generator E_AXIS);
  max_lookback_time := 0;
  total_print_time := 0;
  total_start_pos := (XYZE 0 0 0 0)%float;
  total_start_pos_steps := XYZE 0 0 0 0;
  waiting_before_delivering_start_time := 0;
  stop_pending := false;
  step_dl_miss := 0;
  step_ev_miss := 0;
  planner := Planner [] 0 0;
  stepper := Stepper (XYZE 0 0 0 0) 0
|}.

(** Scenario S1 of the specification: 10 mm along +X from rest to rest,
    nominal speed 200 mm/s, acceleration 1000 mm/s^2. *)
Definition block_S1 : block_t :=
  Block (XYZE 1000 0 0 0) 0 10 1000 0 200 0 false (XYZE 0 0 0 0).

(** Scenario S2 of the specification: 100 mm along +X, same speeds. *)
Definition block_S2 : block_t :=
  Block (XYZE 10000 0 0 0) 0 100 1000 0 200 0 false (XYZE 0 0 0 0).

(** A block of length zero. *)
Definition block_zero_length : block_t :=
  Block (XYZE 0 0 0 0) 0 0 1000 0 200 0 false (XYZE 0 0 0 0).

(** A 2 mm block that only decelerates: it enters at 1 mm/s and leaves at
    2^-11 mm/s under 0.25 mm/s^2. *)
Definition block_short_decel : block_t :=
  Block (XYZE 200 0 0 0) 0 2 0.25 1 4 0x1p-11 false (XYZE 0 0 0 0).

(** The two scenario blocks handed to the planner of a freshly started
    board. *)
Definition sample_start : state :=
  set_planner (Planner [block_S1; block_S2] 0 0) boot.

(** Both blocks compiled into move segments (two passes of
    [process_queue_of_blocks]). *)
Definition sample_loaded : state :=
  process_queue_of_blocks (cfg := sample_config) 0
    (process_queue_of_blocks (cfg := sample_config) 0 sample_start).

(** [n] passes of [process_one_move_segment_from_queue]. *)
Fixpoint sample_produce (n : nat) (s : state) : state :=
  match n with
  | O => s
  | S n =>
      match process_one_move_segment_from_queue (cfg := sample_config) s with
      | Some (_, s') => sample_produce n s'
      | None => s
      end
  end.

(** The merger initialised on the beginning empty move of the loaded queue
    (slot 0). *)
Definition sample_initialized : state :=
  default sample_loaded (step_generator_state_init (cfg := sample_config) 0 sample_loaded).

(** The X generator asked for its first step event after that. *)
Definition sample_advanced : step_event_info_t * state :=
  default (StepEventInfo 0 0, sample_initialized)
    (classic_step_generator_next_step_event (cfg := sample_config) X_AXIS
       (total_print_time sample_initialized - max_lookback_time sample_initialized)%float
       sample_initialized).

(** The producer in the middle of the first block, and one pass later. *)
Definition sample_running : state := sample_produce 3 sample_loaded.

Definition sample_after : state := sample_produce 4 sample_loaded.

(** A third block waits in the planner while the move segment queue holds
    the segments of the first two: one free slot is left. *)
Definition sample_saturated : state :=
  let s := set_planner (Planner [block_S1; block_S2; block_S2] 0 0) boot in
  process_queue_of_blocks (cfg := sample_config) 0
    (process_queue_of_blocks (cfg := sample_config) 0 s).

(** The first block about to be compiled: the beginning empty move is in the
    queue. *)
Definition sample_begun : state :=
  snd (append_beginning_empty_move (cfg := sample_config) sample_start).

(** The block S2 compiled after the beginning empty move. *)
Definition sample_compiled : state :=
  snd (append_move_segments_to_queue (cfg := sample_config) block_S2 sample_begun).

(** One call of the merger in the middle of the first block. *)
Definition sample_flush_time : float :=
  (total_print_time sample_running - max_lookback_time sample_running)%float.

Definition sample_nearest : step_event_info_t :=
  xyze_get (step_events (step_generator_state sample_running))
           (ax_x (step_event_index (step_generator_state sample_running))).

Definition sample_generated : bool * step_event_t * state :=
  match generate_next_step_event (cfg := sample_config) (StepEvent 0 0)
          sample_flush_time sample_running with
  | Some r => r
  | None => (false, StepEvent 0 0, sample_running)
  end.

(** The same state with the merger's clock one second ahead of the nearest
    pending event. *)
Definition sample_late : state :=
  set_step_generator_state
    (set_previous_step_time 1 (step_generator_state sample_running)) sample_running.

(** The producer with a stop requested. *)
Definition sample_stopping : state := set_stop_pending true sample_running.

(** The same after the Step-ISR missed three deadlines and one event. *)
Definition sample_missed : state := set_step_ev_miss 1 (set_step_dl_miss 3 sample_stopping).



(** A diagonal block: 10 mm along +X and 10 mm along +Y at once, so that
    both axes step at the same instants. *)
Definition block_XY : block_t :=
  Block (XYZE 1000 1000 0 0) 0 (float32 0x1.c48c6p+3) 1000 0 200 0 false (XYZE 0 0 0 0).

(** The diagonal block compiled into move segments, and the producer after
    one and after two passes over them. *)
Definition sample_XY_loaded : state :=
  let s := set_planner (Planner [block_XY] 0 0) boot in
  process_queue_of_blocks (cfg := sample_config) 0
    (process_queue_of_blocks (cfg := sample_config) 0 s).

Definition sample_XY_started : state := sample_produce 1 sample_XY_loaded.

Definition sample_XY_running : state := sample_produce 2 sample_XY_loaded.

(** One pass of the for loop of [process_one_move_segment_from_queue]: the
    event the merger emits, the state it leaves, and the state once the
    event is buffered. *)
Definition sample_pass (s : state) : step_event_t * state * state :=
  let flush_time := (total_print_time s - max_lookback_time s)%float in
  match generate_next_step_event (cfg := sample_config) (StepEvent 0 0) flush_time s with
  | Some (_, ev, s1) =>
      (ev, s1,
       default s1
         (buffer_step_event (cfg := sample_config)
            (get_next_free_step_event (cfg := sample_config) (step_event_queue s)) ev s1))
  | None => (StepEvent 0 0, s, s)
  end.

(** The first two passes of the loop over the diagonal block: the first X
    step, then the first Y step. *)
Definition sample_XY_first : step_event_t * state * state := sample_pass sample_XY_started.

Definition sample_XY_second : step_event_t * state * state :=
  sample_pass (snd sample_XY_first).

End Sample.

(** ** The Step-ISR

    [PreciseStepping::process_one_step_event_from_queue], [step_isr] and
    [init] (lines 455-655), for the build without SQUARE_WAVE_STEPPING and
    without ISR_DEADLINE_TRACKING. *)

(** What the Step-ISR takes from headers besides [Config]: the
    StepEventFlag values it names, the timer rate and the direction
    inversion of the board. *)
Class StepperConfig := {
  STEP_EVENT_FLAG_STEP_Y : Z;
  STEP_EVENT_FLAG_STEP_Z : Z;
  STEP_EVENT_FLAG_STEP_E : Z;
  STEP_EVENT_FLAG_Y_DIR : Z;
  STEP_EVENT_FLAG_Z_DIR : Z;
  STEP_EVENT_FLAG_E_DIR : Z;
  STEP_EVENT_FLAG_DIR_SHIFT : Z;
  STEP_EVENT_FLAG_AXIS_ACTIVE_MASK : Z;
  STEP_EVENT_FLAG_AXIS_ACTIVE_SHIFT : Z;
  STEPPER_TIMER_RATE : Z;
  INVERT_X_DIR : bool;
  INVERT_Y_DIR : bool;
  INVERT_Z_DIR : bool;
  INVERT_E0_DIR : bool
}.

(** What the Step-ISR does to the hardware, in the order it does it. *)
Inductive hw_write :=
| ApplyDir (a : AxisEnum) (v : Z)        (* X_APPLY_DIR(v), ... *)
| StepSet (a : AxisEnum)                 (* X_STEP_SET(), ... *)
| StepReset (a : AxisEnum)               (* X_STEP_RESET(), ... *)
| DelayUs (n : Z)                        (* delay_us_precise(n) *)
| SetCompare (next : Z).                 (* __HAL_TIM_SET_COMPARE *)

(** The engine with the members of [PreciseStepping] and [Stepper] that only
    the Step-ISR and [init] use, and the hardware writes so far, oldest
    first. *)
Record step_isr_t := StepIsr {
  engine : state;
  stepper_isr_period_in_ticks : Z;        (* uint32_t *)
  inverted_dirs : Z;                      (* uint16_t *)
  last_direction_bits : Z;                (* Stepper::, uint8_t *)
  count_direction : xyze Z;               (* Stepper::, -1 or 1 per axis *)
  count_position_from_startup : xyze Z;   (* Stepper::, int32_t per axis *)
  count_position_last_block : xyze Z;     (* Stepper::, int32_t per axis *)
  hw : list hw_write
}.

Definition set_engine (v : state) (st : step_isr_t) : step_isr_t :=
  StepIsr v (stepper_isr_period_in_ticks st) (inverted_dirs st) (last_direction_bits st) (count_direction st) (count_position_from_startup st) (count_position_last_block st) (hw st).

Definition set_stepper_isr_period_in_ticks (v : Z) (st : step_isr_t) : step_isr_t :=
  StepIsr (engine st) v (inverted_dirs st) (last_direction_bits st) (count_direction st) (count_position_from_startup st) (count_position_last_block st) (hw st).

Definition set_inverted_dirs (v : Z) (st : step_isr_t) : step_isr_t :=
  StepIsr (engine st) (stepper_isr_period_in_ticks st) v (last_direction_bits st) (count_direction st) (count_position_from_startup st) (count_position_last_block st) (hw st).

Definition set_last_direction_bits (v : Z) (st : step_isr_t) : step_isr_t :=
  StepIsr (engine st) (stepper_isr_period_in_ticks st) (inverted_dirs st) v (count_direction st) (count_position_from_startup st) (count_position_last_block st) (hw st).

Definition set_count_direction (v : xyze Z) (st : step_isr_t) : step_isr_t :=
  StepIsr (engine st) (stepper_isr_period_in_ticks st) (inverted_dirs st) (last_direction_bits st) v (count_position_from_startup st) (count_position_last_block st) (hw st).

Definition set_count_position_from_startup (v : xyze Z) (st : step_isr_t) : step_isr_t :=
  StepIsr (engine st) (stepper_isr_period_in_ticks st) (inverted_dirs st) (last_direction_bits st) (count_direction st) v (count_position_last_block st) (hw st).

Definition set_count_position_last_block (v : xyze Z) (st : step_isr_t) : step_isr_t :=
  StepIsr (engine st) (stepper_isr_period_in_ticks st) (inverted_dirs st) (last_direction_bits st) (count_direction st) (count_position_from_startup st) v (hw st).

(** One more hardware write. *)
Definition write_hw (w : hw_write) (st : step_isr_t) : step_isr_t :=
  StepIsr (engine st) (stepper_isr_period_in_ticks st) (inverted_dirs st) (last_direction_bits st) (count_direction st) (count_position_from_startup st) (count_position_last_block st) (hw st ++ [w]).

Definition set_ticks_per_sec (v : float) (s : state) : state :=
  State (move_segment_queue s) (step_event_queue s) (left_ticks_to_next_step_event s) v (step_generator_state s) (step_generators_pool s) (max_lookback_time s) (total_print_time s) (total_start_pos s) (total_start_pos_steps s) (waiting_before_delivering_start_time s) (stop_pending s) (step_dl_miss s) (step_ev_miss s) (planner s) (stepper s).

(** The value of an unsigned 8-bit and of an unsigned 32-bit integer after
    wrap-around. *)
Definition uint8 (z : Z) : Z := z mod 2 ^ 8.

Definition uint32 (z : Z) : Z := z mod 2 ^ 32.

(** The constants of [step_isr]. *)
Definition min_delay : Z := 6.

Definition min_reserve : Z := 5.

Definition max_ticks : Z := 65535 / 2.

Definition max_steps : Z := 4.

Section StepIsr.

Context `{cfg : Config} `{scfg : StepperConfig}.

(** Modelled from the spec: [get_current_step_event], the oldest queued
    step event, [nullptr] when the queue is empty. *)
Definition get_current_step_event (q : step_event_queue_t) : option nat :=
  if Nat.eqb (sq_tail q) (sq_head q) then None else Some (sq_tail q).

(** Modelled from the spec: [discard_current_step_event], which moves
    [tail] past the oldest step event. *)
Definition discard_current_step_event (q : step_event_queue_t) : step_event_queue_t :=
  if Nat.eqb (sq_tail q) (sq_head q) then q
  else StepEventQueue (sq_data q) (sq_head q) (step_event_queue_next_index (sq_tail q)).

(** Modelled from the spec: [get_current_move_segment], the move segment at
    the Step-ISR's cursor, [nullptr] when the queue is empty. *)
Definition get_current_move_segment (q : move_segment_queue_t) : option nat :=
  if Nat.eqb (mq_tail q) (mq_head q) then None else Some (mq_tail q).

(** Modelled from the spec: [discard_current_move_segment], which retires
    the move segment at the Step-ISR's cursor. *)
Definition discard_current_move_segment (q : move_segment_queue_t) : move_segment_queue_t :=
  if Nat.eqb (mq_tail q) (mq_head q) then q
  else MoveSegmentQueue (mq_data q) (mq_head q) (move_segment_queue_next_index (mq_tail q))
         (mq_unprocessed_tail q).

(** Modelled from the spec: [Planner::get_current_processed_block], the
    oldest block that was handed to the move segment queue, [nullptr] when
    there is none. *)
Definition get_current_processed_block (p : planner_t) : option block_t :=
  if (0 <? processed p)%nat then block_buffer p !! 0%nat else None.

(** The StepEventFlag values the Step-ISR names per axis. *)
Definition step_flag (a : AxisEnum) : Z :=
  match a with
  | X_AXIS => STEP_EVENT_FLAG_STEP_X | Y_AXIS => STEP_EVENT_FLAG_STEP_Y
  | Z_AXIS => STEP_EVENT_FLAG_STEP_Z | E_AXIS => STEP_EVENT_FLAG_STEP_E
  end.

Definition dir_flag (a : AxisEnum) : Z :=
  match a with
  | X_AXIS => STEP_EVENT_FLAG_X_DIR | Y_AXIS => STEP_EVENT_FLAG_Y_DIR
  | Z_AXIS => STEP_EVENT_FLAG_Z_DIR | E_AXIS => STEP_EVENT_FLAG_E_DIR
  end.

(** Lines 529-547, for one axis: a changed direction is written to the pin
    and cached in [count_direction]. *)
Definition apply_changed_dir (a : AxisEnum) (changed_dir_bits step_dir step_dir_inv : Z)
    (st : step_isr_t) : step_isr_t :=
  if Z.testbit changed_dir_bits (axis_index a) then
    let st := write_hw (ApplyDir a (Z.land step_dir_inv (dir_flag a))) st in
    set_count_direction
      (xyze_set (count_direction st) a (if Z.land step_dir (dir_flag a) =? 0 then 1 else -1))
      st
  else st.

(** Lines 549-575, for one axis: the step pulse and the step counters. *)
Definition step_axis (a : AxisEnum) (step_flags : Z) (st : step_isr_t) : step_isr_t :=
  if Z.land step_flags (step_flag a) =? 0 then st
  else
    let st := write_hw (StepSet a) st in
    let s := engine st in
    let d := xyze_get (count_direction st) a in
    let cp := count_position (stepper s) in
    let st :=
      set_engine
        (set_stepper (Stepper (xyze_set cp a (int32 (xyze_get cp a + d)))
                        (axis_did_move (stepper s))) s) st in
    let cs := count_position_from_startup st in
    let st := set_count_position_from_startup (xyze_set cs a (int32 (xyze_get cs a + d))) st in
    write_hw (StepReset a) st.

(** Lines 508-519: what a BeginningOfMoveSegment marker does. *)
Definition retire_move_segment (st : step_isr_t) : option step_isr_t :=
  let s := engine st in
  current ← get_current_move_segment (move_segment_queue s);
  current_move ← mq_data (move_segment_queue s) !! current;
  st ← (if Z.land (mflags current_move) MOVE_FLAG_LAST_MOVE_SEGMENT_OF_BLOCK =? 0 then Some st
        else
          current_block ← get_current_processed_block (planner s);
          let s :=
            if sync_position current_block
            then set_stepper (_set_position (position current_block) (stepper s)) s
            else s in
          let s := set_planner (discard_current_block (planner s)) s in
          Some (set_count_position_last_block (count_position (stepper s)) (set_engine s st)));
  let s := engine st in
  Some (set_engine
          (set_move_segment_queue (discard_current_move_segment (move_segment_queue s)) s) st).

(** [PreciseStepping::process_one_step_event_from_queue]: the ticks to the
    next ISR and the state. *)
Definition process_one_step_event_from_queue (st : step_isr_t) : option (Z * step_isr_t) :=
  let ticks_to_next_isr := stepper_isr_period_in_ticks st in
  match get_current_step_event (step_event_queue (engine st)) with
  | Some slot =>
      step_event ← sq_data (step_event_queue (engine st)) !! slot;
      let step_flags := flags step_event in
      let step_dir := Z.land step_flags STEP_EVENT_FLAG_DIR_MASK in
      let step_dir_inv := Z.lxor step_dir (inverted_dirs st) in
      let axis_move := Z.land step_flags STEP_EVENT_FLAG_AXIS_ACTIVE_MASK in
      st ← (if Z.land step_flags STEP_EVENT_FLAG_BEGINNING_OF_MOVE_SEGMENT =? 0 then Some st
            else retire_move_segment st);
      let s := engine st in
      let s := set_step_event_queue (discard_current_step_event (step_event_queue s)) s in
      let s :=
        set_stepper
          (Stepper (count_position (stepper s))
             (uint8 (Z.shiftr axis_move STEP_EVENT_FLAG_AXIS_ACTIVE_SHIFT))) s in
      let st := set_engine s st in
      let changed_dir_bits :=
        uint8 (Z.lxor (uint8 (Z.shiftr step_dir STEP_EVENT_FLAG_DIR_SHIFT))
                      (last_direction_bits st)) in
      let st :=
        if changed_dir_bits =? 0 then st
        else
          let st :=
            set_last_direction_bits (uint8 (Z.shiftr step_dir STEP_EVENT_FLAG_DIR_SHIFT)) st in
          let st := apply_changed_dir X_AXIS changed_dir_bits step_dir step_dir_inv st in
          let st := apply_changed_dir Y_AXIS changed_dir_bits step_dir step_dir_inv st in
          let st := apply_changed_dir Z_AXIS changed_dir_bits step_dir step_dir_inv st in
          apply_changed_dir E_AXIS changed_dir_bits step_dir step_dir_inv st in
      let st := step_axis X_AXIS step_flags st in
      let st := step_axis Y_AXIS step_flags st in
      let st := step_axis Z_AXIS step_flags st in
      let st := step_axis E_AXIS step_flags st in
      match get_current_step_event (step_event_queue (engine st)) with
      | Some next =>
          next_step_event ← sq_data (step_event_queue (engine st)) !! next;
          Some (uint32 (time_ticks next_step_event), st)
      | None =>
          if Z.land step_flags STEP_EVENT_END_OF_MOTION =? 0
          then
            let s := engine st in
            Some (ticks_to_next_isr,
                  set_engine (set_step_ev_miss (uint8 (step_ev_miss s + 1)) s) st)
          else Some (ticks_to_next_isr, st)
      end
  | None =>
      let s := engine st in
      Some (ticks_to_next_isr,
            set_engine (set_stepper (Stepper (count_position (stepper s)) 0) s) st)
  end.

(** The for loop of [PreciseStepping::step_isr]: the result is
    [time_increment] and the state; [fuel] counts the passes. *)
Fixpoint step_isr_loop (fuel : nat) (steps time_increment : Z) (st : step_isr_t)
    : option (Z * step_isr_t) :=
  match fuel with
  | O => None
  | S fuel =>
      if steps =? max_steps then Some (time_increment, st)
      else if stop_pending (engine st) then
        let s := engine st in
        Some (stepper_isr_period_in_ticks st,
              set_engine (set_stepper (Stepper (count_position (stepper s)) 0) s) st)
      else
        '(steps, st) ←
          (if left_ticks_to_next_step_event (engine st) =? 0 then
             '(ticks, st) ← process_one_step_event_from_queue st;
             Some (uint8 (steps + 1),
                   set_engine (set_left_ticks_to_next_step_event ticks (engine st)) st)
           else Some (steps, st));
        let ticks_to_next_step_event :=
          Z.min (left_ticks_to_next_step_event (engine st)) max_ticks in
        let st :=
          set_engine
            (set_left_ticks_to_next_step_event
               (uint32 (left_ticks_to_next_step_event (engine st) - ticks_to_next_step_event))
               (engine st)) st in
        let time_increment := uint32 (time_increment + ticks_to_next_step_event) in
        if (min_delay <? ticks_to_next_step_event) || (max_steps <=? steps)
        then Some (time_increment, st)
        else
          let st :=
            if left_ticks_to_next_step_event (engine st) =? 0 then st
            else write_hw (DelayUs (left_ticks_to_next_step_event (engine st))) st in
          step_isr_loop fuel steps time_increment st
  end.

(** [PreciseStepping::step_isr]. [compare] and [counter] are what the timer's
    compare register and counter read after the loop, [counter'] what the
    counter reads when the ISR is rescheduled. The loop passes once without
    taking a step event at most, so it makes at most [max_steps + 1]
    passes. *)
Definition step_isr (compare counter counter' : Z) (st : step_isr_t) : option step_isr_t :=
  '(time_increment, st) ← step_isr_loop 5 0 0 st;
  let next := uint32 (compare + time_increment) in
  let deadline := uint32 (counter + min_reserve) in
  let '(next, st) :=
    if max_ticks <? Z.land (uint32 (next - deadline)) 65535 then
      let s := engine st in
      (uint32 (counter' + min_reserve),
       set_engine (set_step_dl_miss (uint8 (step_dl_miss s + 1)) s) st)
    else (next, st) in
  Some (write_hw (SetCompare next) st).

(** [PreciseStepping::init]; starting the move timer and enabling its
    interrupt have no part in this state. *)
Definition init (st : step_isr_t) : step_isr_t :=
  let st := set_stepper_isr_period_in_ticks (STEPPER_TIMER_RATE / 1000) st in
  let st :=
    set_engine (set_ticks_per_sec (float32 (Z_to_double STEPPER_TIMER_RATE)) (engine st)) st in
  let st :=
    set_inverted_dirs
      (Z.lor (Z.lor (Z.lor
         (if INVERT_X_DIR then 0 else STEP_EVENT_FLAG_X_DIR)
         (if INVERT_Y_DIR then 0 else STEP_EVENT_FLAG_Y_DIR))
         (if INVERT_Z_DIR then 0 else STEP_EVENT_FLAG_Z_DIR))
         (if INVERT_E0_DIR then 0 else STEP_EVENT_FLAG_E_DIR)) st in
  let dirs := Z.lxor (last_direction_bits st) (inverted_dirs st) in
  let st := write_hw (ApplyDir X_AXIS (Z.land dirs STEP_EVENT_FLAG_X_DIR)) st in
  let st := write_hw (ApplyDir Y_AXIS (Z.land dirs STEP_EVENT_FLAG_Y_DIR)) st in
  let st := write_hw (ApplyDir Z_AXIS (Z.land dirs STEP_EVENT_FLAG_Z_DIR)) st in
  let st := write_hw (ApplyDir E_AXIS (Z.land dirs STEP_EVENT_FLAG_E_DIR)) st in
  let last := last_direction_bits st in
  let st :=
    set_count_direction
      (XYZE (if Z.land last STEP_EVENT_FLAG_X_DIR =? 0 then 1 else -1)
            (if Z.land last STEP_EVENT_FLAG_Y_DIR =? 0 then 1 else -1)
            (if Z.land last STEP_EVENT_FLAG_Z_DIR =? 0 then 1 else -1)
            (if Z.land last STEP_EVENT_FLAG_E_DIR =? 0 then 1 else -1)) st in
  let s := engine st in
  let s := set_move_segment_queue (move_segment_queue_clear (move_segment_queue s)) s in
  let s := set_step_event_queue (step_event_queue_clear (step_event_queue s)) s in
  let s := reset_from_halt s in
  let s := update_maximum_lookback_time s in
  set_engine s st.

(** ** Vocabulary of the statements about the Step-ISR *)

(** The StepEventFlag values are laid out as the Step-ISR reads them: the
    direction flag of axis [a] is the bit STEP_EVENT_FLAG_DIR_SHIFT + a, and
    STEP_EVENT_FLAG_DIR_MASK keeps it. *)
Record step_event_flags_wf : Prop := {
  dir_shift_nonneg : 0 <= STEP_EVENT_FLAG_DIR_SHIFT;
  dir_flag_bit :
    forall a, dir_flag a = Z.shiftl 1 (STEP_EVENT_FLAG_DIR_SHIFT + axis_index a);
  dir_mask_keeps :
    forall a, Z.land STEP_EVENT_FLAG_DIR_MASK (dir_flag a) = dir_flag a
}.

(** The step the event [ev] makes on axis [a]: none, or one step in the
    direction its direction flag gives. *)
Definition step_delta (ev : step_event_t) (a : AxisEnum) : Z :=
  if Z.land (flags ev) (step_flag a) =? 0 then 0
  else if Z.land (flags ev) (dir_flag a) =? 0 then 1 else -1.

(** [count_direction] agrees with the cached direction bits. *)
Definition direction_cache_ok (st : step_isr_t) : Prop :=
  forall a,
    xyze_get (count_direction st) a
    = if Z.testbit (last_direction_bits st) (axis_index a) then -1 else 1.

(** The Step-ISR consumes the step events [l], oldest first, in as many
    calls of [process_one_step_event_from_queue]. *)
Inductive consumes : step_isr_t -> list step_event_t -> step_isr_t -> Prop :=
| consumes_nil st : consumes st [] st
| consumes_cons st slot ev ticks st1 l st' :
    get_current_step_event (step_event_queue (engine st)) = Some slot ->
    sq_data (step_event_queue (engine st)) !! slot = Some ev ->
    process_one_step_event_from_queue st = Some (ticks, st1) ->
    consumes st1 l st' ->
    consumes st (ev :: l) st'.

(** The hardware writes of one step pulse on axis [a] when [ev] steps it. *)
Definition step_pulse (ev : step_event_t) (a : AxisEnum) : list hw_write :=
  if Z.land (flags ev) (step_flag a) =? 0 then [] else [StepSet a; StepReset a].

(** The direction write for axis [a]: none when the direction flag of the
    event [ev] agrees with the cached direction bit in [last]. *)
Definition dir_write (inverted last : Z) (ev : step_event_t) (a : AxisEnum) : list hw_write :=
  if Bool.eqb (negb (Z.land (flags ev) (dir_flag a) =? 0)) (Z.testbit last (axis_index a))
  then []
  else [ApplyDir a
          (Z.land (Z.lxor (Z.land (flags ev) STEP_EVENT_FLAG_DIR_MASK) inverted) (dir_flag a))].

(** One step of the engine while the motion goes on: a pass of the Move-ISR
    producer, a call of [process_queue_of_blocks] that does not reset from a
    halt, at any tick, or a call of the Step-ISR consumer; in any order. *)
Inductive isr_step : step_isr_t -> step_isr_t -> Prop :=
| isr_step_produce st r s' :
    process_one_move_segment_from_queue (engine st) = Some (r, s') ->
    isr_step st (set_engine s' st)
| isr_step_blocks st now :
    (MAX_PRINT_TIME <=? total_print_time (engine st))%float = false ->
    isr_step st (set_engine (process_queue_of_blocks now (engine st)) st)
| isr_step_consume st ticks st' :
    process_one_step_event_from_queue st = Some (ticks, st') ->
    isr_step st st'.

(** The steps the events [l] make on axis [a], with their signs. *)
Definition steps_made (l : list step_event_t) (a : AxisEnum) : Z :=
  foldr Z.add 0 (map (fun ev => step_delta ev a) l).

(** A write to a direction or step pin. *)
Definition is_pin_write (w : hw_write) : Prop :=
  match w with
  | ApplyDir _ _ | StepSet _ | StepReset _ => True
  | DelayUs _ | SetCompare _ => False
  end.

End StepIsr.

(** ** A sample run to the end of a motion

    The board of [Sample] with its Step-ISR: no direction is inverted. A
    block of three steps along -X is compiled, turned into step events by
    the Move-ISR and consumed by the Step-ISR. *)
Module SampleIsr.

Import Sample.

Definition sample_stepper_config : StepperConfig := {|
  STEP_EVENT_FLAG_STEP_Y := 2;
  STEP_EVENT_FLAG_STEP_Z := 4;
  STEP_EVENT_FLAG_STEP_E := 8;
  STEP_EVENT_FLAG_Y_DIR := 32;
  STEP_EVENT_FLAG_Z_DIR := 64;
  STEP_EVENT_FLAG_E_DIR := 128;
  STEP_EVENT_FLAG_DIR_SHIFT := 4;
  STEP_EVENT_FLAG_AXIS_ACTIVE_MASK := 3840;
  STEP_EVENT_FLAG_AXIS_ACTIVE_SHIFT := 8;
  STEPPER_TIMER_RATE := 1000000;
  INVERT_X_DIR := false;
  INVERT_Y_DIR := false;
  INVERT_Z_DIR := false;
  INVERT_E0_DIR := false
|}.

(** A [step_generator_state_restart] that makes the merger ask again the
    generators that had reported the end of the queue: their pending event
    goes from the sentinel DBL_MAX back to 0. *)
Definition sample_restart (sgs : step_generator_state_t) (pool : xyze classic_step_generator_t)
    : step_generator_state_t * xyze classic_step_generator_t :=
  (set_step_events
     (xyze_map (fun ev => if (time ev =? DBL_MAX)%float then StepEventInfo 0 (iflags ev) else ev)
        (step_events sgs)) sgs,
   pool).

(** The configuration of [Sample] with this restart. *)
Definition sample_isr_config : Config := {|
  EPSILON := EPSILON (Config := sample_config);
  EPSILON_DISTANCE := EPSILON_DISTANCE (Config := sample_config);
  MAX_PRINT_TIME := MAX_PRINT_TIME (Config := sample_config);
  MOVE_SEGMENT_QUEUE_SIZE := 8;
  MOVE_SEGMENT_QUEUE_MIN_FREE_SLOTS := 1;
  STEP_EVENT_QUEUE_SIZE := 16;
  MAX_STEP_EVENTS_PRODUCED_PER_ONE_CALL := 4;
  BLOCK_BUFFER_SIZE := 16;
  MOVE_FLAG_ACCELERATION_PHASE := 1;
  MOVE_FLAG_DECELERATION_PHASE := 2;
  MOVE_FLAG_CRUISE_PHASE := 4;
  MOVE_FLAG_DIR_SHIFT := 4;
  MOVE_FLAG_X_ACTIVE := 256;
  MOVE_FLAG_Y_ACTIVE := 512;
  MOVE_FLAG_Z_ACTIVE := 1024;
  MOVE_FLAG_E_ACTIVE := 2048;
  MOVE_FLAG_FIRST_MOVE_SEGMENT_OF_BLOCK := 4096;
  MOVE_FLAG_LAST_MOVE_SEGMENT_OF_BLOCK := 8192;
  MOVE_FLAG_BEGINNING_EMPTY_MOVE := 16384;
  MOVE_FLAG_ENDING_EMPTY_MOVE := 32768;
  STEP_EVENT_FLAG_STEP_X := 1;
  STEP_EVENT_FLAG_X_DIR := 16;
  STEP_EVENT_FLAG_X_ACTIVE := 256;
  STEP_EVENT_FLAG_BEGINNING_OF_MOVE_SEGMENT := 4096;
  STEP_EVENT_END_OF_MOTION := 8192;
  STEP_EVENT_FLAG_AXIS_MASK := 15;
  STEP_EVENT_FLAG_AXIS_OTHER_MASK := 12288;
  STEP_EVENT_FLAG_DIR_MASK := 240;
  mm_per_step := mm_per_step (Config := sample_config);
  mm_per_half_step := mm_per_half_step (Config := sample_config);
  is_move := is_move (Config := sample_config);
  nonbusy_movesplanned := nonbusy_movesplanned (Config := sample_config);
  has_blocks_queued := has_blocks_queued (Config := sample_config);
  calc_time_for_distance := sample_calc_time_for_distance;
  calc_end_position := sample_calc_end_position;
  get_move_step_dir := sample_get_move_step_dir;
  step_generator_state_update_nearest_idx := sample_update_nearest_idx;
  step_generator_state_restart := sample_restart;
  step_generator_state_clear := set_initialized false
|}.

(** Three steps along -X: 0.03 mm from rest to rest. *)
Definition block_short : block_t :=
  Block (XYZE 3 0 0 0) 1 0.03 1000 0 200 0 false (XYZE 0 0 0 0).

(** A sync block that sets the position (5, 6, 7, 8). *)
Definition block_sync : block_t :=
  Block (XYZE 0 0 0 0) 0 0 0 0 0 0 true (XYZE 5 6 7 8).

(** [n] runs of the Move-ISR, the clock at 0. *)
Fixpoint sample_move_isr (n : nat) (s : state) : state :=
  match n with
  | O => s
  | S n =>
      match move_isr (cfg := sample_isr_config) (fun _ => 0) s with
      | Some s' => sample_move_isr n s'
      | None => s
      end
  end.

(** The short block handed to the planner of a freshly started board. *)
Definition sample_short_start : state :=
  set_planner (Planner [block_short] 0 0) boot.

(** The board at power-on, before [PreciseStepping::init]. *)
Definition power_on_isr : step_isr_t :=
  StepIsr boot 0 0 0 (XYZE 0 0 0 0) (XYZE 0 0 0 0) (XYZE 0 0 0 0) [].

(** The board after [PreciseStepping::init], and the Step-ISR of that board
    in front of the engine state [s]. *)
Definition boot_isr : step_isr_t :=
  init (cfg := sample_isr_config) (scfg := sample_stepper_config) power_on_isr.

Definition sample_isr (s : state) : step_isr_t := set_engine s boot_isr.

(** [n] step events consumed by the Step-ISR. *)
Fixpoint sample_consume (n : nat) (st : step_isr_t) : step_isr_t :=
  match n with
  | O => st
  | S n =>
      match process_one_step_event_from_queue (cfg := sample_isr_config)
              (scfg := sample_stepper_config) st with
      | Some (_, st') => sample_consume n st'
      | None => st
      end
  end.

(** The producer out of step events for the short block: three runs of the
    Move-ISR and one more pass of [process_one_move_segment_from_queue];
    every generator has reported the end of the queue. *)
Definition sample_short_drained : state :=
  match process_one_move_segment_from_queue (cfg := sample_isr_config)
          (sample_move_isr 3 sample_short_start) with
  | Some (_, s) => s
  | None => boot
  end.

(** The ending empty move queued behind the short block. *)
Definition sample_short_ended : state :=
  process_queue_of_blocks (cfg := sample_isr_config) 0 sample_short_drained.

(** The next pass of the producer just before it looks at the ending empty
    move: the for loop of [process_one_move_segment_from_queue] has run. *)
Definition sample_short_closing : state :=
  let '(sgs, pool) :=
    sample_restart (step_generator_state sample_short_ended)
      (step_generators_pool sample_short_ended) in
  let s := set_step_generators_pool pool (set_step_generator_state sgs sample_short_ended) in
  match produce_step_events (cfg := sample_isr_config) 4
          (total_print_time s - max_lookback_time s)%float s with
  | Some (_, s') => s'
  | None => s
  end.

(** The short block turned into step events up to the end of the motion
    (four runs of the Move-ISR). *)
Definition sample_short_done : state := sample_move_isr 4 sample_short_start.

(** The Step-ISR in front of the step events of the short block. *)
Definition sample_isr_done : step_isr_t := sample_isr sample_short_done.

(** One run of [step_isr] with the timer's compare register at 100 and its
    counter at 101, then 102. *)
Definition sample_step_isr (st : step_isr_t) : step_isr_t :=
  match step_isr (cfg := sample_isr_config) (scfg := sample_stepper_config) 100 101 102 st with
  | Some st' => st'
  | None => st
  end.

(** The Step-ISR about to retire the last move segment of the short block,
    with a planner that has lost the block. *)
Definition sample_isr_no_block : step_isr_t :=
  let st := sample_consume 3 sample_isr_done in
  set_engine (set_planner (Planner [] 0 0) (engine st)) st.

(** One pass of the producer and one call of [process_queue_of_blocks], at
    tick 0, behind the Step-ISR. *)
Definition sample_produce_isr (st : step_isr_t) : step_isr_t :=
  match process_one_move_segment_from_queue (cfg := sample_isr_config) (engine st) with
  | Some (_, s) => set_engine s st
  | None => st
  end.

Definition sample_blocks_isr (st : step_isr_t) : step_isr_t :=
  set_engine (process_queue_of_blocks (cfg := sample_isr_config) 0 (engine st)) st.

(** The short block taken in, three passes of the producer, and the first
    step event consumed. *)
Definition sample_interleaved : step_isr_t :=
  sample_consume 1
    (sample_produce_isr
       (sample_produce_isr
          (sample_produce_isr (sample_blocks_isr (sample_isr sample_short_start))))).

(** The producer of [Sample] with a full step event queue. *)
Definition sample_full : state := sample_produce 5 sample_loaded.

(** A sync block ahead of the first move of a freshly started board. *)
Definition sample_sync_start : state :=
  set_planner (Planner [block_sync; block_S1] 0 0) boot.

(** A sync block behind a move that has been compiled. *)
Definition sample_sync_motion : state :=
  process_queue_of_blocks (cfg := sample_isr_config) 0
    (set_planner (Planner [block_short; block_sync] 0 0) boot).

(** A short diagonal block: three steps along +X and along +Y at once. *)
Definition block_XY_short : block_t :=
  Block (XYZE 3 3 0 0) 0 (float32 0x1.5b8e9cp-5) 1000 0 200 0 false (XYZE 0 0 0 0).

(** Two such blocks with a sync block between them, compiled into move
    segments on the board of [Sample]. *)
Definition sample_XY_sync_loaded : state :=
  let s := set_planner (Planner [block_XY_short; block_sync; block_XY_short] 0 0) boot in
  process_queue_of_blocks (cfg := sample_config) 0
    (process_queue_of_blocks (cfg := sample_config) 0
       (process_queue_of_blocks (cfg := sample_config) 0 s)).

(** The third and the fourth pass of the loop in the third run of the
    producer over them: the first X step and the first Y step of the second
    diagonal block. *)
Definition sample_XY_sync_third : step_event_t * state * state :=
  sample_pass (snd (sample_pass (snd (sample_pass (sample_produce 2 sample_XY_sync_loaded))))).

Definition sample_XY_sync_fourth : step_event_t * state * state :=
  sample_pass (snd sample_XY_sync_third).

End SampleIsr.


(** * Properties *)

(** ** Arithmetic of ring indices *)

Lemma mod_cases (a n : nat) :
  (0 < n)%nat -> (a < 2 * n)%nat -> (a mod n = if (a <? n)%nat then a else a - n)%nat.
Proof.
  intros Hn Ha. destruct (Nat.ltb_spec a n) as [H|H].
  - apply Nat.mod_small; lia.
  - replace a with ((a - n) + 1 * n)%nat at 1 by lia.
    rewrite Nat.Div0.mod_add. apply Nat.mod_small; lia.
Qed.

Lemma omap_ext_in {A B} (f g : A -> option B) (l : list A) :
  (forall x, In x l -> f x = g x) -> omap f l = omap g l.
Proof.
  induction l as [|x l IH]; intros H; [reflexivity|]. cbn.
  rewrite (H x) by now left. rewrite IH; [reflexivity|].
  intros y Hy. apply H. now right.
Qed.

Lemma ring_push {A} (n : nat) (data : list A) (head tail : nat) (v : A) :
  length data = n -> (head < n)%nat -> (tail < n)%nat ->
  tail <> ((head + 1) mod n)%nat ->
  ring_contents n (<[head := v]> data) ((head + 1) mod n)%nat tail
  = ring_contents n data head tail ++ [v].
Proof.
  intros Hlen Hh Ht Hfull. unfold ring_contents.
  assert (Hn : (0 < n)%nat) by lia.
  rewrite (mod_cases (head + 1) n) in * by lia.
  rewrite (mod_cases (head + n - tail) n) by lia.
  assert (Hsz : (((if (head + 1 <? n)%nat then (head + 1)%nat else (head + 1 - n)%nat) + n - tail) mod n
                 = S (if (head + n - tail <? n)%nat then (head + n - tail)%nat else (head + n - tail - n)%nat))%nat).
  { rewrite mod_cases by (destruct (Nat.ltb_spec (head + 1) n); lia).
    destruct (Nat.ltb_spec (head + 1) n), (Nat.ltb_spec (head + n - tail) n);
      repeat match goal with |- context [(?a <? ?b)%nat] => destruct (Nat.ltb_spec a b) end; lia. }
  rewrite Hsz. rewrite seq_S, omap_app. f_equal.
  - apply omap_ext_in. intros k Hk. apply in_seq in Hk.
    apply list_lookup_insert_ne.
    rewrite mod_cases by (destruct (Nat.ltb_spec (head + n - tail) n); lia).
    destruct (Nat.ltb_spec (head + n - tail) n), (Nat.ltb_spec (tail + k) n); lia.
  - cbn [omap list_omap Nat.add].
    replace ((tail + _) mod n)%nat with head.
    + rewrite list_lookup_insert_eq by lia. reflexivity.
    + rewrite mod_cases by (destruct (Nat.ltb_spec (head + n - tail) n); lia).
      destruct (Nat.ltb_spec (head + n - tail) n);
      repeat match goal with |- context [(?a <? ?b)%nat] => destruct (Nat.ltb_spec a b) end; lia.
Qed.

(** ** Doubles: signs, comparisons with zero, truncation *)

Lemma Prim2SF_zero : Prim2SF 0%float = S754_zero false.
Proof. reflexivity. Qed.

Lemma ltb_zero_false x : (x <? 0)%float = false -> SF_nonneg (Prim2SF x).
Proof.
  rewrite ltb_spec, Prim2SF_zero. unfold SFltb.
  destruct (Prim2SF x) as [s|s| |s m e]; simpl; try easy; destruct s; easy.
Qed.

Lemma leb_zero_true x : (0 <=? x)%float = true -> SF_nonneg (Prim2SF x).
Proof.
  rewrite leb_spec, Prim2SF_zero. unfold SFleb.
  destruct (Prim2SF x) as [s|s| |s m e]; simpl; try easy; destruct s; easy.
Qed.

Lemma binary_round_aux_sign p em s m e l :
  match binary_round_aux p em s m e l with
  | S754_finite s' _ _ | S754_infinity s' | S754_zero s' => s' = s
  | S754_nan => True
  end.
Proof.
  unfold binary_round_aux.
  destruct (shr_fexp p em m e l) as [mrs' e'].
  destruct (shr_fexp p em _ e' loc_Exact) as [mrs'' e''].
  destruct (shr_m mrs''); try easy.
  destruct (e'' <=? em - p); easy.
Qed.

Lemma SFmul_nonneg x y :
  SF_nonneg x -> SF_nonneg y -> SF_nonneg (SFmul prec emax x y).
Proof.
  destruct x as [sx|sx| |sx mx ex], y as [sy|sy| |sy my ey]; simpl; intros; subst; try easy.
  pose proof (binary_round_aux_sign prec emax (xorb false false) (Z.pos (mx * my)) (ex + ey) loc_Exact) as H.
  destruct (binary_round_aux _ _ _ _ _ _); simpl in *; easy.
Qed.

Lemma trunc_SF_nonneg x z : SF_nonneg x -> trunc_SF x = Some z -> 0 <= z.
Proof.
  destruct x as [s|s| |s m e]; simpl; intros Hs H; try discriminate.
  - injection H as <-. lia.
  - injection H as <-. subst s. simpl. apply Z.shiftl_nonneg. lia.
Qed.

Lemma double_to_int32_Some x z :
  double_to_int32 x = Some z -> trunc_SF (Prim2SF x) = Some z /\ in_int32 z.
Proof.
  unfold double_to_int32, in_int32. destruct (trunc_SF (Prim2SF x)) as [t|]; [|easy].
  destruct (- 2 ^ 31 <=? t) eqn:E1; [|easy]. destruct (t <? 2 ^ 31) eqn:E2; [|easy].
  simpl. intros [= <-]. split; [easy|]. lia.
Qed.

(** The clamp of [generate_next_step_event] followed by its conversion. *)
Lemma clamped_ticks_nonneg (rel tps : float) z :
  (0 <=? tps)%float = true ->
  double_to_int32 ((if (rel <? 0)%float then 0%float else rel) * tps)%float = Some z ->
  0 <= z.
Proof.
  intros Htps H. apply double_to_int32_Some in H as [H _].
  rewrite mul_spec in H. eapply trunc_SF_nonneg; [|exact H].
  apply SFmul_nonneg.
  - destruct (rel <? 0)%float eqn:E; [rewrite Prim2SF_zero; easy|].
    now apply ltb_zero_false.
  - now apply leb_zero_true.
Qed.

Lemma trunc_SF_spec x z : trunc_SF x = Some z -> is_truncation_of x z.
Proof.
  destruct x as [s|s| |s m e]; simpl; intros H; try discriminate.
  - now injection H.
  - injection H as <-. exists (Z.shiftl (Z.pos m) e). split; [easy|].
    destruct (Z.le_gt_cases 0 e) as [He|He].
    + rewrite Z.shiftl_mul_pow2 by easy.
      rewrite (Z.max_r 0 e), (Z.max_l 0 (- e)) by lia.
      change (2 ^ 0) with 1. split; [|lia]. apply Z.mul_nonneg_nonneg; [lia|]. apply Z.pow_nonneg; lia.
    + rewrite Z.shiftl_div_pow2 by lia.
      rewrite (Z.max_l 0 e), (Z.max_r 0 (- e)) by lia.
      change (2 ^ 0) with 1.
      assert (Hp : 0 < 2 ^ (- e)) by (apply Z.pow_pos_nonneg; lia).
      split; [apply Z.div_pos; lia|].
      pose proof (Z.mul_div_le (Z.pos m) (2 ^ (- e)) Hp).
      pose proof (Z.mul_succ_div_gt (Z.pos m) (2 ^ (- e)) Hp).
      lia.
Qed.

Lemma not_ltb_pos_neq0 (c eps : float) :
  (0 <? eps)%float = true -> (c <? eps)%float = false -> fneq c 0 = true.
Proof.
  unfold fneq. intros H1 H2. rewrite ltb_spec, Prim2SF_zero in H1.
  rewrite ltb_spec in H2. rewrite FloatAxioms.eqb_spec, Prim2SF_zero.
  revert H1 H2. unfold SFltb, SFeqb.
  destruct (Prim2SF c) as [s|s| |s m e], (Prim2SF eps) as [s'|s'| |s' m' e']; simpl;
    try easy; try (destruct s; easy); try (destruct s'; easy).
Qed.

Lemma not_leb_pos_neq0 (c eps : float) :
  (0 <? eps)%float = true -> (c <=? eps)%float = false -> fneq c 0 = true.
Proof.
  unfold fneq. intros H1 H2. rewrite ltb_spec, Prim2SF_zero in H1.
  rewrite leb_spec in H2. rewrite FloatAxioms.eqb_spec, Prim2SF_zero.
  revert H1 H2. unfold SFltb, SFleb, SFeqb.
  destruct (Prim2SF c) as [s|s| |s m e], (Prim2SF eps) as [s'|s'| |s' m' e']; simpl;
    try easy; try (destruct s; easy); try (destruct s'; easy).
Qed.

Lemma pos_neq0 (m : float) : (0 <? m)%float = true -> fneq m 0 = true.
Proof.
  unfold fneq. intros H. rewrite ltb_spec, Prim2SF_zero in H.
  rewrite FloatAxioms.eqb_spec, Prim2SF_zero. revert H. unfold SFltb, SFeqb.
  destruct (Prim2SF m) as [s|s| |s mm e]; simpl; try easy; destruct s; easy.
Qed.

Lemma pos_sub_zero (m : float) : (0 <? m)%float = true -> (m - 0)%float = m.
Proof.
  intros H. apply Prim2SF_inj. rewrite sub_spec, Prim2SF_zero.
  revert H. rewrite ltb_spec, Prim2SF_zero. unfold SFltb.
  destruct (Prim2SF m) as [s|s| |s mm e]; simpl; try easy.
Qed.

Lemma pos_fmax_zero (m : float) : (0 <? m)%float = true -> fmax m 0 = m.
Proof.
  unfold fmax. intros H. replace (m <? 0)%float with false; [easy|].
  rewrite ltb_spec, Prim2SF_zero in H. rewrite ltb_spec, Prim2SF_zero.
  revert H. unfold SFltb.
  destruct (Prim2SF m) as [s|s| |s mm e]; simpl; try easy; destruct s; easy.
Qed.


(** ** Per-axis tuples *)

Lemma xyze_get_set_eq {A} (v : xyze A) a w : xyze_get (xyze_set v a w) a = w.
Proof. now destruct a. Qed.

Lemma xyze_get_set_ne {A} (v : xyze A) a b w :
  a <> b -> xyze_get (xyze_set v a w) b = xyze_get v b.
Proof. destruct a, b; intros H; try reflexivity; contradiction. Qed.

(** ** Block to segment compiler *)

Section BlockCompiler.

Context `{cfg : Config}.

Lemma move_blocks_required_bounds (t : trapezoid) : 0 <= move_blocks_required t <= 3.
Proof.
  unfold move_blocks_required.
  destruct (fneq (accel_dist t) 0), (fneq (decel_dist t) 0), (fneq (cruise_dist t) 0); simpl; lia.
Qed.

Lemma block_trapezoid_present (b : block_t) :
  (0 <? EPSILON_DISTANCE)%float = true ->
  (0 <? millimeters b)%float = true ->
  1 <= move_blocks_required (block_trapezoid b).
Proof.
  intros Heps Hmm.
  assert (forall t, fneq (accel_dist t) 0 = true \/ fneq (decel_dist t) 0 = true \/
                    fneq (cruise_dist t) 0 = true -> 1 <= move_blocks_required t) as Hcount.
  { intros t. unfold move_blocks_required.
    destruct (fneq (accel_dist t) 0), (fneq (decel_dist t) 0), (fneq (cruise_dist t) 0);
      simpl; intuition (try lia; try discriminate). }
  apply Hcount. unfold block_trapezoid.
  match goal with |- context [if ?c then _ else _] => destruct c eqn:Hc end; simpl.
  - unfold calc_distance_in_which_we_start_decelerating_clamped.
    match goal with |- context [if ?c then _ else _] => destruct c eqn:H1 end.
    + right; left. rewrite pos_sub_zero, pos_fmax_zero by easy. now apply pos_neq0.
    + match goal with |- context [if ?c then _ else _] => destruct c eqn:H2 end.
      * left. now apply pos_neq0.
      * left. now apply (not_leb_pos_neq0 _ EPSILON_DISTANCE).
  - right; right. now apply (not_ltb_pos_neq0 _ EPSILON_DISTANCE).
Qed.
Lemma move_segment_queue_contents_ring q :
  move_segment_queue_contents q
  = ring_contents MOVE_SEGMENT_QUEUE_SIZE (mq_data q) (mq_head q) (mq_tail q).
Proof. reflexivity. Qed.

Lemma ring_size_push (n head tail : nat) :
  (head < n)%nat -> (tail < n)%nat -> tail <> ((head + 1) mod n)%nat ->
  ((((head + 1) mod n) + n - tail) mod n = S ((head + n - tail) mod n))%nat.
Proof.
  intros Hh Ht Hfull.
  rewrite (mod_cases (head + 1) n) in * by lia.
  rewrite (mod_cases (head + n - tail) n) by lia.
  rewrite mod_cases by (destruct (Nat.ltb_spec (head + 1) n); lia).
  repeat match goal with
         | |- context [(?a <? ?b)%nat] => destruct (Nat.ltb_spec a b)
         | H : context [(?a <? ?b)%nat] |- _ => destruct (Nat.ltb_spec a b)
         end; lia.
Qed.

Lemma ring_not_full (n head tail : nat) :
  (head < n)%nat -> (tail < n)%nat ->
  (S ((head + n - tail) mod n) < n)%nat -> tail <> ((head + 1) mod n)%nat.
Proof.
  intros Hh Ht. rewrite (mod_cases (head + 1) n), (mod_cases (head + n - tail) n) by lia.
  repeat match goal with
         | |- context [(?a <? ?b)%nat] => destruct (Nat.ltb_spec a b)
         end; lia.
Qed.

Lemma mod_lt_pos (a n : nat) : (0 < n)%nat -> (a mod n < n)%nat.
Proof. intros. apply Nat.mod_upper_bound. lia. Qed.

(** A push into a move segment queue with a free slot. *)
Lemma append_move_segment_to_queue_free mt sv ha pt ar sp fl s :
  move_segment_queue_wf (move_segment_queue s) ->
  1 <= move_segment_queue_free_slots (move_segment_queue s) ->
  exists q',
    append_move_segment_to_queue mt sv ha pt ar sp fl s = (true, set_move_segment_queue q' s)
    /\ move_segment_queue_wf q'
    /\ move_segment_queue_free_slots q' = move_segment_queue_free_slots (move_segment_queue s) - 1
    /\ move_segment_queue_contents q'
       = move_segment_queue_contents (move_segment_queue s) ++ [Move mt sv ha pt ar sp fl 0].
Proof.
  intros (Hlen & Hh & Ht) Hfree.
  unfold append_move_segment_to_queue, get_next_free_move_segment, is_move_segment_queue_full.
  unfold move_segment_queue_free_slots, move_segment_queue_size in *.
  set (q := move_segment_queue s) in *.
  assert (Hnf : mq_tail q <> move_segment_queue_next_index (mq_head q)).
  { apply ring_not_full; lia. }
  destruct (Nat.eqb_spec (mq_tail q) (move_segment_queue_next_index (mq_head q))); [easy|].
  eexists. split; [reflexivity|]. unfold move_segment_queue_next_index in *.
  split; [|split].
  - repeat split; simpl; [now rewrite length_insert| apply mod_lt_pos; lia | easy].
  - simpl. rewrite ring_size_push by easy. lia.
  - rewrite !move_segment_queue_contents_ring. simpl. now apply ring_push.
Qed.

Lemma land_lor_nz_l a b f : Z.land a f <> 0 -> Z.land (Z.lor a b) f <> 0.
Proof. rewrite Z.land_lor_distr_l, Z.lor_eq_0_iff. tauto. Qed.

Lemma land_lor_nz_r a b f : Z.land b f <> 0 -> Z.land (Z.lor a b) f <> 0.
Proof. rewrite Z.land_lor_distr_l, Z.lor_eq_0_iff. tauto. Qed.

Lemma land_lor_0 a b f : Z.land a f = 0 -> Z.land b f = 0 -> Z.land (Z.lor a b) f = 0.
Proof. intros Ha Hb. now rewrite Z.land_lor_distr_l, Ha, Hb. Qed.

Lemma land_if_0 (c : bool) a f : Z.land a f = 0 -> Z.land (if c then a else 0) f = 0.
Proof. now destruct c. Qed.

Lemma block_dir_flags_disjoint b f :
  Z.land (Z.shiftl 15 MOVE_FLAG_DIR_SHIFT) f = 0 -> Z.land (block_dir_flags b) f = 0.
Proof.
  intros H. unfold block_dir_flags.
  now rewrite Z.shiftl_land, <- Z.land_assoc, H, Z.land_0_r.
Qed.

Lemma active_axis_flags_disjoint b f :
  Z.land MOVE_FLAG_X_ACTIVE f = 0 -> Z.land MOVE_FLAG_Y_ACTIVE f = 0 ->
  Z.land MOVE_FLAG_Z_ACTIVE f = 0 -> Z.land MOVE_FLAG_E_ACTIVE f = 0 ->
  Z.land (get_active_axis_flags_from_block b) f = 0.
Proof.
  intros. unfold get_active_axis_flags_from_block.
  repeat apply land_lor_0; now apply land_if_0.
Qed.

Lemma segment_flags_phase phase a1 a2 b :
  phase <> 0 -> Z.land (segment_flags phase a1 a2 b) phase <> 0.
Proof.
  intros H. unfold segment_flags. do 4 apply land_lor_nz_l. now rewrite Z.land_diag.
Qed.

Lemma segment_flags_marker phase a1 a2 b f :
  Z.land phase f = 0 -> Forall (fun m => Z.land m f = 0) move_flag_others ->
  Z.land (segment_flags phase a1 a2 b) f = Z.lor (Z.land a1 f) (Z.land a2 f).
Proof.
  intros Hp Ho. unfold move_flag_others in Ho.
  repeat match goal with H : Forall _ (_ :: _) |- _ => apply Forall_cons in H as [? H] end.
  unfold segment_flags. rewrite !Z.land_lor_distr_l, Hp.
  rewrite block_dir_flags_disjoint, active_axis_flags_disjoint by easy.
  now rewrite !Z.lor_0_r.
Qed.
Ltac push_segment :=
  match goal with
  | H : context [append_move_segment_to_queue ?mt ?sv ?ha ?pt ?ar ?sp ?fl ?s] |- _ =>
      lazymatch s with
      | context [append_move_segment_to_queue] => fail
      | _ => idtac
      end;
      let q := fresh "q" in
      let E := fresh "E" in
      let Hwf := fresh "Hwf" in
      let Hfr := fresh "Hfr" in
      let Hc := fresh "Hc" in
      destruct (append_move_segment_to_queue_free mt sv ha pt ar sp fl s)
        as (q & E & Hwf & Hfr & Hc);
      [ cbn [move_segment_queue set_move_segment_queue]; assumption
      | cbn [move_segment_queue set_move_segment_queue]; lia
      | rewrite !E in H; clear E; cbn [snd] in H;
        cbn [move_segment_queue set_move_segment_queue] in Hfr, Hc ]
  end.


Lemma has_move_flag_marker f p a1 a2 b mt sv ha pt ar sp rc :
  Z.land p f = 0 -> Forall (fun m => Z.land m f = 0) move_flag_others ->
  has_move_flag f (Move mt sv ha pt ar sp (segment_flags p a1 a2 b) rc)
  = negb (Z.lor (Z.land a1 f) (Z.land a2 f) =? 0).
Proof. intros. unfold has_move_flag. cbn [mflags]. now rewrite segment_flags_marker. Qed.

Lemma has_move_flag_phase p a1 a2 b mt sv ha pt ar sp rc :
  p <> 0 -> has_move_flag p (Move mt sv ha pt ar sp (segment_flags p a1 a2 b) rc) = true.
Proof.
  intros. unfold has_move_flag. cbn [mflags].
  apply negb_true_iff, Z.eqb_neq. now apply segment_flags_phase.
Qed.

Lemma phase_marker_disjoint f :
  Forall (fun m => Z.land m f = 0) move_flag_others ->
  Z.land MOVE_FLAG_ACCELERATION_PHASE f = 0
  /\ Z.land MOVE_FLAG_CRUISE_PHASE f = 0
  /\ Z.land MOVE_FLAG_DECELERATION_PHASE f = 0.
Proof.
  unfold move_flag_others. intros Ho.
  repeat match goal with H : Forall _ (_ :: _) |- _ => apply Forall_cons in H as [? H] end.
  easy.
Qed.

Ltac phase_split la lc :=
  match goal with
  | |- phases_in_order ?l =>
      exists (take la l), (take lc (drop la l)), (drop (la + lc) l);
      cbn [take drop app length Nat.add];
      split; [reflexivity|];
      split; [lia|]; split; [lia|]; split; [lia|];
      repeat split; repeat constructor;
      apply has_move_flag_phase; assumption
  end.

Ltac solve_phases :=
  first [ solve [phase_split 1%nat 1%nat] | solve [phase_split 1%nat 0%nat]
        | solve [phase_split 0%nat 1%nat] | solve [phase_split 0%nat 0%nat] ].

(** C3 (amended): for a block of positive length for which
    [append_move_segments_to_queue] returns true, between one and three
    segments are pushed onto the move segment queue, in the order accel,
    cruise, decel, each starting at the print time at which the one before it
    ends; exactly one of them carries FirstSegOfBlock and exactly one
    LastSegOfBlock. *)
Theorem append_move_segments_to_queue_pushes (b : block_t) (s s' : state) :
  move_flags_wf ->
  (0 <? EPSILON_DISTANCE)%float = true ->
  0 <= MOVE_SEGMENT_QUEUE_MIN_FREE_SLOTS ->
  move_segment_queue_wf (move_segment_queue s) ->
  (0 <? millimeters b)%float = true ->
  append_move_segments_to_queue b s = (true, s') ->
  exists segs : list move_t,
    move_segment_queue_contents (move_segment_queue s')
    = move_segment_queue_contents (move_segment_queue s) ++ segs
    /\ (1 <= length segs <= 3)%nat
    /\ phases_in_order segs
    /\ print_time_chain (total_print_time s) segs (total_print_time s')
    /\ count_move_flag MOVE_FLAG_FIRST_MOVE_SEGMENT_OF_BLOCK segs = 1%nat
    /\ count_move_flag MOVE_FLAG_LAST_MOVE_SEGMENT_OF_BLOCK segs = 1%nat.
Proof.
  intros Hfl Heps Hmin Hwf Hmm H.
  pose proof (block_trapezoid_present b Heps Hmm) as Hreq.
  unfold append_move_segments_to_queue in H.
  set (t := block_trapezoid b) in *.
  destruct (_ <? _) eqn:Hfree in H; [discriminate|].
  apply Z.ltb_ge in Hfree.
  unfold move_blocks_required in *.
  change (Z.lor (Z.lor (Z.lor (Z.lor ?p ?a1) ?a2) (block_dir_flags b))
                (get_active_axis_flags_from_block b))
    with (segment_flags p a1 a2 b) in H.
  clearbody t.
  destruct (fneq (accel_dist t) 0), (fneq (cruise_dist t) 0), (fneq (decel_dist t) 0);
    cbn [Z.b2z Z.add Pos.add Pos.succ orb negb] in H, Hreq, Hfree; try lia.
  all: cbv zeta in H.
  all: repeat push_segment.
  all: injection H as <-.
  all: cbn [move_segment_queue total_print_time reset_reached_end_of_move_queue_flag
            set_step_generators_pool set_total_print_time set_total_start_pos
            set_total_start_pos_steps set_move_segment_queue].
  all: repeat match goal with
         | Hc : move_segment_queue_contents ?q = _ |- context [move_segment_queue_contents ?q] =>
             rewrite Hc; clear Hc
         end.
  all: rewrite <- ?app_assoc.
  all: eexists; split; [reflexivity|]; cbn [app].
  all: split; [cbn [length]; lia|].
  all: destruct Hfl as [Ha Hcr Hd Hf Hl Hlf Hfo Hlo].
  all: destruct (phase_marker_disjoint _ Hfo) as (Hfa & Hfc & Hfd).
  all: destruct (phase_marker_disjoint _ Hlo) as (Hla & Hlc & Hld).
  all: assert (Hfl' : Z.land MOVE_FLAG_FIRST_MOVE_SEGMENT_OF_BLOCK MOVE_FLAG_LAST_MOVE_SEGMENT_OF_BLOCK = 0)
         by (now rewrite Z.land_comm).
  all: split; [solve_phases|].
  all: split; [cbn [print_time_chain print_time move_time]; repeat split|].
  all: unfold count_move_flag; cbn [List.filter].
  all: rewrite !has_move_flag_marker by assumption.
  all: rewrite ?Z.land_diag, ?Z.land_0_l, ?Hlf, ?Hfl', ?Z.lor_0_l, ?Z.lor_0_r.
  all: change (0 =? 0) with true; cbn [negb].
  all: repeat match goal with
         | |- context [?f =? 0] =>
             let E := fresh in destruct (Z.eqb_spec f 0) as [E|E]; [contradiction|clear E]
         end; cbn [negb length].
  all: split; reflexivity.
Qed.

End BlockCompiler.

Section BlockProperties.

Context `{cfg : Config}.

Lemma append_move_segment_to_queue_frame mt sv ha pt ar sp fl s :
  let s' := snd (append_move_segment_to_queue mt sv ha pt ar sp fl s) in
  total_start_pos_steps s' = total_start_pos_steps s
  /\ planner s' = planner s
  /\ step_event_queue s' = step_event_queue s.
Proof.
  unfold append_move_segment_to_queue.
  destruct (get_next_free_move_segment _) as [[m h]|]; easy.
Qed.

(** C8: after a successful [append_move_segments_to_queue] the integer
    accumulator [total_start_pos_steps] is its previous value plus the
    block's direction-signed step counts (in 32-bit arithmetic, hence exactly
    whenever the sum fits), and [total_start_pos] is recomputed from the new
    accumulator, axis by axis, as steps times [mm_per_step]. *)
Theorem append_move_segments_to_queue_position (b : block_t) (s s' : state) :
  append_move_segments_to_queue b s = (true, s') ->
  (forall i,
     xyze_get (total_start_pos_steps s') i
     = int32 (xyze_get (total_start_pos_steps s) i
              + xyze_get (get_oriented_steps_from_block b) i))
  /\ (forall i,
        0 <= xyze_get (steps b) i < 2 ^ 31 ->
        in_int32 (xyze_get (total_start_pos_steps s) i + signed_steps b i) ->
        xyze_get (total_start_pos_steps s') i
        = xyze_get (total_start_pos_steps s) i + signed_steps b i)
  /\ (forall i,
        xyze_get (total_start_pos s') i
        = (Z_to_double (xyze_get (total_start_pos_steps s') i) * mm_per_step i)%float).
Proof.
  intros H.
  assert (Hsteps : total_start_pos_steps s'
                   = xyze_map2 (fun a b => int32 (a + b)) (total_start_pos_steps s)
                       (get_oriented_steps_from_block b)
                   /\ total_start_pos s'
                      = convert_oriented_steps_to_distance (total_start_pos_steps s')).
  { unfold append_move_segments_to_queue in H.
    destruct (_ <? _) in H; [discriminate|].
    destruct (fneq (accel_dist _) 0), (fneq (cruise_dist _) 0), (fneq (decel_dist _) 0);
      cbv zeta in H; injection H as <-;
      cbn [total_start_pos_steps total_start_pos reset_reached_end_of_move_queue_flag
           set_step_generators_pool set_total_print_time set_total_start_pos
           set_total_start_pos_steps];
      repeat (rewrite (proj1 (append_move_segment_to_queue_frame _ _ _ _ _ _ _ _)));
      split; reflexivity. }
  destruct Hsteps as [Hs Hp].
  assert (H1 : forall i,
             xyze_get (total_start_pos_steps s') i
             = int32 (xyze_get (total_start_pos_steps s) i
                      + xyze_get (get_oriented_steps_from_block b) i)).
  { intros i. rewrite Hs. now destruct i. }
  split; [exact H1|]. split.
  - intros i Hr Hfit. rewrite H1.
    assert (Ho : xyze_get (get_oriented_steps_from_block b) i = signed_steps b i).
    { assert (Hfits : forall v, - 2 ^ 31 <= v < 2 ^ 31 -> int32 v = v).
      { intros v Hv. unfold int32. rewrite Z.mod_small by lia. lia. }
      unfold get_oriented_steps_from_block, signed_steps.
      destruct i; cbn [xyze_get xyze_map2 ax_x ax_y ax_z ax_e] in *;
        destruct (Z.land (direction_bits b) _ =? 0);
        match goal with |- context [int32 (?f (steps b))] =>
          rewrite (Hfits (f (steps b))) by lia end;
        rewrite Hfits by lia; lia. }
    rewrite Ho. unfold int32, in_int32 in *. rewrite Z.mod_small by lia. lia.
  - intros i. rewrite Hp. now destruct i.
Qed.

(** C4: when the free slots of the move segment queue are fewer than the
    present phases plus MOVE_SEGMENT_QUEUE_MIN_FREE_SLOTS,
    [append_move_segments_to_queue] returns false and changes nothing (the
    queue, [total_print_time], [total_start_pos], [total_start_pos_steps]
    included); [process_queue_of_blocks] moves the planner's cursor past a
    move block only when the append returned true, and a block rejected for
    lack of slots is still the current unprocessed block afterwards. *)
Theorem append_move_segments_to_queue_backpressure (b : block_t) (now : Z) (s : state) :
  get_current_unprocessed_block (planner s) = Some b ->
  is_move b = true ->
  (move_segment_queue_free_slots (move_segment_queue s)
     < move_blocks_required (block_trapezoid b) + MOVE_SEGMENT_QUEUE_MIN_FREE_SLOTS ->
   append_move_segments_to_queue b s = (false, s))
  /\ (processed (planner (process_queue_of_blocks now s)) = processed (planner s)
      \/ exists s1 s2,
           append_move_segments_to_queue b s1 = (true, s2)
           /\ process_queue_of_blocks now s
              = set_planner (discard_current_unprocessed_block (planner s2)) s2)
  /\ (move_segment_queue_wf (move_segment_queue s) ->
      move_segment_queue_free_slots (move_segment_queue s)
        < move_blocks_required (block_trapezoid b) + MOVE_SEGMENT_QUEUE_MIN_FREE_SLOTS ->
      get_current_unprocessed_block (planner (process_queue_of_blocks now s)) = Some b).
Proof.
  intros Hb Hmove.
  assert (Hrej : forall s0,
             move_segment_queue_free_slots (move_segment_queue s0)
               < move_blocks_required (block_trapezoid b) + MOVE_SEGMENT_QUEUE_MIN_FREE_SLOTS ->
             append_move_segments_to_queue b s0 = (false, s0)).
  { intros s0 Hlt. unfold append_move_segments_to_queue.
    apply Z.ltb_lt in Hlt. now rewrite Hlt. }
  split; [apply Hrej|].
  (* the waiting test before the block is fetched keeps the planner's queue *)
  assert (Hgate : forall s0 w s1, is_waiting_before_delivering now s0 = (w, s1) ->
             block_buffer (planner s1) = block_buffer (planner s0)
             /\ processed (planner s1) = processed (planner s0)
             /\ move_segment_queue s1 = move_segment_queue s0).
  { intros s0 w s1. unfold is_waiting_before_delivering.
    repeat match goal with
           | |- context [if ?c then _ else _] => destruct c
           end; intros [= <- <-]; easy. }
  unfold process_queue_of_blocks.
  destruct (is_waiting_before_delivering now s) as [w s1] eqn:Ew.
  destruct (Hgate _ _ _ Ew) as (Hbuf & Hproc & Hq).
  assert (Hcur1 : get_current_unprocessed_block (planner s1) = Some b).
  { unfold get_current_unprocessed_block in *. now rewrite Hbuf, Hproc. }
  destruct w.
  { split; [left; easy|]. intros _ _. exact Hcur1. }
  set (halted := if (MAX_PRINT_TIME <=? total_print_time s1)%float
                 then if has_blocks_queued s1 then None else Some (reset_from_halt s1)
                 else Some s1).
  assert (Hh : halted = None \/ exists s2, halted = Some s2
               /\ planner s2 = planner s1 /\ move_segment_queue s2 = move_segment_queue s1).
  { unfold halted. destruct (_ <=? _)%float; [destruct (has_blocks_queued s1)|];
      eauto 6. }
  destruct Hh as [-> | (s2 & -> & Hp2 & Hq2)].
  { split; [left; easy|]. intros _ _. exact Hcur1. }
  assert (Hcur2 : get_current_unprocessed_block (planner s2) = Some b) by now rewrite Hp2.
  assert (Hfetch : fetch_next_block (length (block_buffer (planner s2))) s2
                   = (FetchBlock (Some b), s2)).
  { destruct (length _); cbn [fetch_next_block]; now rewrite Hcur2, Hmove. }
  rewrite Hfetch.
  assert (Hbegin : forall s0, move_segment_queue_wf (move_segment_queue s0) ->
             forall m s3, append_beginning_empty_move s0 = (Some m, s3) ->
             planner s3 = planner s0
             /\ move_segment_queue_free_slots (move_segment_queue s3)
                <= move_segment_queue_free_slots (move_segment_queue s0)).
  { intros s0 (Hlen & Hh & Ht) m s3. unfold append_beginning_empty_move.
    unfold get_next_free_move_segment, is_move_segment_queue_full.
    destruct (Nat.eqb_spec (mq_tail (move_segment_queue s0))
                (move_segment_queue_next_index (mq_head (move_segment_queue s0))));
      [discriminate|].
    intros [= <- <-]. split; [reflexivity|].
    cbn [move_segment_queue reset_reached_end_of_move_queue_flag set_step_generators_pool
         set_total_print_time set_move_segment_queue].
    unfold move_segment_queue_free_slots, move_segment_queue_size, move_segment_queue_next_index in *.
    cbn [mq_head mq_tail mq_set_head mq_set_data].
    rewrite ring_size_push by easy. lia. }
  assert (Hbegin_planner : forall s0 m s3, append_beginning_empty_move s0 = (Some m, s3) ->
             planner s3 = planner s0).
  { intros s0 m s3. unfold append_beginning_empty_move.
    destruct (get_next_free_move_segment _) as [[? ?]|]; [|discriminate].
    now intros [= <- <-]. }
  set (started := if (total_print_time s2 =? 0)%float
                  then match append_beginning_empty_move s2 with
                       | (None, _) => None
                       | (Some _, s0) => Some s0
                       end
                  else Some s2).
  assert (Hs : started = None \/ exists s3, started = Some s3
               /\ planner s3 = planner s2
               /\ (move_segment_queue_wf (move_segment_queue s2) ->
                   move_segment_queue_free_slots (move_segment_queue s3)
                   <= move_segment_queue_free_slots (move_segment_queue s2))).
  { unfold started. destruct (_ =? _)%float.
    - destruct (append_beginning_empty_move s2) as [[m|] s3] eqn:Eb; [right|left; easy].
      exists s3. split; [easy|]. split; [now apply (Hbegin_planner _ _ _ Eb)|].
      intros Hwf. now apply (Hbegin _ Hwf _ _ Eb).
    - right. exists s2. split; [easy|]. split; [easy|]. lia. }
  destruct Hs as [-> | (s3 & -> & Hp3 & Hfree3)].
  { split; [left; now rewrite Hp2|]. intros _ _. now rewrite Hp2. }
  destruct (append_move_segments_to_queue b s3) as [[|] s4] eqn:Ea.
  - split; [right; eauto|].
    intros Hwf Hlt. rewrite Hrej in Ea; [discriminate|].
    rewrite Hq2, Hq in Hfree3. specialize (Hfree3 Hwf). lia.
  - assert (s4 = s3) as ->.
    { unfold append_move_segments_to_queue in Ea.
      destruct (_ <? _) in Ea; [now injection Ea|].
      destruct (fneq (accel_dist _) 0), (fneq (cruise_dist _) 0), (fneq (decel_dist _) 0);
        cbv zeta in Ea; discriminate. }
    split; [left; now rewrite Hp3, Hp2|]. intros _ _. now rewrite Hp3, Hp2.
Qed.

(** C9 (amended): when the cruise distance computed first is below
    EPSILON_DISTANCE, the distances are recomputed with
    d = (2 S a + end_v^2 - start_v^2) / (4 a): [accel_dist] is 0 when
    d <= EPSILON_DISTANCE, S when d > S - EPSILON_DISTANCE, and d otherwise;
    [decel_dist] is max(S - accel_dist, 0); [cruise_dist] is 0; and
    [cruise_v] is sqrt(2 accel_dist a + start_v^2). *)
Theorem block_trapezoid_no_cruise (b : block_t) :
  (first_cruise_dist b <? EPSILON_DISTANCE)%float = true ->
  let S := millimeters b in
  let a := acceleration b in
  let d := ((2 * S * a + final_speed b * final_speed b
             - initial_speed b * initial_speed b) / (4 * a))%float in
  let t := block_trapezoid b in
  accel_dist t
  = (if (d <=? EPSILON_DISTANCE)%float then 0%float
     else if (S - EPSILON_DISTANCE <? d)%float then S else d)
  /\ decel_dist t = (if (S - accel_dist t <? 0)%float then 0 else S - accel_dist t)%float
  /\ cruise_dist t = 0%float
  /\ cruise_v t
     = PrimFloat.sqrt (2 * accel_dist t * a + initial_speed b * initial_speed b)%float.
Proof.
  intros H. unfold first_cruise_dist in H. cbv zeta. unfold block_trapezoid.
  rewrite H. cbn [accel_dist decel_dist cruise_dist cruise_v].
  repeat split.
Qed.

End BlockProperties.

(** ** Reference counts of move segments *)

Section ReferenceCounts.

Context `{cfg : Config}.

Lemma add_reference_cnt_lookup d i q j m :
  mq_data q !! j = Some m ->
  exists m', mq_data (add_reference_cnt d i q) !! j = Some m'
             /\ reference_cnt m' = reference_cnt m + (if Nat.eqb j i then d else 0).
Proof.
  intros H. unfold add_reference_cnt. cbn [mq_data mq_set_data].
  destruct (Nat.eqb_spec j i) as [->|Hne].
  - rewrite list_lookup_alter_eq, H. cbn. eexists. split; [reflexivity|]. reflexivity.
  - rewrite list_lookup_alter_ne by congruence. exists m. split; [easy|]. lia.
Qed.

Lemma classic_step_generator_update_frame m g :
  current_move (classic_step_generator_update m g) = current_move g
  /\ axis (classic_step_generator_update m g) = axis g.
Proof. unfold classic_step_generator_update. now destruct (_ =? 0)%float. Qed.

Lemma add_reference_cnt_length d i q :
  length (mq_data (add_reference_cnt d i q)) = length (mq_data q).
Proof. unfold add_reference_cnt. cbn. apply length_alter. Qed.

Lemma reference_cnt_changed_refl s s' :
  mq_data (move_segment_queue s') = mq_data (move_segment_queue s) ->
  forall c, reference_cnt_changed s s' (fun i => c i - c i).
Proof.
  intros H c. split; [now rewrite H|].
  intros i m Hi. exists m. rewrite H. split; [easy|]. lia.
Qed.

Lemma move_segment_processed_handler_frame s :
  mq_data (move_segment_queue (move_segment_processed_handler s))
  = mq_data (move_segment_queue s)
  /\ step_generators_pool (move_segment_processed_handler s) = step_generators_pool s.
Proof.
  unfold move_segment_processed_handler.
  destruct (get_current_unprocessed_move_segment _) as [mv|]; [|easy].
  destruct (_ !! mv) as [m|]; [|easy].
  destruct (_ =? 0); [|easy].
  unfold discard_current_unprocessed_move_segment.
  now destruct (Nat.eqb _ _).
Qed.

Lemma generators_at_set s a g i :
  generators_at (set_step_generators_pool (xyze_set (step_generators_pool s) a g) s) i
  = generators_at s i - Z.b2z (points_at i (xyze_get (step_generators_pool s) a))
    + Z.b2z (points_at i g).
Proof.
  unfold generators_at. cbn [step_generators_pool set_step_generators_pool].
  destruct a; cbn [xyze_set xyze_get ax_x ax_y ax_z ax_e]; lia.
Qed.



(** The loop of the classic generator: the count of the segment it leaves
    goes down by one and the count of the segment it ends at goes up by
    one; the other generators are not touched. *)
Lemma classic_step_generator_next_step_event_loop_counts fuel a ft s ev s' :
  classic_step_generator_next_step_event_loop fuel a ft s = Some (ev, s') ->
  exists cur cur',
    current_move (xyze_get (step_generators_pool s) a) = Some cur
    /\ current_move (xyze_get (step_generators_pool s') a) = Some cur'
    /\ (forall b, b <> a ->
          xyze_get (step_generators_pool s') b = xyze_get (step_generators_pool s) b)
    /\ reference_cnt_changed s s'
         (fun i => (if Nat.eqb i cur' then 1 else 0) - (if Nat.eqb i cur then 1 else 0)).
Proof.
  revert s. induction fuel as [|fuel IH]; intros s H; [discriminate|].
  cbn [classic_step_generator_next_step_event_loop] in H.
  destruct (current_move (xyze_get (step_generators_pool s) a)) as [cur|] eqn:Ecur;
    [|discriminate].
  cbn [mbind option_bind] in H.
  destruct (mq_data (move_segment_queue s) !! cur) as [move|] eqn:Emove; [|discriminate].
  cbn [mbind option_bind] in H.
  destruct (_ || _) in H.
  - destruct (move_segment_queue_next_move (move_segment_queue s) cur) as [next|] eqn:Enext.
    + (* advance to the next segment *)
      match type of H with context [add_reference_cnt 1 next ?q] => set (q1 := add_reference_cnt 1 next q) in * end.
      destruct (mq_data q1 !! next) as [current|] eqn:Ecurrent; [|discriminate].
      cbn [mbind option_bind] in H.
      apply IH in H as (cur1 & cur' & Hc1 & Hc' & Hothers & Hcnt).
      destruct (move_segment_processed_handler_frame
                  ltac:(match type of Hc1 with context [move_segment_processed_handler ?x] => exact x end))
        as [Hd Hp].
      rewrite Hp in Hc1. cbn in Hc1. rewrite xyze_get_set_eq in Hc1.
      rewrite (proj1 (classic_step_generator_update_frame _ _)) in Hc1. cbn in Hc1.
      injection Hc1 as <-.
      exists cur, cur'. split; [easy|]. split; [easy|]. split.
      * intros b Hb. rewrite Hothers by easy. rewrite Hp. cbn. now apply xyze_get_set_ne.
      * destruct Hcnt as [Hlen Hcnt]. split.
        { rewrite Hlen, Hd.
          cbn [move_segment_queue set_step_generator_state set_step_generators_pool
               set_move_segment_queue].
          unfold q1. now rewrite !add_reference_cnt_length. }
        intros i m Hi.
        destruct (add_reference_cnt_lookup (-1) cur (move_segment_queue s) i m Hi) as (m1 & Hm1 & Hr1).
        destruct (add_reference_cnt_lookup 1 next _ i m1 Hm1) as (m2 & Hm2 & Hr2).
        fold q1 in Hm2.
        destruct (Hcnt i m2) as (m' & Hm' & Hr').
        { rewrite Hd. cbn. exact Hm2. }
        exists m'. split; [easy|]. rewrite Hr', Hr2, Hr1.
        destruct (Nat.eqb i cur'), (Nat.eqb i cur), (Nat.eqb i next); lia.
    + injection H as <- <-. exists cur, cur.
      split; [easy|]. split; [|split].
      * cbn. now rewrite xyze_get_set_eq.
      * intros b Hb. cbn. now apply xyze_get_set_ne.
      * now apply reference_cnt_changed_refl.
  - destruct (_ <? _)%float in H; injection H as <- <-; exists cur, cur.
    + split; [easy|]. split; [|split].
      * cbn. now rewrite xyze_get_set_eq.
      * intros b Hb. cbn. now apply xyze_get_set_ne.
      * now apply reference_cnt_changed_refl.
    + split; [easy|]. split; [|split]; [easy|easy|].
      now apply reference_cnt_changed_refl.
Qed.

Lemma classic_step_generator_init_counts move a s s' :
  classic_step_generator_init move a s = Some s' ->
  current_move (xyze_get (step_generators_pool s') a) = Some move
  /\ (forall b, b <> a ->
        xyze_get (step_generators_pool s') b = xyze_get (step_generators_pool s) b)
  /\ reference_cnt_changed s s' (fun i => if Nat.eqb i move then 1 else 0).
Proof.
  unfold classic_step_generator_init.
  destruct (mq_data (move_segment_queue s) !! move) as [m|] eqn:Em; [|discriminate].
  cbn [mbind option_bind]. intros [= <-]. cbn. rewrite xyze_get_set_eq.
  split; [apply classic_step_generator_update_frame|]. split.
  - intros b Hb. now apply xyze_get_set_ne.
  - split; [apply add_reference_cnt_length|].
    intros i mi Hi. now apply add_reference_cnt_lookup.
Qed.






End ReferenceCounts.

(** ** The loops run out of work before they run out of fuel *)

Section Fuel.

Context `{cfg : Config}.

Lemma move_segment_processed_handler_head s :
  mq_head (move_segment_queue (move_segment_processed_handler s)) = mq_head (move_segment_queue s).
Proof.
  unfold move_segment_processed_handler.
  destruct (get_current_unprocessed_move_segment _) as [mv|]; [|easy].
  destruct (_ !! mv) as [m|]; [|easy].
  destruct (_ =? 0); [|easy].
  unfold discard_current_unprocessed_move_segment. now destruct (Nat.eqb _ _).
Qed.

(** How many segments lie after slot [cur] and before [head]. *)
Lemma segments_ahead_step (n head cur : nat) :
  (head < n)%nat -> (cur < n)%nat -> ((cur + 1) mod n)%nat <> head ->
  ((head + n - 1 - cur) mod n = S ((head + n - 1 - (cur + 1) mod n) mod n))%nat.
Proof.
  intros Hh Hc. rewrite (mod_cases (cur + 1) n) by lia.
  destruct (Nat.ltb_spec (cur + 1) n); intros Hne;
    rewrite !mod_cases by lia;
    repeat match goal with |- context [(?a <? ?b)%nat] => destruct (Nat.ltb_spec a b) end; lia.
Qed.

(** The do-while loop of the classic generator makes at most as many passes
    as there are segments ahead of [current_move], plus one: more fuel than
    that changes nothing. *)
Lemma classic_step_generator_next_step_event_loop_fuel fuel extra a ft s :
  length (mq_data (move_segment_queue s)) = MOVE_SEGMENT_QUEUE_SIZE ->
  (mq_head (move_segment_queue s) < MOVE_SEGMENT_QUEUE_SIZE)%nat ->
  (forall cur, current_move (xyze_get (step_generators_pool s) a) = Some cur ->
               (cur < MOVE_SEGMENT_QUEUE_SIZE)%nat ->
               ((mq_head (move_segment_queue s) + MOVE_SEGMENT_QUEUE_SIZE - 1 - cur)
                  mod MOVE_SEGMENT_QUEUE_SIZE < fuel)%nat) ->
  classic_step_generator_next_step_event_loop (fuel + extra) a ft s
  = classic_step_generator_next_step_event_loop fuel a ft s.
Proof.
  revert s. induction fuel as [|fuel IH]; intros s Hlen Hhead Hfuel.
  - (* no fuel is enough only when the call has no result anyway *)
    destruct extra as [|extra]; [reflexivity|].
    cbn [Nat.add classic_step_generator_next_step_event_loop].
    destruct (current_move _) as [cur|] eqn:Ecur; [|reflexivity].
    cbn [mbind option_bind].
    destruct (_ !! cur) as [move|] eqn:Emove; [|reflexivity].
    apply lookup_lt_Some in Emove. rewrite Hlen in Emove.
    specialize (Hfuel cur eq_refl Emove). lia.
  - cbn [Nat.add classic_step_generator_next_step_event_loop].
    destruct (current_move _) as [cur|] eqn:Ecur; [|reflexivity].
    cbn [mbind option_bind].
    destruct (_ !! cur) as [move|] eqn:Emove; [|reflexivity].
    cbn [mbind option_bind].
    apply lookup_lt_Some in Emove as Hcur. rewrite Hlen in Hcur.
    specialize (Hfuel cur eq_refl Hcur).
    destruct (_ || _); [|reflexivity].
    unfold move_segment_queue_next_move, move_segment_queue_next_index.
    destruct (Nat.eqb_spec ((cur + 1) mod MOVE_SEGMENT_QUEUE_SIZE) (mq_head (move_segment_queue s)))
      as [|Hne]; [reflexivity|].
    match goal with
    | |- (?o ≫= _) = _ => destruct o as [current|]; [|reflexivity]
    end.
    cbn [mbind option_bind].
    apply IH.
    + rewrite (proj1 (move_segment_processed_handler_frame _)). cbn.
      now rewrite !length_alter.
    + now rewrite move_segment_processed_handler_head.
    + intros cur' Hcur' _. rewrite move_segment_processed_handler_head. cbn.
      rewrite (proj2 (move_segment_processed_handler_frame _)) in Hcur'. cbn in Hcur'.
      rewrite xyze_get_set_eq, (proj1 (classic_step_generator_update_frame _ _)) in Hcur'.
      cbn in Hcur'. injection Hcur' as <-.
      rewrite (segments_ahead_step _ _ cur) in Hfuel by easy. lia.
Qed.

(** [classic_step_generator_next_step_event] has enough fuel: with a ring of
    the expected layout, more passes than MOVE_SEGMENT_QUEUE_SIZE are never
    needed. *)
Lemma classic_step_generator_next_step_event_total extra a ft s :
  move_segment_queue_wf (move_segment_queue s) ->
  classic_step_generator_next_step_event_loop (MOVE_SEGMENT_QUEUE_SIZE + extra) a ft s
  = classic_step_generator_next_step_event a ft s.
Proof.
  intros (Hlen & Hh & _). apply classic_step_generator_next_step_event_loop_fuel; try easy.
  intros cur _ Hcur. apply Nat.mod_upper_bound. lia.
Qed.

(** The loop that places discarding step events makes at most
    [left_insert_start_of_move_segment] passes. *)
Lemma append_pending_discarding_step_events_fuel extra s :
  append_pending_discarding_step_events
    (Z.to_nat (left_insert_start_of_move_segment (step_generator_state s)) + extra) s
  = append_pending_discarding_step_events
      (Z.to_nat (left_insert_start_of_move_segment (step_generator_state s))) s.
Proof.
  remember (Z.to_nat (left_insert_start_of_move_segment (step_generator_state s))) as n eqn:Hn.
  revert s Hn. induction n as [|n IH]; intros s Hn.
  - destruct extra as [|extra]; [reflexivity|].
    cbn [Nat.add append_pending_discarding_step_events].
    destruct (Z.ltb_spec 0 (left_insert_start_of_move_segment (step_generator_state s)));
      [lia|reflexivity].
  - cbn [Nat.add append_pending_discarding_step_events].
    destruct (0 <? _); [|reflexivity].
    unfold append_move_discarding_step_event.
    destruct (get_next_free_step_event _) as [[slot nh]|]; [|reflexivity].
    apply IH. cbn. lia.
Qed.

(** The block-fetching loop consumes one planner block per pass. *)
Lemma fetch_next_block_fuel fuel extra s :
  (length (block_buffer (planner s)) - processed (planner s) <= fuel)%nat ->
  fetch_next_block (fuel + extra) s = fetch_next_block fuel s.
Proof.
  revert s. induction fuel as [|fuel IH]; intros s Hfuel.
  - destruct extra as [|extra]; [reflexivity|].
    cbn [Nat.add fetch_next_block].
    destruct (get_current_unprocessed_block _) as [b|] eqn:Eb; [|reflexivity].
    apply lookup_lt_Some in Eb. lia.
  - cbn [Nat.add fetch_next_block].
    destruct (get_current_unprocessed_block _) as [b|] eqn:Eb; [|reflexivity].
    apply lookup_lt_Some in Eb.
    destruct (is_move b); [reflexivity|].
    destruct (_ =? _)%float.
    + apply IH. cbn. unfold discard_current_unprocessed_block.
      rewrite bool_decide_eq_true_2 by easy. cbn.
      destruct (block_buffer (planner s)); cbn in *; lia.
    + unfold append_block_discarding_move.
      destruct (get_next_free_move_segment _) as [[m h]|]; [|reflexivity].
      apply IH. cbn. unfold discard_current_unprocessed_block.
      rewrite bool_decide_eq_true_2 by easy. cbn. lia.
Qed.

End Fuel.

(** ** The reference counts along the Move-ISR *)

Section ReferenceCountInvariant.

Context `{cfg : Config}.

Ltac ring_cases :=
  unfold ring_distance, move_segment_queue_next_index in *;
  repeat match goal with
         | H : context [(?a mod MOVE_SEGMENT_QUEUE_SIZE)%nat] |- _ =>
             rewrite (mod_cases a MOVE_SEGMENT_QUEUE_SIZE) in H by lia
         | |- context [(?a mod MOVE_SEGMENT_QUEUE_SIZE)%nat] =>
             rewrite (mod_cases a MOVE_SEGMENT_QUEUE_SIZE) by lia
         | H : context [(?a <? ?b)%nat] |- _ => destruct (Nat.ltb_spec a b)
         | |- context [(?a <? ?b)%nat] => destruct (Nat.ltb_spec a b)
         end;
  try lia.

Lemma ring_distance_push (tail head : nat) :
  (tail < MOVE_SEGMENT_QUEUE_SIZE)%nat -> (head < MOVE_SEGMENT_QUEUE_SIZE)%nat ->
  tail <> move_segment_queue_next_index head ->
  ring_distance tail (move_segment_queue_next_index head) = S (ring_distance tail head).
Proof. intros Ht Hh Hne. ring_cases. Qed.

Lemma ring_distance_next (tail i head : nat) :
  (tail < MOVE_SEGMENT_QUEUE_SIZE)%nat -> (i < MOVE_SEGMENT_QUEUE_SIZE)%nat ->
  (head < MOVE_SEGMENT_QUEUE_SIZE)%nat ->
  (ring_distance tail i <= ring_distance tail head)%nat -> i <> head ->
  (move_segment_queue_next_index i < MOVE_SEGMENT_QUEUE_SIZE)%nat
  /\ ring_distance tail (move_segment_queue_next_index i) = S (ring_distance tail i)
  /\ (ring_distance tail i < ring_distance tail head)%nat.
Proof. intros Ht Hi Hh Hle Hne. repeat split; ring_cases. Qed.

Lemma ring_distance_advance (tail i head : nat) :
  (tail < MOVE_SEGMENT_QUEUE_SIZE)%nat -> (i < MOVE_SEGMENT_QUEUE_SIZE)%nat ->
  (head < MOVE_SEGMENT_QUEUE_SIZE)%nat ->
  (ring_distance tail i < ring_distance tail head)%nat ->
  move_segment_queue_next_index i <> head ->
  (ring_distance tail (move_segment_queue_next_index i) < ring_distance tail head)%nat.
Proof. intros Ht Hi Hh Hlt Hne. ring_cases. Qed.












Lemma is_waiting_before_delivering_view now s :
  let s1 := snd (is_waiting_before_delivering now s) in
  move_segment_queue s1 = move_segment_queue s
  /\ step_generators_pool s1 = step_generators_pool s
  /\ step_generator_state s1 = step_generator_state s
  /\ total_print_time s1 = total_print_time s.
Proof.
  unfold is_waiting_before_delivering.
  repeat match goal with
         | |- context [if ?c then _ else _] => destruct c
         end; cbn; easy.
Qed.


End ReferenceCountInvariant.

(** ** The merger and the producer loop *)

Section Producer.

Context `{cfg : Config}.

Lemma step_event_queue_contents_ring q :
  step_event_queue_contents q
  = ring_contents STEP_EVENT_QUEUE_SIZE (sq_data q) (sq_head q) (sq_tail q).
Proof. reflexivity. Qed.

(** Writing the slot that [get_next_free_step_event] returned appends the
    event to what the Step-ISR will consume. *)
Lemma step_event_queue_write_contents q slot next_head ev :
  step_event_queue_wf q ->
  get_next_free_step_event q = Some (slot, next_head) ->
  step_event_queue_wf (step_event_queue_write slot next_head ev q)
  /\ step_event_queue_contents (step_event_queue_write slot next_head ev q)
     = step_event_queue_contents q ++ [ev].
Proof.
  intros (Hlen & Hh & Ht). unfold get_next_free_step_event, is_step_event_queue_full.
  destruct (Nat.eqb_spec (sq_tail q) (step_event_queue_next_index (sq_head q))) as [|Hnf];
    [discriminate|].
  intros [= <- <-]. unfold step_event_queue_next_index in *. split.
  - repeat split; cbn; [now rewrite length_insert| apply mod_lt_pos; lia | easy].
  - rewrite !step_event_queue_contents_ring. cbn. now apply ring_push.
Qed.

Lemma producer_frame_refl s : producer_frame s s.
Proof. now repeat split. Qed.

Lemma producer_frame_trans s1 s2 s3 :
  producer_frame s1 s2 -> producer_frame s2 s3 -> producer_frame s1 s3.
Proof. intros (? & ? & ?) (? & ? & ?). repeat split; congruence. Qed.

Lemma generator_frame_refl s : generator_frame s s.
Proof. now repeat split. Qed.

Lemma generator_frame_trans s1 s2 s3 :
  generator_frame s1 s2 -> generator_frame s2 s3 -> generator_frame s1 s3.
Proof.
  intros ((? & ? & ?) & ? & ? & ?) ((? & ? & ?) & ? & ? & ?). repeat split; congruence.
Qed.

Lemma move_segment_processed_handler_generator_frame s :
  generator_frame s (move_segment_processed_handler s).
Proof.
  unfold move_segment_processed_handler.
  destruct (get_current_unprocessed_move_segment _) as [mv|]; [|apply generator_frame_refl].
  destruct (_ !! mv) as [m|]; [|apply generator_frame_refl].
  destruct (_ =? 0); [|apply generator_frame_refl].
  now repeat split.
Qed.

Lemma classic_step_generator_next_step_event_loop_frame fuel a ft s ev s' :
  classic_step_generator_next_step_event_loop fuel a ft s = Some (ev, s') ->
  generator_frame s s'.
Proof.
  revert s. induction fuel as [|fuel IH]; intros s H; [discriminate|].
  cbn [classic_step_generator_next_step_event_loop] in H.
  destruct (current_move _) as [cur|]; [|discriminate].
  cbn [mbind option_bind] in H.
  destruct (_ !! cur) as [move|]; [|discriminate].
  cbn [mbind option_bind] in H.
  destruct (_ || _) in H.
  - destruct (move_segment_queue_next_move _ cur) as [next|].
    + destruct (_ !! next) as [current|]; [|discriminate].
      cbn [mbind option_bind] in H. apply IH in H.
      eapply generator_frame_trans; [|exact H].
      eapply generator_frame_trans; [|apply move_segment_processed_handler_generator_frame].
      now repeat split.
    + injection H as <- <-. now repeat split.
  - destruct (_ <? _)%float in H; injection H as <- <-; now repeat split.
Qed.

Lemma step_generator_next_step_event_frame a ft s ev s' :
  step_generator_next_step_event a ft s = Some (ev, s') -> generator_frame s s'.
Proof.
  unfold step_generator_next_step_event.
  destruct (xyze_get (next_step_func _) a) as [[]|]; [|discriminate].
  destruct (xyze_get (step_generator _) a) as [g|]; [|discriminate].
  apply classic_step_generator_next_step_event_loop_frame.
Qed.

(** [generate_next_step_event] taken apart: the out-parameter is written
    from the nearest pending event, then the generator of that event's axis
    is asked for its next event, which replaces the nearest one. *)
Lemma generate_next_step_event_inv ev0 ft s d ev s' :
  generate_next_step_event ev0 ft s = Some (d, ev, s') ->
  let sgs := step_generator_state s in
  let head := ax_x (step_event_index sgs) in
  let nearest := xyze_get (step_events sgs) head in
  (if is_step_time (time nearest) then
     let rel := (time nearest - previous_step_time sgs)%float in
     double_to_int32 ((if (rel <? 0)%float then 0 else rel) * ticks_per_sec s)%float
     = Some (time_ticks ev)
     /\ flags ev
        = (if left_insert_start_of_move_segment sgs =? 0 then iflags nearest
           else Z.lor (iflags nearest) STEP_EVENT_FLAG_BEGINNING_OF_MOVE_SEGMENT)
     /\ previous_step_time (step_generator_state s') = time nearest
   else ev = StepEvent (time_ticks ev0) 0)
  /\ exists s0 nev s1,
       (step_generators_pool s0 = step_generators_pool s
        /\ step_generator (step_generator_state s0) = step_generator sgs)
       /\ step_generator_next_step_event head ft s0 = Some (nev, s1)
       /\ producer_frame s s1
       /\ step_events (step_generator_state s')
          = xyze_set (step_events sgs) head nev
       /\ (step_generators_pool s' = step_generators_pool s1
           /\ step_generator (step_generator_state s')
              = step_generator (step_generator_state s1))
       /\ producer_frame s1 s'.
Proof.
  unfold generate_next_step_event, is_step_time. cbv zeta.
  set (sgs := step_generator_state s).
  set (nearest := xyze_get (step_events sgs) (ax_x (step_event_index sgs))).
  destruct (fneq (time nearest) 0 && fneq (time nearest) DBL_MAX).
  - destruct (double_to_int32 _) as [ticks|] eqn:Et; [|discriminate].
    cbn [mbind option_bind].
    destruct (left_insert_start_of_move_segment sgs =? 0);
      cbv beta iota zeta; cbn [mbind option_bind]; cbv beta iota zeta.
    all: match goal with
         | |- context [step_generator_next_step_event ?a ?f ?x] =>
             destruct (step_generator_next_step_event a f x) as [[nev s1]|] eqn:En;
             [|discriminate]
         end.
    all: cbn [mbind option_bind]; intros [= <- <- <-].
    all: pose proof (step_generator_next_step_event_frame _ _ _ _ _ En)
           as ((Hq & Hb & Ht) & Hp & He & Hi).
    all: cbn in Hq, Hb, Ht, Hp, He, Hi |- *.
    all: split; [repeat split; solve [assumption | reflexivity]|].
    all: eexists _, nev, s1; split; [|split; [exact En|]]; [split; reflexivity|].
    all: rewrite He; repeat split; solve [assumption | reflexivity].
  - cbn [mbind option_bind].
    match goal with
    | |- context [step_generator_next_step_event ?a ?f ?x] =>
        destruct (step_generator_next_step_event a f x) as [[nev s1]|] eqn:En;
        [|discriminate]
    end.
    cbn [mbind option_bind]; intros [= <- <- <-].
    pose proof (step_generator_next_step_event_frame _ _ _ _ _ En)
      as ((Hq & Hb & Ht) & Hp & He & Hi).
    cbn in Hq, Hb, Ht, Hp, He, Hi |- *.
    split; [reflexivity|].
    eexists _, nev, s1; split; [|split; [exact En|]]; [split; reflexivity|].
    rewrite He; repeat split; solve [assumption | reflexivity].
Qed.

Lemma generate_next_step_event_out ev0 ft s d ev s' :
  generate_next_step_event ev0 ft s = Some (d, ev, s') -> producer_frame s s'.
Proof.
  intros H. apply generate_next_step_event_inv in H as (_ & s0 & nev & s1 & _ & _ & H1 & _ & _ & H2).
  eapply producer_frame_trans; eauto.
Qed.

Lemma classic_step_generator_init_frame move a s s' :
  classic_step_generator_init move a s = Some s' ->
  step_event_queue s' = step_event_queue s
  /\ ticks_per_sec s' = ticks_per_sec s
  /\ buffered_step (step_generator_state s') = buffered_step (step_generator_state s).
Proof.
  unfold classic_step_generator_init.
  destruct (_ !! move) as [m|]; [|discriminate].
  cbn [mbind option_bind]. now intros [= <-].
Qed.

Lemma step_generator_reset_reached_end_frame i s s' :
  step_generator_reset_reached_end i s = Some s' ->
  step_event_queue s' = step_event_queue s
  /\ ticks_per_sec s' = ticks_per_sec s
  /\ buffered_step (step_generator_state s') = buffered_step (step_generator_state s).
Proof.
  unfold step_generator_reset_reached_end.
  destruct (xyze_get _ i) as [g|]; [|discriminate]. now intros [= <-].
Qed.

Lemma step_generator_state_init_frame move s s' :
  step_generator_state_init move s = Some s' ->
  step_event_queue s' = step_event_queue s
  /\ ticks_per_sec s' = ticks_per_sec s
  /\ flags (buffered_step (step_generator_state s')) = 0.
Proof.
  unfold step_generator_state_init.
  destruct (_ !! move) as [m|]; [|discriminate].
  cbn [mbind option_bind].
  destruct (_ <? _)%float; [discriminate|]. cbv zeta.
  repeat match goal with
         | |- context [step_generator_reset_reached_end ?i ?x] =>
             let E := fresh "E" in
             destruct (step_generator_reset_reached_end i x) as [?s|] eqn:E;
             [apply step_generator_reset_reached_end_frame in E as (? & ? & ?)|discriminate];
             cbn [mbind option_bind]
         | |- context [classic_step_generator_init ?mv ?a ?x] =>
             let E := fresh "E" in
             destruct (classic_step_generator_init mv a x) as [?s|] eqn:E;
             [apply classic_step_generator_init_frame in E as (? & ? & ?)|discriminate];
             cbn [mbind option_bind]
         end.
  intros [= <-]. cbn in *. repeat split; try congruence.
  repeat match goal with H : buffered_step _ = _ |- _ => rewrite H; clear H end.
  reflexivity.
Qed.

End Producer.

Section ProducerWrites.

Context `{cfg : Config}.

(** A property [P] of step events that the discarding events have, that a
    merge keeps, and that the events coming out of the merger have at the
    tick rate [tps]. *)
Variable P : step_event_t -> Prop.
Variable tps : float.

Hypothesis P_discard :
  forall sf extra,
    P (StepEvent 0 (Z.lor (Z.lor sf STEP_EVENT_FLAG_BEGINNING_OF_MOVE_SEGMENT) extra)).
Hypothesis P_merge :
  forall b n, P b -> flags b <> 0 ->
    P (StepEvent (time_ticks b) (Z.lor (flags b) (flags n))).
Hypothesis P_generate :
  forall ev0 ft s d ev s',
    ticks_per_sec s = tps ->
    generate_next_step_event ev0 ft s = Some (d, ev, s') ->
    flags ev <> 0 -> P ev.
Hypothesis P_restart :
  forall sgs pool,
    (flags (buffered_step sgs) <> 0 -> P (buffered_step sgs)) ->
    flags (buffered_step (fst (step_generator_state_restart sgs pool))) <> 0 ->
    P (buffered_step (fst (step_generator_state_restart sgs pool))).

Lemma producer_writes_refl s s' :
  step_event_queue s' = step_event_queue s -> producer_writes P s s'.
Proof. intros H. exists []. rewrite H, app_nil_r. now split. Qed.

Lemma producer_writes_trans s1 s2 s3 :
  producer_writes P s1 s2 -> producer_writes P s2 s3 -> producer_writes P s1 s3.
Proof.
  intros (n1 & H1 & F1) (n2 & H2 & F2). exists (n1 ++ n2).
  rewrite H2, H1, app_assoc. split; [easy|]. now apply Forall_app.
Qed.

Lemma producer_writes_one s s' slot next_head ev :
  step_event_queue_wf (step_event_queue s) ->
  get_next_free_step_event (step_event_queue s) = Some (slot, next_head) ->
  step_event_queue s' = step_event_queue_write slot next_head ev (step_event_queue s) ->
  P ev ->
  step_event_queue_wf (step_event_queue s') /\ producer_writes P s s'.
Proof.
  intros Hwf Hn Hq Hp.
  destruct (step_event_queue_write_contents _ _ _ ev Hwf Hn) as [Hwf' Hc].
  rewrite Hq. split; [easy|]. exists [ev]. rewrite Hq, Hc. split; [easy|].
  now constructor.
Qed.

Lemma producer_inv_intro s :
  step_event_queue_wf (step_event_queue s) ->
  ticks_per_sec s = tps ->
  (flags (buffered_step (step_generator_state s)) <> 0 ->
   P (buffered_step (step_generator_state s))) ->
  producer_inv P tps s.
Proof. unfold producer_inv. tauto. Qed.

Lemma buffer_step_event_writes new s s' :
  producer_inv P tps s ->
  (flags new <> 0 -> P new) ->
  buffer_step_event (get_next_free_step_event (step_event_queue s)) new s = Some s' ->
  producer_inv P tps s' /\ producer_writes P s s'.
Proof.
  intros Hinv Hnew. pose proof Hinv as (Hwf & Htps & Hbuf). unfold buffer_step_event.
  destruct (Z.eqb_spec (flags new) 0) as [|Hnz].
  { intros [= <-]. split; [easy|now apply producer_writes_refl]. }
  destruct (Z.eqb_spec (flags (buffered_step (step_generator_state s))) 0) as [|Hbz].
  { intros [= <-]. split; [|now apply producer_writes_refl].
    apply producer_inv_intro; cbn; first [assumption | intros _; auto]. }
  destruct (_ && _).
  - intros [= <-]. split; [|now apply producer_writes_refl].
    apply producer_inv_intro; cbn; first [assumption | intros _; apply P_merge; auto].
  - destruct (get_next_free_step_event _) as [[slot nh]|] eqn:En; [|discriminate].
    cbn [mbind option_bind]. intros [= <-].
    destruct (producer_writes_one s
                (set_step_event_queue
                   (step_event_queue_write slot nh (buffered_step (step_generator_state s))
                      (step_event_queue s)) s)
                slot nh (buffered_step (step_generator_state s)) Hwf En eq_refl (Hbuf Hbz))
      as [Hwf' Hw].
    split.
    + apply producer_inv_intro; cbn; first [assumption | intros _; auto].
    + destruct Hw as (l & Hl & Fl). exists l. now split.
Qed.

Lemma produce_step_events_writes n ft s r s' :
  producer_inv P tps s ->
  produce_step_events n ft s = Some (r, s') ->
  producer_inv P tps s' /\ producer_writes P s s'.
Proof.
  revert s. induction n as [|n IH]; intros s Hinv; cbn [produce_step_events].
  { intros [= <- <-]. split; [easy|now apply producer_writes_refl]. }
  destruct (_ && _).
  { intros [= <- <-]. split; [easy|now apply producer_writes_refl]. }
  destruct (generate_next_step_event _ ft s) as [[[d ev] s1]|] eqn:Eg; [|discriminate].
  cbn [mbind option_bind].
  pose proof (generate_next_step_event_out _ _ _ _ _ _ Eg) as (Hq & Hb & Ht).
  destruct Hinv as (Hwf & Htps & Hbuf).
  assert (Hinv1 : producer_inv P tps s1).
  { apply producer_inv_intro; [now rewrite Hq|congruence|]. rewrite Hb. exact Hbuf. }
  rewrite <- Hq.
  destruct (buffer_step_event _ ev s1) as [s2|] eqn:Eb; [|discriminate].
  cbn [mbind option_bind].
  apply buffer_step_event_writes in Eb as [Hinv2 Hw2]; [|exact Hinv1|].
  2:{ intros Hnz. eapply P_generate; eauto. }
  assert (Hw1 : producer_writes P s s1) by now apply producer_writes_refl.
  destruct d.
  - intros [= <- <-]. split; [easy|]. eauto using producer_writes_trans.
  - intros H. apply IH in H as [Hinv' Hw']; [|easy].
    split; [easy|]. eauto using producer_writes_trans.
Qed.

Lemma append_move_discarding_step_event_writes extra s b s' :
  producer_inv P tps s ->
  append_move_discarding_step_event extra s = (b, s') ->
  producer_inv P tps s' /\ producer_writes P s s'
  /\ left_insert_start_of_move_segment (step_generator_state s')
     = left_insert_start_of_move_segment (step_generator_state s).
Proof.
  intros (Hwf & Htps & Hbuf). unfold append_move_discarding_step_event.
  destruct (get_next_free_step_event _) as [[slot nh]|] eqn:En.
  - intros [= <- <-].
    edestruct (producer_writes_one s) as [Hwf' Hw]; [exact Hwf|exact En| | |].
    3:{ split; [|split; [exact Hw|reflexivity]].
        apply producer_inv_intro; [exact Hwf'|easy|easy]. }
    + reflexivity.
    + apply P_discard.
  - intros [= <- <-]. split; [easy|]. split; [now apply producer_writes_refl|easy].
Qed.

Lemma append_pending_discarding_step_events_writes fuel s :
  producer_inv P tps s ->
  producer_inv P tps (append_pending_discarding_step_events fuel s)
  /\ producer_writes P s (append_pending_discarding_step_events fuel s).
Proof.
  revert s. induction fuel as [|fuel IH]; intros s Hinv; cbn [append_pending_discarding_step_events].
  { split; [easy|now apply producer_writes_refl]. }
  destruct (0 <? _); [|split; [easy|now apply producer_writes_refl]].
  destruct (append_move_discarding_step_event 0 s) as [[|] s1] eqn:Ea;
    apply append_move_discarding_step_event_writes in Ea as (Hinv1 & Hw1 & _); try easy.
  match goal with |- context [append_pending_discarding_step_events fuel ?x] =>
    destruct (IH x) as [Hinv2 Hw2] end.
  { destruct Hinv1 as (? & ? & ?). now apply producer_inv_intro. }
  split; [easy|]. eapply producer_writes_trans; [exact Hw1|].
  destruct Hw2 as (l & Hl & Fl). exists l. now split.
Qed.

Lemma finish_ending_move_writes s r s' :
  producer_inv P tps s ->
  finish_ending_move s = Some (r, s') ->
  producer_inv P tps s' /\ producer_writes P s s'.
Proof.
  intros Hinv. unfold finish_ending_move.
  destruct (get_current_unprocessed_move_segment _) as [um|].
  2:{ intros [= <- <-]. split; [easy|now apply producer_writes_refl]. }
  destruct (_ !! um) as [m|]; [|discriminate]. cbn [mbind option_bind].
  destruct (is_ending_empty_move m).
  2:{ intros [= <- <-]. split; [easy|now apply producer_writes_refl]. }
  set (flushed := if flags (buffered_step (step_generator_state s)) =? 0 then Some s else _).
  assert (Hfl : flushed = None \/ exists s1, flushed = Some s1 /\ producer_inv P tps s1
                                            /\ producer_writes P s s1).
  { unfold flushed. destruct Hinv as (Hwf & Htps & Hbuf).
    destruct (Z.eqb_spec (flags (buffered_step (step_generator_state s))) 0) as [|Hnz].
    - right. exists s. split; [easy|]. split; [easy|now apply producer_writes_refl].
    - destruct (get_next_free_step_event _) as [[slot nh]|] eqn:En; [|now left].
      right. eexists. split; [reflexivity|].
      edestruct (producer_writes_one s) as [Hwf' Hw]; [exact Hwf|exact En| | |].
      3:{ split; [|exact Hw]. apply producer_inv_intro; [exact Hwf'|easy|]. cbn. easy. }
      + reflexivity.
      + now apply Hbuf. }
  destruct Hfl as [-> | (s1 & -> & Hinv1 & Hw1)].
  { intros [= <- <-]. split; [easy|now apply producer_writes_refl]. }
  intros [= <- <-].
  match goal with |- context [append_pending_discarding_step_events ?f s1] =>
    destruct (append_pending_discarding_step_events_writes f s1 Hinv1) as [Hinv2 Hw2];
    set (s2 := append_pending_discarding_step_events f s1) in *
  end.
  destruct (_ =? 0); [|split; [easy|eauto using producer_writes_trans]].
  destruct (is_step_event_queue_full _); [split; [easy|eauto using producer_writes_trans]|].
  match goal with |- context [append_move_discarding_step_event ?e ?x] =>
    destruct (append_move_discarding_step_event e x) as [b s3] eqn:Ea
  end.
  apply append_move_discarding_step_event_writes in Ea as (Hinv3 & Hw3 & _).
  2:{ destruct Hinv2 as (? & ? & ?). now apply producer_inv_intro. }
  cbn [snd]. split; [easy|].
  eapply producer_writes_trans; [exact Hw1|]. eapply producer_writes_trans; [exact Hw2|].
  destruct Hw3 as (l & Hl & Fl). exists l. now split.
Qed.

(** Every step event that one call of [process_one_move_segment_from_queue]
    writes into the step event queue satisfies [P]. *)
Lemma process_one_move_segment_from_queue_writes s r s' :
  producer_inv P tps s ->
  process_one_move_segment_from_queue s = Some (r, s') ->
  producer_inv P tps s' /\ producer_writes P s s'.
Proof.
  intros Hinv. unfold process_one_move_segment_from_queue.
  set (stage := match get_current_unprocessed_move_segment (move_segment_queue s) with
                | Some move => _
                | None => Some (LoopExit 0, s)
                end).
  assert (Hst : stage = None \/ exists r1 s1, stage = Some (r1, s1) /\ producer_inv P tps s1
                                             /\ producer_writes P s s1).
  { unfold stage. destruct (get_current_unprocessed_move_segment _) as [move|].
    2:{ right. exists (LoopExit 0), s. split; [easy|].
        split; [easy|now apply producer_writes_refl]. }
    set (inited := if initialized (step_generator_state s) then Some s else _).
    assert (Hi : inited = None \/ exists s0, inited = Some s0 /\ producer_inv P tps s0
                                            /\ step_event_queue s0 = step_event_queue s).
    { unfold inited. destruct (initialized _); [right; exists s; easy|].
      destruct (step_generator_state_init move s) as [s0|] eqn:Ei; [|now left].
      right. exists s0. split; [easy|].
      apply step_generator_state_init_frame in Ei as (Hq & Ht & Hb).
      destruct Hinv as (Hwf & Htps & Hbuf).
      split; [|easy]. apply producer_inv_intro; [now rewrite Hq|congruence|congruence]. }
    destruct Hi as [-> | (s0 & -> & Hinv0 & Hq0)]; [now left|].
    cbn [mbind option_bind]. cbv zeta.
    destruct (step_generator_state_restart _ _) as [sgs pool] eqn:Er.
    match goal with |- context [produce_step_events ?n ?f ?x] =>
      destruct (produce_step_events n f x) as [[r1 s1]|] eqn:Ep; [|now left]
    end.
    right. exists r1, s1. split; [easy|].
    apply produce_step_events_writes in Ep as [Hinv1 Hw1].
    - split; [easy|]. eapply producer_writes_trans; [|exact Hw1].
      now apply producer_writes_refl.
    - destruct Hinv0 as (Hwf & Htps & Hbuf). apply producer_inv_intro; [easy|easy|].
      cbn. pose proof (P_restart (step_generator_state s0) (step_generators_pool s0) Hbuf) as Hr.
      now rewrite Er in Hr. }
  destruct Hst as [-> | (r1 & s1 & -> & Hinv1 & Hw1)]; [discriminate|].
  cbn [mbind option_bind].
  destruct r1 as [|[|k]].
  - intros [= <- <-]. easy.
  - intros H. apply finish_ending_move_writes in H as [Hinv2 Hw2]; [|easy].
    split; [easy|]. eauto using producer_writes_trans.
  - intros [= <- <-]. easy.
Qed.

End ProducerWrites.

(** ** The reference counts along the producer of step events *)

Section ReferenceCountProducer.

Context `{cfg : Config}.

Lemma discard_current_unprocessed_move_segment_range s s' :
  generators_in_queue s ->
  move_segment_queue s'
  = discard_current_unprocessed_move_segment (move_segment_queue s) ->
  step_generators_pool s' = step_generators_pool s ->
  generators_in_queue s'.
Proof.
  intros ((Hlen & Hh & Ht) & Hut & Hord & Hgen) Hq Hp.
  unfold generators_in_queue, move_segment_queue_wf, in_move_segment_queue in *.
  rewrite Hq, Hp. unfold discard_current_unprocessed_move_segment.
  destruct (Nat.eqb_spec (mq_unprocessed_tail (move_segment_queue s))
              (mq_head (move_segment_queue s))) as [|Hne]; [easy|].
  cbn [mq_data mq_head mq_tail mq_unprocessed_tail].
  destruct (ring_distance_next _ _ _ Ht Hut Hh Hord Hne) as (Hn & Hd & Hlt).
  split; [easy|]. split; [easy|]. split; [lia|]. exact Hgen.
Qed.

Lemma move_segment_processed_handler_range s :
  generators_in_queue s -> generators_in_queue (move_segment_processed_handler s).
Proof.
  intros Hr. unfold move_segment_processed_handler.
  destruct (get_current_unprocessed_move_segment _) as [mv|]; [|exact Hr].
  destruct (_ !! mv) as [m|]; [|exact Hr].
  destruct (_ =? 0); [|exact Hr].
  now apply (discard_current_unprocessed_move_segment_range s).
Qed.

Lemma move_segment_processed_handler_initialized s :
  initialized (step_generator_state (move_segment_processed_handler s))
  = initialized (step_generator_state s).
Proof.
  unfold move_segment_processed_handler.
  destruct (get_current_unprocessed_move_segment _) as [mv|]; [|easy].
  destruct (_ !! mv) as [m|]; [|easy].
  now destruct (_ =? 0).
Qed.

(** A generator that advances stays inside the queue. *)
Lemma classic_step_generator_next_step_event_loop_range fuel a ft s ev s' :
  generators_in_queue s ->
  classic_step_generator_next_step_event_loop fuel a ft s = Some (ev, s') ->
  generators_in_queue s'
  /\ initialized (step_generator_state s') = initialized (step_generator_state s).
Proof.
  revert s. induction fuel as [|fuel IH]; intros s Hr H; [discriminate|].
  cbn [classic_step_generator_next_step_event_loop] in H.
  destruct (current_move _) as [cur|] eqn:Ecur; [|discriminate].
  cbn [mbind option_bind] in H.
  destruct (_ !! cur) as [move|]; [|discriminate].
  cbn [mbind option_bind] in H.
  assert (Hflag : forall g' (s0 : state),
             move_segment_queue s0 = move_segment_queue s ->
             step_generators_pool s0 = step_generators_pool s ->
             current_move g' = Some cur ->
             generators_in_queue
               (set_step_generators_pool (xyze_set (step_generators_pool s0) a g') s0)).
  { intros g' s0 Hq Hp Hg. destruct Hr as (Hwf & Hut & Hord & Hgen).
    unfold generators_in_queue. cbn. rewrite Hq, Hp.
    split; [exact Hwf|]. split; [exact Hut|]. split; [exact Hord|].
    intros b j Hj. destruct (decide (a = b)) as [<-|Hne].
    - rewrite xyze_get_set_eq, Hg in Hj. injection Hj as <-. now apply (Hgen a cur).
    - rewrite xyze_get_set_ne in Hj by easy. now apply (Hgen b j). }
  destruct (_ || _) in H.
  - unfold move_segment_queue_next_move in H.
    destruct (Nat.eqb_spec (move_segment_queue_next_index cur) (mq_head (move_segment_queue s)))
      as [|Hne].
    + injection H as <- <-. split; [|reflexivity]. now apply Hflag.
    + match type of H with
      | (?o ≫= _) = _ => destruct o as [current|]; [|discriminate]
      end.
      cbn [mbind option_bind] in H. apply IH in H as [Hr' Hi'].
      * split; [exact Hr'|]. now rewrite Hi', move_segment_processed_handler_initialized.
      * apply move_segment_processed_handler_range.
        destruct Hr as ((Hlen & Hh & Ht) & Hut & Hord & Hgen).
        destruct (Hgen a cur Ecur) as [Hcur Hlt].
        unfold generators_in_queue, move_segment_queue_wf, in_move_segment_queue.
        cbn. rewrite !length_alter.
        split; [easy|]. split; [easy|]. split; [easy|].
        intros b j Hj. destruct (decide (a = b)) as [<-|Hab].
        -- rewrite xyze_get_set_eq, (proj1 (classic_step_generator_update_frame _ _)) in Hj.
           cbn in Hj. injection Hj as <-. split.
           ++ unfold move_segment_queue_next_index. apply Nat.mod_upper_bound. lia.
           ++ now apply ring_distance_advance.
        -- rewrite xyze_get_set_ne in Hj by easy. now apply (Hgen b j).
  - destruct (_ <? _)%float in H; injection H as <- <-.
    + split; [|reflexivity]. now apply Hflag.
    + split; [|reflexivity]. exact Hr.
Qed.













End ReferenceCountProducer.

Section ReferenceCountProperties.

Context `{cfg : Config}.


End ReferenceCountProperties.

(** ** Properties of the merger and the producer *)

Section MergerProperties.

Context `{cfg : Config}.

(** C1 (amended): for every step event the merger emits, [time_ticks] is
    the double (time - previous_step_time) * ticks_per_sec, with a negative
    difference replaced by 0 first, truncated toward zero by the conversion
    to [int32_t] (not rounded to the nearest tick); the emitted event's
    absolute time becomes the new [previous_step_time]. No other place
    computes a delay: a move-discarding event is queued with the delay 0,
    and buffering a step event only copies delays, into the buffer and from
    the buffer into the queue. *)
Theorem generate_next_step_event_time_ticks (ev0 : step_event_t) (flush_time : float)
    (s : state) (d : bool) (ev : step_event_t) (s' : state) :
  let sgs := step_generator_state s in
  let nearest := xyze_get (step_events sgs) (ax_x (step_event_index sgs)) in
  is_step_time (time nearest) = true ->
  generate_next_step_event ev0 flush_time s = Some (d, ev, s') ->
  let rel := (time nearest - previous_step_time sgs)%float in
  let x := ((if (rel <? 0)%float then 0 else rel) * ticks_per_sec s)%float in
  is_truncation_of (Prim2SF x) (time_ticks ev)
  /\ in_int32 (time_ticks ev)
  /\ previous_step_time (step_generator_state s') = time nearest
  /\ (forall extra s0 s1,
        step_event_queue_wf (step_event_queue s0) ->
        append_move_discarding_step_event extra s0 = (true, s1) ->
        exists e,
          step_event_queue_contents (step_event_queue s1)
          = step_event_queue_contents (step_event_queue s0) ++ [e]
          /\ time_ticks e = 0)
  /\ (forall next new s0 s1,
        buffer_step_event next new s0 = Some s1 ->
        let buf := buffered_step (step_generator_state s0) in
        let buf' := buffered_step (step_generator_state s1) in
        (time_ticks buf' = time_ticks buf \/ buf' = new)
        /\ (step_event_queue s1 = step_event_queue s0
            \/ exists slot next_head,
                 next = Some (slot, next_head)
                 /\ step_event_queue s1
                    = step_event_queue_write slot next_head buf (step_event_queue s0))).
Proof.
  intros sgs nearest Hstep H.
  apply generate_next_step_event_inv in H as [H _]. cbv zeta in H.
  fold sgs nearest in H. rewrite Hstep in H. destruct H as (Ht & _ & Hp).
  apply double_to_int32_Some in Ht as [Ht Hr]. cbv zeta.
  split; [now apply trunc_SF_spec|]. split; [exact Hr|]. split; [exact Hp|]. split.
  - intros extra s0 s1 Hwf. unfold append_move_discarding_step_event.
    destruct (get_next_free_step_event _) as [[slot nh]|] eqn:Hn; [|discriminate].
    intros [= <-]. eexists.
    cbn [step_event_queue set_step_generator_state set_step_event_queue].
    split; [now apply step_event_queue_write_contents|]. reflexivity.
  - intros next new s0 s1. unfold buffer_step_event.
    destruct (_ =? 0); [intros [= <-]; now split; left|].
    destruct (_ =? 0); [intros [= <-]; split; [now right|now left]|].
    destruct (_ && _); [intros [= <-]; split; now left|].
    destruct next as [[slot nh]|]; [|discriminate].
    cbn [mbind option_bind]. intros [= <-]. split; [now right|].
    right. now exists slot, nh.
Qed.

Lemma step_bit_nz a : STEP_EVENT_FLAG_STEP_X <> 0 -> step_bit a <> 0.
Proof.
  intros H. unfold step_bit. rewrite Z.shiftl_eq_0_iff; [easy|]. now destruct a.
Qed.

Lemma move_segment_processed_handler_step_generator s :
  step_generator (step_generator_state (move_segment_processed_handler s))
  = step_generator (step_generator_state s).
Proof.
  unfold move_segment_processed_handler.
  destruct (get_current_unprocessed_move_segment _) as [mv|]; [|easy].
  destruct (_ !! mv) as [m|]; [|easy].
  now destruct (_ =? 0).
Qed.

(** A generator leaves the merger's generator pointers and the axis of every
    generator alone; what it returns is the end-of-queue sentinel or carries
    the Step bit of the generator's axis. *)
Lemma classic_step_generator_next_step_event_loop_event fuel a ft s ev s' :
  STEP_EVENT_FLAG_STEP_X <> 0 ->
  classic_step_generator_next_step_event_loop fuel a ft s = Some (ev, s') ->
  step_generator (step_generator_state s') = step_generator (step_generator_state s)
  /\ (forall b, axis (xyze_get (step_generators_pool s') b)
               = axis (xyze_get (step_generators_pool s) b))
  /\ (ev = StepEventInfo DBL_MAX 0
      \/ Z.land (iflags ev) (step_bit (axis (xyze_get (step_generators_pool s) a))) <> 0).
Proof.
  intros Hnz. revert s. induction fuel as [|fuel IH]; intros s H; [discriminate|].
  cbn [classic_step_generator_next_step_event_loop] in H.
  destruct (current_move _) as [cur|]; [|discriminate].
  cbn [mbind option_bind] in H.
  destruct (_ !! cur) as [move|]; [|discriminate].
  cbn [mbind option_bind] in H.
  assert (Hset : forall g' b,
             axis g' = axis (xyze_get (step_generators_pool s) a) ->
             axis (xyze_get (xyze_set (step_generators_pool s) a g') b)
             = axis (xyze_get (step_generators_pool s) b)).
  { intros g' b Hg. destruct (decide (a = b)) as [<-|Hne].
    - now rewrite xyze_get_set_eq.
    - now rewrite xyze_get_set_ne. }
  destruct (_ || _) in H.
  - destruct (move_segment_queue_next_move _ cur) as [next|].
    + destruct (_ !! next) as [current|]; [|discriminate].
      cbn [mbind option_bind] in H. apply IH in H as (Hsg & Hax & Hev).
      rewrite move_segment_processed_handler_step_generator in Hsg.
      rewrite (proj2 (move_segment_processed_handler_frame _)) in Hax, Hev.
      cbn in Hsg, Hax, Hev.
      assert (Hupd : forall b,
                 axis (xyze_get (step_generators_pool s') b)
                 = axis (xyze_get (step_generators_pool s) b)).
      { intros b. rewrite Hax. apply Hset.
        now rewrite (proj2 (classic_step_generator_update_frame _ _)). }
      split; [exact Hsg|]. split; [exact Hupd|].
      rewrite xyze_get_set_eq, (proj2 (classic_step_generator_update_frame _ _)) in Hev.
      exact Hev.
    + injection H as <- <-. split; [reflexivity|]. split; [|now left].
      intros b. now apply Hset.
  - destruct (_ <? _)%float in H; injection H as <- <-.
    + split; [reflexivity|]. split; [|now left]. intros b. now apply Hset.
    + split; [reflexivity|]. split; [reflexivity|]. right. cbn.
      apply land_lor_nz_l. rewrite Z.land_diag. now apply step_bit_nz.
Qed.

(** The merger emits only events that carry the Step bit of their axis. *)
Lemma generate_next_step_event_carries_step ev0 ft s d ev s' :
  STEP_EVENT_FLAG_STEP_X <> 0 ->
  pending_events_carry_step s -> generators_linked s ->
  generate_next_step_event ev0 ft s = Some (d, ev, s') ->
  let sgs := step_generator_state s in
  let head := ax_x (step_event_index sgs) in
  (if is_step_time (time (xyze_get (step_events sgs) head))
   then Z.land (flags ev) (step_bit head) <> 0 else flags ev = 0)
  /\ pending_events_carry_step s' /\ generators_linked s'.
Proof.
  intros Hnz Hpend Hax H.
  apply generate_next_step_event_inv in H
    as (Hout & s0 & nev & s1 & (Hp0 & Hg0) & Hn & _ & Hev & (Hp1 & Hg1) & _).
  cbv zeta in *.
  set (sgs := step_generator_state s) in *.
  set (head := ax_x (step_event_index sgs)) in *.
  unfold step_generator_next_step_event in Hn.
  destruct (xyze_get (next_step_func _) head) as [[]|] in Hn; [|discriminate].
  destruct (xyze_get (step_generator _) head) as [g|] eqn:Eg in Hn; [|discriminate].
  cbn [mbind option_bind] in Hn.
  apply classic_step_generator_next_step_event_loop_event in Hn as (Hsg & Hax1 & Hnev);
    [|easy].
  assert (Hhead : axis (xyze_get (step_generators_pool s) g) = head).
  { apply Hax. subst sgs. now rewrite <- Hg0. }
  rewrite Hp0, Hhead in Hnev.
  split; [|split].
  - destruct (is_step_time _) eqn:Est.
    + destruct Hout as (_ & -> & _). specialize (Hpend head Est).
      destruct (_ =? 0); [easy|]. now apply land_lor_nz_l.
    + now rewrite Hout.
  - intros b. cbv zeta. rewrite Hev. destruct (decide (head = b)) as [<-|Hne].
    + rewrite xyze_get_set_eq. destruct Hnev as [->|Hb]; [|easy].
      intros Hc. vm_compute in Hc. discriminate.
    + rewrite xyze_get_set_ne by easy. apply Hpend.
  - intros b g'. rewrite Hg1, Hsg, Hg0, Hp1, Hax1, Hp0. apply Hax.
Qed.

Lemma step_generator_reset_reached_end_linked i s s' :
  generators_linked s ->
  step_generator_reset_reached_end i s = Some s' ->
  generators_linked s' /\ step_generator_state s' = step_generator_state s.
Proof.
  intros Hl. unfold step_generator_reset_reached_end.
  destruct (xyze_get _ i) as [g|]; [|discriminate]. intros [= <-].
  split; [|reflexivity]. intros b g' Hb. cbn in Hb |- *.
  destruct (decide (g = g')) as [<-|Hne].
  - rewrite xyze_get_set_eq. cbn. now apply Hl.
  - rewrite xyze_get_set_ne by easy. now apply Hl.
Qed.

Lemma classic_step_generator_init_linked move a s s' :
  generators_linked s ->
  classic_step_generator_init move a s = Some s' ->
  generators_linked s'
  /\ step_events (step_generator_state s') = step_events (step_generator_state s).
Proof.
  intros Hl. unfold classic_step_generator_init.
  destruct (_ !! move) as [m|]; [|discriminate].
  cbn [mbind option_bind]. intros [= <-]. split; [|reflexivity].
  intros b g. cbn.
  assert (Hax : forall c,
             axis (xyze_get (xyze_set (step_generators_pool s) a
                     (classic_step_generator_update m
                        (set_current_move (Some move) (xyze_get (step_generators_pool s) a)))) c)
             = axis (xyze_get (step_generators_pool s) c)).
  { intros c. destruct (decide (a = c)) as [<-|Hne].
    - now rewrite xyze_get_set_eq, (proj2 (classic_step_generator_update_frame _ _)).
    - now rewrite xyze_get_set_ne. }
  rewrite Hax.
  destruct (decide (axis (xyze_get (step_generators_pool s) a) = b)) as [<-|Hne].
  - rewrite xyze_get_set_eq. now intros [= <-].
  - rewrite xyze_get_set_ne by easy. apply Hl.
Qed.

(** [step_generator_state_init] leaves the merger with no pending event
    and with every generator pointer at a generator of its axis. *)
Lemma step_generator_state_init_linked move s s' :
  generators_linked s ->
  step_generator_state_init move s = Some s' ->
  pending_events_carry_step s' /\ generators_linked s'.
Proof.
  intros Hl. unfold step_generator_state_init.
  destruct (_ !! move) as [m|]; [|discriminate].
  cbn [mbind option_bind].
  destruct (_ <? _)%float; [discriminate|]. cbv zeta.
  match goal with
  | |- context [step_generator_reset_reached_end X_AXIS ?x] =>
      assert (Hl0 : generators_linked x) by exact Hl;
      assert (He0 : step_events (step_generator_state x) = xyze_all (StepEventInfo 0 0))
        by reflexivity;
      generalize dependent x; intros s0 Hl0 He0
  end.
  repeat match goal with
         | |- context [step_generator_reset_reached_end ?i ?x] =>
             let E := fresh "E" in
             let Hn := fresh "Hl" in
             let Hs := fresh "Hs" in
             destruct (step_generator_reset_reached_end i x) as [?s|] eqn:E; [|discriminate];
             match goal with
             | Hx : generators_linked x |- _ =>
                 destruct (step_generator_reset_reached_end_linked _ _ _ Hx E) as [Hn Hs]
             end;
             rewrite <- Hs in He0; clear E Hs; cbn [mbind option_bind]
         | |- context [classic_step_generator_init ?mv ?a ?x] =>
             let E := fresh "E" in
             let Hn := fresh "Hl" in
             let Hs := fresh "Hs" in
             destruct (classic_step_generator_init mv a x) as [?s|] eqn:E; [|discriminate];
             match goal with
             | Hx : generators_linked x |- _ =>
                 destruct (classic_step_generator_init_linked _ _ _ _ Hx E) as [Hn Hs]
             end;
             rewrite <- Hs in He0; clear E Hs; cbn [mbind option_bind]
         end.
  intros [= <-]. split.
  - intros a. cbn. rewrite He0. intros Hc. destruct a; vm_compute in Hc; discriminate.
  - assumption.
Qed.

(** C10: every step event written into the step event queue has non-zero
    flags. One call of [process_one_move_segment_from_queue] only appends to
    the queue, and only events with non-zero flags (the buffered step is
    flushed only when its flags are non-zero); an event the merger emits
    carries the Step bit of its axis, which the merger keeps true of its
    pending events and [step_generator_state_init] makes true; a
    move-discarding event carries BeginningOfMoveSegment. *)
Theorem step_events_written_have_flags (s : state) (r : StepGeneratorStatus) (s' : state) :
  STEP_EVENT_FLAG_STEP_X <> 0 ->
  STEP_EVENT_FLAG_BEGINNING_OF_MOVE_SEGMENT <> 0 ->
  step_event_queue_wf (step_event_queue s) ->
  process_one_move_segment_from_queue s = Some (r, s') ->
  (exists new : list step_event_t,
      step_event_queue_contents (step_event_queue s')
      = step_event_queue_contents (step_event_queue s) ++ new
      /\ Forall (fun ev => flags ev <> 0) new)
  /\ (forall ev0 ft s0 d ev s1,
        pending_events_carry_step s0 -> generators_linked s0 ->
        generate_next_step_event ev0 ft s0 = Some (d, ev, s1) ->
        let head := ax_x (step_event_index (step_generator_state s0)) in
        (if is_step_time (time (xyze_get (step_events (step_generator_state s0)) head))
         then Z.land (flags ev) (step_bit head) <> 0 else flags ev = 0)
        /\ pending_events_carry_step s1 /\ generators_linked s1)
  /\ (forall move s0 s1,
        generators_linked s0 ->
        step_generator_state_init move s0 = Some s1 ->
        pending_events_carry_step s1 /\ generators_linked s1)
  /\ (forall extra s0 s1,
        step_event_queue_wf (step_event_queue s0) ->
        append_move_discarding_step_event extra s0 = (true, s1) ->
        exists ev,
          step_event_queue_contents (step_event_queue s1)
          = step_event_queue_contents (step_event_queue s0) ++ [ev]
          /\ Z.land (flags ev) STEP_EVENT_FLAG_BEGINNING_OF_MOVE_SEGMENT <> 0).
Proof.
  intros Hstep Hbegin Hwf H. split; [|split; [|split]].
  - pose (P := fun ev : step_event_t => flags ev <> 0).
    assert (Hd : forall sf extra,
               P (StepEvent 0 (Z.lor (Z.lor sf STEP_EVENT_FLAG_BEGINNING_OF_MOVE_SEGMENT) extra))).
    { intros sf extra. unfold P. cbn. rewrite !Z.lor_eq_0_iff. tauto. }
    assert (Hm : forall b n, P b -> flags b <> 0 ->
               P (StepEvent (time_ticks b) (Z.lor (flags b) (flags n)))).
    { intros b n _ Hb. unfold P. cbn. rewrite Z.lor_eq_0_iff. tauto. }
    assert (Hg : forall ev0 ft s0 d ev s1,
               ticks_per_sec s0 = ticks_per_sec s ->
               generate_next_step_event ev0 ft s0 = Some (d, ev, s1) ->
               flags ev <> 0 -> P ev) by (intros; assumption).
    assert (Hr : forall sgs pool,
               (flags (buffered_step sgs) <> 0 -> P (buffered_step sgs)) ->
               flags (buffered_step (fst (step_generator_state_restart sgs pool))) <> 0 ->
               P (buffered_step (fst (step_generator_state_restart sgs pool))))
      by (intros; assumption).
    assert (Hinv : producer_inv P (ticks_per_sec s) s) by (unfold producer_inv, P; tauto).
    exact (proj2 (process_one_move_segment_from_queue_writes P (ticks_per_sec s)
                    Hd Hm Hg Hr s r s' Hinv H)).
  - intros ev0 ft s0 d ev s1 Hp Ha Hgen.
    now apply (generate_next_step_event_carries_step ev0 ft s0 d ev s1).
  - intros move s0 s1 Hl Hi.
    now apply (step_generator_state_init_linked move s0 s1).
  - intros extra s0 s1 Hwf0. unfold append_move_discarding_step_event.
    destruct (get_next_free_step_event _) as [[slot nh]|] eqn:Hn; [|discriminate].
    intros [= <-]. eexists. cbn [step_event_queue set_step_generator_state set_step_event_queue].
    split; [now apply step_event_queue_write_contents|]. cbn.
    apply land_lor_nz_l, land_lor_nz_r. now rewrite Z.land_diag.
Qed.

Lemma delay_prefix_sum_mono (l : list step_event_t) (i j : nat) :
  Forall (fun ev => 0 <= time_ticks ev) l -> (i <= j)%nat ->
  delay_prefix_sum l i <= delay_prefix_sum l j.
Proof.
  intros Hl Hij. unfold delay_prefix_sum.
  assert (Hsum : forall k : list step_event_t,
             Forall (fun ev => 0 <= time_ticks ev) k -> 0 <= foldr Z.add 0 (map time_ticks k)).
  { induction 1; cbn; lia. }
  replace (S j) with (S i + (j - i))%nat by lia.
  rewrite <- (take_drop (S i) (take (S i + (j - i)) l)).
  rewrite take_take, Nat.min_l by lia.
  rewrite map_app, foldr_app.
  assert (Hfold : forall (a b : list Z), foldr Z.add (foldr Z.add 0 b) a
                                          = foldr Z.add 0 a + foldr Z.add 0 b).
  { induction a as [|x a IHa]; intros b; cbn; [lia|]. rewrite IHa. lia. }
  rewrite Hfold.
  enough (0 <= foldr Z.add 0 (map time_ticks (drop (S i) (take (S i + (j - i)) l)))) by lia.
  apply Hsum. apply Forall_drop, Forall_take, Hl.
Qed.

(** C2: the merger never emits a negative delay. A negative difference
    between the nearest event's time and [previous_step_time] is replaced by
    0 before the conversion, so that the delay is 0 then, and an emitted
    event has [time_ticks >= 0] in any case; one
    call of [process_one_move_segment_from_queue] appends only events with
    [time_ticks >= 0] to the step event queue, and the prefix sums of the
    delays in the queue are non-decreasing. *)
Theorem step_event_delays_nonnegative (s : state) (r : StepGeneratorStatus) (s' : state) :
  (0 <=? ticks_per_sec s)%float = true ->
  (forall sgs pool,
     buffered_step (fst (step_generator_state_restart sgs pool)) = buffered_step sgs) ->
  step_event_queue_wf (step_event_queue s) ->
  (flags (buffered_step (step_generator_state s)) <> 0 ->
   0 <= time_ticks (buffered_step (step_generator_state s))) ->
  Forall (fun ev => 0 <= time_ticks ev) (step_event_queue_contents (step_event_queue s)) ->
  process_one_move_segment_from_queue s = Some (r, s') ->
  (forall ev0 ft s0 d ev s1,
     ticks_per_sec s0 = ticks_per_sec s ->
     generate_next_step_event ev0 ft s0 = Some (d, ev, s1) ->
     flags ev <> 0 -> 0 <= time_ticks ev)
  /\ (forall ev0 ft s0 d ev s1,
        generate_next_step_event ev0 ft s0 = Some (d, ev, s1) ->
        let sgs := step_generator_state s0 in
        let nearest := xyze_get (step_events sgs) (ax_x (step_event_index sgs)) in
        is_step_time (time nearest) = true ->
        (time nearest - previous_step_time sgs <? 0)%float = true ->
        time_ticks ev = 0)
  /\ (flags (buffered_step (step_generator_state s')) <> 0 ->
      0 <= time_ticks (buffered_step (step_generator_state s')))
  /\ Forall (fun ev => 0 <= time_ticks ev) (step_event_queue_contents (step_event_queue s'))
  /\ (forall i j, (i <= j)%nat ->
        delay_prefix_sum (step_event_queue_contents (step_event_queue s')) i
        <= delay_prefix_sum (step_event_queue_contents (step_event_queue s')) j).
Proof.
  intros Htps Hrestart Hwf Hbuf Hq H.
  pose (P := fun ev : step_event_t => 0 <= time_ticks ev).
  assert (Hg : forall ev0 ft s0 d ev s1,
             ticks_per_sec s0 = ticks_per_sec s ->
             generate_next_step_event ev0 ft s0 = Some (d, ev, s1) ->
             flags ev <> 0 -> P ev).
  { intros ev0 ft s0 d ev s1 Ht Hgen Hnz.
    apply generate_next_step_event_inv in Hgen as [Hout _]. cbv zeta in Hout.
    destruct (is_step_time _).
    - destruct Hout as (Hticks & _ & _). unfold P.
      eapply clamped_ticks_nonneg; [|exact Hticks]. now rewrite Ht.
    - rewrite Hout in Hnz. now cbn in Hnz. }
  assert (Hd : forall sf extra,
             P (StepEvent 0 (Z.lor (Z.lor sf STEP_EVENT_FLAG_BEGINNING_OF_MOVE_SEGMENT) extra))).
  { intros sf extra. unfold P. cbn. lia. }
  assert (Hm : forall b n, P b -> flags b <> 0 ->
             P (StepEvent (time_ticks b) (Z.lor (flags b) (flags n)))).
  { intros b n Hb _. exact Hb. }
  assert (Hr : forall sgs pool,
             (flags (buffered_step sgs) <> 0 -> P (buffered_step sgs)) ->
             flags (buffered_step (fst (step_generator_state_restart sgs pool))) <> 0 ->
             P (buffered_step (fst (step_generator_state_restart sgs pool)))).
  { intros sgs pool. now rewrite Hrestart. }
  assert (Hinv : producer_inv P (ticks_per_sec s) s) by (unfold producer_inv, P; tauto).
  destruct (process_one_move_segment_from_queue_writes P (ticks_per_sec s)
              Hd Hm Hg Hr s r s' Hinv H) as [(_ & _ & Hbuf') (new & Hnew & Fnew)].
  assert (Hq' : Forall (fun ev => 0 <= time_ticks ev)
                  (step_event_queue_contents (step_event_queue s'))).
  { rewrite Hnew. now apply Forall_app. }
  split; [exact Hg|]. split; [|split; [exact Hbuf'|split; [exact Hq'|]]].
  - intros ev0 ft s0 d ev s1 Hgen sgs nearest Hstep Hneg.
    apply generate_next_step_event_inv in Hgen as [Hout _]. cbv zeta in Hout.
    fold sgs nearest in Hout. rewrite Hstep, Hneg in Hout. destruct Hout as (Hticks & _).
    apply double_to_int32_Some in Hticks as [Hticks _].
    rewrite mul_spec, Prim2SF_zero in Hticks.
    destruct (Prim2SF (ticks_per_sec s0)) as [sg|sg| |sg m e]; cbn in Hticks;
      try discriminate; now injection Hticks.
  - intros i j Hij. now apply delay_prefix_sum_mono.
Qed.

(** C6 (amended): the coalescing rule. With a buffered step and a new step
    event, the new event is merged into the buffer, by ORing its flags into
    the buffer's, exactly when its [time_ticks] is 0, it shares with the
    buffer no bit of STEP_EVENT_FLAG_AXIS_MASK (the step bits) or
    STEP_EVENT_FLAG_AXIS_OTHER_MASK (the move flags; the active bits are
    not compared), and its direction bits equal the buffer's; otherwise the
    buffer is appended to the step event queue and replaced by the new
    event. Two events that step axes at the same instant are therefore
    merged only if they pass the test: then they leave one buffered event
    with both step bits and nothing new in the queue. They are kept apart,
    as two events of the queue, when both carry the BeginningOfMoveSegment
    marker, which lies in the masks. *)
Theorem buffer_step_event_coalesces (new : step_event_t) (slot next_head : nat) (s : state) :
  let buf := buffered_step (step_generator_state s) in
  flags buf <> 0 ->
  flags new <> 0 ->
  step_event_queue_wf (step_event_queue s) ->
  get_next_free_step_event (step_event_queue s) = Some (slot, next_head) ->
  let mergeable :=
    (time_ticks new =? 0)
    && (Z.land (Z.land (flags buf) (flags new))
               (Z.lor STEP_EVENT_FLAG_AXIS_MASK STEP_EVENT_FLAG_AXIS_OTHER_MASK) =? 0)
    && (Z.land (Z.lxor (flags buf) (flags new)) STEP_EVENT_FLAG_DIR_MASK =? 0) in
  exists s',
    buffer_step_event (Some (slot, next_head)) new s = Some s'
    /\ (if mergeable then
          buffered_step (step_generator_state s')
          = StepEvent (time_ticks buf) (Z.lor (flags buf) (flags new))
          /\ step_event_queue s' = step_event_queue s
        else
          buffered_step (step_generator_state s') = new
          /\ step_event_queue_contents (step_event_queue s')
             = step_event_queue_contents (step_event_queue s) ++ [buf])
    /\ (forall a b,
          Z.land (flags buf) (step_bit a) <> 0 ->
          Z.land (flags new) (step_bit b) <> 0 ->
          mergeable = true ->
          step_event_queue s' = step_event_queue s
          /\ Z.land (flags (buffered_step (step_generator_state s'))) (step_bit a) <> 0
          /\ Z.land (flags (buffered_step (step_generator_state s'))) (step_bit b) <> 0)
    /\ (Z.land STEP_EVENT_FLAG_BEGINNING_OF_MOVE_SEGMENT
          (Z.lor STEP_EVENT_FLAG_AXIS_MASK STEP_EVENT_FLAG_AXIS_OTHER_MASK)
        = STEP_EVENT_FLAG_BEGINNING_OF_MOVE_SEGMENT ->
        Z.land (Z.land (flags buf) (flags new)) STEP_EVENT_FLAG_BEGINNING_OF_MOVE_SEGMENT <> 0 ->
        mergeable = false
        /\ buffered_step (step_generator_state s') = new
        /\ step_event_queue_contents (step_event_queue s')
           = step_event_queue_contents (step_event_queue s) ++ [buf]).
Proof.
  intros buf Hbuf Hnew Hwf Hfree mergeable. unfold buffer_step_event.
  destruct (Z.eqb_spec (flags new) 0) as [|_]; [contradiction|].
  fold buf. destruct (Z.eqb_spec (flags buf) 0) as [|_]; [contradiction|].
  fold mergeable. destruct mergeable eqn:Em.
  - eexists. split; [reflexivity|]. cbn. split; [easy|]. split.
    + intros a b Ha Hb _. split; [easy|].
      split; [now apply land_lor_nz_l|now apply land_lor_nz_r].
    + intros Hmask Hboth. exfalso. apply Hboth.
      apply andb_prop in Em as [Em _]. apply andb_prop in Em as [_ Em].
      apply Z.eqb_eq in Em.
      rewrite <- Hmask, (Z.land_comm STEP_EVENT_FLAG_BEGINNING_OF_MOVE_SEGMENT), Z.land_assoc, Em.
      apply Z.land_0_l.
  - eexists. cbn [mbind option_bind]. split; [reflexivity|].
    cbn [step_generator_state buffered_step step_event_queue set_step_generator_state
         set_buffered_step set_step_event_queue].
    assert (Hc : step_event_queue_contents
                   (StepEventQueue (<[slot:=buf]> (sq_data (step_event_queue s))) next_head
                      (sq_tail (step_event_queue s)))
                 = step_event_queue_contents (step_event_queue s) ++ [buf])
      by now apply step_event_queue_write_contents.
    split; [split; [reflexivity|exact Hc]|]. split; [discriminate|].
    intros _ _. split; [reflexivity|]. split; [reflexivity|exact Hc].
Qed.

Lemma reset_queues_again s :
  (forall sgs, step_generator_state_clear (step_generator_state_clear sgs)
               = step_generator_state_clear sgs) ->
  reset_queues (reset_queues s) = reset_queues s.
Proof.
  intros Hclear. unfold reset_queues, reset_from_halt, set_step_generator_state.
  cbn [step_generator_state set_total_print_time set_total_start_pos
       set_total_start_pos_steps set_planner set_step_dl_miss set_step_ev_miss
       set_left_ticks_to_next_step_event set_stepper set_stop_pending
       set_step_event_queue set_move_segment_queue move_segment_queue step_event_queue
       left_ticks_to_next_step_event ticks_per_sec step_generators_pool max_lookback_time
       total_print_time total_start_pos total_start_pos_steps
       waiting_before_delivering_start_time stop_pending step_dl_miss step_ev_miss
       planner stepper count_position axis_did_move clear_block_buffer
       delay_before_delivering block_buffer processed
       step_event_queue_clear move_segment_queue_clear mq_data sq_data].
  now rewrite Hclear.
Qed.

(** C7 (amended): stop safety. With [stop_pending] asserted, the foreground
    loop runs [reset_queues], after which both queues are empty,
    [total_print_time] is 0, [total_start_pos] and [total_start_pos_steps]
    are zero, [axis_did_move] is 0, [stop_pending] is cleared, the planner's
    block buffer is empty, and the miss counters [step_dl_miss] and
    [step_ev_miss] are zero, not unchanged, as is
    [left_ticks_to_next_step_event]; the position counters of the stepper are
    not touched. The state reached is a halt state: resetting it once more
    changes nothing (when clearing a cleared merger state changes
    nothing). *)
Theorem reset_queues_fresh_halt (s : state) :
  stop_pending s = true ->
  let s' := loop s in
  s' = reset_queues s
  /\ step_event_queue_contents (step_event_queue s') = []
  /\ move_segment_queue_contents (move_segment_queue s') = []
  /\ total_print_time s' = 0%float
  /\ total_start_pos s' = XYZE 0%float 0%float 0%float 0%float
  /\ total_start_pos_steps s' = XYZE 0 0 0 0
  /\ axis_did_move (stepper s') = 0
  /\ stop_pending s' = false
  /\ block_buffer (planner s') = []
  /\ count_position (stepper s') = count_position (stepper s)
  /\ step_dl_miss s' = 0
  /\ step_ev_miss s' = 0
  /\ left_ticks_to_next_step_event s' = 0
  /\ ((forall sgs, step_generator_state_clear (step_generator_state_clear sgs)
                   = step_generator_state_clear sgs) ->
      reset_queues s' = s').
Proof.
  intros Hstop. unfold loop. rewrite Hstop. cbv zeta.
  split; [reflexivity|].
  repeat match goal with |- _ /\ _ => split end.
  13: intros Hclear; apply reset_queues_again, Hclear.
  all: unfold reset_queues, reset_from_halt, step_event_queue_contents,
         move_segment_queue_contents, step_event_queue_size, move_segment_queue_size.
  all: cbn; rewrite ?Nat.add_0_l, ?Nat.sub_0_r, ?Nat.Div0.mod_same; cbn; reflexivity.
Qed.

End MergerProperties.

(** ** The statements on the sample configuration *)

Module SampleRuns.

Import Sample.

Ltac crunch :=
  repeat match goal with |- _ /\ _ => split end;
  vm_compute; first [reflexivity | discriminate | lia].

Lemma Forall_forallb {A} (p : A -> bool) (l : list A) :
  forallb p l = true -> Forall (fun x => p x = true) l.
Proof. intros H. apply Forall_forall. intros x Hx. apply list_elem_of_In in Hx. eapply forallb_forall in H; eauto. Qed.

Lemma sample_move_flags_wf : move_flags_wf (cfg := sample_config).
Proof.
  constructor; try discriminate; try reflexivity;
    unfold move_flag_others; repeat constructor.
Qed.

Lemma sample_begun_wf : move_segment_queue_wf (cfg := sample_config) (move_segment_queue sample_begun).
Proof. unfold move_segment_queue_wf, step_event_queue_wf. crunch. Qed.

Lemma sample_running_wf : step_event_queue_wf (cfg := sample_config) (step_event_queue sample_running).
Proof. unfold move_segment_queue_wf, step_event_queue_wf. crunch. Qed.

Lemma sample_saturated_wf :
  move_segment_queue_wf (cfg := sample_config) (move_segment_queue sample_saturated).
Proof. unfold move_segment_queue_wf, step_event_queue_wf. crunch. Qed.

(** C1, at the sample run: the eighth step of block S1 is due
    6957318144000000 / 2^43 = 790.955... ticks after the seventh; the merger
    emits 790, the specification's rounding gives 791. *)
Lemma generate_next_step_event_truncates :
  generate_next_step_event (cfg := sample_config) (StepEvent 0 0)
    sample_flush_time sample_running = Some sample_generated
  /\ is_step_time (time sample_nearest) = true
  /\ Prim2SF ((time sample_nearest
               - previous_step_time (step_generator_state sample_running))
              * ticks_per_sec sample_running)%float
     = S754_finite false 6957318144000000 (-43)
  /\ time_ticks (snd (fst sample_generated)) = 790
  /\ spec_time_ticks (time sample_nearest)
       (previous_step_time (step_generator_state sample_running))
       (ticks_per_sec sample_running)
     = Some 791.
Proof. crunch. Qed.

(** C1 (amended), at the sample run. *)
Lemma generate_next_step_event_time_ticks_witness :
  is_truncation_of
    (Prim2SF
       ((if (time sample_nearest
             - previous_step_time (step_generator_state sample_running) <? 0)%float
         then 0
         else time sample_nearest
              - previous_step_time (step_generator_state sample_running))
        * ticks_per_sec sample_running)%float)
    (time_ticks (snd (fst sample_generated)))
  /\ in_int32 (time_ticks (snd (fst sample_generated)))
  /\ previous_step_time (step_generator_state (snd sample_generated)) = time sample_nearest
  /\ (forall extra s0 s1,
        step_event_queue_wf (cfg := sample_config) (step_event_queue s0) ->
        append_move_discarding_step_event (cfg := sample_config) extra s0 = (true, s1) ->
        exists e,
          step_event_queue_contents (cfg := sample_config) (step_event_queue s1)
          = step_event_queue_contents (cfg := sample_config) (step_event_queue s0) ++ [e]
          /\ time_ticks e = 0)
  /\ (forall next new s0 s1,
        buffer_step_event (cfg := sample_config) next new s0 = Some s1 ->
        (time_ticks (buffered_step (step_generator_state s1))
         = time_ticks (buffered_step (step_generator_state s0))
         \/ buffered_step (step_generator_state s1) = new)
        /\ (step_event_queue s1 = step_event_queue s0
            \/ exists slot next_head,
                 next = Some (slot, next_head)
                 /\ step_event_queue s1
                    = step_event_queue_write slot next_head
                        (buffered_step (step_generator_state s0)) (step_event_queue s0))).
Proof.
  apply (generate_next_step_event_time_ticks (cfg := sample_config) (StepEvent 0 0)
           sample_flush_time sample_running (fst (fst sample_generated))
           (snd (fst sample_generated)) (snd sample_generated));
    vm_compute; reflexivity.
Defined.

(** C2, at the sample run. *)
Lemma step_event_delays_nonnegative_witness :
  (forall ev0 ft s0 d ev s1,
     ticks_per_sec s0 = ticks_per_sec sample_running ->
     generate_next_step_event (cfg := sample_config) ev0 ft s0 = Some (d, ev, s1) ->
     flags ev <> 0 -> 0 <= time_ticks ev)
  /\ (forall ev0 ft s0 d ev s1,
        generate_next_step_event (cfg := sample_config) ev0 ft s0 = Some (d, ev, s1) ->
        is_step_time
          (time (xyze_get (step_events (step_generator_state s0))
                          (ax_x (step_event_index (step_generator_state s0))))) = true ->
        (time (xyze_get (step_events (step_generator_state s0))
                        (ax_x (step_event_index (step_generator_state s0))))
         - previous_step_time (step_generator_state s0) <? 0)%float = true ->
        time_ticks ev = 0)
  /\ (flags (buffered_step (step_generator_state sample_after)) <> 0 ->
      0 <= time_ticks (buffered_step (step_generator_state sample_after)))
  /\ Forall (fun ev => 0 <= time_ticks ev)
       (step_event_queue_contents (cfg := sample_config) (step_event_queue sample_after))
  /\ (forall i j, (i <= j)%nat ->
        delay_prefix_sum
          (step_event_queue_contents (cfg := sample_config) (step_event_queue sample_after)) i
        <= delay_prefix_sum
             (step_event_queue_contents (cfg := sample_config) (step_event_queue sample_after)) j).
Proof.
  apply (step_event_delays_nonnegative (cfg := sample_config) sample_running
           STEP_GENERATOR_STATUS_OK sample_after).
  - vm_compute; reflexivity.
  - intros sgs pool. reflexivity.
  - exact sample_running_wf.
  - intros _. vm_compute. discriminate.
  - eapply Forall_impl; [apply (Forall_forallb (fun ev => 0 <=? time_ticks ev))|].
    + vm_compute; reflexivity.
    + intros ev Hev. now apply Z.leb_le.
  - vm_compute; reflexivity.
Defined.

(** A negative difference is emitted as the delay 0. *)
Example sample_late_clamped :
  (time sample_nearest - previous_step_time (step_generator_state sample_late) <? 0)%float
  = true
  /\ option_map (fun r => snd (fst r))
       (generate_next_step_event (cfg := sample_config) (StepEvent 0 0) sample_flush_time
          sample_late)
     = Some (StepEvent 0 257).
Proof. crunch. Qed.

(** C3, at a block of length zero: the append succeeds and pushes
    nothing. *)
Lemma append_move_segments_to_queue_pushes_nothing :
  (millimeters block_zero_length =? 0)%float = true
  /\ fst (append_move_segments_to_queue (cfg := sample_config) block_zero_length sample_begun)
     = true
  /\ move_segment_queue
       (snd (append_move_segments_to_queue (cfg := sample_config) block_zero_length sample_begun))
     = move_segment_queue sample_begun.
Proof. crunch. Qed.

(** C3 (amended), at block S2. *)
Lemma append_move_segments_to_queue_pushes_witness :
  exists segs : list move_t,
    move_segment_queue_contents (cfg := sample_config) (move_segment_queue sample_compiled)
    = move_segment_queue_contents (cfg := sample_config) (move_segment_queue sample_begun) ++ segs
    /\ (1 <= length segs <= 3)%nat
    /\ phases_in_order (cfg := sample_config) segs
    /\ print_time_chain (total_print_time sample_begun) segs (total_print_time sample_compiled)
    /\ count_move_flag (MOVE_FLAG_FIRST_MOVE_SEGMENT_OF_BLOCK (Config := sample_config)) segs = 1%nat
    /\ count_move_flag (MOVE_FLAG_LAST_MOVE_SEGMENT_OF_BLOCK (Config := sample_config)) segs = 1%nat.
Proof.
  apply (append_move_segments_to_queue_pushes (cfg := sample_config) block_S2 sample_begun
           sample_compiled).
  - exact sample_move_flags_wf.
  - vm_compute; reflexivity.
  - vm_compute; discriminate.
  - exact sample_begun_wf.
  - vm_compute; reflexivity.
  - vm_compute; reflexivity.
Defined.

(** C4, at a move segment queue with one free slot. *)
Lemma append_move_segments_to_queue_backpressure_witness :
  (move_segment_queue_free_slots (cfg := sample_config) (move_segment_queue sample_saturated)
     < move_blocks_required (block_trapezoid (cfg := sample_config) block_S2)
       + MOVE_SEGMENT_QUEUE_MIN_FREE_SLOTS (Config := sample_config) ->
   append_move_segments_to_queue (cfg := sample_config) block_S2 sample_saturated
   = (false, sample_saturated))
  /\ (processed (planner (process_queue_of_blocks (cfg := sample_config) 0 sample_saturated))
      = processed (planner sample_saturated)
      \/ exists s1 s2,
           append_move_segments_to_queue (cfg := sample_config) block_S2 s1 = (true, s2)
           /\ process_queue_of_blocks (cfg := sample_config) 0 sample_saturated
              = set_planner (discard_current_unprocessed_block (planner s2)) s2)
  /\ (move_segment_queue_wf (cfg := sample_config) (move_segment_queue sample_saturated) ->
      move_segment_queue_free_slots (cfg := sample_config) (move_segment_queue sample_saturated)
        < move_blocks_required (block_trapezoid (cfg := sample_config) block_S2)
          + MOVE_SEGMENT_QUEUE_MIN_FREE_SLOTS (Config := sample_config) ->
      get_current_unprocessed_block
        (planner (process_queue_of_blocks (cfg := sample_config) 0 sample_saturated))
      = Some block_S2).
Proof.
  apply (append_move_segments_to_queue_backpressure (cfg := sample_config) block_S2 0
           sample_saturated); vm_compute; reflexivity.
Defined.

(** C4, at the same queue: the premise about the free slots holds there. *)
Example sample_saturated_rejects :
  move_segment_queue_free_slots (cfg := sample_config) (move_segment_queue sample_saturated) = 1
  /\ move_blocks_required (block_trapezoid (cfg := sample_config) block_S2) = 3
  /\ get_current_unprocessed_block
       (planner (process_queue_of_blocks (cfg := sample_config) 0 sample_saturated))
     = Some block_S2.
Proof. crunch. Qed.

(** C6, at the diagonal block: the first X step and the first Y step are due
    at the same instant and both carry the active bit of X, which the merger
    caches; the producer merges them into one event that steps both axes,
    where the rule of the specification would flush the buffer. *)
Lemma buffer_step_event_merges_shared_active :
  fst (fst sample_XY_first) = StepEvent 4760 4353
  /\ fst (fst sample_XY_second) = StepEvent 0 770
  /\ buffered_step (step_generator_state (snd (fst sample_XY_second))) = StepEvent 4760 4353
  /\ buffer_step_event (cfg := sample_config)
       (get_next_free_step_event (cfg := sample_config)
          (step_event_queue (snd sample_XY_first)))
       (StepEvent 0 770) (snd (fst sample_XY_second))
     = Some (snd sample_XY_second)
  /\ buffered_step (step_generator_state (snd sample_XY_second)) = StepEvent 4760 4867
  /\ step_event_queue (snd sample_XY_second) = step_event_queue (snd (fst sample_XY_second))
  /\ Z.land (Z.land 4353 770) (active_bit (cfg := sample_config) X_AXIS) <> 0
  /\ spec_mergeable (cfg := sample_config) (StepEvent 4760 4353) (StepEvent 0 770) = false
  /\ step_event_queue_contents (cfg := sample_config) (step_event_queue sample_XY_running)
     = [StepEvent 4760 4867].
Proof. crunch. Qed.

(** C6, at two diagonal blocks with a sync block between them: the move of
    the sync block leaves two markers to place, so the first X step and the
    first Y step of the second block, due at the same instant, both carry
    the BeginningOfMoveSegment marker; the producer keeps them apart and
    they reach the step event queue as two events. *)
Lemma buffer_step_event_keeps_marked_apart :
  fst (fst SampleIsr.sample_XY_sync_third) = StepEvent 7521 4865
  /\ fst (fst SampleIsr.sample_XY_sync_fourth) = StepEvent 0 4866
  /\ snd SampleIsr.sample_XY_sync_fourth
     = sample_produce 3 SampleIsr.sample_XY_sync_loaded
  /\ step_event_queue_contents (cfg := sample_config)
       (step_event_queue (sample_produce 4 SampleIsr.sample_XY_sync_loaded))
     = [StepEvent 4760 4867; StepEvent 2752 771; StepEvent 2752 4867;
        StepEvent 7521 4865; StepEvent 0 4866; StepEvent 2752 771].
Proof. crunch. Qed.

(** C6 (amended), at the sample runs. In the middle of block S1 a Y step
    with no delay meets the buffered X step and is merged into it. At the
    second of two diagonal blocks with a sync block between them, the first
    Y step meets the buffered first X step: both carry the marker, the X
    step goes to the queue and the Y step is buffered behind it. *)
Lemma buffer_step_event_coalesces_witness :
  (exists s',
     buffer_step_event (cfg := sample_config) (Some (7%nat, 8%nat)) (StepEvent 0 2)
       sample_running = Some s'
     /\ buffered_step (step_generator_state sample_running) = StepEvent 845 257
     /\ buffered_step (step_generator_state s') = StepEvent 845 259
     /\ step_event_queue s' = step_event_queue sample_running)
  /\ (let s := snd (fst SampleIsr.sample_XY_sync_fourth) in
      exists s',
        buffer_step_event (cfg := sample_config) (Some (3%nat, 4%nat)) (StepEvent 0 4866) s
        = Some s'
        /\ buffered_step (step_generator_state s) = StepEvent 7521 4865
        /\ buffered_step (step_generator_state s') = StepEvent 0 4866
        /\ step_event_queue_contents (cfg := sample_config) (step_event_queue s')
           = step_event_queue_contents (cfg := sample_config) (step_event_queue s)
             ++ [StepEvent 7521 4865]).
Proof.
  split.
  - destruct (buffer_step_event_coalesces (cfg := sample_config) (StepEvent 0 2) 7%nat 8%nat
                sample_running) as (s' & E & Hrule & _).
    + vm_compute; discriminate.
    + vm_compute; discriminate.
    + exact sample_running_wf.
    + vm_compute; reflexivity.
    + exists s'. split; [exact E|]. split; [vm_compute; reflexivity|]. exact Hrule.
  - intros s.
    destruct (buffer_step_event_coalesces (cfg := sample_config) (StepEvent 0 4866) 3%nat 4%nat
                s) as (s' & E & _ & _ & Hmarked).
    + vm_compute; discriminate.
    + vm_compute; discriminate.
    + unfold step_event_queue_wf. crunch.
    + vm_compute; reflexivity.
    + exists s'. split; [exact E|]. split; [vm_compute; reflexivity|].
      destruct Hmarked as (_ & Hb & Hc).
      * vm_compute; reflexivity.
      * vm_compute; discriminate.
      * split; [exact Hb|]. rewrite Hc. f_equal.
Defined.

Ltac sound_by_slots :=
  let i := fresh "i" in
  let m := fresh "m" in
  let H := fresh "H" in
  intros i m _ H;
  do 8 (destruct i as [|i];
        [vm_compute in H; injection H as <-; vm_compute; reflexivity|]);
  vm_compute in H; discriminate.

Ltac inv_by_slots :=
  split; [|split];
  [ split; [|split; [|split]];
    [ unfold move_segment_queue_wf; crunch
    | vm_compute; lia
    | vm_compute; lia
    | let a := fresh "a" in
      let cur := fresh "cur" in
      let H := fresh "H" in
      intros a cur H; destruct a; vm_compute in H; try discriminate;
      injection H as <-; split; vm_compute; lia ]
  | sound_by_slots
  | let a := fresh "a" in
    let H := fresh "H" in
    intros H a; vm_compute in H;
    first [ discriminate | destruct a; vm_compute; reflexivity ] ].


(** The counts of the sample run: 4 on the beginning empty move once the
    merger is initialised, 3 and 1 once the X generator has left it; the
    invariant of the Move-ISR holds after boot and in the middle of the
    first block. *)
Example sample_reference_cnt :
  step_generator_state_init (cfg := sample_config) 0 sample_loaded = Some sample_initialized
  /\ map reference_cnt (mq_data (move_segment_queue sample_initialized))
     = [4; 0; 0; 0; 0; 0; 0; 0]
  /\ map reference_cnt (mq_data (move_segment_queue (snd sample_advanced)))
     = [3; 1; 0; 0; 0; 0; 0; 0]
  /\ reference_cnt_sound every_slot sample_initialized
  /\ reference_cnt_sound every_slot (snd sample_advanced)
  /\ reference_cnt_inv (cfg := sample_config) boot
  /\ reference_cnt_inv (cfg := sample_config) sample_running.
Proof.
  split; [vm_compute; reflexivity|].
  split; [vm_compute; reflexivity|].
  split; [vm_compute; reflexivity|].
  split; [sound_by_slots|]. split; [sound_by_slots|].
  split; inv_by_slots.
Qed.


(** C7, at the sample run with a stop requested after three missed deadlines
    and one missed event: the reset zeroes both miss counters. *)
Lemma reset_queues_zeroes_miss_counters :
  stop_pending sample_missed = true
  /\ step_dl_miss sample_missed = 3
  /\ step_ev_miss sample_missed = 1
  /\ step_dl_miss (loop (cfg := sample_config) sample_missed) = 0
  /\ step_ev_miss (loop (cfg := sample_config) sample_missed) = 0
  /\ ~ counters_unchanged sample_missed (loop (cfg := sample_config) sample_missed).
Proof.
  repeat match goal with |- _ /\ _ => split end; try (vm_compute; reflexivity).
  intros [H _]. vm_compute in H. discriminate.
Qed.

(** C7 (amended), at the sample run with a stop requested. *)
Lemma reset_queues_fresh_halt_witness :
  loop (cfg := sample_config) sample_stopping = reset_queues (cfg := sample_config) sample_stopping
  /\ step_event_queue_contents (cfg := sample_config)
       (step_event_queue (loop (cfg := sample_config) sample_stopping)) = []
  /\ move_segment_queue_contents (cfg := sample_config)
       (move_segment_queue (loop (cfg := sample_config) sample_stopping)) = []
  /\ total_print_time (loop (cfg := sample_config) sample_stopping) = 0%float
  /\ total_start_pos (loop (cfg := sample_config) sample_stopping)
     = XYZE 0%float 0%float 0%float 0%float
  /\ total_start_pos_steps (loop (cfg := sample_config) sample_stopping) = XYZE 0 0 0 0
  /\ axis_did_move (stepper (loop (cfg := sample_config) sample_stopping)) = 0
  /\ stop_pending (loop (cfg := sample_config) sample_stopping) = false
  /\ block_buffer (planner (loop (cfg := sample_config) sample_stopping)) = []
  /\ count_position (stepper (loop (cfg := sample_config) sample_stopping))
     = count_position (stepper sample_stopping)
  /\ step_dl_miss (loop (cfg := sample_config) sample_stopping) = 0
  /\ step_ev_miss (loop (cfg := sample_config) sample_stopping) = 0
  /\ left_ticks_to_next_step_event (loop (cfg := sample_config) sample_stopping) = 0
  /\ ((forall sgs,
         step_generator_state_clear (Config := sample_config)
           (step_generator_state_clear (Config := sample_config) sgs)
         = step_generator_state_clear (Config := sample_config) sgs) ->
      reset_queues (cfg := sample_config) (loop (cfg := sample_config) sample_stopping)
      = loop (cfg := sample_config) sample_stopping).
Proof.
  apply (reset_queues_fresh_halt (cfg := sample_config) sample_stopping). reflexivity.
Defined.

(** C8, at block S2. *)
Lemma append_move_segments_to_queue_position_witness :
  (forall i,
     xyze_get (total_start_pos_steps sample_compiled) i
     = int32 (xyze_get (total_start_pos_steps sample_begun) i
              + xyze_get (get_oriented_steps_from_block block_S2) i))
  /\ (forall i,
        0 <= xyze_get (steps block_S2) i < 2 ^ 31 ->
        in_int32 (xyze_get (total_start_pos_steps sample_begun) i + signed_steps block_S2 i) ->
        xyze_get (total_start_pos_steps sample_compiled) i
        = xyze_get (total_start_pos_steps sample_begun) i + signed_steps block_S2 i)
  /\ (forall i,
        xyze_get (total_start_pos sample_compiled) i
        = (Z_to_double (xyze_get (total_start_pos_steps sample_compiled) i)
           * mm_per_step (Config := sample_config) i)%float).
Proof.
  apply (append_move_segments_to_queue_position (cfg := sample_config) block_S2 sample_begun
           sample_compiled).
  vm_compute; reflexivity.
Defined.

(** C9, at a block that only decelerates: the specification's clamp to
    [0, S] leaves d = 2^-22 mm, the code snaps it to 0. *)
Lemma block_trapezoid_snaps_to_zero :
  (first_cruise_dist (cfg := sample_config) block_short_decel
     <? EPSILON_DISTANCE (Config := sample_config))%float = true
  /\ spec_no_cruise_accel_dist block_short_decel = 0x1p-22%float
  /\ accel_dist (block_trapezoid (cfg := sample_config) block_short_decel) = 0%float.
Proof. crunch. Qed.

(** C9 (amended), at the same block. *)
Lemma block_trapezoid_no_cruise_witness :
  accel_dist (block_trapezoid (cfg := sample_config) block_short_decel)
  = (if ((2 * millimeters block_short_decel * acceleration block_short_decel
          + final_speed block_short_decel * final_speed block_short_decel
          - initial_speed block_short_decel * initial_speed block_short_decel)
         / (4 * acceleration block_short_decel)
         <=? EPSILON_DISTANCE (Config := sample_config))%float
     then 0%float
     else if (millimeters block_short_decel - EPSILON_DISTANCE (Config := sample_config)
              <? (2 * millimeters block_short_decel * acceleration block_short_decel
                  + final_speed block_short_decel * final_speed block_short_decel
                  - initial_speed block_short_decel * initial_speed block_short_decel)
                 / (4 * acceleration block_short_decel))%float
          then millimeters block_short_decel
          else ((2 * millimeters block_short_decel * acceleration block_short_decel
                 + final_speed block_short_decel * final_speed block_short_decel
                 - initial_speed block_short_decel * initial_speed block_short_decel)
                / (4 * acceleration block_short_decel))%float)
  /\ decel_dist (block_trapezoid (cfg := sample_config) block_short_decel)
     = (if (millimeters block_short_decel
            - accel_dist (block_trapezoid (cfg := sample_config) block_short_decel) <? 0)%float
        then 0
        else millimeters block_short_decel
             - accel_dist (block_trapezoid (cfg := sample_config) block_short_decel))%float
  /\ cruise_dist (block_trapezoid (cfg := sample_config) block_short_decel) = 0%float
  /\ cruise_v (block_trapezoid (cfg := sample_config) block_short_decel)
     = PrimFloat.sqrt
         (2 * accel_dist (block_trapezoid (cfg := sample_config) block_short_decel)
          * acceleration block_short_decel
          + initial_speed block_short_decel * initial_speed block_short_decel)%float.
Proof.
  apply (block_trapezoid_no_cruise (cfg := sample_config) block_short_decel).
  vm_compute; reflexivity.
Defined.

(** C10, at the sample run. *)
Lemma step_events_written_have_flags_witness :
  (exists new : list step_event_t,
      step_event_queue_contents (cfg := sample_config) (step_event_queue sample_after)
      = step_event_queue_contents (cfg := sample_config) (step_event_queue sample_running) ++ new
      /\ Forall (fun ev => flags ev <> 0) new)
  /\ (forall ev0 ft s0 d ev s1,
        pending_events_carry_step (cfg := sample_config) s0 -> generators_linked s0 ->
        generate_next_step_event (cfg := sample_config) ev0 ft s0 = Some (d, ev, s1) ->
        (if is_step_time
              (time (xyze_get (step_events (step_generator_state s0))
                              (ax_x (step_event_index (step_generator_state s0)))))
         then Z.land (flags ev)
                (step_bit (cfg := sample_config)
                   (ax_x (step_event_index (step_generator_state s0)))) <> 0
         else flags ev = 0)
        /\ pending_events_carry_step (cfg := sample_config) s1 /\ generators_linked s1)
  /\ (forall move s0 s1,
        generators_linked s0 ->
        step_generator_state_init (cfg := sample_config) move s0 = Some s1 ->
        pending_events_carry_step (cfg := sample_config) s1 /\ generators_linked s1)
  /\ (forall extra s0 s1,
        step_event_queue_wf (cfg := sample_config) (step_event_queue s0) ->
        append_move_discarding_step_event (cfg := sample_config) extra s0 = (true, s1) ->
        exists ev,
          step_event_queue_contents (cfg := sample_config) (step_event_queue s1)
          = step_event_queue_contents (cfg := sample_config) (step_event_queue s0) ++ [ev]
          /\ Z.land (flags ev)
                (STEP_EVENT_FLAG_BEGINNING_OF_MOVE_SEGMENT (Config := sample_config)) <> 0).
Proof.
  apply (step_events_written_have_flags (cfg := sample_config) sample_running
           STEP_GENERATOR_STATUS_OK sample_after).
  - vm_compute; discriminate.
  - vm_compute; discriminate.
  - exact sample_running_wf.
  - vm_compute; reflexivity.
Defined.

End SampleRuns.

(** * Further properties

    ** The block compiler and the move segment ring *)

Section BlockCompilerRing.

Context `{cfg : Config}.

Lemma ring_full_or_free (n head tail : nat) :
  (head < n)%nat -> (tail < n)%nat ->
  tail <> ((head + 1) mod n)%nat -> (S ((head + n - tail) mod n) < n)%nat.
Proof.
  intros Hh Ht. rewrite (mod_cases (head + 1) n) by lia.
  rewrite (mod_cases (head + n - tail) n) by lia.
  destruct (Nat.ltb_spec (head + 1) n), (Nat.ltb_spec (head + n - tail) n); lia.
Qed.

Lemma move_segment_queue_not_full q :
  move_segment_queue_wf q ->
  is_move_segment_queue_full q = false -> 1 <= move_segment_queue_free_slots q.
Proof.
  intros (Hlen & Hh & Ht) Hf. unfold is_move_segment_queue_full in Hf.
  apply Nat.eqb_neq in Hf. unfold move_segment_queue_next_index in Hf.
  pose proof (ring_full_or_free _ _ _ Hh Ht Hf).
  unfold move_segment_queue_free_slots, move_segment_queue_size. lia.
Qed.

Lemma land_lor_absorb a d : Z.land (Z.lor a d) d = d.
Proof.
  apply Z.bits_inj'. intros n Hn. rewrite Z.land_spec, Z.lor_spec.
  now destruct (Z.testbit a n), (Z.testbit d n).
Qed.

Lemma land_lor_keep a d f : Z.land a f = f -> Z.land (Z.lor a d) f = f.
Proof.
  intros H. apply Z.bits_inj'. intros n Hn.
  apply (f_equal (fun z => Z.testbit z n)) in H.
  rewrite Z.land_spec in H. rewrite Z.land_spec, Z.lor_spec.
  destruct (Z.testbit a n), (Z.testbit d n), (Z.testbit f n); easy.
Qed.

Ltac push_hyp :=
  match goal with
  | H : context [append_move_segment_to_queue ?mt ?sv ?ha ?pt ?ar ?sp ?fl ?s] |- _ =>
      lazymatch s with
      | context [append_move_segment_to_queue] => fail
      | _ => idtac
      end;
      let q := fresh "q" in
      let E := fresh "E" in
      let Hwf := fresh "Hwf" in
      let Hfr := fresh "Hfr" in
      let Hc := fresh "Hc" in
      destruct (append_move_segment_to_queue_free mt sv ha pt ar sp fl s)
        as (q & E & Hwf & Hfr & Hc);
      [ cbn [move_segment_queue set_move_segment_queue]; assumption
      | cbn [move_segment_queue set_move_segment_queue]; lia
      | rewrite !E in H; clear E; cbn [snd] in H;
        cbn [move_segment_queue set_move_segment_queue] in Hfr, Hc ]
  end.

(** X1: [append_move_segment_to_queue] on a full ring returns false and
    changes nothing. On a ring with a free slot it returns true and writes
    the ring's storage and [head] only: the queue then holds the segments it
    held followed by the new one, whose reference count is 0, and has one
    free slot less. *)
Theorem append_move_segment_to_queue_cases (mt sv ha pt : float) (ar sp : xyze float)
    (fl : Z) (s : state) :
  move_segment_queue_wf (move_segment_queue s) ->
  let q := move_segment_queue s in
  let r := append_move_segment_to_queue mt sv ha pt ar sp fl s in
  if is_move_segment_queue_full q then r = (false, s)
  else
    let q' := move_segment_queue (snd r) in
    fst r = true
    /\ snd r = set_move_segment_queue q' s
    /\ move_segment_queue_wf q'
    /\ mq_tail q' = mq_tail q
    /\ mq_unprocessed_tail q' = mq_unprocessed_tail q
    /\ move_segment_queue_contents q'
       = move_segment_queue_contents q ++ [Move mt sv ha pt ar sp fl 0]
    /\ move_segment_queue_free_slots q' = move_segment_queue_free_slots q - 1.
Proof.
  intros Hwf q r.
  destruct (is_move_segment_queue_full q) eqn:Hfull.
  - subst r. unfold append_move_segment_to_queue, get_next_free_move_segment.
    fold q. now rewrite Hfull.
  - pose proof (move_segment_queue_not_full q Hwf Hfull) as Hfree.
    destruct (append_move_segment_to_queue_free mt sv ha pt ar sp fl s Hwf Hfree)
      as (q' & E & Hwf' & Hfr & Hc).
    subst r. rewrite E. cbn [fst snd move_segment_queue set_move_segment_queue].
    split; [reflexivity|]. split; [reflexivity|]. split; [exact Hwf'|].
    unfold append_move_segment_to_queue, get_next_free_move_segment in E.
    fold q in E. rewrite Hfull in E. injection E as <-.
    split; [reflexivity|]. split; [reflexivity|]. split; [exact Hc|exact Hfr].
Qed.

(** X2: [append_move_segments_to_queue] never eats into the reserve of the
    move segment ring. A block is accepted whenever three slots beyond
    MOVE_SEGMENT_QUEUE_MIN_FREE_SLOTS are free; an accepted block takes as
    many slots as its trapezoid has phases and leaves at least
    MOVE_SEGMENT_QUEUE_MIN_FREE_SLOTS free; a rejected block changes
    nothing. *)
Theorem append_move_segments_to_queue_reserve (b : block_t) (s : state) :
  move_segment_queue_wf (move_segment_queue s) ->
  0 <= MOVE_SEGMENT_QUEUE_MIN_FREE_SLOTS ->
  let free := move_segment_queue_free_slots (move_segment_queue s) in
  let r := append_move_segments_to_queue b s in
  (3 + MOVE_SEGMENT_QUEUE_MIN_FREE_SLOTS <= free -> fst r = true)
  /\ (fst r = true ->
      move_segment_queue_wf (move_segment_queue (snd r))
      /\ move_segment_queue_free_slots (move_segment_queue (snd r))
         = free - move_blocks_required (block_trapezoid b)
      /\ MOVE_SEGMENT_QUEUE_MIN_FREE_SLOTS
         <= move_segment_queue_free_slots (move_segment_queue (snd r)))
  /\ (fst r = false -> snd r = s).
Proof.
  intros Hwf Hmin free r.
  pose proof (move_blocks_required_bounds (block_trapezoid b)) as Hreq.
  subst r. unfold append_move_segments_to_queue.
  set (t := block_trapezoid b) in *. fold free.
  destruct (Z.ltb_spec free (move_blocks_required t + MOVE_SEGMENT_QUEUE_MIN_FREE_SLOTS))
    as [Hlt|Hge].
  - cbn [fst snd]. split; [lia|]. split; [discriminate|reflexivity].
  - split; [|split].
    + intros _.
      destruct (fneq (accel_dist t) 0), (fneq (cruise_dist t) 0), (fneq (decel_dist t) 0);
        reflexivity.
    + intros _. unfold move_blocks_required in *. subst free. clearbody t.
      destruct (fneq (accel_dist t) 0), (fneq (cruise_dist t) 0), (fneq (decel_dist t) 0);
        cbn [Z.b2z Z.add Pos.add Pos.succ orb negb] in Hge |- *; cbv zeta.
      all: repeat match goal with
             | |- context [append_move_segment_to_queue ?mt ?sv ?ha ?pt ?ar ?sp ?fl ?s0] =>
                 lazymatch s0 with
                 | context [append_move_segment_to_queue] => fail
                 | _ => idtac
                 end;
                 let q := fresh "q" in
                 let E := fresh "E" in
                 let Hwf' := fresh "Hwf" in
                 let Hfr := fresh "Hfr" in
                 let Hc := fresh "Hc" in
                 destruct (append_move_segment_to_queue_free mt sv ha pt ar sp fl s0)
                   as (q & E & Hwf' & Hfr & Hc);
                 [ cbn [move_segment_queue set_move_segment_queue]; assumption
                 | cbn [move_segment_queue set_move_segment_queue]; lia
                 | rewrite !E; clear E Hc; cbn [snd];
                   cbn [move_segment_queue set_move_segment_queue] in Hfr ]
             end.
      all: cbn [fst snd move_segment_queue reset_reached_end_of_move_queue_flag
                set_step_generators_pool set_total_print_time set_total_start_pos
                set_total_start_pos_steps set_move_segment_queue].
      all: split; [assumption|]; lia.
    + destruct (fneq (accel_dist t) 0), (fneq (cruise_dist t) 0), (fneq (decel_dist t) 0);
        discriminate.
Qed.

Lemma append_move_segments_to_queue_pushed (b : block_t) (s s' : state) :
  move_segment_queue_wf (move_segment_queue s) ->
  0 <= MOVE_SEGMENT_QUEUE_MIN_FREE_SLOTS ->
  append_move_segments_to_queue b s = (true, s') ->
  exists segs : list move_t,
    move_segment_queue_contents (move_segment_queue s')
    = move_segment_queue_contents (move_segment_queue s) ++ segs
    /\ Z.of_nat (length segs) = move_blocks_required (block_trapezoid b)
    /\ Forall (fun m =>
                 axes_r m = calc_axes_r_from_block b
                 /\ reference_cnt m = 0
                 /\ Z.land (mflags m) (block_dir_flags b) = block_dir_flags b
                 /\ Z.land (mflags m) (get_active_axis_flags_from_block b)
                    = get_active_axis_flags_from_block b
                 /\ (start_v m = initial_speed b
                     \/ start_v m = cruise_v (block_trapezoid b))) segs
    /\ (forall m, head segs = Some m ->
          start_pos m = total_start_pos s /\ print_time m = total_print_time s).
Proof.
  intros Hwf Hmin H.
  pose proof (move_blocks_required_bounds (block_trapezoid b)) as Hreq.
  unfold append_move_segments_to_queue in H.
  set (t := block_trapezoid b) in *.
  destruct (_ <? _) eqn:Hfree in H; [discriminate|].
  apply Z.ltb_ge in Hfree.
  unfold move_blocks_required in *.
  clearbody t.
  destruct (fneq (accel_dist t) 0), (fneq (cruise_dist t) 0), (fneq (decel_dist t) 0);
    cbn [Z.b2z Z.add Pos.add Pos.succ orb negb] in H, Hreq, Hfree |- *.
  all: cbv zeta in H.
  all: repeat push_hyp.
  all: injection H as <-.
  all: cbn [move_segment_queue total_print_time reset_reached_end_of_move_queue_flag
            set_step_generators_pool set_total_print_time set_total_start_pos
            set_total_start_pos_steps set_move_segment_queue].
  all: repeat match goal with
         | Hc : move_segment_queue_contents ?q = _ |- context [move_segment_queue_contents ?q] =>
             rewrite Hc; clear Hc
         end.
  all: rewrite <- ?app_assoc.
  all: eexists; split; [first [reflexivity | symmetry; apply app_nil_r]|]; cbn [app].
  all: split; [reflexivity|].
  all: split;
         [ repeat constructor; cbn [mflags start_v];
           first [ apply land_lor_absorb
                 | apply land_lor_keep, land_lor_absorb
                 | now left | now right ]
         | cbn [head]; first [ now intros m [= <-] | discriminate ] ].
Qed.

(** X3: the segments [append_move_segments_to_queue] pushes for a block are
    as many as its trapezoid has phases; each of them has the direction
    ratios [calc_axes_r_from_block] gives for the block, the reference count
    0, the block's direction bits and active-axis bits among its flags, and
    starts at the block's entry speed or at the cruise velocity; the first
    one starts at the position and at the print time the engine has
    reached. *)
Theorem append_move_segments_to_queue_segments (b : block_t) (s s' : state) :
  move_segment_queue_wf (move_segment_queue s) ->
  0 <= MOVE_SEGMENT_QUEUE_MIN_FREE_SLOTS ->
  append_move_segments_to_queue b s = (true, s') ->
  exists segs : list move_t,
    move_segment_queue_contents (move_segment_queue s')
    = move_segment_queue_contents (move_segment_queue s) ++ segs
    /\ Z.of_nat (length segs) = move_blocks_required (block_trapezoid b)
    /\ Forall (fun m =>
                 axes_r m = calc_axes_r_from_block b
                 /\ reference_cnt m = 0
                 /\ Z.land (mflags m) (block_dir_flags b) = block_dir_flags b
                 /\ Z.land (mflags m) (get_active_axis_flags_from_block b)
                    = get_active_axis_flags_from_block b
                 /\ (start_v m = initial_speed b
                     \/ start_v m = cruise_v (block_trapezoid b))) segs
    /\ (forall m, head segs = Some m ->
          start_pos m = total_start_pos s /\ print_time m = total_print_time s).
Proof. apply append_move_segments_to_queue_pushed. Qed.

(** X4: an axis on which the block makes no step gets a generator at rest.
    For a segment with the direction ratios of the block,
    [classic_step_generator_update] sets the start velocity and the
    acceleration of a generator of such an axis to zero. *)
Theorem classic_step_generator_update_inactive_axis (b : block_t) (m : move_t)
    (g : classic_step_generator_t) :
  xyze_get (steps b) (axis g) = 0 ->
  axes_r m = calc_axes_r_from_block b ->
  g_start_v (classic_step_generator_update m g) = 0%float
  /\ g_accel (classic_step_generator_update m g) = 0%float
  /\ get_move_axis_r m (axis g) = 0%float.
Proof.
  intros Hsteps Hr.
  assert (Hz : get_move_axis_r m (axis g) = 0%float).
  { unfold get_move_axis_r. rewrite Hr. unfold calc_axes_r_from_block.
    destruct (axis g); cbn [xyze_get ax_x ax_y ax_z ax_e] in *; now rewrite Hsteps. }
  unfold classic_step_generator_update. rewrite Hz.
  change (0 =? 0)%float with true. now cbn.
Qed.

End BlockCompilerRing.

(** ** The classic step generator and the merger *)

Section GeneratorProperties.

Context `{cfg : Config}.

Lemma move_segment_processed_handler_current_distance s :
  current_distance (step_generator_state (move_segment_processed_handler s))
  = current_distance (step_generator_state s)
  /\ sflags (step_generator_state (move_segment_processed_handler s))
     = sflags (step_generator_state s).
Proof.
  unfold move_segment_processed_handler.
  destruct (get_current_unprocessed_move_segment _) as [mv|]; [|easy].
  destruct (_ !! mv) as [m|]; [|easy].
  now destruct (_ =? 0).
Qed.

Lemma classic_step_generator_next_step_event_loop_steps fuel a ft s ev s' :
  classic_step_generator_next_step_event_loop fuel a ft s = Some (ev, s') ->
  let g' := xyze_get (step_generators_pool s') a in
  let cd := xyze_get (current_distance (step_generator_state s)) (axis g') in
  (ev = StepEventInfo DBL_MAX 0
   /\ reached_end_of_move_queue g' = true
   /\ current_distance (step_generator_state s') = current_distance (step_generator_state s))
  \/ (exists cur m,
        current_move g' = Some cur
        /\ mq_data (move_segment_queue s') !! cur = Some m
        /\ isnan (classic_step_time g' cd) = false
        /\ (move_time m + EPSILON <? classic_step_time g' cd)%float = false
        /\ time ev = (classic_step_time g' cd + print_time m)%float
        /\ (ft <? time ev)%float = false
        /\ iflags ev = Z.lor (step_bit (axis g')) (sflags (step_generator_state s'))
        /\ current_distance (step_generator_state s')
           = xyze_set (current_distance (step_generator_state s)) (axis g')
               (int32 (cd + (if step_dir g' then 1 else -1)))).
Proof.
  revert s. induction fuel as [|fuel IH]; intros s H; [discriminate|].
  cbn [classic_step_generator_next_step_event_loop] in H.
  destruct (current_move _) as [cur|] eqn:Ecur; [|discriminate].
  cbn [mbind option_bind] in H.
  destruct (_ !! cur) as [move|] eqn:Emove; [|discriminate].
  cbn [mbind option_bind] in H.
  change (calc_time_for_distance _ _ _ _)
    with (classic_step_time (xyze_get (step_generators_pool s) a)
            (xyze_get (current_distance (step_generator_state s))
               (axis (xyze_get (step_generators_pool s) a)))) in H.
  destruct (_ || _) eqn:Eadv in H.
  - unfold move_segment_queue_next_move in H.
    destruct (Nat.eqb _ _).
    + injection H as <- <-. left. cbn. now rewrite xyze_get_set_eq.
    + match type of H with
      | (?o ≫= _) = _ => destruct o as [current|]; [|discriminate]
      end.
      cbn [mbind option_bind] in H. apply IH in H. cbv zeta in H.
      rewrite (proj1 (move_segment_processed_handler_current_distance _)) in H.
      exact H.
  - apply orb_false_elim in Eadv as [Enan Eend].
    destruct (_ <? _)%float eqn:Eflush in H; injection H as <- <-.
    + left. cbn. now rewrite xyze_get_set_eq.
    + right. exists cur, move. cbn.
      repeat split; try assumption; reflexivity.
Qed.

(** X5: what a call of [classic_step_generator_next_step_event] yields is
    either the sentinel DBL_MAX, with [reached_end_of_move_queue] set and no
    step counted, or a step event of the segment the generator ends on: its
    time is the segment's print time plus a step time that is a number and
    not beyond the segment's duration plus EPSILON, it is not after
    [flush_time], it carries the Step bit of the generator's axis with the
    cached flags, and [current_distance] of that axis moved by one step in
    the generator's direction. It never counts a step without an event. *)
Theorem classic_step_generator_next_step_event_steps (a : AxisEnum) (flush_time : float)
    (s : state) (ev : step_event_info_t) (s' : state) :
  classic_step_generator_next_step_event a flush_time s = Some (ev, s') ->
  let g' := xyze_get (step_generators_pool s') a in
  let cd := xyze_get (current_distance (step_generator_state s)) (axis g') in
  (ev = StepEventInfo DBL_MAX 0
   /\ reached_end_of_move_queue g' = true
   /\ current_distance (step_generator_state s') = current_distance (step_generator_state s))
  \/ (exists cur m,
        current_move g' = Some cur
        /\ mq_data (move_segment_queue s') !! cur = Some m
        /\ isnan (classic_step_time g' cd) = false
        /\ (move_time m + EPSILON <? classic_step_time g' cd)%float = false
        /\ time ev = (classic_step_time g' cd + print_time m)%float
        /\ (flush_time <? time ev)%float = false
        /\ iflags ev = Z.lor (step_bit (axis g')) (sflags (step_generator_state s'))
        /\ current_distance (step_generator_state s')
           = xyze_set (current_distance (step_generator_state s)) (axis g')
               (int32 (cd + (if step_dir g' then 1 else -1)))).
Proof. apply classic_step_generator_next_step_event_loop_steps. Qed.

Lemma generators_in_queue_ext s s' :
  move_segment_queue s' = move_segment_queue s ->
  step_generators_pool s' = step_generators_pool s ->
  generators_in_queue s -> generators_in_queue s'.
Proof. unfold generators_in_queue. now intros -> ->. Qed.

Lemma classic_step_generator_next_step_event_loop_returns fuel a ft s cur :
  generators_in_queue s ->
  current_move (xyze_get (step_generators_pool s) a) = Some cur ->
  ((mq_head (move_segment_queue s) + MOVE_SEGMENT_QUEUE_SIZE - 1 - cur)
     mod MOVE_SEGMENT_QUEUE_SIZE < fuel)%nat ->
  is_Some (classic_step_generator_next_step_event_loop fuel a ft s).
Proof.
  revert s cur. induction fuel as [|fuel IH]; intros s cur Hr Ecur Hfuel; [lia|].
  cbn [classic_step_generator_next_step_event_loop]. rewrite Ecur.
  cbn [mbind option_bind].
  pose proof Hr as ((Hlen & Hh & Ht) & Hut & Hord & Hgen).
  destruct (Hgen a cur Ecur) as [Hcur Hlt].
  destruct (lookup_lt_is_Some_2 (mq_data (move_segment_queue s)) cur) as [move Emove];
    [now rewrite Hlen|].
  rewrite Emove. cbn [mbind option_bind].
  destruct (_ || _).
  - unfold move_segment_queue_next_move.
    destruct (Nat.eqb_spec (move_segment_queue_next_index cur) (mq_head (move_segment_queue s)))
      as [|Hne]; [easy|].
    assert (Hnext : (move_segment_queue_next_index cur < MOVE_SEGMENT_QUEUE_SIZE)%nat).
    { unfold move_segment_queue_next_index. apply Nat.mod_upper_bound. lia. }
    match goal with
    | |- is_Some (?o ≫= _) =>
        destruct o as [current|] eqn:Ecurrent
    end.
    2: { apply lookup_ge_None in Ecurrent. cbn in Ecurrent.
         rewrite !length_alter in Ecurrent. lia. }
    cbn [mbind option_bind].
    apply (IH _ (move_segment_queue_next_index cur)).
    + apply move_segment_processed_handler_range.
      unfold generators_in_queue, move_segment_queue_wf, in_move_segment_queue.
      cbn. rewrite !length_alter.
      split; [easy|]. split; [easy|]. split; [easy|].
      intros b j Hj. destruct (decide (a = b)) as [<-|Hab].
      * rewrite xyze_get_set_eq, (proj1 (classic_step_generator_update_frame _ _)) in Hj.
        cbn in Hj. injection Hj as <-. split; [exact Hnext|].
        now apply ring_distance_advance.
      * rewrite xyze_get_set_ne in Hj by easy. now apply (Hgen b j).
    + rewrite (proj2 (move_segment_processed_handler_frame _)). cbn.
      now rewrite xyze_get_set_eq, (proj1 (classic_step_generator_update_frame _ _)).
    + rewrite move_segment_processed_handler_head. cbn.
      unfold move_segment_queue_next_index in *.
      rewrite (segments_ahead_step _ _ cur) in Hfuel by easy. lia.
  - now destruct (_ <? _)%float.
Qed.

Lemma classic_step_generator_next_step_event_progress (a : AxisEnum) (flush_time : float)
    (s : state) :
  generators_in_queue s ->
  is_Some (current_move (xyze_get (step_generators_pool s) a)) ->
  exists ev s',
    classic_step_generator_next_step_event a flush_time s = Some (ev, s')
    /\ generators_in_queue s'
    /\ is_Some (current_move (xyze_get (step_generators_pool s') a)).
Proof.
  intros Hr [cur Ecur].
  destruct (classic_step_generator_next_step_event_loop_returns
              MOVE_SEGMENT_QUEUE_SIZE a flush_time s cur Hr Ecur) as [[ev s'] E].
  { apply Nat.mod_upper_bound. destruct Hr as ((_ & Hh & _) & _). lia. }
  exists ev, s'. split; [exact E|]. split.
  - now apply (classic_step_generator_next_step_event_loop_range _ _ _ _ _ _ Hr E).
  - destruct (classic_step_generator_next_step_event_loop_counts _ _ _ _ _ _ E)
      as (c & c' & _ & Hc' & _).
    now rewrite Hc'.
Qed.

(** X6: [classic_step_generator_next_step_event] returns. When the
    generators point into the move segment queue and the generator is
    attached to a segment, the do-while loop ends within
    MOVE_SEGMENT_QUEUE_SIZE passes and reads no segment through a null or
    dangling pointer; afterwards the generators still point into the
    queue. *)
Theorem classic_step_generator_next_step_event_returns (a : AxisEnum) (flush_time : float)
    (s : state) :
  generators_in_queue s ->
  is_Some (current_move (xyze_get (step_generators_pool s) a)) ->
  exists ev s',
    classic_step_generator_next_step_event a flush_time s = Some (ev, s')
    /\ generators_in_queue s'
    /\ is_Some (current_move (xyze_get (step_generators_pool s') a)).
Proof. apply classic_step_generator_next_step_event_progress. Qed.

Lemma move_segment_processed_handler_pointers s :
  next_step_func (step_generator_state (move_segment_processed_handler s))
  = next_step_func (step_generator_state s)
  /\ step_generator (step_generator_state (move_segment_processed_handler s))
     = step_generator (step_generator_state s).
Proof.
  unfold move_segment_processed_handler.
  destruct (get_current_unprocessed_move_segment _) as [mv|]; [|easy].
  destruct (_ !! mv) as [m|]; [|easy].
  now destruct (_ =? 0).
Qed.

Lemma classic_step_generator_next_step_event_loop_pointers fuel a ft s ev s' :
  classic_step_generator_next_step_event_loop fuel a ft s = Some (ev, s') ->
  next_step_func (step_generator_state s') = next_step_func (step_generator_state s)
  /\ step_generator (step_generator_state s') = step_generator (step_generator_state s).
Proof.
  revert s. induction fuel as [|fuel IH]; intros s H; [discriminate|].
  cbn [classic_step_generator_next_step_event_loop] in H.
  destruct (current_move _) as [cur|]; [|discriminate].
  cbn [mbind option_bind] in H.
  destruct (_ !! cur) as [move|]; [|discriminate].
  cbn [mbind option_bind] in H.
  destruct (_ || _) in H.
  - destruct (move_segment_queue_next_move _ _).
    + match type of H with
      | (?o ≫= _) = _ => destruct o as [current|]; [|discriminate]
      end.
      cbn [mbind option_bind] in H. apply IH in H as [H1 H2].
      rewrite H1, H2.
      now rewrite (proj1 (move_segment_processed_handler_pointers _)),
        (proj2 (move_segment_processed_handler_pointers _)).
    + now injection H as <- <-.
  - destruct (_ <? _)%float in H; now injection H as <- <-.
Qed.

Lemma merger_ready_ext s s' :
  next_step_func (step_generator_state s') = next_step_func (step_generator_state s) ->
  step_generator (step_generator_state s') = step_generator (step_generator_state s) ->
  (forall g, is_Some (current_move (xyze_get (step_generators_pool s) g)) ->
             is_Some (current_move (xyze_get (step_generators_pool s') g))) ->
  merger_ready s -> merger_ready s'.
Proof.
  intros Hn Hp Hc Hr a. destruct (Hr a) as (Hf & g & Hg & Hcur).
  rewrite Hn, Hp. split; [exact Hf|]. exists g. split; [exact Hg|]. now apply Hc.
Qed.

Lemma step_generator_next_step_event_returns a ft s :
  generators_in_queue s -> merger_ready s ->
  exists ev s',
    step_generator_next_step_event a ft s = Some (ev, s')
    /\ generators_in_queue s' /\ merger_ready s'.
Proof.
  intros Hr Hm. unfold step_generator_next_step_event.
  destruct (Hm a) as (Hf & g & Hg & Hcur). rewrite Hf, Hg. cbn [mbind option_bind].
  destruct (classic_step_generator_next_step_event_progress g ft s Hr Hcur)
    as (ev & s' & E & Hr' & Hcur').
  exists ev, s'. split; [exact E|]. split; [exact Hr'|].
  destruct (classic_step_generator_next_step_event_loop_pointers _ _ _ _ _ _ E) as [Hn Hp].
  destruct (classic_step_generator_next_step_event_loop_counts _ _ _ _ _ _ E)
    as (c & c' & _ & _ & Hother & _).
  apply (merger_ready_ext s); try assumption.
  intros b Hb. destruct (decide (b = g)) as [->|Hne]; [exact Hcur'|].
  now rewrite Hother.
Qed.

(** X7: [generate_next_step_event] returns. Once every axis has its
    generator function and an attached generator, and the generators point
    into the move segment queue, the merger calls through no null pointer;
    the only call of the merger that has no result is the conversion of a
    tick count that does not fit [int32_t]. The call leaves the merger in a
    state in which it can be called again. *)
Theorem generate_next_step_event_returns (ev0 : step_event_t) (flush_time : float)
    (s : state) :
  generators_in_queue s ->
  merger_ready s ->
  (let sgs := step_generator_state s in
   let nearest := xyze_get (step_events sgs) (ax_x (step_event_index sgs)) in
   let rel := (time nearest - previous_step_time sgs)%float in
   is_step_time (time nearest) = true ->
   is_Some (double_to_int32
              ((if (rel <? 0)%float then 0 else rel) * ticks_per_sec s)%float)) ->
  exists d ev s',
    generate_next_step_event ev0 flush_time s = Some (d, ev, s')
    /\ generators_in_queue s'
    /\ merger_ready s'.
Proof.
  intros Hr Hm Hticks. unfold generate_next_step_event. cbv zeta in *.
  unfold is_step_time in Hticks.
  set (sgs := step_generator_state s) in *.
  assert (Hcall : forall s0,
             move_segment_queue s0 = move_segment_queue s ->
             step_generators_pool s0 = step_generators_pool s ->
             next_step_func (step_generator_state s0) = next_step_func sgs ->
             step_generator (step_generator_state s0) = step_generator sgs ->
             exists nev s1,
               step_generator_next_step_event (ax_x (step_event_index sgs)) flush_time s0
               = Some (nev, s1)
               /\ generators_in_queue s1 /\ merger_ready s1).
  { intros s0 Hq Hp Hn Hg. apply step_generator_next_step_event_returns.
    - now apply (generators_in_queue_ext s).
    - apply (merger_ready_ext s); try assumption. now rewrite Hp. }
  destruct (fneq _ 0 && fneq _ DBL_MAX).
  - destruct (Hticks eq_refl) as [ticks ->]. cbn [mbind option_bind].
    destruct (left_insert_start_of_move_segment sgs =? 0);
      cbv beta iota zeta; cbn [mbind option_bind]; cbv beta iota zeta.
    all: match goal with
         | |- context [step_generator_next_step_event ?a ?f ?x] =>
             destruct (Hcall x) as (nev & s1 & -> & Hr1 & Hm1); [reflexivity..|]
         end.
    all: cbn [mbind option_bind]; do 3 eexists; split; [reflexivity|].
    all: split; [now apply (generators_in_queue_ext s1)|].
    all: now apply (merger_ready_ext s1).
  - cbn [mbind option_bind].
    match goal with
    | |- context [step_generator_next_step_event ?a ?f ?x] =>
        destruct (Hcall x) as (nev & s1 & -> & Hr1 & Hm1); [reflexivity..|]
    end.
    cbn [mbind option_bind]; do 3 eexists; split; [reflexivity|].
    split; [now apply (generators_in_queue_ext s1)|].
    now apply (merger_ready_ext s1).
Qed.

Lemma step_generator_reset_reached_end_returns i s :
  is_Some (xyze_get (step_generator (step_generator_state s)) i) ->
  exists s',
    step_generator_reset_reached_end i s = Some s'
    /\ move_segment_queue s' = move_segment_queue s
    /\ step_generator_state s' = step_generator_state s
    /\ forall b,
         current_move (xyze_get (step_generators_pool s') b)
         = current_move (xyze_get (step_generators_pool s) b)
         /\ axis (xyze_get (step_generators_pool s') b)
            = axis (xyze_get (step_generators_pool s) b).
Proof.
  intros [g Hg]. unfold step_generator_reset_reached_end. rewrite Hg.
  cbn [mbind option_bind]. eexists. split; [reflexivity|].
  split; [reflexivity|]. split; [reflexivity|]. intros b. cbn.
  destruct (decide (g = b)) as [<-|Hne].
  - now rewrite xyze_get_set_eq.
  - now rewrite xyze_get_set_ne.
Qed.

Lemma reference_cnt_changed_trans s1 s2 s3 d1 d2 :
  reference_cnt_changed s1 s2 d1 -> reference_cnt_changed s2 s3 d2 ->
  reference_cnt_changed s1 s3 (fun i => d1 i + d2 i).
Proof.
  intros [Hl1 H1] [Hl2 H2]. split; [congruence|].
  intros i m Hm. destruct (H1 i m Hm) as (m1 & Hm1 & Hc1).
  destruct (H2 i m1 Hm1) as (m2 & Hm2 & Hc2).
  exists m2. split; [exact Hm2|]. lia.
Qed.

Lemma reference_cnt_changed_delta s s' d1 d2 :
  (forall i, d1 i = d2 i) -> reference_cnt_changed s s' d1 -> reference_cnt_changed s s' d2.
Proof.
  intros Hd [Hl H]. split; [exact Hl|].
  intros i m Hm. destruct (H i m Hm) as (m' & Hm' & Hc). exists m'. now rewrite <- Hd.
Qed.

Lemma classic_step_generator_init_attaches move a s m :
  mq_data (move_segment_queue s) !! move = Some m ->
  (forall b, axis (xyze_get (step_generators_pool s) b) = b) ->
  exists s',
    classic_step_generator_init move a s = Some s'
    /\ is_Some (mq_data (move_segment_queue s') !! move)
    /\ (forall b, axis (xyze_get (step_generators_pool s') b) = b)
    /\ next_step_func (step_generator_state s')
       = xyze_set (next_step_func (step_generator_state s)) a (Some classic_next_step_f)
    /\ step_generator (step_generator_state s')
       = xyze_set (step_generator (step_generator_state s)) a (Some a)
    /\ current_move (xyze_get (step_generators_pool s') a) = Some move
    /\ (forall b, b <> a ->
          xyze_get (step_generators_pool s') b = xyze_get (step_generators_pool s) b)
    /\ reference_cnt_changed s s' (fun i => if Nat.eqb i move then 1 else 0)
    /\ initialized (step_generator_state s') = initialized (step_generator_state s)
    /\ left_insert_start_of_move_segment (step_generator_state s')
       = left_insert_start_of_move_segment (step_generator_state s)
    /\ current_distance (step_generator_state s')
       = current_distance (step_generator_state s).
Proof.
  intros Hm Hax.
  destruct (classic_step_generator_init move a s) as [s'|] eqn:E.
  2: { unfold classic_step_generator_init in E. now rewrite Hm in E. }
  exists s'. split; [reflexivity|].
  destruct (classic_step_generator_init_counts _ _ _ _ E) as (Hc & Ho & Hch).
  split.
  { destruct Hch as [_ Hch]. destruct (Hch move m Hm) as (m' & -> & _). now eexists. }
  unfold classic_step_generator_init in E. rewrite Hm in E.
  cbn [mbind option_bind] in E. rewrite Hax in E. injection E as <-.
  split.
  { intros b. cbn. destruct (decide (a = b)) as [<-|Hne].
    - rewrite xyze_get_set_eq, (proj2 (classic_step_generator_update_frame _ _)).
      cbn. apply Hax.
    - rewrite xyze_get_set_ne by easy. apply Hax. }
  split; [reflexivity|]. split; [reflexivity|].
  split; [exact Hc|]. split; [exact Ho|]. split; [exact Hch|]. now cbn.
Qed.

(** X8: [step_generator_state_init] ends in the fatal error handler when the
    segment is shorter than [max_lookback_time]. Otherwise, with the
    merger's generator pointers set and each generator of the pool serving
    its own axis, it returns: all four generators are attached to the
    segment, whose reference count went up by four, every axis has its
    generator function, and the merger starts from zero step counts with no
    BeginningOfMoveSegment marker owed. *)
Theorem step_generator_state_init_attaches (move : nat) (m : move_t) (s : state) :
  mq_data (move_segment_queue s) !! move = Some m ->
  (forall a, is_Some (xyze_get (step_generator (step_generator_state s)) a)) ->
  (forall a, axis (xyze_get (step_generators_pool s) a) = a) ->
  if (move_time m <? max_lookback_time s)%float
  then step_generator_state_init move s = None
  else
    exists s',
      step_generator_state_init move s = Some s'
      /\ merger_ready s'
      /\ (forall a, current_move (xyze_get (step_generators_pool s') a) = Some move)
      /\ reference_cnt_changed s s' (fun i => if Nat.eqb i move then 4 else 0)
      /\ initialized (step_generator_state s') = true
      /\ left_insert_start_of_move_segment (step_generator_state s') = 0
      /\ current_distance (step_generator_state s') = xyze_all 0.
Proof.
  intros Hm Hptr Hax. unfold step_generator_state_init. rewrite Hm.
  cbn [mbind option_bind].
  destruct (_ <? _)%float; [reflexivity|]. cbv zeta.
  match goal with
  | |- context [step_generator_reset_reached_end X_AXIS ?x] =>
      assert (Hq0 : move_segment_queue x = move_segment_queue s) by reflexivity;
      assert (Hg0 : step_generator (step_generator_state x)
                    = step_generator (step_generator_state s)) by reflexivity;
      assert (Hl0 : left_insert_start_of_move_segment (step_generator_state x) = 0)
        by reflexivity;
      assert (Hd0 : current_distance (step_generator_state x) = xyze_all 0) by reflexivity;
      assert (Hp0 : forall b,
                 current_move (xyze_get (step_generators_pool x) b)
                 = current_move (xyze_get (step_generators_pool s) b)
                 /\ axis (xyze_get (step_generators_pool x) b)
                    = axis (xyze_get (step_generators_pool s) b))
        by (intros b; split; reflexivity);
      generalize dependent x; intros s0 Hq0 Hg0 Hl0 Hd0 Hp0
  end.
  repeat match goal with
         | |- context [step_generator_reset_reached_end ?i ?x] =>
             let s1 := fresh "s" in
             let E := fresh "E" in
             let Hq := fresh "Hq" in
             let Hg := fresh "Hg" in
             let Hp := fresh "Hp" in
             destruct (step_generator_reset_reached_end_returns i x)
               as (s1 & E & Hq & Hg & Hp);
             [ rewrite Hg0; apply Hptr | ];
             rewrite E; clear E; cbn [mbind option_bind];
             rewrite Hq0 in Hq; clear Hq0; rename Hq into Hq0;
             rewrite <- Hg in Hg0, Hl0, Hd0; clear Hg;
             assert (Hp' := fun b =>
                       conj (eq_trans (proj1 (Hp b)) (proj1 (Hp0 b)))
                            (eq_trans (proj2 (Hp b)) (proj2 (Hp0 b))));
             clear Hp Hp0; rename Hp' into Hp0; clear x
         end.
  match goal with
  | |- context [classic_step_generator_init move X_AXIS ?x] => rename x into s4
  end.
  assert (Hax4 : forall b, axis (xyze_get (step_generators_pool s4) b) = b).
  { intros b. now rewrite (proj2 (Hp0 b)). }
  assert (Hm4 : is_Some (mq_data (move_segment_queue s4) !! move)).
  { rewrite Hq0, Hm. now eexists. }
  assert (Hch4 : reference_cnt_changed s s4 (fun _ => 0)).
  { split; [now rewrite Hq0|]. intros i mi Hi. exists mi. rewrite Hq0. split; [exact Hi|lia]. }
  destruct Hm4 as [m4 Hm4].
  destruct (classic_step_generator_init_attaches move X_AXIS s4 m4 Hm4 Hax4)
    as (s5 & -> & [m5 Hm5] & Hax5 & Hn5 & Hg5 & Hc5 & Ho5 & Hch5 & Hi5 & Hl5 & Hd5).
  cbn [mbind option_bind].
  destruct (classic_step_generator_init_attaches move Y_AXIS s5 m5 Hm5 Hax5)
    as (s6 & -> & [m6 Hm6] & Hax6 & Hn6 & Hg6 & Hc6 & Ho6 & Hch6 & Hi6 & Hl6 & Hd6).
  cbn [mbind option_bind].
  destruct (classic_step_generator_init_attaches move Z_AXIS s6 m6 Hm6 Hax6)
    as (s7 & -> & [m7 Hm7] & Hax7 & Hn7 & Hg7 & Hc7 & Ho7 & Hch7 & Hi7 & Hl7 & Hd7).
  cbn [mbind option_bind].
  destruct (classic_step_generator_init_attaches move E_AXIS s7 m7 Hm7 Hax7)
    as (s8 & -> & [m8 Hm8] & Hax8 & Hn8 & Hg8 & Hc8 & Ho8 & Hch8 & Hi8 & Hl8 & Hd8).
  cbn [mbind option_bind].
  eexists. split; [reflexivity|].
  assert (Hcur : forall a, current_move (xyze_get (step_generators_pool s8) a) = Some move).
  { intros a. destruct a.
    - now rewrite Ho8, Ho7, Ho6 by discriminate.
    - now rewrite Ho8, Ho7 by discriminate.
    - now rewrite Ho8 by discriminate.
    - exact Hc8. }
  split.
  { intros a. cbn. rewrite Hn8, Hn7, Hn6, Hn5, Hg8, Hg7, Hg6, Hg5.
    split; [now destruct a|]. exists a. split; [now destruct a|].
    rewrite Hcur. now eexists. }
  split; [exact Hcur|].
  split.
  { apply (reference_cnt_changed_delta s _
             (fun i => 0 + (if Nat.eqb i move then 1 else 0)
                       + (if Nat.eqb i move then 1 else 0)
                       + (if Nat.eqb i move then 1 else 0)
                       + (if Nat.eqb i move then 1 else 0))).
    { intros i. destruct (Nat.eqb i move); reflexivity. }
    assert (Hall := reference_cnt_changed_trans _ _ _ _ _
                      (reference_cnt_changed_trans _ _ _ _ _
                         (reference_cnt_changed_trans _ _ _ _ _
                            (reference_cnt_changed_trans _ _ _ _ _ Hch4 Hch5) Hch6) Hch7) Hch8).
    destruct Hall as [Hlen Hall]. split; [exact Hlen|exact Hall]. }
  cbn. split; [reflexivity|].
  split; [now rewrite Hl8, Hl7, Hl6, Hl5|now rewrite Hd8, Hd7, Hd6, Hd5].
Qed.

End GeneratorProperties.

(** ** The producer of step events *)

Section ProducerProperties.

Context `{cfg : Config}.

Lemma get_next_free_step_event_None q :
  get_next_free_step_event q = None -> is_step_event_queue_full q = true.
Proof. unfold get_next_free_step_event. now destruct (is_step_event_queue_full q). Qed.

Lemma produce_step_events_full n ft s s' :
  produce_step_events n ft s = Some (ReturnFullStepEventQueue, s') ->
  is_step_event_queue_full (step_event_queue s') = true
  /\ flags (buffered_step (step_generator_state s')) <> 0.
Proof.
  revert s. induction n as [|n IH]; intros s; cbn [produce_step_events]; [discriminate|].
  destruct (_ && _) eqn:Efull.
  - intros [= <-]. apply andb_prop in Efull as [Hb Hq].
    apply negb_true_iff in Hb, Hq. apply Z.eqb_neq in Hb.
    split; [|exact Hb].
    apply get_next_free_step_event_None.
    destruct (get_next_free_step_event _) as [p|]; [|reflexivity].
    rewrite bool_decide_eq_true_2 in Hq by now eexists. discriminate.
  - destruct (generate_next_step_event _ ft s) as [[[d ev] s1]|]; [|discriminate].
    cbn [mbind option_bind].
    destruct (buffer_step_event _ ev s1) as [s2|]; [|discriminate].
    cbn [mbind option_bind].
    destruct d; [discriminate|]. apply IH.
Qed.

(** X9: [process_one_move_segment_from_queue] reports
    STEP_GENERATOR_STATUS_FULL_STEP_EVENT_QUEUE only when the step event
    queue is full and a step event waits in the buffer for a slot. *)
Theorem process_one_move_segment_from_queue_full (s s' : state) :
  process_one_move_segment_from_queue s
  = Some (STEP_GENERATOR_STATUS_FULL_STEP_EVENT_QUEUE, s') ->
  is_step_event_queue_full (step_event_queue s') = true
  /\ flags (buffered_step (step_generator_state s')) <> 0.
Proof.
  unfold process_one_move_segment_from_queue.
  match goal with
  | |- (?o ≫= _) = _ -> _ => destruct o as [[r1 s1]|] eqn:E1; [|discriminate]
  end.
  cbn [mbind option_bind].
  destruct r1 as [|[|n]]; [| |discriminate].
  - intros [= <-].
    destruct (get_current_unprocessed_move_segment _) as [move|]; [|discriminate].
    destruct (if initialized (step_generator_state s) then _ else _) as [s0|];
      [|discriminate].
    cbn [mbind option_bind] in E1. cbv zeta in E1.
    destruct (step_generator_state_restart _ _) as [sgs pool].
    now apply produce_step_events_full in E1.
  - clear E1. unfold finish_ending_move.
    destruct (get_current_unprocessed_move_segment _) as [um|]; [|discriminate].
    destruct (_ !! um) as [m|]; [|discriminate].
    cbn [mbind option_bind].
    destruct (is_ending_empty_move m); [|discriminate]. cbv zeta.
    destruct (Z.eqb_spec (flags (buffered_step (step_generator_state s1))) 0) as [|Hb];
      [discriminate|].
    destruct (get_next_free_step_event _) as [[slot nh]|] eqn:Enext; [discriminate|].
    intros [= <-]. split; [|exact Hb]. now apply get_next_free_step_event_None.
Qed.

Lemma buffer_step_event_appends new s0 s s' :
  step_event_queue s = step_event_queue s0 ->
  step_event_queue_wf (step_event_queue s0) ->
  buffer_step_event (get_next_free_step_event (step_event_queue s0)) new s = Some s' ->
  step_event_queue_wf (step_event_queue s')
  /\ exists added,
       step_event_queue_contents (step_event_queue s')
       = step_event_queue_contents (step_event_queue s0) ++ added
       /\ (length added <= 1)%nat.
Proof.
  intros Hq Hwf. unfold buffer_step_event.
  assert (Hsame : forall s1, step_event_queue s1 = step_event_queue s0 ->
            step_event_queue_wf (step_event_queue s1)
            /\ exists added,
                 step_event_queue_contents (step_event_queue s1)
                 = step_event_queue_contents (step_event_queue s0) ++ added
                 /\ (length added <= 1)%nat).
  { intros s1 ->. split; [exact Hwf|]. exists []. rewrite app_nil_r. split; [reflexivity|cbn; lia]. }
  destruct (_ =? 0); [intros [= <-]; now apply Hsame|].
  destruct (_ =? 0); [intros [= <-]; now apply Hsame|].
  destruct (_ && _); [intros [= <-]; now apply Hsame|].
  destruct (get_next_free_step_event _) as [[slot nh]|] eqn:Enext; [|discriminate].
  cbn [mbind option_bind]. intros [= <-]. cbn. rewrite Hq.
  destruct (step_event_queue_write_contents _ _ _
              (buffered_step (step_generator_state s)) Hwf Enext) as [Hwf' Hc].
  split; [exact Hwf'|]. eexists. split; [exact Hc|]. cbn. lia.
Qed.

Lemma produce_step_events_appends n ft s r s' :
  step_event_queue_wf (step_event_queue s) ->
  produce_step_events n ft s = Some (r, s') ->
  step_event_queue_wf (step_event_queue s')
  /\ exists new,
       step_event_queue_contents (step_event_queue s')
       = step_event_queue_contents (step_event_queue s) ++ new
       /\ (length new <= n)%nat.
Proof.
  revert s. induction n as [|n IH]; intros s Hwf; cbn [produce_step_events].
  - intros [= <- <-]. split; [exact Hwf|]. exists []. now rewrite app_nil_r.
  - destruct (_ && _).
    { intros [= <- <-]. split; [exact Hwf|]. exists []. rewrite app_nil_r.
      split; [reflexivity|cbn; lia]. }
    destruct (generate_next_step_event _ ft s) as [[[d ev] s1]|] eqn:Eg; [|discriminate].
    cbn [mbind option_bind].
    apply generate_next_step_event_out in Eg as (Hq1 & _ & _).
    destruct (buffer_step_event _ ev s1) as [s2|] eqn:Eb; [|discriminate].
    cbn [mbind option_bind].
    apply (buffer_step_event_appends ev s s1 s2 Hq1 Hwf) in Eb
      as (Hwf2 & added & Hc2 & Hl2).
    destruct d.
    + intros [= <- <-]. split; [exact Hwf2|]. exists added. split; [exact Hc2|lia].
    + intros H. apply (IH s2 Hwf2) in H as (Hwf' & new & Hc & Hl).
      split; [exact Hwf'|]. exists (added ++ new).
      rewrite Hc, Hc2, app_assoc. split; [reflexivity|]. rewrite length_app. lia.
Qed.

(** X10: one call of [process_one_move_segment_from_queue] that reports OK
    or a full queue has put at most MAX_STEP_EVENTS_PRODUCED_PER_ONE_CALL
    step events into the step event queue, behind the events that were
    queued: each pass of its for loop flushes at most the buffered step. *)
Theorem process_one_move_segment_from_queue_bounded (s : state) (r : StepGeneratorStatus)
    (s' : state) :
  step_event_queue_wf (step_event_queue s) ->
  process_one_move_segment_from_queue s = Some (r, s') ->
  r <> STEP_GENERATOR_STATUS_NO_STEP_EVENT_PRODUCED ->
  exists new : list step_event_t,
    step_event_queue_contents (step_event_queue s')
    = step_event_queue_contents (step_event_queue s) ++ new
    /\ (length new <= MAX_STEP_EVENTS_PRODUCED_PER_ONE_CALL)%nat.
Proof.
  intros Hwf. unfold process_one_move_segment_from_queue.
  assert (Hloop : forall r1 s1,
             match get_current_unprocessed_move_segment (move_segment_queue s) with
             | Some move =>
                 s0 ← (if initialized (step_generator_state s) then Some s
                       else step_generator_state_init move s);
                 let flush_time := (total_print_time s0 - max_lookback_time s0)%float in
                 let '(sgs, pool) :=
                   step_generator_state_restart (step_generator_state s0)
                     (step_generators_pool s0) in
                 let s0 := set_step_generators_pool pool (set_step_generator_state sgs s0) in
                 produce_step_events MAX_STEP_EVENTS_PRODUCED_PER_ONE_CALL flush_time s0
             | None => Some (LoopExit 0, s)
             end = Some (r1, s1) ->
             step_event_queue_wf (step_event_queue s1)
             /\ exists new,
                  step_event_queue_contents (step_event_queue s1)
                  = step_event_queue_contents (step_event_queue s) ++ new
                  /\ (length new <= MAX_STEP_EVENTS_PRODUCED_PER_ONE_CALL)%nat).
  { intros r1 s1.
    destruct (get_current_unprocessed_move_segment _) as [move|].
    2: { intros [= <- <-]. split; [exact Hwf|]. exists []. rewrite app_nil_r.
         split; [reflexivity|cbn; lia]. }
    assert (Hinit : forall s0,
               (if initialized (step_generator_state s) then Some s
                else step_generator_state_init move s) = Some s0 ->
               step_event_queue s0 = step_event_queue s).
    { intros s0. destruct (initialized _); [now intros [= <-]|].
      intros H. now apply step_generator_state_init_frame in H. }
    destruct (if initialized (step_generator_state s) then _ else _) as [s0|];
      [|discriminate].
    specialize (Hinit s0 eq_refl). cbn [mbind option_bind]. cbv zeta.
    destruct (step_generator_state_restart _ _) as [sgs pool].
    intros H. apply produce_step_events_appends in H; [|cbn; now rewrite Hinit].
    cbn in H. now rewrite Hinit in H. }
  match goal with
  | |- (?o ≫= _) = _ -> _ => destruct o as [[r1 s1]|]; [|discriminate]
  end.
  destruct (Hloop r1 s1 eq_refl) as [Hwf1 Hnew]. cbn [mbind option_bind].
  destruct r1 as [|[|n]].
  - intros [= <- <-] _. exact Hnew.
  - unfold finish_ending_move.
    destruct (get_current_unprocessed_move_segment _) as [um|]; [|now intros [= <- <-]].
    destruct (_ !! um) as [m|]; [|discriminate].
    cbn [mbind option_bind].
    destruct (is_ending_empty_move m); [|now intros [= <- <-]]. cbv zeta.
    destruct (_ =? 0).
    + now intros [= <- <-].
    + destruct (get_next_free_step_event _) as [[slot nh]|].
      * now intros [= <- <-].
      * intros [= <- <-] _. exact Hnew.
  - intros [= <- <-] _. exact Hnew.
Qed.

Lemma append_move_discarding_step_event_view extra s :
  step_event_queue_wf (step_event_queue s) ->
  let s' := snd (append_move_discarding_step_event extra s) in
  step_event_queue_wf (step_event_queue s')
  /\ move_segment_queue s' = move_segment_queue s
  /\ buffered_step (step_generator_state s') = buffered_step (step_generator_state s)
  /\ sflags (step_generator_state s') = sflags (step_generator_state s)
  /\ left_insert_start_of_move_segment (step_generator_state s')
     = left_insert_start_of_move_segment (step_generator_state s).
Proof.
  intros Hwf. unfold append_move_discarding_step_event.
  destruct (get_next_free_step_event _) as [[slot nh]|] eqn:En; [|easy].
  cbn. split; [|easy].
  now apply step_event_queue_write_contents.
Qed.

Lemma append_pending_discarding_step_events_view fuel s :
  step_event_queue_wf (step_event_queue s) ->
  let s' := append_pending_discarding_step_events fuel s in
  step_event_queue_wf (step_event_queue s')
  /\ move_segment_queue s' = move_segment_queue s
  /\ buffered_step (step_generator_state s') = buffered_step (step_generator_state s)
  /\ sflags (step_generator_state s') = sflags (step_generator_state s).
Proof.
  revert s. induction fuel as [|fuel IH]; intros s Hwf; [easy|].
  cbn [append_pending_discarding_step_events].
  destruct (0 <? _); [|easy].
  pose proof (append_move_discarding_step_event_view 0 s Hwf) as (Hwf1 & Hq1 & Hb1 & Hf1 & _).
  destruct (append_move_discarding_step_event 0 s) as [[|] s1]; cbn [snd] in *; [|easy].
  match goal with
  | |- context [append_pending_discarding_step_events fuel ?x] =>
      destruct (IH x) as (Hwf2 & Hq2 & Hb2 & Hf2); [exact Hwf1|]
  end.
  cbv zeta. rewrite Hq2, Hb2, Hf2. now cbn.
Qed.

(** X11: the end of motion. When [process_one_move_segment_from_queue]
    retires the ending empty move (lines 957-994), nothing is left in the
    buffer, no BeginningOfMoveSegment marker is owed, and the newest event of
    the step event queue is the one flagged END_OF_MOTION, with the delay 0.
    With an empty buffer, no marker owed and a free slot, this happens in the
    same call: the ending empty move is retired and the END_OF_MOTION event
    is queued behind the events that were there. *)
Theorem finish_ending_move_end_of_motion (s : state) (r : StepGeneratorStatus) (s' : state) :
  step_event_queue_wf (step_event_queue s) ->
  finish_ending_move s = Some (r, s') ->
  let end_of_motion :=
    StepEvent 0 (Z.lor (Z.lor (sflags (step_generator_state s))
                              STEP_EVENT_FLAG_BEGINNING_OF_MOVE_SEGMENT)
                       STEP_EVENT_END_OF_MOTION) in
  (mq_unprocessed_tail (move_segment_queue s') <> mq_unprocessed_tail (move_segment_queue s) ->
   r = STEP_GENERATOR_STATUS_NO_STEP_EVENT_PRODUCED
   /\ flags (buffered_step (step_generator_state s')) = 0
   /\ left_insert_start_of_move_segment (step_generator_state s') = 0
   /\ last (step_event_queue_contents (step_event_queue s')) = Some end_of_motion
   /\ mq_unprocessed_tail (move_segment_queue s')
      = move_segment_queue_next_index (mq_unprocessed_tail (move_segment_queue s)))
  /\ (forall u m,
        get_current_unprocessed_move_segment (move_segment_queue s) = Some u ->
        mq_data (move_segment_queue s) !! u = Some m ->
        is_ending_empty_move m = true ->
        flags (buffered_step (step_generator_state s)) = 0 ->
        left_insert_start_of_move_segment (step_generator_state s) = 0 ->
        is_step_event_queue_full (step_event_queue s) = false ->
        step_event_queue_contents (step_event_queue s')
        = step_event_queue_contents (step_event_queue s) ++ [end_of_motion]
        /\ mq_unprocessed_tail (move_segment_queue s') = move_segment_queue_next_index u).
Proof.
  intros Hwf H. cbv zeta. split.
  - revert H. unfold finish_ending_move.
    destruct (get_current_unprocessed_move_segment _) as [um|] eqn:Eum;
      [|intros [= <- <-]; easy].
    destruct (_ !! um) as [m|]; [|discriminate].
    cbn [mbind option_bind].
    destruct (is_ending_empty_move m); [|intros [= <- <-]; easy]. cbv zeta.
    set (flushed := if flags (buffered_step (step_generator_state s)) =? 0 then Some s
                    else match get_next_free_step_event (step_event_queue s) with
                         | Some (slot, nh) => _
                         | None => None
                         end).
    assert (Hflushed : match flushed with
                       | Some s1 =>
                           step_event_queue_wf (step_event_queue s1)
                           /\ move_segment_queue s1 = move_segment_queue s
                           /\ flags (buffered_step (step_generator_state s1)) = 0
                           /\ sflags (step_generator_state s1)
                              = sflags (step_generator_state s)
                       | None => True
                       end).
    { unfold flushed. destruct (Z.eqb_spec (flags (buffered_step (step_generator_state s))) 0).
      - easy.
      - destruct (get_next_free_step_event _) as [[slot nh]|] eqn:En; [|exact I].
        cbn. split; [|easy]. now apply step_event_queue_write_contents. }
    destruct flushed as [s1|]; [|intros [= <- <-]; easy].
    destruct Hflushed as (Hwf1 & Hq1 & Hb1 & Hf1).
    intros [= <- <-].
    pose proof (append_pending_discarding_step_events_view
                  (Z.to_nat (left_insert_start_of_move_segment (step_generator_state s1)))
                  s1 Hwf1) as (Hwf2 & Hq2 & Hb2 & Hf2).
    cbv zeta in *.
    set (s2 := append_pending_discarding_step_events _ s1) in *.
    destruct (Z.eqb_spec (left_insert_start_of_move_segment (step_generator_state s2)) 0)
      as [Hl|Hl]; [|rewrite Hq2, Hq1; easy].
    destruct (is_step_event_queue_full (step_event_queue s2)) eqn:Efull;
      [rewrite Hq2, Hq1; easy|].
    intros _. split; [reflexivity|]. clearbody s2.
    unfold append_move_discarding_step_event.
    cbn [step_event_queue set_move_segment_queue step_generator_state].
    unfold get_next_free_step_event. rewrite Efull.
    cbn. rewrite Hb2, Hb1, Hl, Hf2, Hf1, Hq2, Hq1.
    split; [reflexivity|]. split; [reflexivity|]. split.
    + match goal with
      | |- last (step_event_queue_contents (step_event_queue_write ?a ?b ?e ?q)) = _ =>
          destruct (step_event_queue_write_contents q a b e Hwf2) as [_ ->]
      end.
      * unfold get_next_free_step_event. now rewrite Efull.
      * apply last_snoc.
    + unfold discard_current_unprocessed_move_segment.
      unfold get_current_unprocessed_move_segment in Eum.
      now destruct (Nat.eqb _ _).
  - intros u m Hu Hm Hend Hb Hl Hfull. revert H. unfold finish_ending_move.
    rewrite Hu, Hm. cbn [mbind option_bind]. rewrite Hend, Hb. cbv zeta.
    change (0 =? 0) with true. cbv iota. rewrite Hl.
    change (Z.to_nat 0) with 0%nat. cbn [append_pending_discarding_step_events].
    rewrite Hl. change (0 =? 0) with true. cbv iota. rewrite Hfull.
    intros [= <- <-].
    unfold append_move_discarding_step_event.
    cbn [step_event_queue set_move_segment_queue step_generator_state].
    unfold get_next_free_step_event. rewrite Hfull. cbn.
    split.
    + apply step_event_queue_write_contents; [exact Hwf|].
      unfold get_next_free_step_event. now rewrite Hfull.
    + unfold discard_current_unprocessed_move_segment.
      unfold get_current_unprocessed_move_segment in Hu.
      destruct (Nat.eqb _ _); [discriminate|]. now injection Hu as <-.
Qed.

End ProducerProperties.

(** ** Block intake *)

Section IntakeProperties.

Context `{cfg : Config}.

Lemma unprocessed_blocks_current p b :
  get_current_unprocessed_block p = Some b ->
  unprocessed_blocks p = b :: drop (S (processed p)) (block_buffer p).
Proof.
  unfold get_current_unprocessed_block, unprocessed_blocks. intros H.
  now apply drop_S.
Qed.

Lemma drop_tail {A} (n : nat) (l : list A) : drop n (tail l) = drop (S n) l.
Proof. destruct l; [now destruct n|reflexivity]. Qed.

Lemma length_tail_pred {A} (l : list A) : length (tail l) = Nat.pred (length l).
Proof. now destruct l. Qed.

Lemma last_cons_default {A B} (f : A -> B) (d : B) (x : A) (l : list A) :
  default d (f <$> last (x :: l)) = default (f x) (f <$> last l).
Proof.
  revert x d. induction l as [|y l IH]; intros x d; [reflexivity|].
  change (last (x :: y :: l)) with (last (y :: l)).
  rewrite IH. symmetry. apply IH.
Qed.

(** X12: sync blocks met before any motion ([total_print_time] is 0) are
    applied at once. The block-fetching loop of [process_queue_of_blocks]
    drops every leading block that is not a move from the planner, loads the
    position of the last of them into the step counters of the stepper, and
    stops at the first move or at the end of the blocks; it queues no move
    segment and no step event. *)
Theorem fetch_next_block_before_motion (fuel : nat) (s : state) (r : fetch_result)
    (s' : state) :
  (total_print_time s =? 0)%float = true ->
  (length (block_buffer (planner s)) - processed (planner s) <= fuel)%nat ->
  fetch_next_block fuel s = (r, s') ->
  exists skipped : list block_t,
    unprocessed_blocks (planner s) = skipped ++ unprocessed_blocks (planner s')
    /\ Forall (fun b => is_move b = false) skipped
    /\ r = FetchBlock (get_current_unprocessed_block (planner s'))
    /\ (forall b, get_current_unprocessed_block (planner s') = Some b -> is_move b = true)
    /\ processed (planner s') = processed (planner s)
    /\ (length (block_buffer (planner s')) + length skipped
        = length (block_buffer (planner s)))%nat
    /\ count_position (stepper s')
       = default (count_position (stepper s)) (position <$> last skipped)
    /\ move_segment_queue s' = move_segment_queue s
    /\ step_event_queue s' = step_event_queue s
    /\ total_print_time s' = total_print_time s.
Proof.
  revert s. induction fuel as [|fuel IH]; intros s Htpt Hfuel.
  - cbn [fetch_next_block].
    destruct (get_current_unprocessed_block (planner s)) as [b|] eqn:Eb.
    { apply lookup_lt_Some in Eb. lia. }
    intros [= <- <-]. exists []. rewrite Eb. now repeat split.
  - cbn [fetch_next_block].
    destruct (get_current_unprocessed_block (planner s)) as [b|] eqn:Eb.
    2: { intros [= <- <-]. exists []. rewrite Eb. now repeat split. }
    destruct (is_move b) eqn:Emove.
    { intros [= <- <-]. exists []. rewrite Eb.
      repeat split; try easy. now intros b' [= <-]. }
    rewrite Htpt. intros H.
    pose proof (lookup_lt_Some _ _ _ Eb) as Hlt.
    apply IH in H as (skipped & Hun & Hsk & Hr & Hnext & Hproc & Hlen & Hpos & Hq & Hsq & Ht).
    + revert Hun Hproc Hlen Hpos Hq Hsq Ht.
      cbn [planner stepper set_planner set_stepper move_segment_queue step_event_queue
           total_print_time].
      unfold discard_current_unprocessed_block.
      rewrite bool_decide_eq_true_2 by exact Hlt.
      unfold discard_current_block, unprocessed_blocks.
      cbn [block_buffer processed Nat.pred _set_position count_position].
      intros Hun Hproc Hlen Hpos Hq Hsq Ht.
      exists (b :: skipped). split.
      { rewrite (drop_S _ _ _ Eb). cbn [app]. f_equal.
        rewrite <- Hun. symmetry. apply drop_tail. }
      split; [now constructor|]. split; [exact Hr|]. split; [exact Hnext|].
      split; [exact Hproc|]. split.
      { cbn [length]. rewrite length_tail_pred in Hlen. lia. }
      split; [now rewrite last_cons_default|]. easy.
    + exact Htpt.
    + cbn. unfold discard_current_unprocessed_block.
      rewrite bool_decide_eq_true_2 by exact Hlt. cbn. rewrite length_tail_pred. lia.
Qed.

(** X13: sync blocks met while the motion is under way become move
    segments. For every leading block that is not a move the
    block-fetching loop queues one block-discarding segment (duration 0,
    flagged as first and last segment of its block) and counts the block as
    processed; the planner keeps it for the Step-ISR and the step counters
    are not touched. The loop returns from [process_queue_of_blocks] only
    when the move segment ring is full, with the block that met the full
    ring still unprocessed. *)
Theorem fetch_next_block_in_motion (fuel : nat) (s : state) (r : fetch_result)
    (s' : state) :
  (total_print_time s =? 0)%float = false ->
  move_segment_queue_wf (move_segment_queue s) ->
  (length (block_buffer (planner s)) - processed (planner s) <= fuel)%nat ->
  fetch_next_block fuel s = (r, s') ->
  exists skipped : list block_t,
    unprocessed_blocks (planner s) = skipped ++ unprocessed_blocks (planner s')
    /\ Forall (fun b => is_move b = false) skipped
    /\ block_buffer (planner s') = block_buffer (planner s)
    /\ processed (planner s') = (processed (planner s) + length skipped)%nat
    /\ move_segment_queue_contents (move_segment_queue s')
       = move_segment_queue_contents (move_segment_queue s)
         ++ replicate (length skipped) (block_discarding_move s)
    /\ stepper s' = stepper s
    /\ total_print_time s' = total_print_time s
    /\ step_event_queue s' = step_event_queue s
    /\ match r with
       | FetchReturn =>
           is_move_segment_queue_full (move_segment_queue s') = true
           /\ exists b, get_current_unprocessed_block (planner s') = Some b
                        /\ is_move b = false
       | FetchBlock current_block =>
           current_block = get_current_unprocessed_block (planner s')
           /\ forall b, current_block = Some b -> is_move b = true
       end.
Proof.
  revert s. induction fuel as [|fuel IH]; intros s Htpt Hwf Hfuel.
  - cbn [fetch_next_block].
    destruct (get_current_unprocessed_block (planner s)) as [b|] eqn:Eb.
    { apply lookup_lt_Some in Eb. lia. }
    intros [= <- <-]. exists []. rewrite Eb. cbn [length replicate Nat.add app].
    rewrite app_nil_r, Nat.add_0_r. now repeat split.
  - cbn [fetch_next_block].
    destruct (get_current_unprocessed_block (planner s)) as [b|] eqn:Eb.
    2: { intros [= <- <-]. exists []. rewrite Eb. cbn [length replicate Nat.add app].
         rewrite app_nil_r, Nat.add_0_r. now repeat split. }
    destruct (is_move b) eqn:Emove.
    { intros [= <- <-]. exists []. rewrite Eb. cbn [length replicate Nat.add app].
      rewrite app_nil_r, Nat.add_0_r. repeat split; try easy. now intros b' [= <-]. }
    rewrite Htpt.
    pose proof (lookup_lt_Some _ _ _ Eb) as Hlt.
    unfold append_block_discarding_move.
    unfold get_next_free_move_segment.
    destruct (is_move_segment_queue_full (move_segment_queue s)) eqn:Efull.
    { intros [= <- <-]. exists []. cbn [length replicate Nat.add app].
      rewrite app_nil_r, Nat.add_0_r. repeat split; try easy. now exists b. }
    destruct (append_move_segment_to_queue_free 0 0 0 (total_print_time s)
                (XYZE 0 0 0 0)%float (total_start_pos s)
                (Z.lor MOVE_FLAG_FIRST_MOVE_SEGMENT_OF_BLOCK
                       MOVE_FLAG_LAST_MOVE_SEGMENT_OF_BLOCK) s Hwf
                (move_segment_queue_not_full _ Hwf Efull)) as (q1 & E1 & Hwf1 & _ & Hc1).
    unfold append_move_segment_to_queue, get_next_free_move_segment in E1.
    rewrite Efull in E1. injection E1 as <-.
    intros H. apply IH in H
      as (skipped & Hun & Hsk & Hbuf & Hproc & Hc & Hst & Ht & Hsq & Hr).
    + revert Hun Hbuf Hproc Hc Hst Ht Hsq.
      cbn [planner stepper set_planner set_stepper move_segment_queue step_event_queue
           total_print_time set_move_segment_queue].
      unfold discard_current_unprocessed_block.
      rewrite bool_decide_eq_true_2 by exact Hlt.
      unfold unprocessed_blocks. cbn [block_buffer processed].
      intros Hun Hbuf Hproc Hc Hst Ht Hsq.
      exists (b :: skipped). split.
      { cbn [app]. rewrite <- Hun. now apply drop_S. }
      split; [now constructor|]. split; [exact Hbuf|]. split; [cbn [length]; lia|].
      split.
      { rewrite Hc, Hc1. cbn [length replicate]. rewrite <- app_assoc. reflexivity. }
      easy.
    + exact Htpt.
    + exact Hwf1.
    + cbn. unfold discard_current_unprocessed_block.
      rewrite bool_decide_eq_true_2 by exact Hlt. cbn. lia.
Qed.

Lemma is_waiting_before_delivering_cases now s :
  let p := planner s in
  let half (s1 : state) :=
    (if BLOCK_BUFFER_SIZE / 2 <=? movesplanned_processed (planner s1)
     then negb (has_all_generators_reached_end_of_move_queue s1) else false, s1) in
  is_waiting_before_delivering now s
  = if delay_before_delivering p =? 0 then half s
    else if waiting_before_delivering_start_time s =? 0
         then (true, set_waiting_before_delivering_start_time now s)
         else if (3 <=? nonbusy_movesplanned p)
                 || (delay_before_delivering p
                       <=? (now - waiting_before_delivering_start_time s) mod 2 ^ 32)
              then half (set_waiting_before_delivering_start_time 0
                           (set_planner (Planner (block_buffer p) (processed p) 0) s))
              else (true, s).
Proof.
  cbv zeta. unfold is_waiting_before_delivering.
  destruct (_ =? 0).
  - destruct (_ <=? _); [|reflexivity].
    now destruct (has_all_generators_reached_end_of_move_queue s).
  - destruct (_ =? 0); [reflexivity|].
    destruct (_ || _); [|reflexivity].
    destruct (_ <=? _); [|reflexivity].
    now destruct (has_all_generators_reached_end_of_move_queue _).
Qed.

(** What [is_waiting_before_delivering] writes, and the delivery gate it leaves open
    once it has answered that the wait is over. *)
Lemma is_waiting_before_delivering_open (now : Z) (s : state) :
  let r := is_waiting_before_delivering now s in
  block_buffer (planner (snd r)) = block_buffer (planner s)
  /\ processed (planner (snd r)) = processed (planner s)
  /\ snd r
     = set_waiting_before_delivering_start_time
         (waiting_before_delivering_start_time (snd r))
         (set_planner (planner (snd r)) s)
  /\ (fst r = false ->
      delay_before_delivering (planner (snd r)) = 0
      /\ forall now', is_waiting_before_delivering now' (snd r) = (false, snd r)).
Proof.
  cbv zeta.
  assert (Hopen : forall s1 now',
             delay_before_delivering (planner s1) = 0 ->
             is_waiting_before_delivering now' s1
             = (if BLOCK_BUFFER_SIZE / 2 <=? movesplanned_processed (planner s1)
                then negb (has_all_generators_reached_end_of_move_queue s1) else false, s1)).
  { intros s1 now' Hd. rewrite is_waiting_before_delivering_cases. cbv zeta.
    now rewrite Hd. }
  rewrite is_waiting_before_delivering_cases. cbv zeta.
  destruct (Z.eqb_spec (delay_before_delivering (planner s)) 0) as [Hd|Hd].
  - cbn [fst snd]. split; [reflexivity|]. split; [reflexivity|]. split.
    { now destruct s as [mq sq lt tps sgs pool mlt tpt tsp tsps wst sp dl ev p st]. }
    intros Hf. split; [exact Hd|]. intros now'. rewrite (Hopen s now' Hd). now rewrite Hf.
  - destruct (waiting_before_delivering_start_time s =? 0).
    + cbn [fst snd]. split; [reflexivity|]. split; [reflexivity|]. split; [|discriminate].
      now destruct s as [mq sq lt tps sgs pool mlt tpt tsp tsps wst sp dl ev p st].
    + destruct (_ || _).
      * cbn [fst snd]. split; [reflexivity|]. split; [reflexivity|]. split.
        { now destruct s as [mq sq lt tps sgs pool mlt tpt tsp tsps wst sp dl ev p st]. }
        intros Hf. split; [reflexivity|]. intros now'.
        rewrite Hopen by reflexivity. now rewrite Hf.
      * cbn [fst snd]. split; [reflexivity|]. split; [reflexivity|]. split; [|discriminate].
        now destruct s as [mq sq lt tps sgs pool mlt tpt tsp tsps wst sp dl ev p st].
Qed.

(** X14: the delivery gate. [is_waiting_before_delivering] writes nothing
    but the start time of the wait and the planner's delay. When it
    answers that the wait is over, the delay is disarmed
    ([delay_before_delivering] is 0), and every later call, at any tick,
    gives the same answer without changing the state, as long as the
    planner and the generators stay as they are. *)
Theorem is_waiting_before_delivering_gate (now : Z) (s : state) :
  let r := is_waiting_before_delivering now s in
  block_buffer (planner (snd r)) = block_buffer (planner s)
  /\ processed (planner (snd r)) = processed (planner s)
  /\ snd r
     = set_waiting_before_delivering_start_time
         (waiting_before_delivering_start_time (snd r))
         (set_planner (planner (snd r)) s)
  /\ (fst r = false ->
      delay_before_delivering (planner (snd r)) = 0
      /\ forall now', is_waiting_before_delivering now' (snd r) = (false, snd r)).
Proof.
  cbv zeta.
  assert (Hopen : forall s1 now',
             delay_before_delivering (planner s1) = 0 ->
             is_waiting_before_delivering now' s1
             = (if BLOCK_BUFFER_SIZE / 2 <=? movesplanned_processed (planner s1)
                then negb (has_all_generators_reached_end_of_move_queue s1) else false, s1)).
  { intros s1 now' Hd. rewrite is_waiting_before_delivering_cases. cbv zeta.
    now rewrite Hd. }
  rewrite is_waiting_before_delivering_cases. cbv zeta.
  destruct (Z.eqb_spec (delay_before_delivering (planner s)) 0) as [Hd|Hd].
  - cbn [fst snd]. split; [reflexivity|]. split; [reflexivity|]. split.
    { now destruct s as [mq sq lt tps sgs pool mlt tpt tsp tsps wst sp dl ev p st]. }
    intros Hf. split; [exact Hd|]. intros now'. rewrite (Hopen s now' Hd). now rewrite Hf.
  - destruct (waiting_before_delivering_start_time s =? 0).
    + cbn [fst snd]. split; [reflexivity|]. split; [reflexivity|]. split; [|discriminate].
      now destruct s as [mq sq lt tps sgs pool mlt tpt tsp tsps wst sp dl ev p st].
    + destruct (_ || _).
      * cbn [fst snd]. split; [reflexivity|]. split; [reflexivity|]. split.
        { now destruct s as [mq sq lt tps sgs pool mlt tpt tsp tsps wst sp dl ev p st]. }
        intros Hf. split; [reflexivity|]. intros now'.
        rewrite Hopen by reflexivity. now rewrite Hf.
      * cbn [fst snd]. split; [reflexivity|]. split; [reflexivity|]. split; [|discriminate].
        now destruct s as [mq sq lt tps sgs pool mlt tpt tsp tsps wst sp dl ev p st].
Qed.

Lemma fetch_next_block_at_move fuel s b :
  get_current_unprocessed_block (planner s) = Some b ->
  is_move b = true ->
  fetch_next_block fuel s = (FetchBlock (Some b), s).
Proof. intros Hb Hm. destruct fuel; cbn [fetch_next_block]; now rewrite Hb, Hm. Qed.

Lemma fetch_next_block_at_end fuel s :
  get_current_unprocessed_block (planner s) = None ->
  fetch_next_block fuel s = (FetchBlock None, s).
Proof. intros Hb. destruct fuel; cbn [fetch_next_block]; now rewrite Hb. Qed.

Lemma push_move_segment m s :
  move_segment_queue_wf (move_segment_queue s) ->
  is_move_segment_queue_full (move_segment_queue s) = false ->
  let q := move_segment_queue s in
  let q' := mq_set_head (move_segment_queue_next_index (mq_head q))
              (mq_set_data (<[mq_head q := set_reference_cnt 0 m]> (mq_data q)) q) in
  move_segment_queue_wf q'
  /\ move_segment_queue_free_slots q' = move_segment_queue_free_slots q - 1
  /\ move_segment_queue_contents q' = move_segment_queue_contents q ++ [set_reference_cnt 0 m].
Proof.
  intros Hwf Hfull. cbv zeta.
  destruct (append_move_segment_to_queue_free (move_time m) (start_v m) (half_accel m)
              (print_time m) (axes_r m) (start_pos m) (mflags m) s Hwf
              (move_segment_queue_not_full _ Hwf Hfull)) as (q1 & E1 & Hwf1 & Hfr1 & Hc1).
  unfold append_move_segment_to_queue, get_next_free_move_segment in E1.
  rewrite Hfull in E1. injection E1 as <-. easy.
Qed.

(** The ending empty move, on a call for which the delivery gate is open and leaves
    the state as it is. *)
Lemma process_queue_of_blocks_ending_move_open (now : Z) (s : state) :
  move_segment_queue_wf (move_segment_queue s) ->
  is_waiting_before_delivering now s = (false, s) ->
  (MAX_PRINT_TIME <=? total_print_time s)%float = false ->
  get_current_unprocessed_block (planner s) = None ->
  fneq (total_print_time s) 0 = true ->
  has_all_generators_reached_end_of_move_queue s = true ->
  is_move_segment_queue_full (move_segment_queue s) = false ->
  let s' := process_queue_of_blocks now s in
  move_segment_queue_contents (move_segment_queue s')
  = move_segment_queue_contents (move_segment_queue s)
    ++ [Move MAX_PRINT_TIME 0%float 0%float (total_print_time s) (XYZE 0 0 0 0)%float
          (total_start_pos s) MOVE_FLAG_ENDING_EMPTY_MOVE 0]
  /\ total_print_time s' = (total_print_time s + MAX_PRINT_TIME)%float
  /\ has_all_generators_reached_end_of_move_queue s' = false
  /\ forall now',
       move_segment_queue (process_queue_of_blocks now' s') = move_segment_queue s'.
Proof.
  intros Hwf Hgate Hrun Hnone Hstarted Hall Hfull. cbv zeta.
  assert (E : process_queue_of_blocks now s = snd (append_ending_empty_move s)).
  { unfold process_queue_of_blocks. rewrite Hgate, Hrun.
    rewrite (fetch_next_block_at_end _ _ Hnone). now rewrite Hstarted, Hall. }
  rewrite E. clear E. unfold append_ending_empty_move, get_next_free_move_segment.
  rewrite Hfull. cbn [snd].
  pose proof (push_move_segment
                (Move MAX_PRINT_TIME 0%float 0%float (total_print_time s) (XYZE 0 0 0 0)%float
                   (total_start_pos s) MOVE_FLAG_ENDING_EMPTY_MOVE 0) s Hwf Hfull)
    as (_ & _ & Hc).
  cbv zeta in Hc. cbn [set_reference_cnt move_time start_v half_accel print_time axes_r
                       start_pos mflags] in Hc.
  split; [exact Hc|]. split; [reflexivity|]. split; [reflexivity|].
  intros now'.
  match goal with
  | |- move_segment_queue (process_queue_of_blocks now' ?x) = _ => set (s1 := x)
  end.
  assert (Hnone1 : get_current_unprocessed_block (planner s1) = None) by exact Hnone.
  assert (Hall1 : has_all_generators_reached_end_of_move_queue s1 = false) by reflexivity.
  clearbody s1. unfold process_queue_of_blocks.
  destruct (is_waiting_before_delivering_view now' s1) as (Hq & Hp & Hg & Ht).
  pose proof (is_waiting_before_delivering_open now' s1) as (Hbuf & Hproc & _).
  destruct (is_waiting_before_delivering now' s1) as [w s2]. cbn [fst snd] in *.
  destruct w; [exact Hq|].
  assert (Hnone2 : get_current_unprocessed_block (planner s2) = None).
  { unfold get_current_unprocessed_block in *. now rewrite Hbuf, Hproc. }
  assert (Hall2 : has_all_generators_reached_end_of_move_queue s2 = false).
  { unfold has_all_generators_reached_end_of_move_queue in *. now rewrite Hp. }
  destruct (MAX_PRINT_TIME <=? total_print_time s2)%float.
  - destruct (has_blocks_queued s2); [exact Hq|].
    rewrite fetch_next_block_at_end by exact Hnone2.
    replace (has_all_generators_reached_end_of_move_queue (reset_from_halt s2)) with false
      by (symmetry; exact Hall2).
    now rewrite andb_false_r.
  - rewrite fetch_next_block_at_end by exact Hnone2.
    now rewrite Hall2, andb_false_r.
Qed.

(** The first block of a motion, on a call for which the delivery gate is open and
    leaves the state as it is. *)
Lemma process_queue_of_blocks_first_block_open (now : Z) (s : state) (b : block_t) :
  move_segment_queue_wf (move_segment_queue s) ->
  0 <= MOVE_SEGMENT_QUEUE_MIN_FREE_SLOTS ->
  is_waiting_before_delivering now s = (false, s) ->
  (MAX_PRINT_TIME <=? total_print_time s)%float = false ->
  (total_print_time s =? 0)%float = true ->
  get_current_unprocessed_block (planner s) = Some b ->
  is_move b = true ->
  4 + MOVE_SEGMENT_QUEUE_MIN_FREE_SLOTS <= move_segment_queue_free_slots (move_segment_queue s) ->
  let s' := process_queue_of_blocks now s in
  let beginning :=
    Move (max_lookback_time s + 0.001)%float 0%float 0%float 0%float (XYZE 0 0 0 0)%float
      (total_start_pos s) MOVE_FLAG_BEGINNING_EMPTY_MOVE 0 in
  exists segs : list move_t,
    move_segment_queue_contents (move_segment_queue s')
    = move_segment_queue_contents (move_segment_queue s) ++ beginning :: segs
    /\ Z.of_nat (length segs) = move_blocks_required (block_trapezoid b)
    /\ (forall m, head segs = Some m ->
          print_time m = (0 + (max_lookback_time s + 0.001))%float)
    /\ processed (planner s') = S (processed (planner s))
    /\ block_buffer (planner s') = block_buffer (planner s).
Proof.
  intros Hwf Hmin Hgate Hrun Hzero Hb Hmove Hfree. cbv zeta.
  pose proof (move_blocks_required_bounds (block_trapezoid b)) as Hreq.
  assert (Hfull : is_move_segment_queue_full (move_segment_queue s) = false).
  { destruct (is_move_segment_queue_full (move_segment_queue s)) eqn:E; [|reflexivity].
    destruct Hwf as (Hlen & Hh & Ht). unfold is_move_segment_queue_full in E.
    apply Nat.eqb_eq in E. unfold move_segment_queue_free_slots, move_segment_queue_size in Hfree.
    unfold move_segment_queue_next_index in E.
    rewrite (mod_cases (mq_head (move_segment_queue s) + 1)) in E by lia.
    rewrite (mod_cases (mq_head (move_segment_queue s) + MOVE_SEGMENT_QUEUE_SIZE
                        - mq_tail (move_segment_queue s))) in Hfree by lia.
    destruct (Nat.ltb_spec (mq_head (move_segment_queue s) + 1) MOVE_SEGMENT_QUEUE_SIZE),
             (Nat.ltb_spec (mq_head (move_segment_queue s) + MOVE_SEGMENT_QUEUE_SIZE
                            - mq_tail (move_segment_queue s)) MOVE_SEGMENT_QUEUE_SIZE); lia. }
  unfold process_queue_of_blocks. rewrite Hgate, Hrun.
  rewrite (fetch_next_block_at_move _ _ _ Hb Hmove). rewrite Hzero.
  unfold append_beginning_empty_move, get_next_free_move_segment. rewrite Hfull.
  pose proof (push_move_segment
                (Move (max_lookback_time s + 0.001)%float 0%float 0%float 0%float
                   (XYZE 0 0 0 0)%float (total_start_pos s) MOVE_FLAG_BEGINNING_EMPTY_MOVE 0)
                s Hwf Hfull) as (Hwf1 & Hfr1 & Hc1).
  cbv zeta in Hwf1, Hfr1, Hc1.
  cbn [set_reference_cnt move_time start_v half_accel print_time axes_r start_pos mflags]
    in Hwf1, Hfr1, Hc1. cbv zeta. cbn [print_time move_time].
  match goal with
  | |- context [append_move_segments_to_queue b ?x] => set (s1 := x)
  end.
  assert (Hwf1' : move_segment_queue_wf (move_segment_queue s1)) by exact Hwf1.
  assert (Hfr1' : move_segment_queue_free_slots (move_segment_queue s1)
                  = move_segment_queue_free_slots (move_segment_queue s) - 1) by exact Hfr1.
  assert (Hc1' : move_segment_queue_contents (move_segment_queue s1)
                 = move_segment_queue_contents (move_segment_queue s)
                   ++ [Move (max_lookback_time s + 0.001)%float 0%float 0%float 0%float
                         (XYZE 0 0 0 0)%float (total_start_pos s)
                         MOVE_FLAG_BEGINNING_EMPTY_MOVE 0]) by exact Hc1.
  assert (Ht1 : total_print_time s1 = (0 + (max_lookback_time s + 0.001))%float)
    by reflexivity.
  assert (Hp1 : planner s1 = planner s) by reflexivity.
  clearbody s1. clear Hwf1 Hfr1 Hc1.
  rename Hwf1' into Hwf1, Hfr1' into Hfr1, Hc1' into Hc1.
  destruct (append_move_segments_to_queue b s1) as [ok s2] eqn:Ea.
  assert (Hok : ok = true).
  { unfold append_move_segments_to_queue in Ea.
    destruct (Z.ltb_spec (move_segment_queue_free_slots (move_segment_queue s1))
                (move_blocks_required (block_trapezoid b) + MOVE_SEGMENT_QUEUE_MIN_FREE_SLOTS));
      [lia|].
    destruct (fneq (accel_dist (block_trapezoid b)) 0),
             (fneq (cruise_dist (block_trapezoid b)) 0),
             (fneq (decel_dist (block_trapezoid b)) 0); now injection Ea as <- _. }
  subst ok.
  assert (Hp2 : planner s2 = planner s1).
  { unfold append_move_segments_to_queue in Ea.
    destruct (_ <? _) in Ea; [discriminate|].
    destruct (fneq (accel_dist (block_trapezoid b)) 0),
             (fneq (cruise_dist (block_trapezoid b)) 0),
             (fneq (decel_dist (block_trapezoid b)) 0);
      injection Ea as <-; cbv zeta;
      cbn [planner reset_reached_end_of_move_queue_flag set_step_generators_pool
           set_total_print_time set_total_start_pos set_total_start_pos_steps];
      repeat match goal with
             | |- context [planner (snd (append_move_segment_to_queue ?a1 ?a2 ?a3 ?a4 ?a5 ?a6 ?a7 ?x))] =>
                 rewrite (proj1 (proj2 (append_move_segment_to_queue_frame a1 a2 a3 a4 a5 a6 a7 x)))
             end; reflexivity. }
  destruct (append_move_segments_to_queue_pushed b s1 s2 Hwf1 Hmin Ea)
    as (segs & Hc2 & Hlen & _ & Hhead).
  exists segs. cbn [move_segment_queue set_planner planner].
  split; [rewrite Hc2, Hc1, <- app_assoc; reflexivity|].
  split; [exact Hlen|].
  split; [intros m Hm; rewrite <- Ht1; now apply Hhead|].
  unfold discard_current_unprocessed_block. rewrite Hp2, Hp1.
  rewrite bool_decide_eq_true_2 by (now apply lookup_lt_Some in Hb).
  now cbn.
Qed.

(** A call that the delivery gate lets through goes on as a call on the
    state the delivery gate leaves, which differs from the state before in the start
    time of the wait and the planner's delay at most. *)
Lemma process_queue_of_blocks_gate now s :
  fst (is_waiting_before_delivering now s) = false ->
  let s1 := snd (is_waiting_before_delivering now s) in
  is_waiting_before_delivering now s1 = (false, s1)
  /\ process_queue_of_blocks now s = process_queue_of_blocks now s1
  /\ move_segment_queue s1 = move_segment_queue s
  /\ step_generators_pool s1 = step_generators_pool s
  /\ total_print_time s1 = total_print_time s
  /\ total_start_pos s1 = total_start_pos s
  /\ max_lookback_time s1 = max_lookback_time s
  /\ block_buffer (planner s1) = block_buffer (planner s)
  /\ processed (planner s1) = processed (planner s).
Proof.
  intros Hgate. cbv zeta.
  destruct (is_waiting_before_delivering_open now s) as (Hbuf & Hproc & Hs1 & Hopen).
  destruct (is_waiting_before_delivering_view now s) as (Hq & Hp & _ & Ht).
  cbv zeta in *. specialize (Hopen Hgate) as (_ & Hopen).
  destruct (is_waiting_before_delivering now s) as [w s1] eqn:Eg.
  cbn [fst snd] in *. subst w.
  split; [apply Hopen|]. split.
  { unfold process_queue_of_blocks. now rewrite Eg, (Hopen now). }
  split; [exact Hq|]. split; [exact Hp|]. split; [exact Ht|].
  split; [now rewrite Hs1|]. split; [now rewrite Hs1|]. easy.
Qed.

(** X15: the ending empty move is queued once. When the delivery gate lets
    the call through, the planner has no unprocessed block, the motion has
    started and is not ending yet ([total_print_time] is not 0 and below
    MAX_PRINT_TIME) and every generator has reported the end of the move
    segment queue, [process_queue_of_blocks] does nothing more than the delivery gate
    if the move segment ring is full; otherwise it queues one segment of
    duration MAX_PRINT_TIME flagged as ending empty move, at the print time
    reached, raises [total_print_time] by MAX_PRINT_TIME and clears the
    generators' end-of-queue indicators, and a further call then leaves the
    move segment queue as it is. *)
Theorem process_queue_of_blocks_ending_move (now : Z) (s : state) :
  move_segment_queue_wf (move_segment_queue s) ->
  fst (is_waiting_before_delivering now s) = false ->
  (MAX_PRINT_TIME <=? total_print_time s)%float = false ->
  get_current_unprocessed_block (planner s) = None ->
  fneq (total_print_time s) 0 = true ->
  has_all_generators_reached_end_of_move_queue s = true ->
  let s' := process_queue_of_blocks now s in
  if is_move_segment_queue_full (move_segment_queue s)
  then s' = snd (is_waiting_before_delivering now s)
  else
    move_segment_queue_contents (move_segment_queue s')
    = move_segment_queue_contents (move_segment_queue s)
      ++ [Move MAX_PRINT_TIME 0%float 0%float (total_print_time s) (XYZE 0 0 0 0)%float
            (total_start_pos s) MOVE_FLAG_ENDING_EMPTY_MOVE 0]
    /\ total_print_time s' = (total_print_time s + MAX_PRINT_TIME)%float
    /\ has_all_generators_reached_end_of_move_queue s' = false
    /\ forall now',
         move_segment_queue (process_queue_of_blocks now' s') = move_segment_queue s'.
Proof.
  intros Hwf Hgate Hrun Hnone Hstarted Hall. cbv zeta.
  destruct (process_queue_of_blocks_gate now s Hgate)
    as (Hopen & -> & Hq & Hp & Ht & Hsp & _ & Hbuf & Hproc).
  cbv zeta in *.
  set (s1 := snd (is_waiting_before_delivering now s)) in *. clearbody s1.
  assert (Hnone1 : get_current_unprocessed_block (planner s1) = None).
  { unfold get_current_unprocessed_block in *. now rewrite Hbuf, Hproc. }
  assert (Hall1 : has_all_generators_reached_end_of_move_queue s1 = true).
  { unfold has_all_generators_reached_end_of_move_queue in *. now rewrite Hp. }
  rewrite <- Hq, <- Ht, <- Hsp in *.
  destruct (is_move_segment_queue_full (move_segment_queue s1)) eqn:Hfull.
  - unfold process_queue_of_blocks. rewrite Hopen, Hrun.
    rewrite (fetch_next_block_at_end _ _ Hnone1). rewrite Hstarted, Hall1. cbn [andb].
    unfold append_ending_empty_move, get_next_free_move_segment. now rewrite Hfull.
  - now apply process_queue_of_blocks_ending_move_open.
Qed.

(** X16: the first block of a motion. When the delivery gate lets the call
    through, the motion has not started ([total_print_time] is 0, below
    MAX_PRINT_TIME), the planner's current unprocessed block is a move and
    four slots beyond MOVE_SEGMENT_QUEUE_MIN_FREE_SLOTS are free in the move
    segment ring, [process_queue_of_blocks] puts the beginning empty move in
    front of the block's segments: a segment of duration
    [max_lookback_time + 0.001] at print time 0, followed by the segments of
    the block, the first of which starts when the beginning empty move ends;
    the block counts as processed. *)
Theorem process_queue_of_blocks_first_block (now : Z) (s : state) (b : block_t) :
  move_segment_queue_wf (move_segment_queue s) ->
  0 <= MOVE_SEGMENT_QUEUE_MIN_FREE_SLOTS ->
  fst (is_waiting_before_delivering now s) = false ->
  (MAX_PRINT_TIME <=? total_print_time s)%float = false ->
  (total_print_time s =? 0)%float = true ->
  get_current_unprocessed_block (planner s) = Some b ->
  is_move b = true ->
  4 + MOVE_SEGMENT_QUEUE_MIN_FREE_SLOTS <= move_segment_queue_free_slots (move_segment_queue s) ->
  let s' := process_queue_of_blocks now s in
  let beginning :=
    Move (max_lookback_time s + 0.001)%float 0%float 0%float 0%float (XYZE 0 0 0 0)%float
      (total_start_pos s) MOVE_FLAG_BEGINNING_EMPTY_MOVE 0 in
  exists segs : list move_t,
    move_segment_queue_contents (move_segment_queue s')
    = move_segment_queue_contents (move_segment_queue s) ++ beginning :: segs
    /\ Z.of_nat (length segs) = move_blocks_required (block_trapezoid b)
    /\ (forall m, head segs = Some m ->
          print_time m = (0 + (max_lookback_time s + 0.001))%float)
    /\ processed (planner s') = S (processed (planner s))
    /\ block_buffer (planner s') = block_buffer (planner s).
Proof.
  intros Hwf Hmin Hgate Hrun Hzero Hb Hmove Hfree. cbv zeta.
  destruct (process_queue_of_blocks_gate now s Hgate)
    as (Hopen & -> & Hq & _ & Ht & Hsp & Hml & Hbuf & Hproc).
  cbv zeta in *.
  set (s1 := snd (is_waiting_before_delivering now s)) in *. clearbody s1.
  assert (Hb1 : get_current_unprocessed_block (planner s1) = Some b).
  { unfold get_current_unprocessed_block in *. now rewrite Hbuf, Hproc. }
  rewrite <- Hq, <- Ht, <- Hsp, <- Hml, <- Hbuf, <- Hproc in *.
  now apply process_queue_of_blocks_first_block_open.
Qed.

End IntakeProperties.

(** ** The Step-ISR *)

Section StepIsrProperties.

Context `{cfg : Config} `{scfg : StepperConfig}.

(** *** Bits *)

Lemma land_bit f k : 0 <= k -> (Z.land f (Z.shiftl 1 k) =? 0) = negb (Z.testbit f k).
Proof.
  intros Hk. rewrite Z.shiftl_1_l.
  destruct (Z.testbit f k) eqn:E; cbn.
  - apply Z.eqb_neq. intros H0.
    assert (Hb : Z.testbit (Z.land f (2 ^ k)) k = true)
      by (rewrite Z.land_spec, E, Z.pow2_bits_true by lia; reflexivity).
    rewrite H0, Z.bits_0 in Hb. discriminate.
  - apply Z.eqb_eq. apply Z.bits_inj'. intros n Hn.
    rewrite Z.land_spec, Z.bits_0, Z.pow2_bits_eqb by lia.
    destruct (Z.eqb_spec k n) as [->|]; [now rewrite E|apply andb_false_r].
Qed.

Lemma uint8_testbit x i : 0 <= i < 8 -> Z.testbit (uint8 x) i = Z.testbit x i.
Proof. intros Hi. unfold uint8. apply Z.mod_pow2_bits_low. lia. Qed.

Lemma axis_index_range a : 0 <= axis_index a < 8.
Proof. destruct a; cbn; lia. Qed.

Lemma int32_add_l x y : int32 (int32 x + y) = int32 (x + y).
Proof.
  unfold int32.
  replace ((x + 2 ^ 31) mod 2 ^ 32 - 2 ^ 31 + y + 2 ^ 31) with ((x + 2 ^ 31) mod 2 ^ 32 + y) by lia.
  rewrite Zplus_mod_idemp_l. do 2 f_equal. lia.
Qed.

Lemma int32_small x : - 2 ^ 31 <= x < 2 ^ 31 -> int32 x = x.
Proof. intros Hx. unfold int32. rewrite Z.mod_small; lia. Qed.

Lemma int32_range x : - 2 ^ 31 <= int32 x < 2 ^ 31.
Proof. unfold int32. pose proof (Z.mod_pos_bound (x + 2 ^ 31) (2 ^ 32)). lia. Qed.

(** The direction bit of an axis as the Step-ISR reads it from an event's
    flags. *)
Lemma event_dir_bit f a :
  step_event_flags_wf ->
  Z.testbit (uint8 (Z.shiftr (Z.land f STEP_EVENT_FLAG_DIR_MASK) STEP_EVENT_FLAG_DIR_SHIFT))
    (axis_index a)
  = negb (Z.land f (dir_flag a) =? 0)
  /\ (Z.land (Z.land f STEP_EVENT_FLAG_DIR_MASK) (dir_flag a) =? 0)
     = (Z.land f (dir_flag a) =? 0).
Proof.
  intros [Hs Hbit Hmask].
  pose proof (axis_index_range a) as Ha.
  assert (Hm : Z.testbit STEP_EVENT_FLAG_DIR_MASK (STEP_EVENT_FLAG_DIR_SHIFT + axis_index a) = true).
  { specialize (Hmask a). rewrite Hbit in Hmask.
    assert (H0 : (Z.land STEP_EVENT_FLAG_DIR_MASK
                    (Z.shiftl 1 (STEP_EVENT_FLAG_DIR_SHIFT + axis_index a)) =? 0) = false).
    { rewrite Hmask, Z.shiftl_1_l. apply Z.eqb_neq.
      pose proof (Z.pow_pos_nonneg 2 (STEP_EVENT_FLAG_DIR_SHIFT + axis_index a)). lia. }
    rewrite land_bit in H0 by lia. now destruct (Z.testbit _ _). }
  split.
  - rewrite uint8_testbit, Z.shiftr_spec, Z.land_spec by lia.
    rewrite (Z.add_comm (axis_index a)), Hm, andb_true_r, Hbit, land_bit by lia.
    now rewrite negb_involutive.
  - rewrite <- Z.land_assoc, Hmask. reflexivity.
Qed.

(** *** What the parts of the Step-ISR leave alone *)

Lemma state_eta_stepper (s : state) : set_stepper (stepper s) s = s.
Proof. now destruct s. Qed.

Lemma state_eta_planner (s : state) : set_planner (planner s) s = s.
Proof. now destruct s. Qed.

Lemma step_isr_eta_engine (st : step_isr_t) : set_engine (engine st) st = st.
Proof. now destruct st. Qed.

Lemma apply_changed_dir_engine a c d di st : engine (apply_changed_dir a c d di st) = engine st.
Proof. unfold apply_changed_dir. now destruct (Z.testbit _ _). Qed.

Lemma apply_changed_dir_last a c d di st :
  last_direction_bits (apply_changed_dir a c d di st) = last_direction_bits st.
Proof. unfold apply_changed_dir. now destruct (Z.testbit _ _). Qed.

Lemma apply_changed_dir_from_startup a c d di st :
  count_position_from_startup (apply_changed_dir a c d di st) = count_position_from_startup st.
Proof. unfold apply_changed_dir. now destruct (Z.testbit _ _). Qed.

Lemma apply_changed_dir_last_block a c d di st :
  count_position_last_block (apply_changed_dir a c d di st) = count_position_last_block st.
Proof. unfold apply_changed_dir. now destruct (Z.testbit _ _). Qed.

Lemma apply_changed_dir_hw a c d di st :
  hw (apply_changed_dir a c d di st)
  = hw st ++ (if Z.testbit c (axis_index a) then [ApplyDir a (Z.land di (dir_flag a))] else []).
Proof.
  unfold apply_changed_dir. destruct (Z.testbit _ _); cbn; [reflexivity|].
  now rewrite app_nil_r.
Qed.

Lemma apply_changed_dir_count_direction a c d di st b :
  xyze_get (count_direction (apply_changed_dir a c d di st)) b
  = if decide (b = a)
    then (if Z.testbit c (axis_index a)
          then (if Z.land d (dir_flag a) =? 0 then 1 else -1)
          else xyze_get (count_direction st) b)
    else xyze_get (count_direction st) b.
Proof.
  unfold apply_changed_dir.
  destruct (decide (b = a)) as [->|Hne]; destruct (Z.testbit _ _); cbn; try reflexivity.
  - apply xyze_get_set_eq.
  - now apply xyze_get_set_ne.
Qed.

Lemma step_axis_engine a f st :
  engine (step_axis a f st) = set_stepper (stepper (engine (step_axis a f st))) (engine st).
Proof.
  unfold step_axis. destruct (_ =? 0); cbn; [now rewrite state_eta_stepper|reflexivity].
Qed.

Lemma step_axis_last a f st : last_direction_bits (step_axis a f st) = last_direction_bits st.
Proof. unfold step_axis. now destruct (_ =? 0). Qed.

Lemma step_axis_count_direction a f st : count_direction (step_axis a f st) = count_direction st.
Proof. unfold step_axis. now destruct (_ =? 0). Qed.

Lemma step_axis_last_block a f st :
  count_position_last_block (step_axis a f st) = count_position_last_block st.
Proof. unfold step_axis. now destruct (_ =? 0). Qed.

Lemma step_axis_period a f st :
  stepper_isr_period_in_ticks (step_axis a f st) = stepper_isr_period_in_ticks st.
Proof. unfold step_axis. now destruct (_ =? 0). Qed.

Lemma step_axis_inverted a f st : inverted_dirs (step_axis a f st) = inverted_dirs st.
Proof. unfold step_axis. now destruct (_ =? 0). Qed.

Lemma apply_changed_dir_period a c d di st :
  stepper_isr_period_in_ticks (apply_changed_dir a c d di st) = stepper_isr_period_in_ticks st.
Proof. unfold apply_changed_dir. now destruct (Z.testbit _ _). Qed.

Lemma apply_changed_dir_inverted a c d di st :
  inverted_dirs (apply_changed_dir a c d di st) = inverted_dirs st.
Proof. unfold apply_changed_dir. now destruct (Z.testbit _ _). Qed.

Lemma step_axis_hw a f st :
  hw (step_axis a f st)
  = hw st ++ (if Z.land f (step_flag a) =? 0 then [] else [StepSet a; StepReset a]).
Proof.
  unfold step_axis. destruct (_ =? 0); cbn; [now rewrite app_nil_r|].
  now rewrite <- app_assoc.
Qed.

Lemma step_axis_did_move a f st :
  axis_did_move (stepper (engine (step_axis a f st))) = axis_did_move (stepper (engine st)).
Proof. unfold step_axis. now destruct (_ =? 0). Qed.

Lemma step_axis_count_position a f st b :
  xyze_get (count_position (stepper (engine (step_axis a f st)))) b
  = if decide (b = a)
    then (if Z.land f (step_flag a) =? 0
          then xyze_get (count_position (stepper (engine st))) b
          else int32 (xyze_get (count_position (stepper (engine st))) b
                      + xyze_get (count_direction st) b))
    else xyze_get (count_position (stepper (engine st))) b.
Proof.
  unfold step_axis.
  destruct (decide (b = a)) as [->|Hne]; destruct (_ =? 0); cbn; try reflexivity.
  - apply xyze_get_set_eq.
  - now apply xyze_get_set_ne.
Qed.

Lemma step_axis_from_startup a f st b :
  xyze_get (count_position_from_startup (step_axis a f st)) b
  = if decide (b = a)
    then (if Z.land f (step_flag a) =? 0
          then xyze_get (count_position_from_startup st) b
          else int32 (xyze_get (count_position_from_startup st) b
                      + xyze_get (count_direction st) b))
    else xyze_get (count_position_from_startup st) b.
Proof.
  unfold step_axis.
  destruct (decide (b = a)) as [->|Hne]; destruct (_ =? 0); cbn; try reflexivity.
  - apply xyze_get_set_eq.
  - now apply xyze_get_set_ne.
Qed.

(** *** The BeginningOfMoveSegment marker *)

(** What [retire_move_segment] does when it returns: the segment at [tail]
    leaves the move segment queue, and its block leaves the planner when the
    segment is the last of the block. *)
Lemma retire_move_segment_view st st1 :
  retire_move_segment st = Some st1 ->
  exists cur m,
    get_current_move_segment (move_segment_queue (engine st)) = Some cur
    /\ mq_data (move_segment_queue (engine st)) !! cur = Some m
    /\ engine st1
       = set_move_segment_queue (discard_current_move_segment (move_segment_queue (engine st)))
           (set_planner (planner (engine st1)) (set_stepper (stepper (engine st1)) (engine st)))
    /\ st1 = set_count_position_last_block (count_position_last_block st1)
               (set_engine (engine st1) st)
    /\ (if Z.land (mflags m) MOVE_FLAG_LAST_MOVE_SEGMENT_OF_BLOCK =? 0
        then planner (engine st1) = planner (engine st)
             /\ stepper (engine st1) = stepper (engine st)
             /\ count_position_last_block st1 = count_position_last_block st
        else exists blk,
             get_current_processed_block (planner (engine st)) = Some blk
             /\ planner (engine st1) = discard_current_block (planner (engine st))
             /\ stepper (engine st1)
                = (if sync_position blk then _set_position (position blk) (stepper (engine st))
                   else stepper (engine st))
             /\ count_position_last_block st1 = count_position (stepper (engine st1))).
Proof.
  unfold retire_move_segment. intros H.
  destruct (get_current_move_segment _) as [cur|] eqn:Ecur; [|discriminate].
  cbn [mbind option_bind] in H.
  destruct (_ !! cur) as [m|] eqn:Em; [|discriminate].
  cbn [mbind option_bind] in H.
  exists cur, m. split; [reflexivity|]. split; [exact Em|].
  destruct (Z.land (mflags m) _ =? 0) eqn:Elast.
  - cbn [mbind option_bind] in H. injection H as <-. cbn.
    rewrite state_eta_stepper, state_eta_planner.
    repeat split; try reflexivity.
  - destruct (get_current_processed_block _) as [blk|] eqn:Eblk; [|discriminate].
    cbn [mbind option_bind] in H. injection H as <-.
    destruct st as [s ? ? ? ? ? ? ?]. cbn in *.
    split; [|split; [reflexivity|]].
    + destruct (sync_position blk); cbn; [reflexivity|]. now destruct s.
    + exists blk. repeat split; try reflexivity.
      all: destruct (sync_position blk); try reflexivity; now destruct s.
Qed.

(** *** The passes of [process_one_step_event_from_queue] *)

Lemma step_axes_engine f st :
  engine (step_axis E_AXIS f (step_axis Z_AXIS f (step_axis Y_AXIS f (step_axis X_AXIS f st)))) = set_stepper (stepper (engine (step_axis E_AXIS f (step_axis Z_AXIS f (step_axis Y_AXIS f (step_axis X_AXIS f st)))))) (engine st).
Proof.
  set (s1 := step_axis X_AXIS f st). set (s2 := step_axis Y_AXIS f s1).
  set (s3 := step_axis Z_AXIS f s2).
  rewrite (step_axis_engine E_AXIS f s3) at 1.
  generalize (stepper (engine (step_axis E_AXIS f s3))). intros p.
  subst s3. rewrite (step_axis_engine Z_AXIS f s2).
  generalize (stepper (engine (step_axis Z_AXIS f s2))). intros p3.
  subst s2. rewrite (step_axis_engine Y_AXIS f s1).
  generalize (stepper (engine (step_axis Y_AXIS f s1))). intros p2.
  subst s1. rewrite (step_axis_engine X_AXIS f st).
  now destruct (engine st).
Qed.

Lemma step_axes_count_position f st b :
  xyze_get (count_position (stepper (engine (step_axis E_AXIS f (step_axis Z_AXIS f (step_axis Y_AXIS f (step_axis X_AXIS f st))))))) b
  = if Z.land f (step_flag b) =? 0
    then xyze_get (count_position (stepper (engine st))) b
    else int32 (xyze_get (count_position (stepper (engine st))) b
                + xyze_get (count_direction st) b).
Proof.
  rewrite !step_axis_count_position, !step_axis_count_direction.
  destruct b; cbn; repeat destruct (_ =? 0); reflexivity.
Qed.

Lemma step_axes_from_startup f st b :
  xyze_get (count_position_from_startup (step_axis E_AXIS f (step_axis Z_AXIS f (step_axis Y_AXIS f (step_axis X_AXIS f st))))) b
  = if Z.land f (step_flag b) =? 0
    then xyze_get (count_position_from_startup st) b
    else int32 (xyze_get (count_position_from_startup st) b
                + xyze_get (count_direction st) b).
Proof.
  rewrite !step_axis_from_startup, !step_axis_count_direction.
  destruct b; cbn; repeat destruct (_ =? 0); reflexivity.
Qed.

Lemma step_axes_hw ev st :
  hw (step_axis E_AXIS (flags ev) (step_axis Z_AXIS (flags ev) (step_axis Y_AXIS (flags ev) (step_axis X_AXIS (flags ev) st)))) = hw st ++ flat_map (step_pulse ev) all_axes.
Proof.
  rewrite !step_axis_hw. cbn. unfold step_pulse.
  now rewrite app_nil_r, <- !app_assoc.
Qed.

Lemma apply_changed_dirs_count_direction c d di st b :
  xyze_get (count_direction (apply_changed_dir E_AXIS c d di (apply_changed_dir Z_AXIS c d di (apply_changed_dir Y_AXIS c d di (apply_changed_dir X_AXIS c d di st))))) b
  = if Z.testbit c (axis_index b)
    then (if Z.land d (dir_flag b) =? 0 then 1 else -1)
    else xyze_get (count_direction st) b.
Proof.
  rewrite !apply_changed_dir_count_direction.
  destruct b; cbn; repeat destruct (Z.testbit _ _); reflexivity.
Qed.

Lemma apply_changed_dirs_hw c d di st :
  hw (apply_changed_dir E_AXIS c d di (apply_changed_dir Z_AXIS c d di (apply_changed_dir Y_AXIS c d di (apply_changed_dir X_AXIS c d di st))))
  = hw st
    ++ flat_map (fun a => if Z.testbit c (axis_index a)
                          then [ApplyDir a (Z.land di (dir_flag a))] else []) all_axes.
Proof.
  rewrite !apply_changed_dir_hw. cbn.
  now rewrite app_nil_r, <- !app_assoc.
Qed.

(** The state after the direction pins are written for the event with the
    flags [f]. *)
Lemma process_one_step_event_from_queue_phases st slot ev ticks st' :
  get_current_step_event (step_event_queue (engine st)) = Some slot ->
  sq_data (step_event_queue (engine st)) !! slot = Some ev ->
  process_one_step_event_from_queue st = Some (ticks, st') ->
  let step_dir := Z.land (flags ev) STEP_EVENT_FLAG_DIR_MASK in
  let changed :=
    uint8 (Z.lxor (uint8 (Z.shiftr step_dir STEP_EVENT_FLAG_DIR_SHIFT))
             (last_direction_bits st)) in
  exists st1 st4,
    (if Z.land (flags ev) STEP_EVENT_FLAG_BEGINNING_OF_MOVE_SEGMENT =? 0 then Some st
     else retire_move_segment st) = Some st1
    /\ last_direction_bits st1 = last_direction_bits st
    /\ count_direction st1 = count_direction st
    /\ count_position_from_startup st1 = count_position_from_startup st
    /\ hw st1 = hw st
    /\ stepper_isr_period_in_ticks st1 = stepper_isr_period_in_ticks st
    /\ inverted_dirs st1 = inverted_dirs st
    /\ step_event_queue (engine st1) = step_event_queue (engine st)
    /\ step_ev_miss (engine st1) = step_ev_miss (engine st)
    (* discard_current_step_event, axis_did_move, the directions and the steps *)
    /\ engine st4
       = set_stepper (stepper (engine st4))
           (set_step_event_queue (discard_current_step_event (step_event_queue (engine st)))
              (engine st1))
    /\ axis_did_move (stepper (engine st4))
       = uint8 (Z.shiftr (Z.land (flags ev) STEP_EVENT_FLAG_AXIS_ACTIVE_MASK)
                  STEP_EVENT_FLAG_AXIS_ACTIVE_SHIFT)
    /\ last_direction_bits st4
       = (if changed =? 0 then last_direction_bits st
          else uint8 (Z.shiftr step_dir STEP_EVENT_FLAG_DIR_SHIFT))
    /\ (forall a,
         xyze_get (count_direction st4) a
         = if Z.testbit changed (axis_index a)
           then (if Z.land step_dir (dir_flag a) =? 0 then 1 else -1)
           else xyze_get (count_direction st) a)
    /\ (forall a,
         xyze_get (count_position (stepper (engine st4))) a
         = if Z.land (flags ev) (step_flag a) =? 0
           then xyze_get (count_position (stepper (engine st1))) a
           else int32 (xyze_get (count_position (stepper (engine st1))) a
                       + xyze_get (count_direction st4) a))
    /\ (forall a,
         xyze_get (count_position_from_startup st4) a
         = if Z.land (flags ev) (step_flag a) =? 0
           then xyze_get (count_position_from_startup st) a
           else int32 (xyze_get (count_position_from_startup st) a
                       + xyze_get (count_direction st4) a))
    /\ count_position_last_block st4 = count_position_last_block st1
    /\ hw st4
       = hw st
         ++ flat_map (fun a => if Z.testbit changed (axis_index a)
                               then [ApplyDir a (Z.land (Z.lxor step_dir (inverted_dirs st))
                                                   (dir_flag a))]
                               else []) all_axes
         ++ flat_map (step_pulse ev) all_axes
    /\ stepper_isr_period_in_ticks st4 = stepper_isr_period_in_ticks st
    /\ inverted_dirs st4 = inverted_dirs st
    (* the ticks to the next event, or a miss *)
    /\ match get_current_step_event
               (discard_current_step_event (step_event_queue (engine st))) with
       | Some next =>
           exists nev,
             sq_data (step_event_queue (engine st)) !! next = Some nev
             /\ ticks = uint32 (time_ticks nev) /\ st' = st4
       | None =>
           ticks = stepper_isr_period_in_ticks st
           /\ st' = (if Z.land (flags ev) STEP_EVENT_END_OF_MOTION =? 0
                     then set_engine
                            (set_step_ev_miss (uint8 (step_ev_miss (engine st) + 1)) (engine st4))
                            st4
                     else st4)
       end.
Proof.
  intros Hcur Hev H step_dir changed.
  unfold process_one_step_event_from_queue in H. rewrite Hcur in H.
  cbn [mbind option_bind] in H. rewrite Hev in H. cbn [mbind option_bind] in H.
  destruct (if Z.land (flags ev) STEP_EVENT_FLAG_BEGINNING_OF_MOVE_SEGMENT =? 0
            then Some st else retire_move_segment st) as [st1|] eqn:Eret; [|discriminate].
  cbn [mbind option_bind] in H. cbv zeta in H.
  assert (Hst1 : last_direction_bits st1 = last_direction_bits st
                 /\ count_direction st1 = count_direction st
                 /\ count_position_from_startup st1 = count_position_from_startup st
                 /\ hw st1 = hw st
                 /\ stepper_isr_period_in_ticks st1 = stepper_isr_period_in_ticks st
                 /\ inverted_dirs st1 = inverted_dirs st
                 /\ step_event_queue (engine st1) = step_event_queue (engine st)
                 /\ step_ev_miss (engine st1) = step_ev_miss (engine st)).
  { destruct (Z.land (flags ev) STEP_EVENT_FLAG_BEGINNING_OF_MOVE_SEGMENT =? 0).
    - injection Eret as <-. repeat split; reflexivity.
    - apply retire_move_segment_view in Eret as (cur & m & _ & _ & He & Hs & _).
      rewrite Hs. cbn. rewrite He. cbn. repeat split; reflexivity. }
  destruct Hst1 as (Hl1 & Hd1 & Hf1 & Hh1 & Hp1 & Hi1 & Hq1 & Hm1).
  match type of H with
  | context [step_axis E_AXIS ?f (step_axis Z_AXIS ?f (step_axis Y_AXIS ?f (step_axis X_AXIS ?f ?x)))] =>
      set (st3 := x) in H; set (st4 := step_axis E_AXIS f (step_axis Z_AXIS f (step_axis Y_AXIS f (step_axis X_AXIS f st3)))) in H
  end.
  exists st1, st4.
  split; [reflexivity|].
  assert (Hch : changed = 0 -> forall i, Z.testbit changed i = false)
    by (intros -> i; apply Z.bits_0).
  assert (He3 : engine st3
                = set_stepper
                    (Stepper (count_position (stepper (engine st1)))
                       (uint8 (Z.shiftr (Z.land (flags ev) STEP_EVENT_FLAG_AXIS_ACTIVE_MASK)
                                 STEP_EVENT_FLAG_AXIS_ACTIVE_SHIFT)))
                    (set_step_event_queue
                       (discard_current_step_event (step_event_queue (engine st)))
                       (engine st1))).
  { subst st3. cbn. rewrite Hl1. fold step_dir. fold changed.
    destruct (changed =? 0); [now rewrite Hq1|].
    rewrite !apply_changed_dir_engine. cbn. now rewrite Hq1. }
  assert (Hl3 : last_direction_bits st3
                = (if changed =? 0 then last_direction_bits st
                   else uint8 (Z.shiftr step_dir STEP_EVENT_FLAG_DIR_SHIFT))).
  { subst st3. cbn. rewrite Hl1. fold step_dir. fold changed.
    destruct (changed =? 0); [exact Hl1|].
    now rewrite !apply_changed_dir_last. }
  assert (Hd3 : forall a,
             xyze_get (count_direction st3) a
             = if Z.testbit changed (axis_index a)
               then (if Z.land step_dir (dir_flag a) =? 0 then 1 else -1)
               else xyze_get (count_direction st) a).
  { intros a. subst st3. cbn. rewrite Hl1. fold step_dir. fold changed.
    destruct (Z.eqb_spec changed 0) as [E0|_].
    - rewrite (Hch E0). cbn. now rewrite Hd1.
    - rewrite apply_changed_dirs_count_direction. cbn. now rewrite Hd1. }
  assert (Hf3 : count_position_from_startup st3 = count_position_from_startup st).
  { subst st3. cbn. rewrite Hl1. fold step_dir. fold changed.
    destruct (changed =? 0); [exact Hf1|].
    now rewrite !apply_changed_dir_from_startup. }
  assert (Hb3 : count_position_last_block st3 = count_position_last_block st1).
  { subst st3. cbn. rewrite Hl1. fold step_dir. fold changed.
    destruct (changed =? 0); [reflexivity|].
    now rewrite !apply_changed_dir_last_block. }
  assert (Hh3 : hw st3
                = hw st
                  ++ flat_map (fun a => if Z.testbit changed (axis_index a)
                                        then [ApplyDir a
                                                (Z.land (Z.lxor step_dir (inverted_dirs st))
                                                   (dir_flag a))]
                                        else []) all_axes).
  { subst st3. cbn -[flat_map]. rewrite Hl1. fold step_dir. fold changed.
    destruct (Z.eqb_spec changed 0) as [E0|_].
    - unfold all_axes. cbn [flat_map]. rewrite !(Hch E0). cbn. now rewrite app_nil_r.
    - rewrite apply_changed_dirs_hw. cbn -[flat_map]. now rewrite Hh1. }
  assert (Hp3 : stepper_isr_period_in_ticks st3 = stepper_isr_period_in_ticks st
                /\ inverted_dirs st3 = inverted_dirs st).
  { subst st3. cbn. rewrite Hl1. fold step_dir. fold changed.
    destruct (changed =? 0); [easy|].
    now rewrite !apply_changed_dir_period, !apply_changed_dir_inverted. }
  assert (He4 : engine st4
                = set_stepper (stepper (engine st4))
                    (set_step_event_queue
                       (discard_current_step_event (step_event_queue (engine st)))
                       (engine st1))).
  { subst st4. rewrite step_axes_engine at 1. now rewrite He3. }
  assert (Hq4 : step_event_queue (engine st4)
                = discard_current_step_event (step_event_queue (engine st)))
    by now rewrite He4.
  repeat match goal with |- _ /\ _ => split end; try assumption.
  - subst st4. rewrite !step_axis_did_move. now rewrite He3.
  - subst st4. now rewrite !step_axis_last.
  - intros a. subst st4. rewrite !step_axis_count_direction. apply Hd3.
  - intros a. subst st4. rewrite step_axes_count_position, !step_axis_count_direction.
    now rewrite He3.
  - intros a. subst st4. rewrite step_axes_from_startup, !step_axis_count_direction.
    now rewrite Hf3.
  - subst st4. now rewrite !step_axis_last_block.
  - subst st4. rewrite step_axes_hw, Hh3. now rewrite <- app_assoc.
  - subst st4. rewrite !step_axis_period. apply Hp3.
  - subst st4. rewrite !step_axis_inverted. apply Hp3.
  - rewrite Hq4 in H.
    destruct (get_current_step_event (discard_current_step_event _)) as [next|].
    + destruct (sq_data _ !! next) as [nev|] eqn:En; [|discriminate].
      cbn [mbind option_bind] in H. injection H as <- <-.
      exists nev. split; [|easy].
      unfold discard_current_step_event in En.
      now destruct (Nat.eqb _ _).
    + destruct (Z.land (flags ev) STEP_EVENT_END_OF_MOTION =? 0);
        injection H as <- <-; [|easy].
      split; [reflexivity|]. do 2 f_equal. rewrite He4. cbn. now rewrite Hm1.
Qed.

(** The direction bit of the event against the cached one. *)
Lemma changed_dir_bit f last a :
  step_event_flags_wf ->
  Z.testbit
    (uint8 (Z.lxor (uint8 (Z.shiftr (Z.land f STEP_EVENT_FLAG_DIR_MASK)
                             STEP_EVENT_FLAG_DIR_SHIFT)) last))
    (axis_index a)
  = xorb (negb (Z.land f (dir_flag a) =? 0)) (Z.testbit last (axis_index a)).
Proof.
  intros Hwf. pose proof (axis_index_range a).
  rewrite uint8_testbit, Z.lxor_spec by lia.
  now rewrite (proj1 (event_dir_bit f a Hwf)).
Qed.

(** What a step event does to the step counters and to the cached
    directions. *)
Lemma process_one_step_event_from_queue_steps st slot ev ticks st' :
  step_event_flags_wf ->
  direction_cache_ok st ->
  get_current_step_event (step_event_queue (engine st)) = Some slot ->
  sq_data (step_event_queue (engine st)) !! slot = Some ev ->
  process_one_step_event_from_queue st = Some (ticks, st') ->
  direction_cache_ok st'
  /\ (forall a,
        xyze_get (count_position_from_startup st') a
        = if Z.land (flags ev) (step_flag a) =? 0
          then xyze_get (count_position_from_startup st) a
          else int32 (xyze_get (count_position_from_startup st) a + step_delta ev a))
  /\ (Z.land (flags ev) STEP_EVENT_FLAG_BEGINNING_OF_MOVE_SEGMENT = 0 ->
      forall a,
        xyze_get (count_position (stepper (engine st'))) a
        = if Z.land (flags ev) (step_flag a) =? 0
          then xyze_get (count_position (stepper (engine st))) a
          else int32 (xyze_get (count_position (stepper (engine st))) a + step_delta ev a)).
Proof.
  intros Hwf Hc Hcur Hev H.
  destruct (process_one_step_event_from_queue_phases _ _ _ _ _ Hcur Hev H)
    as (st1 & st4 & Eret & _ & _ & _ & _ & _ & _ & _ & _ & _ & _ & Hl4 & Hd4 & Hp4 & Hf4
        & _ & _ & _ & _ & Hfin).
  cbv zeta in Hl4, Hd4.
  set (changed := uint8 (Z.lxor (uint8 (Z.shiftr (Z.land (flags ev) STEP_EVENT_FLAG_DIR_MASK)
                                          STEP_EVENT_FLAG_DIR_SHIFT))
                           (last_direction_bits st))) in *.
  (* the cached direction of every axis is the one of the event *)
  assert (Hnew : forall a,
             Z.testbit (last_direction_bits st4) (axis_index a)
             = negb (Z.land (flags ev) (dir_flag a) =? 0)
             /\ xyze_get (count_direction st4) a
                = if Z.land (flags ev) (dir_flag a) =? 0 then 1 else -1).
  { intros a. rewrite Hl4, Hd4.
    pose proof (changed_dir_bit (flags ev) (last_direction_bits st) a Hwf) as Hx.
    fold changed in Hx.
    destruct (event_dir_bit (flags ev) a Hwf) as [Hb Hz]. rewrite Hz.
    rewrite (Hc a).
    destruct (Z.eqb_spec changed 0) as [E0|_].
    - rewrite E0, Z.bits_0 in Hx. rewrite E0, Z.bits_0.
      destruct (Z.land (flags ev) (dir_flag a) =? 0), (Z.testbit (last_direction_bits st) _);
        cbn in Hx; try discriminate; easy.
    - rewrite Hb, Hx.
      destruct (Z.land (flags ev) (dir_flag a) =? 0), (Z.testbit (last_direction_bits st) _);
        easy. }
  assert (Hst' : last_direction_bits st' = last_direction_bits st4
                 /\ count_direction st' = count_direction st4
                 /\ count_position_from_startup st' = count_position_from_startup st4
                 /\ stepper (engine st') = stepper (engine st4)).
  { destruct (get_current_step_event (discard_current_step_event _)) as [next|].
    - destruct Hfin as (nev & _ & _ & ->). easy.
    - destruct Hfin as (_ & ->). now destruct (_ =? 0). }
  destruct Hst' as (El & Ed & Ef & Es).
  split; [|split].
  - intros a. rewrite El, Ed. destruct (Hnew a) as [-> ->].
    now destruct (Z.land (flags ev) (dir_flag a) =? 0).
  - intros a. rewrite Ef, Hf4. unfold step_delta.
    destruct (Z.land (flags ev) (step_flag a) =? 0); [reflexivity|].
    now rewrite (proj2 (Hnew a)).
  - intros Hb a. rewrite Hb in Eret. cbn in Eret. injection Eret as <-.
    rewrite Es, Hp4. unfold step_delta.
    destruct (Z.land (flags ev) (step_flag a) =? 0); [reflexivity|].
    now rewrite (proj2 (Hnew a)).
Qed.

(** X17: with the StepEventFlag layout of the firmware and [count_direction]
    in step with the cached direction bits, a step event moves
    [count_position_from_startup] of every axis whose step flag is set by
    one step in the direction of the event's direction flag (wrapping as
    int32_t) and leaves the other axes; [count_position] likewise when the
    event is not a BeginningOfMoveSegment marker; and [count_direction] is
    again in step with the cached bits. *)
Theorem process_one_step_event_from_queue_counts st slot ev ticks st' :
  step_event_flags_wf ->
  direction_cache_ok st ->
  get_current_step_event (step_event_queue (engine st)) = Some slot ->
  sq_data (step_event_queue (engine st)) !! slot = Some ev ->
  process_one_step_event_from_queue st = Some (ticks, st') ->
  direction_cache_ok st'
  /\ (forall a,
        xyze_get (count_position_from_startup st') a
        = if Z.land (flags ev) (step_flag a) =? 0
          then xyze_get (count_position_from_startup st) a
          else int32 (xyze_get (count_position_from_startup st) a + step_delta ev a))
  /\ (Z.land (flags ev) STEP_EVENT_FLAG_BEGINNING_OF_MOVE_SEGMENT = 0 ->
      forall a,
        xyze_get (count_position (stepper (engine st'))) a
        = if Z.land (flags ev) (step_flag a) =? 0
          then xyze_get (count_position (stepper (engine st))) a
          else int32 (xyze_get (count_position (stepper (engine st))) a + step_delta ev a)).
Proof. apply process_one_step_event_from_queue_steps. Qed.

Lemma step_delta_no_step ev a :
  (Z.land (flags ev) (step_flag a) =? 0) = true -> step_delta ev a = 0.
Proof. unfold step_delta. now intros ->. Qed.

Lemma consumes_direction_cache st l st' :
  step_event_flags_wf -> consumes st l st' -> direction_cache_ok st -> direction_cache_ok st'.
Proof.
  intros Hwf Hrun. induction Hrun as [st|st slot ev ticks st1 l st' Hcur Hev H Hrun IH];
    intros Hc; [exact Hc|].
  apply IH. apply (process_one_step_event_from_queue_steps _ _ _ _ _ Hwf Hc Hcur Hev H).
Qed.

Lemma consumes_from_startup st l st' a :
  step_event_flags_wf -> consumes st l st' -> direction_cache_ok st ->
  - 2 ^ 31 <= xyze_get (count_position_from_startup st) a < 2 ^ 31 ->
  xyze_get (count_position_from_startup st') a
  = int32 (xyze_get (count_position_from_startup st) a + steps_made l a).
Proof.
  intros Hwf Hrun. induction Hrun as [st|st slot ev ticks st1 l st' Hcur Hev H Hrun IH];
    intros Hc Hr.
  - unfold steps_made. cbn. now rewrite Z.add_0_r, int32_small.
  - destruct (process_one_step_event_from_queue_steps _ _ _ _ _ Hwf Hc Hcur Hev H)
      as (Hc1 & Hf1 & _).
    assert (Hf1' : xyze_get (count_position_from_startup st1) a
                   = int32 (xyze_get (count_position_from_startup st) a + step_delta ev a)).
    { rewrite Hf1. destruct (_ =? 0) eqn:E; [|reflexivity].
      now rewrite (step_delta_no_step _ _ E), Z.add_0_r, int32_small. }
    rewrite IH; [|exact Hc1|rewrite Hf1'; apply int32_range].
    rewrite Hf1', int32_add_l. unfold steps_made. cbn. f_equal. lia.
Qed.

Lemma consumes_steps_count_position st l st' a :
  step_event_flags_wf -> consumes st l st' -> direction_cache_ok st ->
  - 2 ^ 31 <= xyze_get (count_position (stepper (engine st))) a < 2 ^ 31 ->
  Forall (fun ev => Z.land (flags ev) STEP_EVENT_FLAG_BEGINNING_OF_MOVE_SEGMENT = 0) l ->
  xyze_get (count_position (stepper (engine st'))) a
  = int32 (xyze_get (count_position (stepper (engine st))) a + steps_made l a).
Proof.
  intros Hwf Hrun. induction Hrun as [st|st slot ev ticks st1 l st' Hcur Hev H Hrun IH];
    intros Hc Hr Hall.
  - unfold steps_made. cbn. now rewrite Z.add_0_r, int32_small.
  - inversion Hall as [|? ? E0 Hall']; subst.
    destruct (process_one_step_event_from_queue_steps _ _ _ _ _ Hwf Hc Hcur Hev H)
      as (Hc1 & _ & Hp1).
    specialize (Hp1 E0 a).
    assert (Hp1' : xyze_get (count_position (stepper (engine st1))) a
                   = int32 (xyze_get (count_position (stepper (engine st))) a
                            + step_delta ev a)).
    { rewrite Hp1. destruct (_ =? 0) eqn:E; [|reflexivity].
      now rewrite (step_delta_no_step _ _ E), Z.add_0_r, int32_small. }
    rewrite IH; [|exact Hc1|rewrite Hp1'; apply int32_range|exact Hall'].
    rewrite Hp1', int32_add_l. unfold steps_made. cbn. f_equal. lia.
Qed.

(** X18: over any run of the Step-ISR that consumes the events [l], the
    step counter [count_position_from_startup] of every axis ends at its
    start value plus the signed steps of [l], wrapped as int32_t, and
    [count_direction] stays in step with the cached direction bits;
    [count_position] does the same when no event of [l] is a
    BeginningOfMoveSegment marker. *)
Theorem consumes_count_position st l st' :
  step_event_flags_wf ->
  direction_cache_ok st ->
  (forall a, - 2 ^ 31 <= xyze_get (count_position_from_startup st) a < 2 ^ 31) ->
  (forall a, - 2 ^ 31 <= xyze_get (count_position (stepper (engine st))) a < 2 ^ 31) ->
  consumes st l st' ->
  direction_cache_ok st'
  /\ (forall a,
        xyze_get (count_position_from_startup st') a
        = int32 (xyze_get (count_position_from_startup st) a + steps_made l a))
  /\ (Forall (fun ev => Z.land (flags ev) STEP_EVENT_FLAG_BEGINNING_OF_MOVE_SEGMENT = 0) l ->
      forall a,
        xyze_get (count_position (stepper (engine st'))) a
        = int32 (xyze_get (count_position (stepper (engine st))) a + steps_made l a)).
Proof.
  intros Hwf Hc Hr1 Hr2 Hrun. split; [|split].
  - now apply (consumes_direction_cache st l).
  - intros a. now apply consumes_from_startup.
  - intros Hall a. now apply consumes_steps_count_position.
Qed.

(** What reaches the caller of a step event: the state is the one after the
    steps, but for the miss counter. *)
Lemma process_one_step_event_from_queue_engine st slot ev ticks st' :
  get_current_step_event (step_event_queue (engine st)) = Some slot ->
  sq_data (step_event_queue (engine st)) !! slot = Some ev ->
  process_one_step_event_from_queue st = Some (ticks, st') ->
  exists st1,
    (if Z.land (flags ev) STEP_EVENT_FLAG_BEGINNING_OF_MOVE_SEGMENT =? 0 then Some st
     else retire_move_segment st) = Some st1
    /\ engine st'
       = set_step_ev_miss (step_ev_miss (engine st'))
           (set_stepper (stepper (engine st'))
              (set_step_event_queue (discard_current_step_event (step_event_queue (engine st)))
                 (engine st1)))
    /\ count_position_last_block st' = count_position_last_block st1.
Proof.
  intros Hcur Hev H.
  destruct (process_one_step_event_from_queue_phases _ _ _ _ _ Hcur Hev H)
    as (st1 & st4 & Eret & _ & _ & _ & _ & _ & _ & _ & _ & He4 & _ & _ & _ & _ & _
        & Hb4 & _ & _ & _ & Hfin).
  exists st1. split; [exact Eret|].
  assert (Hst' : st' = st4
                 \/ st' = set_engine
                            (set_step_ev_miss (uint8 (step_ev_miss (engine st) + 1)) (engine st4))
                            st4).
  { destruct (get_current_step_event (discard_current_step_event _)) as [next|].
    - destruct Hfin as (nev & _ & _ & ->). now left.
    - destruct Hfin as (_ & ->). destruct (_ =? 0); [now right|now left]. }
  destruct Hst' as [->| ->]; (split; [|exact Hb4]).
  - rewrite He4. cbn. now destruct (engine st1).
  - cbn. rewrite He4. cbn. now destruct (engine st1).
Qed.

(** X19: a call of the Step-ISR that finds a step event takes exactly that
    event off the queue. It returns the ticks of the event that is then the
    oldest one; when there is none it returns the idle period and raises
    [step_ev_miss], an 8-bit counter that wraps, unless the event taken was
    marked as the end of the motion. *)
Theorem process_one_step_event_from_queue_underrun st slot ev ticks st' :
  get_current_step_event (step_event_queue (engine st)) = Some slot ->
  sq_data (step_event_queue (engine st)) !! slot = Some ev ->
  process_one_step_event_from_queue st = Some (ticks, st') ->
  step_event_queue (engine st') = discard_current_step_event (step_event_queue (engine st))
  /\ match get_current_step_event (step_event_queue (engine st')) with
     | Some next =>
         exists nev,
           sq_data (step_event_queue (engine st')) !! next = Some nev
           /\ ticks = uint32 (time_ticks nev)
           /\ step_ev_miss (engine st') = step_ev_miss (engine st)
     | None =>
         ticks = stepper_isr_period_in_ticks st
         /\ step_ev_miss (engine st')
            = if Z.land (flags ev) STEP_EVENT_END_OF_MOTION =? 0
              then uint8 (step_ev_miss (engine st) + 1)
              else step_ev_miss (engine st)
     end.
Proof.
  intros Hcur Hev H.
  destruct (process_one_step_event_from_queue_phases _ _ _ _ _ Hcur Hev H)
    as (st1 & st4 & Eret & _ & _ & _ & _ & _ & _ & _ & Hm1 & He4 & _ & _ & _ & _ & _
        & _ & _ & _ & _ & Hfin).
  destruct (process_one_step_event_from_queue_engine _ _ _ _ _ Hcur Hev H)
    as (st1' & _ & He' & _).
  assert (Hq : step_event_queue (engine st')
               = discard_current_step_event (step_event_queue (engine st)))
    by now rewrite He'.
  split; [exact Hq|]. rewrite Hq.
  assert (Hm4 : step_ev_miss (engine st4) = step_ev_miss (engine st))
    by now rewrite He4.
  destruct (get_current_step_event (discard_current_step_event _)) as [next|].
  - destruct Hfin as (nev & Hn & -> & ->). exists nev. repeat split; [|exact Hm4].
    unfold discard_current_step_event. now destruct (Nat.eqb _ _).
  - destruct Hfin as (-> & ->). split; [reflexivity|].
    now destruct (_ =? 0).
Qed.

(** X20: a step event with the BeginningOfMoveSegment marker retires
    exactly the move segment at the tail of the move segment queue. When
    that segment is the last of its block, the block leaves the planner and
    [count_position_last_block] takes the step counters as they are before
    the steps of this event, or the position of the block when it is a sync
    block. An event without the marker leaves the move segment queue and
    the planner alone. *)
Theorem process_one_step_event_from_queue_retires st slot ev ticks st' :
  get_current_step_event (step_event_queue (engine st)) = Some slot ->
  sq_data (step_event_queue (engine st)) !! slot = Some ev ->
  process_one_step_event_from_queue st = Some (ticks, st') ->
  if Z.land (flags ev) STEP_EVENT_FLAG_BEGINNING_OF_MOVE_SEGMENT =? 0
  then move_segment_queue (engine st') = move_segment_queue (engine st)
       /\ planner (engine st') = planner (engine st)
       /\ count_position_last_block st' = count_position_last_block st
  else exists cur m,
         get_current_move_segment (move_segment_queue (engine st)) = Some cur
         /\ mq_data (move_segment_queue (engine st)) !! cur = Some m
         /\ move_segment_queue (engine st')
            = discard_current_move_segment (move_segment_queue (engine st))
         /\ if Z.land (mflags m) MOVE_FLAG_LAST_MOVE_SEGMENT_OF_BLOCK =? 0
            then planner (engine st') = planner (engine st)
                 /\ count_position_last_block st' = count_position_last_block st
            else exists blk,
                 get_current_processed_block (planner (engine st)) = Some blk
                 /\ planner (engine st') = discard_current_block (planner (engine st))
                 /\ count_position_last_block st'
                    = if sync_position blk then position blk
                      else count_position (stepper (engine st)).
Proof.
  intros Hcur Hev H.
  destruct (process_one_step_event_from_queue_engine _ _ _ _ _ Hcur Hev H)
    as (st1 & Eret & He' & Hb').
  destruct (Z.land (flags ev) STEP_EVENT_FLAG_BEGINNING_OF_MOVE_SEGMENT =? 0).
  - injection Eret as <-. rewrite He', Hb'. easy.
  - apply retire_move_segment_view in Eret as (cur & m & Hc & Hm & He1 & _ & Hlast).
    exists cur, m. split; [exact Hc|]. split; [exact Hm|].
    split; [rewrite He', He1; reflexivity|].
    assert (Hp : planner (engine st') = planner (engine st1))
      by (rewrite He'; reflexivity).
    destruct (Z.land (mflags m) MOVE_FLAG_LAST_MOVE_SEGMENT_OF_BLOCK =? 0).
    + destruct Hlast as (Hp1 & _ & Hb1). now rewrite Hp, Hb', Hp1, Hb1.
    + destruct Hlast as (blk & Hblk & Hp1 & Hs1 & Hb1). exists blk.
      split; [exact Hblk|]. split; [now rewrite Hp|].
      rewrite Hb', Hb1, Hs1. now destruct (sync_position blk).
Qed.

(** X21: the pins a step event writes, in their order. First the direction
    pin of every axis whose direction flag differs from the cached
    direction, then a step pulse, set and reset at once, for every axis
    whose step flag is set; [axis_did_move] takes the active-axis bits of
    the event. *)
Theorem process_one_step_event_from_queue_pins st slot ev ticks st' :
  step_event_flags_wf ->
  get_current_step_event (step_event_queue (engine st)) = Some slot ->
  sq_data (step_event_queue (engine st)) !! slot = Some ev ->
  process_one_step_event_from_queue st = Some (ticks, st') ->
  hw st'
  = hw st
    ++ flat_map (dir_write (inverted_dirs st) (last_direction_bits st) ev) all_axes
    ++ flat_map (step_pulse ev) all_axes
  /\ axis_did_move (stepper (engine st'))
     = uint8 (Z.shiftr (Z.land (flags ev) STEP_EVENT_FLAG_AXIS_ACTIVE_MASK)
                STEP_EVENT_FLAG_AXIS_ACTIVE_SHIFT).
Proof.
  intros Hwf Hcur Hev H.
  destruct (process_one_step_event_from_queue_phases _ _ _ _ _ Hcur Hev H)
    as (st1 & st4 & _ & _ & _ & _ & _ & _ & _ & _ & _ & _ & Hadm & _ & _ & _ & _
        & _ & Hh4 & _ & _ & Hfin).
  assert (Hst' : hw st' = hw st4 /\ stepper (engine st') = stepper (engine st4)).
  { destruct (get_current_step_event (discard_current_step_event _)) as [next|].
    - destruct Hfin as (nev & _ & _ & ->). easy.
    - destruct Hfin as (_ & ->). now destruct (_ =? 0). }
  destruct Hst' as [-> ->]. split; [|exact Hadm].
  rewrite Hh4. do 2 f_equal. apply flat_map_ext. intros a.
  rewrite (changed_dir_bit _ _ _ Hwf). unfold dir_write.
  now destruct (Z.land (flags ev) (dir_flag a) =? 0), (Z.testbit _ _).
Qed.

(** *** [step_isr] *)

(** A call of [process_one_step_event_from_queue] writes pins only. *)
Lemma process_one_step_event_from_queue_hw st ticks st' :
  process_one_step_event_from_queue st = Some (ticks, st') ->
  exists ws, hw st' = hw st ++ ws /\ Forall is_pin_write ws.
Proof.
  intros H.
  destruct (get_current_step_event (step_event_queue (engine st))) as [slot|] eqn:Hcur.
  - destruct (sq_data (step_event_queue (engine st)) !! slot) as [ev|] eqn:Hev.
    + destruct (process_one_step_event_from_queue_phases _ _ _ _ _ Hcur Hev H)
        as (st1 & st4 & _ & _ & _ & _ & _ & _ & _ & _ & _ & _ & _ & _ & _ & _ & _
            & _ & Hh4 & _ & _ & Hfin).
      assert (Hst' : hw st' = hw st4).
      { destruct (get_current_step_event (discard_current_step_event _)) as [next|].
        - destruct Hfin as (nev & _ & _ & ->). easy.
        - destruct Hfin as (_ & ->). now destruct (_ =? 0). }
      rewrite Hst', Hh4. eexists. split; [reflexivity|].
      apply Forall_app. split; apply Forall_flat_map, Forall_forall; intros a _.
      * destruct (Z.testbit _ _); repeat first [exact I|constructor].
      * unfold step_pulse.
        destruct (Z.land (flags ev) (step_flag a) =? 0); repeat first [exact I|constructor].
    + unfold process_one_step_event_from_queue in H. rewrite Hcur in H.
      cbn [mbind option_bind] in H. now rewrite Hev in H.
  - unfold process_one_step_event_from_queue in H. rewrite Hcur in H.
    injection H as <- <-. exists []. split; [now rewrite app_nil_r|constructor].
Qed.

(** When the loop of [step_isr] goes on, no tick is left to the next step
    event: the spin-wait has nothing to wait for. *)
Lemma step_isr_loop_no_ticks_left left :
  (min_delay <? Z.min left max_ticks) = false ->
  uint32 (left - Z.min left max_ticks) = 0.
Proof.
  intros H. apply Z.ltb_ge in H. unfold min_delay, max_ticks in *.
  change (65535 / 2) with 32767 in *.
  rewrite Z.min_l by lia. now rewrite Z.sub_diag.
Qed.

Lemma step_isr_loop_hw fuel steps time_increment st r st' :
  step_isr_loop fuel steps time_increment st = Some (r, st') ->
  exists ws, hw st' = hw st ++ ws /\ Forall is_pin_write ws.
Proof.
  revert steps time_increment st.
  induction fuel as [|fuel IH]; intros steps ti st H; [discriminate|].
  cbn [step_isr_loop] in H.
  destruct (steps =? max_steps).
  { injection H as <- <-. exists []. split; [now rewrite app_nil_r|constructor]. }
  destruct (stop_pending (engine st)).
  { injection H as <- <-. exists []. split; [now rewrite app_nil_r|constructor]. }
  destruct (if left_ticks_to_next_step_event (engine st) =? 0
            then _ else _) as [[steps1 st1]|] eqn:E1; [|discriminate].
  cbn [mbind option_bind] in H. cbv zeta in H.
  assert (H1 : exists ws, hw st1 = hw st ++ ws /\ Forall is_pin_write ws).
  { destruct (left_ticks_to_next_step_event (engine st) =? 0).
    - destruct (process_one_step_event_from_queue st) as [[t st2]|] eqn:E2; [|discriminate].
      cbn [mbind option_bind] in E1. injection E1 as <- <-. cbn.
      apply (process_one_step_event_from_queue_hw _ _ _ E2).
    - injection E1 as <- <-. exists []. split; [now rewrite app_nil_r|constructor]. }
  destruct H1 as (ws1 & Hw1 & Hp1).
  destruct ((min_delay <? _) || _) eqn:Eor.
  { injection H as <- <-. cbn. now exists ws1. }
  apply orb_false_elim in Eor as [Emin _].
  rewrite (step_isr_loop_no_ticks_left _ Emin) in H.
  change (left_ticks_to_next_step_event
            (engine (set_engine (set_left_ticks_to_next_step_event 0 (engine st1)) st1)))
    with 0 in H.
  change (0 =? 0) with true in H. cbv iota in H.
  apply IH in H as (ws2 & Hw2 & Hp2). cbn in Hw2.
  exists (ws1 ++ ws2). split; [now rewrite Hw2, Hw1, app_assoc|].
  apply Forall_app. now split.
Qed.

(** X22: [step_isr] never spin-waits. Whenever its loop goes on to another
    step event no tick is left to wait for, so [delay_us_precise] is not
    called: the ISR writes direction and step pins and then the compare
    register of the timer, and nothing else. *)
Theorem step_isr_never_spin_waits compare counter counter' st st' :
  step_isr compare counter counter' st = Some st' ->
  exists ws next,
    hw st' = hw st ++ ws ++ [SetCompare next] /\ Forall is_pin_write ws.
Proof.
  unfold step_isr. intros H.
  destruct (step_isr_loop 5 0 0 st) as [[ti st1]|] eqn:E; [|discriminate].
  cbn [mbind option_bind] in H.
  apply step_isr_loop_hw in E as (ws & Hw & Hp).
  destruct (max_ticks <? _); injection H as <-; cbn; rewrite Hw;
    eexists ws, _; (split; [now rewrite app_assoc|exact Hp]).
Qed.

(** The passes the loop of [step_isr] can still make: one for every step
    event it may still take, and one more when ticks are left from the
    previous call. *)
Lemma step_isr_loop_fuel fuel extra steps time_increment st :
  0 <= steps < max_steps ->
  (Z.to_nat (max_steps - steps)
   + (if (left_ticks_to_next_step_event (engine st) =? 0)%Z then 0 else 1) <= fuel)%nat ->
  step_isr_loop (fuel + extra) steps time_increment st
  = step_isr_loop fuel steps time_increment st.
Proof.
  revert steps time_increment st.
  induction fuel as [|fuel IH]; intros steps ti st Hs Hf.
  { unfold max_steps in *. lia. }
  cbn [Nat.add step_isr_loop].
  destruct (steps =? max_steps); [reflexivity|].
  destruct (stop_pending (engine st)); [reflexivity|].
  match goal with
  | |- (?o ≫= _) = _ => destruct o as [[steps1 st1]|] eqn:E1; [|reflexivity]
  end.
  cbn [mbind option_bind]. cbv zeta.
  destruct ((min_delay <? _) || _) eqn:Eor; [reflexivity|].
  apply orb_false_elim in Eor as [Emin Emax].
  rewrite (step_isr_loop_no_ticks_left _ Emin).
  change (left_ticks_to_next_step_event
            (engine (set_engine (set_left_ticks_to_next_step_event 0 (engine st1)) st1)))
    with 0.
  change (0 =? 0) with true. cbv iota.
  apply Z.leb_gt in Emax.
  assert (Hs1 : steps1 = steps \/ steps1 = steps + 1).
  { destruct (left_ticks_to_next_step_event (engine st) =? 0).
    - destruct (process_one_step_event_from_queue st) as [[t st2]|]; [|discriminate].
      cbn [mbind option_bind] in E1. injection E1 as <- <-. right.
      unfold uint8, max_steps in *. rewrite Z.mod_small; lia.
    - injection E1 as <- <-. now left. }
  apply IH; [lia|]. cbn.
  destruct (left_ticks_to_next_step_event (engine st) =? 0) eqn:El.
  - destruct (process_one_step_event_from_queue st) as [[t st2]|]; [|discriminate].
    cbn [mbind option_bind] in E1. injection E1 as <- <-.
    unfold uint8, max_steps in *. rewrite Z.mod_small in * by lia. lia.
  - injection E1 as <- <-. unfold max_steps in *. lia.
Qed.

(** X23: the loop of [step_isr] makes at most [max_steps + 1] passes, one
    for ticks left from the previous call and one for each of the at most
    [max_steps] step events it takes: more passes than five are never
    made. *)
Theorem step_isr_loop_passes extra st :
  step_isr_loop (5 + extra) 0 0 st = step_isr_loop 5 0 0 st.
Proof.
  apply step_isr_loop_fuel; unfold max_steps; [lia|].
  destruct (_ =? 0); cbn; lia.
Qed.


(** *** [init] *)

(** X24: [PreciseStepping::init] leaves both queues empty, keeps
    [last_direction_bits], and sets [count_direction] of an axis to -1
    exactly when the direction flag of that axis, bit
    STEP_EVENT_FLAG_DIR_SHIFT + axis, is set in [last_direction_bits]. The
    Step-ISR keeps the direction of an axis in bit [axis] of
    [last_direction_bits]: after [init], [count_direction] is in step with
    that cache exactly when the two bits agree for every axis. *)
Theorem init_direction_cache st :
  step_event_flags_wf ->
  last_direction_bits (init st) = last_direction_bits st
  /\ (forall a,
        xyze_get (count_direction (init st)) a
        = if Z.testbit (last_direction_bits st) (STEP_EVENT_FLAG_DIR_SHIFT + axis_index a)
          then -1 else 1)
  /\ (direction_cache_ok (init st)
      <-> forall a,
            Z.testbit (last_direction_bits st) (STEP_EVENT_FLAG_DIR_SHIFT + axis_index a)
            = Z.testbit (last_direction_bits st) (axis_index a))
  /\ get_current_step_event (step_event_queue (engine (init st))) = None
  /\ get_current_move_segment (move_segment_queue (engine (init st))) = None
  /\ get_current_unprocessed_move_segment (move_segment_queue (engine (init st))) = None.
Proof.
  intros Hwf.
  assert (Hd : forall a,
             xyze_get (count_direction (init st)) a
             = if Z.testbit (last_direction_bits st) (STEP_EVENT_FLAG_DIR_SHIFT + axis_index a)
               then -1 else 1).
  { intros a. pose proof (axis_index_range a).
    pose proof (dir_shift_nonneg Hwf).
    replace (xyze_get (count_direction (init st)) a)
      with (if Z.land (last_direction_bits st) (dir_flag a) =? 0 then 1 else -1)
      by now destruct a.
    rewrite (dir_flag_bit Hwf), land_bit by lia.
    now destruct (Z.testbit _ _). }
  split; [reflexivity|]. split; [exact Hd|]. split; [|easy].
  assert (Hl : last_direction_bits (init st) = last_direction_bits st) by reflexivity.
  unfold direction_cache_ok. split.
  - intros Hok a. specialize (Hok a). rewrite Hd, Hl in Hok.
    destruct (Z.testbit (last_direction_bits st) (STEP_EVENT_FLAG_DIR_SHIFT + axis_index a)),
             (Z.testbit (last_direction_bits st) (axis_index a));
      first [reflexivity | discriminate].
  - intros Hbits a. now rewrite Hd, Hl, Hbits.
Qed.

End StepIsrProperties.

(** ** One marker for every move segment to retire *)

Section MarkerBalance.

Context `{cfg : Config}.

(** *** Flags without the marker *)

Lemma land_lor_zero a b m : Z.land a m = 0 -> Z.land b m = 0 -> Z.land (Z.lor a b) m = 0.
Proof. intros Ha Hb. now rewrite Z.land_lor_distr_l, Ha, Hb. Qed.

Lemma land_land_zero_l a c m : Z.land a m = 0 -> Z.land (Z.land a c) m = 0.
Proof.
  intros Ha. rewrite <- Z.land_assoc, (Z.land_comm c m), Z.land_assoc, Ha.
  apply Z.land_0_l.
Qed.

Lemma land_land_zero_r a c m : Z.land c m = 0 -> Z.land (Z.land a c) m = 0.
Proof. intros Hc. rewrite <- Z.land_assoc, Hc. apply Z.land_0_r. Qed.

Lemma begins_move_segment_clean ev :
  Z.land (flags ev) STEP_EVENT_FLAG_BEGINNING_OF_MOVE_SEGMENT = 0 ->
  begins_move_segment ev = false.
Proof. unfold begins_move_segment. now intros ->. Qed.

Lemma begins_move_segment_testbit k ev :
  0 <= k -> STEP_EVENT_FLAG_BEGINNING_OF_MOVE_SEGMENT = Z.shiftl 1 k ->
  begins_move_segment ev = Z.testbit (flags ev) k.
Proof.
  intros Hk HB. unfold begins_move_segment. rewrite HB, land_bit by easy.
  apply negb_involutive.
Qed.

Lemma begins_move_segment_set t fl extra :
  marker_flag_wf ->
  begins_move_segment
    (StepEvent t (Z.lor (Z.lor fl STEP_EVENT_FLAG_BEGINNING_OF_MOVE_SEGMENT) extra)) = true.
Proof.
  intros [(k & Hk & HB) _ _]. rewrite (begins_move_segment_testbit k) by easy. cbn.
  rewrite !Z.lor_spec, HB, Z.shiftl_1_l, Z.pow2_bits_true by lia.
  now rewrite orb_true_r.
Qed.

(** Two events that both carry the marker are not merged. *)
Lemma begins_move_segment_merged t b n :
  marker_flag_wf ->
  (Z.land (Z.land (flags b) (flags n))
     (Z.lor STEP_EVENT_FLAG_AXIS_MASK STEP_EVENT_FLAG_AXIS_OTHER_MASK) =? 0) = true ->
  Z.b2z (begins_move_segment (StepEvent t (Z.lor (flags b) (flags n))))
  = Z.b2z (begins_move_segment b) + Z.b2z (begins_move_segment n).
Proof.
  intros [(k & Hk & HB) Hmask _] Hm. rewrite !(begins_move_segment_testbit k) by easy. cbn.
  rewrite Z.lor_spec.
  destruct (Z.testbit (flags b) k) eqn:Eb, (Z.testbit (flags n) k) eqn:En; try reflexivity.
  exfalso. apply Z.eqb_eq in Hm.
  assert (Hk' : Z.testbit (Z.lor STEP_EVENT_FLAG_AXIS_MASK STEP_EVENT_FLAG_AXIS_OTHER_MASK) k
                = true).
  { assert (H0 : (Z.land (Z.lor STEP_EVENT_FLAG_AXIS_MASK STEP_EVENT_FLAG_AXIS_OTHER_MASK)
                    (Z.shiftl 1 k) =? 0) = false).
    { rewrite <- HB, Z.land_comm, Hmask, HB, Z.shiftl_1_l. apply Z.eqb_neq.
      pose proof (Z.pow_pos_nonneg 2 k). lia. }
    rewrite land_bit in H0 by easy. now apply negb_false_iff in H0. }
  assert (Hb : Z.testbit
                 (Z.land (Z.land (flags b) (flags n))
                    (Z.lor STEP_EVENT_FLAG_AXIS_MASK STEP_EVENT_FLAG_AXIS_OTHER_MASK)) k = true)
    by now rewrite !Z.land_spec, Eb, En, Hk'.
  rewrite Hm, Z.bits_0 in Hb. discriminate.
Qed.

Lemma count_markers_app l1 l2 :
  count_markers (l1 ++ l2) = count_markers l1 + count_markers l2.
Proof.
  induction l1 as [|ev l1 IH]; [reflexivity|].
  cbn. unfold count_markers in *. cbn. rewrite IH. lia.
Qed.

Lemma markers_balanced_debt s :
  segments_to_retire (move_segment_queue s) = markers_pending s
  <-> marker_debt s = markers_in_flight s.
Proof. unfold markers_pending, marker_debt, markers_in_flight. lia. Qed.

(** *** The generators *)

Lemma markers_kept_refl s : cursors_in_order (move_segment_queue s) -> markers_kept s s.
Proof. intros H. unfold markers_kept. split_and!; try easy; lia. Qed.

Lemma markers_kept_trans s1 s2 s3 :
  markers_kept s1 s2 -> markers_kept s2 s3 -> markers_kept s1 s3.
Proof.
  intros (_ & Ht1 & Hd1 & Hl1 & Hi1) (Hc & Ht2 & Hd2 & Hl2 & Hi2).
  unfold markers_kept. split_and!; try apply Hc; try congruence; lia.
Qed.

(** A state that differs from [s] in neither the cursors of the move segment
    ring, nor the size of its storage, nor the merger's count of markers. *)
Lemma markers_kept_ext s s' :
  cursors_in_order (move_segment_queue s) ->
  length (mq_data (move_segment_queue s')) = length (mq_data (move_segment_queue s)) ->
  mq_head (move_segment_queue s') = mq_head (move_segment_queue s) ->
  mq_tail (move_segment_queue s') = mq_tail (move_segment_queue s) ->
  mq_unprocessed_tail (move_segment_queue s') = mq_unprocessed_tail (move_segment_queue s) ->
  left_insert_start_of_move_segment (step_generator_state s')
  = left_insert_start_of_move_segment (step_generator_state s) ->
  initialized (step_generator_state s') = initialized (step_generator_state s) ->
  markers_kept s s'.
Proof.
  intros ((Hlen & Hh & Ht) & Hut & Hord) El Eh Et Eu Ei Ein.
  unfold markers_kept, cursors_in_order, move_segment_queue_wf, marker_debt,
    segments_to_retire.
  rewrite El, Eh, Et, Eu, Ei, Ein. split_and!; try easy; lia.
Qed.

Lemma move_segment_processed_handler_markers s :
  cursors_in_order (move_segment_queue s) ->
  markers_kept s (move_segment_processed_handler s).
Proof.
  intros Hc. unfold move_segment_processed_handler, get_current_unprocessed_move_segment.
  destruct (Nat.eqb_spec (mq_unprocessed_tail (move_segment_queue s))
              (mq_head (move_segment_queue s))) as [|Hne]; [now apply markers_kept_refl|].
  destruct (_ !! _) as [m|]; [|now apply markers_kept_refl].
  destruct (_ =? 0); [|now apply markers_kept_refl].
  destruct Hc as ((Hlen & Hh & Ht) & Hut & Hord).
  destruct (ring_distance_next _ _ _ Ht Hut Hh Hord Hne) as (Hn & Hd & Hlt).
  unfold markers_kept, cursors_in_order, move_segment_queue_wf, marker_debt,
    segments_to_retire, discard_current_unprocessed_move_segment.
  destruct (Nat.eqb_spec (mq_unprocessed_tail (move_segment_queue s))
              (mq_head (move_segment_queue s))) as [|_]; [contradiction|].
  cbn. rewrite Hd. split_and!; try easy; lia.
Qed.

Lemma move_segment_processed_handler_sflags s :
  sflags (step_generator_state (move_segment_processed_handler s))
  = sflags (step_generator_state s).
Proof.
  unfold move_segment_processed_handler.
  destruct (get_current_unprocessed_move_segment _) as [mv|]; [|easy].
  destruct (_ !! mv) as [m|]; [|easy].
  now destruct (_ =? 0).
Qed.

Lemma classic_step_generator_next_step_event_loop_markers fuel a ft s ev s' :
  marker_flag_wf ->
  classic_step_generator_next_step_event_loop fuel a ft s = Some (ev, s') ->
  cursors_in_order (move_segment_queue s) ->
  Z.land (sflags (step_generator_state s)) STEP_EVENT_FLAG_BEGINNING_OF_MOVE_SEGMENT = 0 ->
  markers_kept s s'
  /\ Z.land (sflags (step_generator_state s')) STEP_EVENT_FLAG_BEGINNING_OF_MOVE_SEGMENT = 0
  /\ Z.land (iflags ev) STEP_EVENT_FLAG_BEGINNING_OF_MOVE_SEGMENT = 0.
Proof.
  intros Hwf. revert s. induction fuel as [|fuel IH]; intros s H Hc Hs; [discriminate|].
  cbn [classic_step_generator_next_step_event_loop] in H.
  destruct (current_move _) as [cur|]; [|discriminate].
  cbn [mbind option_bind] in H.
  destruct (_ !! cur) as [move|]; [|discriminate].
  cbn [mbind option_bind] in H.
  set (g := xyze_get (step_generators_pool s) a) in *.
  destruct (marker_no_axis_bit Hwf (axis g)) as (Hsb & Hdb & Hab).
  destruct (_ || _) in H.
  - destruct (move_segment_queue_next_move _ cur) as [next|].
    + destruct (_ !! next) as [current|]; [|discriminate].
      cbn [mbind option_bind] in H.
      match type of H with
      | classic_step_generator_next_step_event_loop _ _ _
          (move_segment_processed_handler ?x) = _ => set (s1 := x) in H
      end.
      assert (H01 : markers_kept s s1).
      { apply markers_kept_ext; try easy. subst s1. cbn. now rewrite !length_alter. }
      assert (Hs1 : Z.land (sflags (step_generator_state s1))
                      STEP_EVENT_FLAG_BEGINNING_OF_MOVE_SEGMENT = 0).
      { subst s1. cbn.
        rewrite !(proj2 (classic_step_generator_update_frame _ _)). cbn [axis set_current_move].
        fold (dir_bit (axis g)). fold (active_bit (axis g)).
        apply land_lor_zero; [apply land_land_zero_l, land_lor_zero|].
        - now apply land_land_zero_l.
        - destruct (step_dir _); [reflexivity|exact Hdb].
        - apply land_land_zero_r. exact Hab. }
      pose proof (move_segment_processed_handler_markers s1 (proj1 H01)) as H12.
      apply IH in H as (H23 & Hs3 & Hev).
      * split; [|easy].
        eapply markers_kept_trans; [exact H01|].
        eapply markers_kept_trans; [exact H12|exact H23].
      * apply H12.
      * now rewrite move_segment_processed_handler_sflags.
    + injection H as <- <-. split; [now apply markers_kept_ext|]. split; [exact Hs|reflexivity].
  - destruct (_ <? _)%float in H; injection H as <- <-.
    + split; [now apply markers_kept_ext|]. split; [exact Hs|reflexivity].
    + split; [now apply markers_kept_ext|]. split; [exact Hs|]. cbn.
      now apply land_lor_zero.
Qed.

Lemma step_generator_next_step_event_markers a ft s ev s' :
  marker_flag_wf ->
  step_generator_next_step_event a ft s = Some (ev, s') ->
  cursors_in_order (move_segment_queue s) ->
  Z.land (sflags (step_generator_state s)) STEP_EVENT_FLAG_BEGINNING_OF_MOVE_SEGMENT = 0 ->
  markers_kept s s'
  /\ Z.land (sflags (step_generator_state s')) STEP_EVENT_FLAG_BEGINNING_OF_MOVE_SEGMENT = 0
  /\ Z.land (iflags ev) STEP_EVENT_FLAG_BEGINNING_OF_MOVE_SEGMENT = 0.
Proof.
  intros Hwf. unfold step_generator_next_step_event.
  destruct (xyze_get (next_step_func _) a) as [[]|]; [|discriminate].
  destruct (xyze_get (step_generator _) a) as [g|]; [|discriminate].
  now apply classic_step_generator_next_step_event_loop_markers.
Qed.

(** *** The merger *)

(** [generate_next_step_event] hands on one marker when the event it gives
    out carries one. *)
Lemma generate_next_step_event_markers ev0 ft s d ev s' :
  marker_flag_wf ->
  generate_next_step_event ev0 ft s = Some (d, ev, s') ->
  cursors_in_order (move_segment_queue s) ->
  0 <= left_insert_start_of_move_segment (step_generator_state s) ->
  Z.land (sflags (step_generator_state s)) STEP_EVENT_FLAG_BEGINNING_OF_MOVE_SEGMENT = 0 ->
  (forall a, Z.land (iflags (xyze_get (step_events (step_generator_state s)) a))
               STEP_EVENT_FLAG_BEGINNING_OF_MOVE_SEGMENT = 0) ->
  cursors_in_order (move_segment_queue s')
  /\ mq_tail (move_segment_queue s') = mq_tail (move_segment_queue s)
  /\ marker_debt s' = marker_debt s + Z.b2z (begins_move_segment ev)
  /\ 0 <= left_insert_start_of_move_segment (step_generator_state s')
  /\ Z.land (sflags (step_generator_state s')) STEP_EVENT_FLAG_BEGINNING_OF_MOVE_SEGMENT = 0
  /\ (forall a, Z.land (iflags (xyze_get (step_events (step_generator_state s')) a))
                  STEP_EVENT_FLAG_BEGINNING_OF_MOVE_SEGMENT = 0)
  /\ initialized (step_generator_state s') = initialized (step_generator_state s).
Proof.
  intros Hwf H Hc Hl Hs Hp.
  unfold generate_next_step_event in H. cbv zeta in H.
  set (sgs := step_generator_state s) in *.
  set (idx := ax_x (step_event_index sgs)) in *.
  set (nearest := xyze_get (step_events sgs) idx) in *.
  destruct (fneq (time nearest) 0 && fneq (time nearest) DBL_MAX).
  - destruct (double_to_int32 _) as [ticks|]; [|discriminate].
    cbn [mbind option_bind] in H.
    destruct (Z.eqb_spec (left_insert_start_of_move_segment sgs) 0) as [E0|Hn0];
      cbv beta iota zeta in H; cbn [mbind option_bind] in H; cbv beta iota zeta in H.
    + match type of H with
      | context [step_generator_next_step_event ?a ?f ?x] =>
          destruct (step_generator_next_step_event a f x) as [[nev s1]|] eqn:En;
          [|discriminate]
      end.
      cbn [mbind option_bind] in H. injection H as <- <- <-.
      pose proof (step_generator_next_step_event_frame _ _ _ _ _ En) as (_ & _ & He & _).
      apply step_generator_next_step_event_markers in En as ((Hc1 & Ht1 & Hd1 & Hl1 & Hi1) & Hs1 & Hev);
        try easy.
      cbn in Ht1, Hl1, Hi1, He |- *.
      rewrite (begins_move_segment_clean (StepEvent ticks (iflags nearest))) by apply Hp.
      unfold marker_debt in *. cbn in Hd1 |- *. fold sgs in Hl1.
      split_and!; try easy; try (unfold sgs in *; cbn; lia).
      intros a. rewrite He. destruct (decide (a = idx)) as [->|Hne].
      * now rewrite xyze_get_set_eq.
      * rewrite xyze_get_set_ne by easy. apply Hp.
    + match type of H with
      | context [step_generator_next_step_event ?a ?f ?x] =>
          destruct (step_generator_next_step_event a f x) as [[nev s1]|] eqn:En;
          [|discriminate]
      end.
      cbn [mbind option_bind] in H. injection H as <- <- <-.
      pose proof (step_generator_next_step_event_frame _ _ _ _ _ En) as (_ & _ & He & _).
      apply step_generator_next_step_event_markers in En as ((Hc1 & Ht1 & Hd1 & Hl1 & Hi1) & Hs1 & Hev);
        try easy.
      cbn in Ht1, Hl1, Hi1, He |- *.
      pose proof (begins_move_segment_set ticks (iflags nearest) 0 Hwf) as Hb.
      rewrite Z.lor_0_r in Hb. rewrite Hb.
      unfold marker_debt in *. cbn in Hd1 |- *. fold sgs in Hl1.
      split_and!; try easy; try (unfold sgs in *; cbn; lia).
      intros a. rewrite He. destruct (decide (a = idx)) as [->|Hne].
      * now rewrite xyze_get_set_eq.
      * rewrite xyze_get_set_ne by easy. apply Hp.
  - cbn [mbind option_bind] in H.
    destruct (step_generator_next_step_event idx ft s) as [[nev s1]|] eqn:En; [|discriminate].
    cbn [mbind option_bind] in H. injection H as <- <- <-.
    pose proof (step_generator_next_step_event_frame _ _ _ _ _ En) as (_ & _ & He & _).
    apply step_generator_next_step_event_markers in En as ((Hc1 & Ht1 & Hd1 & Hl1 & Hi1) & Hs1 & Hev);
      try easy.
    cbn in Ht1, Hl1, Hi1, He |- *. fold sgs in Hl1.
    rewrite (begins_move_segment_clean (StepEvent (time_ticks ev0) 0)) by apply Z.land_0_l.
    unfold marker_debt in *. cbn in Hd1 |- *.
    split_and!; try easy; try (unfold sgs in *; cbn; lia).
    intros a. rewrite He. destruct (decide (a = idx)) as [->|Hne].
    * now rewrite xyze_get_set_eq.
    * rewrite xyze_get_set_ne by easy. apply Hp.
Qed.

(** [buffer_step_event] keeps every marker: the new event's marker is in the
    buffer or in the queue afterwards. *)
Lemma buffer_step_event_markers new s s' :
  marker_flag_wf ->
  buffer_step_event (get_next_free_step_event (step_event_queue s)) new s = Some s' ->
  step_event_queue_wf (step_event_queue s) ->
  step_event_queue_wf (step_event_queue s')
  /\ markers_in_flight s' = markers_in_flight s + Z.b2z (begins_move_segment new)
  /\ move_segment_queue s' = move_segment_queue s
  /\ left_insert_start_of_move_segment (step_generator_state s')
     = left_insert_start_of_move_segment (step_generator_state s)
  /\ sflags (step_generator_state s') = sflags (step_generator_state s)
  /\ step_events (step_generator_state s') = step_events (step_generator_state s)
  /\ initialized (step_generator_state s') = initialized (step_generator_state s).
Proof.
  intros Hwf H Hq. unfold buffer_step_event in H. unfold markers_in_flight.
  destruct (Z.eqb_spec (flags new) 0) as [En|_].
  { injection H as <-.
    rewrite (begins_move_segment_clean new) by (rewrite En; apply Z.land_0_l).
    split_and!; try easy. cbn. lia. }
  destruct (Z.eqb_spec (flags (buffered_step (step_generator_state s))) 0) as [Eb|_].
  { injection H as <-. cbn.
    rewrite (begins_move_segment_clean (buffered_step _)) by (rewrite Eb; apply Z.land_0_l).
    split_and!; try easy. cbn. lia. }
  destruct (_ && _) eqn:Em.
  { injection H as <-. cbn.
    apply andb_prop in Em as [Em _]. apply andb_prop in Em as [_ Em].
    rewrite (begins_move_segment_merged _ _ _ Hwf Em).
    split_and!; try easy. lia. }
  destruct (get_next_free_step_event _) as [[slot nh]|] eqn:Ef; [|discriminate].
  cbn [mbind option_bind] in H. injection H as <-. cbn.
  destruct (step_event_queue_write_contents _ _ _ (buffered_step (step_generator_state s)) Hq Ef)
    as (Hq' & Hcont).
  rewrite Hcont, count_markers_app.
  split_and!; try easy. unfold count_markers at 2. cbn. lia.
Qed.

(** *** The producer *)

Lemma markers_balanced_intro s :
  cursors_in_order (move_segment_queue s) ->
  step_event_queue_wf (step_event_queue s) ->
  marker_debt s = markers_in_flight s ->
  0 <= left_insert_start_of_move_segment (step_generator_state s) ->
  Z.land (sflags (step_generator_state s)) STEP_EVENT_FLAG_BEGINNING_OF_MOVE_SEGMENT = 0 ->
  (forall a, Z.land (iflags (xyze_get (step_events (step_generator_state s)) a))
               STEP_EVENT_FLAG_BEGINNING_OF_MOVE_SEGMENT = 0) ->
  initialized (step_generator_state s) = true ->
  markers_balanced s.
Proof.
  intros Hc Hq Hb Hl Hs Hp Hi. unfold markers_balanced.
  split_and!; try easy; [now apply markers_balanced_debt|].
  rewrite Hi. discriminate.
Qed.

Lemma produce_step_events_markers n ft s r s' :
  marker_flag_wf ->
  produce_step_events n ft s = Some (r, s') ->
  markers_balanced s -> initialized (step_generator_state s) = true ->
  markers_balanced s' /\ initialized (step_generator_state s') = true.
Proof.
  intros Hwf. revert s. induction n as [|n IH]; intros s H Hb Hi.
  { injection H as <- <-. easy. }
  cbn [produce_step_events] in H.
  destruct (_ && _); [injection H as <- <-; easy|].
  destruct (generate_next_step_event _ ft s) as [[[d ev] s1]|] eqn:Eg; [|discriminate].
  cbn [mbind option_bind] in H.
  destruct (buffer_step_event _ ev s1) as [s2|] eqn:Eb; [|discriminate].
  cbn [mbind option_bind] in H.
  destruct Hb as (Hc & Hq & Hbal & Hl & Hs & Hp & _).
  apply markers_balanced_debt in Hbal.
  pose proof (generate_next_step_event_out _ _ _ _ _ _ Eg) as (Hq1 & Hb1 & _).
  apply generate_next_step_event_markers in Eg as (Hc1 & _ & Hd1 & Hl1 & Hs1 & Hp1 & Hi1);
    try easy.
  rewrite <- Hq1 in Eb.
  apply buffer_step_event_markers in Eb as (Hq2 & Hf2 & Hm2 & Hl2 & Hs2 & Hp2 & Hi2);
    [|easy|now rewrite Hq1].
  assert (Hb2 : markers_balanced s2 /\ initialized (step_generator_state s2) = true).
  { split; [|congruence]. apply markers_balanced_intro; try congruence.
    unfold marker_debt in *. rewrite Hm2, Hl2, Hf2, Hd1, Hbal.
    unfold markers_in_flight. rewrite Hq1, Hb1. lia. }
  destruct d; [injection H as <- <-; exact Hb2|].
  now apply (IH s2).
Qed.

Lemma append_move_discarding_step_event_markers extra s s' :
  marker_flag_wf ->
  append_move_discarding_step_event extra s = (true, s') ->
  step_event_queue_wf (step_event_queue s) ->
  step_event_queue_wf (step_event_queue s')
  /\ markers_in_flight s' = markers_in_flight s + 1
  /\ move_segment_queue s' = move_segment_queue s
  /\ left_insert_start_of_move_segment (step_generator_state s')
     = left_insert_start_of_move_segment (step_generator_state s)
  /\ sflags (step_generator_state s') = sflags (step_generator_state s)
  /\ step_events (step_generator_state s') = step_events (step_generator_state s)
  /\ initialized (step_generator_state s') = initialized (step_generator_state s)
  /\ buffered_step (step_generator_state s') = buffered_step (step_generator_state s).
Proof.
  intros Hwf H Hq. unfold append_move_discarding_step_event in H.
  destruct (get_next_free_step_event _) as [[slot nh]|] eqn:Ef; [|discriminate].
  injection H as <-. unfold markers_in_flight. cbn.
  destruct (step_event_queue_write_contents _ _ _
              (StepEvent 0
                 (Z.lor (Z.lor (sflags (step_generator_state s))
                           STEP_EVENT_FLAG_BEGINNING_OF_MOVE_SEGMENT) extra)) Hq Ef)
    as (Hq' & Hcont).
  rewrite Hcont, count_markers_app.
  split_and!; try easy. unfold count_markers at 2. cbn.
  rewrite (begins_move_segment_set _ _ _ Hwf). cbn. lia.
Qed.

Lemma append_pending_discarding_step_events_markers fuel s :
  marker_flag_wf ->
  step_event_queue_wf (step_event_queue s) ->
  let s' := append_pending_discarding_step_events fuel s in
  step_event_queue_wf (step_event_queue s')
  /\ markers_in_flight s' - markers_in_flight s
     = left_insert_start_of_move_segment (step_generator_state s)
       - left_insert_start_of_move_segment (step_generator_state s')
  /\ (0 <= left_insert_start_of_move_segment (step_generator_state s) ->
      0 <= left_insert_start_of_move_segment (step_generator_state s'))
  /\ left_insert_start_of_move_segment (step_generator_state s')
     <= Z.max 0 (left_insert_start_of_move_segment (step_generator_state s))
  /\ move_segment_queue s' = move_segment_queue s
  /\ sflags (step_generator_state s') = sflags (step_generator_state s)
  /\ step_events (step_generator_state s') = step_events (step_generator_state s)
  /\ initialized (step_generator_state s') = initialized (step_generator_state s)
  /\ buffered_step (step_generator_state s') = buffered_step (step_generator_state s).
Proof.
  intros Hwf. revert s. induction fuel as [|fuel IH]; intros s Hq;
    cbn [append_pending_discarding_step_events]; cbv zeta.
  { split_and!; try easy; lia. }
  destruct (Z.ltb_spec 0 (left_insert_start_of_move_segment (step_generator_state s)))
    as [Hpos|Hle]; [|split_and!; try easy; lia].
  destruct (append_move_discarding_step_event 0 s) as [[|] s1] eqn:Ea;
    [|assert (s1 = s) as ->
        by (unfold append_move_discarding_step_event in Ea;
            destruct (get_next_free_step_event _) as [[? ?]|]; now inversion Ea);
      split_and!; try easy; lia].
  apply append_move_discarding_step_event_markers in Ea
    as (Hq1 & Hf1 & Hm1 & Hl1 & Hs1 & Hp1 & Hi1 & Hb1); try easy.
  match goal with
  | |- context [append_pending_discarding_step_events fuel ?x] => set (s2 := x)
  end.
  assert (Hq2 : step_event_queue_wf (step_event_queue s2)) by exact Hq1.
  destruct (IH s2 Hq2) as (Hq3 & Hf3 & Hl3 & Hle3 & Hm3 & Hs3 & Hp3 & Hi3 & Hb3).
  change (markers_in_flight s2) with (markers_in_flight s1) in Hf3.
  cbn in Hl3, Hle3, Hf3, Hm3, Hs3, Hp3, Hi3, Hb3.
  split_and!; try congruence; try lia.
Qed.

(** The balance depends on [marker_view] and on the cached flags being
    without the marker. *)
Lemma markers_balanced_view s s' :
  marker_view s' = marker_view s ->
  Z.land (sflags (step_generator_state s')) STEP_EVENT_FLAG_BEGINNING_OF_MOVE_SEGMENT = 0 ->
  markers_balanced s -> markers_balanced s'.
Proof.
  unfold marker_view. intros [= El Eh Et Eu Eq Ei Eb Ep En] Hs.
  unfold markers_balanced, cursors_in_order, move_segment_queue_wf, segments_to_retire,
    markers_pending.
  rewrite El, Eh, Et, Eu, Eq, Ei, Eb, Ep, En.
  intros (Hc & Hq & Hbal & Hl & _ & Hp & Hu). split_and!; easy.
Qed.

Lemma finish_ending_move_markers s r s' :
  marker_flag_wf ->
  finish_ending_move s = Some (r, s') ->
  markers_balanced s ->
  markers_balanced s'
  /\ initialized (step_generator_state s') = initialized (step_generator_state s).
Proof.
  intros Hwf H Hb. unfold finish_ending_move in H.
  destruct (get_current_unprocessed_move_segment _) as [um|] eqn:Eu;
    [|injection H as <- <-; easy].
  destruct (_ !! um) as [m|]; [|discriminate].
  cbn [mbind option_bind] in H.
  destruct (is_ending_empty_move m); [|injection H as <- <-; easy].
  cbv zeta in H.
  (* the buffered step is flushed *)
  assert (Hflush : forall sf,
             (if flags (buffered_step (step_generator_state s)) =? 0 then Some s
              else match get_next_free_step_event (step_event_queue s) with
                   | None => None
                   | Some (slot, next_step_event_queue_head) =>
                       Some (set_step_generator_state
                               (set_buffered_step
                                  (StepEvent (time_ticks (buffered_step (step_generator_state s))) 0)
                                  (step_generator_state s))
                               (set_step_event_queue
                                  (step_event_queue_write slot next_step_event_queue_head
                                     (buffered_step (step_generator_state s))
                                     (step_event_queue s)) s))
                   end) = Some sf ->
             step_event_queue_wf (step_event_queue sf)
             /\ markers_in_flight sf = markers_in_flight s
             /\ move_segment_queue sf = move_segment_queue s
             /\ left_insert_start_of_move_segment (step_generator_state sf)
                = left_insert_start_of_move_segment (step_generator_state s)
             /\ sflags (step_generator_state sf) = sflags (step_generator_state s)
             /\ step_events (step_generator_state sf) = step_events (step_generator_state s)
             /\ initialized (step_generator_state sf) = initialized (step_generator_state s)
             /\ (begins_move_segment (buffered_step (step_generator_state s)) = false ->
                 begins_move_segment (buffered_step (step_generator_state sf)) = false)).
  { intros sf Hf. destruct Hb as (_ & Hq & _).
    destruct (flags (buffered_step (step_generator_state s)) =? 0).
    - injection Hf as <-. split_and!; easy.
    - destruct (get_next_free_step_event _) as [[slot nh]|] eqn:Ef; [|discriminate].
      injection Hf as <-. unfold markers_in_flight. cbn.
      destruct (step_event_queue_write_contents _ _ _
                  (buffered_step (step_generator_state s)) Hq Ef) as (Hq' & Hcont).
      rewrite Hcont, count_markers_app.
      split_and!; try easy. unfold count_markers at 2. cbn.
      change (begins_move_segment
                (StepEvent (time_ticks (buffered_step (step_generator_state s))) 0))
        with (negb (Z.land 0 STEP_EVENT_FLAG_BEGINNING_OF_MOVE_SEGMENT =? 0)).
      rewrite Z.land_0_l. cbn. lia. }
  match type of H with
  | match ?f with _ => _ end = _ => destruct f as [sf|] eqn:Ef
  end; [|injection H as <- <-; easy].
  destruct (Hflush sf eq_refl) as (Hqf & Hff & Hmf & Hlf & Hsf & Hpf & Hif & Hbf).
  clear Hflush Ef.
  pose proof (append_pending_discarding_step_events_markers
                (Z.to_nat (left_insert_start_of_move_segment (step_generator_state sf)))
                sf Hwf Hqf) as Hap.
  cbv zeta in Hap.
  set (s2 := append_pending_discarding_step_events _ sf) in *.
  destruct Hap as (Hq2 & Hf2 & Hl2 & Hle2 & Hm2 & Hs2 & Hp2 & Hi2 & Hb2).
  destruct Hb as (Hc & Hq & Hbal & Hl & Hs & Hp & Hu).
  apply markers_balanced_debt in Hbal. unfold marker_debt in Hbal.
  (* the state before the ending move is retired is balanced *)
  assert (Hbal2 : markers_balanced s2
                  /\ initialized (step_generator_state s2) = initialized (step_generator_state s)).
  { split; [|congruence].
    unfold markers_balanced. rewrite Hm2, Hmf, Hs2, Hsf, Hp2, Hpf, Hi2, Hif, Hb2.
    split_and!; try easy.
    - unfold markers_pending, markers_in_flight in *. lia.
    - apply Hl2. now rewrite Hlf.
    - intros Hin. destruct (Hu Hin) as [Hu1 Hu2]. split; [|now apply Hbf].
      rewrite Hlf, Hu1 in Hle2. specialize (Hl2 ltac:(rewrite Hlf; lia)). lia. }
  destruct (left_insert_start_of_move_segment (step_generator_state s2) =? 0);
    [|injection H as <- <-; exact Hbal2].
  destruct (is_step_event_queue_full (step_event_queue s2)) eqn:Efull;
    [injection H as <- <-; exact Hbal2|].
  injection H as <- <-.
  set (s3 := set_move_segment_queue
               (discard_current_unprocessed_move_segment (move_segment_queue s2)) s2).
  destruct (append_move_discarding_step_event STEP_EVENT_END_OF_MOTION s3) as [b s4] eqn:Ea.
  assert (b = true) as ->.
  { unfold append_move_discarding_step_event, get_next_free_step_event in Ea.
    change (step_event_queue s3) with (step_event_queue s2) in Ea.
    rewrite Efull in Ea. now injection Ea as <- _. }
  apply append_move_discarding_step_event_markers in Ea
    as (Hq4 & Hf4 & Hm4 & Hl4 & Hs4 & Hp4 & Hi4 & Hb4); [|exact Hwf|exact Hq2].
  cbn [snd].
  (* the ending move leaves the unprocessed part of the queue *)
  assert (Hut : mq_unprocessed_tail (move_segment_queue s) <> mq_head (move_segment_queue s)).
  { unfold get_current_unprocessed_move_segment in Eu.
    destruct (Nat.eqb_spec (mq_unprocessed_tail (move_segment_queue s))
                (mq_head (move_segment_queue s))); [discriminate|easy]. }
  destruct Hc as ((Hlen & Hh & Ht) & Hutr & Hord).
  destruct (ring_distance_next _ _ _ Ht Hutr Hh Hord Hut) as (Hn & Hd & Hlt).
  assert (Hm3 : move_segment_queue s3
                = MoveSegmentQueue (mq_data (move_segment_queue s))
                    (mq_head (move_segment_queue s)) (mq_tail (move_segment_queue s))
                    (move_segment_queue_next_index
                       (mq_unprocessed_tail (move_segment_queue s)))).
  { subst s3. cbn. rewrite Hm2, Hmf. unfold discard_current_unprocessed_move_segment.
    destruct (Nat.eqb_spec (mq_unprocessed_tail (move_segment_queue s))
                (mq_head (move_segment_queue s))); [contradiction|reflexivity]. }
  destruct Hbal2 as ((_ & _ & Hbal2 & Hl2' & Hs2' & Hp2' & Hu2') & Hi2').
  split; [|now rewrite Hi4].
  unfold markers_balanced, cursors_in_order, move_segment_queue_wf.
  rewrite Hm4, Hm3, Hs4, Hp4, Hi4, Hl4, Hb4. cbn.
  split_and!; try easy; try lia.
  unfold segments_to_retire, markers_pending in Hbal2 |- *.
  cbn [mq_tail mq_unprocessed_tail]. rewrite Hd.
  unfold markers_in_flight in Hf4.
  change (step_event_queue s3) with (step_event_queue s2) in Hf4.
  change (step_generator_state s3) with (step_generator_state s2) in Hf4, Hl4.
  rewrite Hm2, Hmf in Hbal2. lia.
Qed.

Lemma classic_step_generator_init_markers move a s s' :
  marker_flag_wf ->
  classic_step_generator_init move a s = Some s' ->
  marker_view s' = marker_view s
  /\ (Z.land (sflags (step_generator_state s)) STEP_EVENT_FLAG_BEGINNING_OF_MOVE_SEGMENT = 0 ->
      Z.land (sflags (step_generator_state s')) STEP_EVENT_FLAG_BEGINNING_OF_MOVE_SEGMENT = 0).
Proof.
  intros Hwf. unfold classic_step_generator_init.
  destruct (_ !! move) as [m|]; [|discriminate].
  cbn [mbind option_bind]. intros [= <-]. unfold marker_view. cbn.
  rewrite length_alter. split; [reflexivity|]. intros Hs.
  destruct (marker_no_axis_bit Hwf (axis (xyze_get (step_generators_pool s) a)))
    as (_ & Hdb & Hab).
  apply land_lor_zero; [apply land_lor_zero; [exact Hs|]|]; now apply land_land_zero_r.
Qed.

Lemma step_generator_reset_reached_end_markers i s s' :
  step_generator_reset_reached_end i s = Some s' ->
  marker_view s' = marker_view s
  /\ sflags (step_generator_state s') = sflags (step_generator_state s).
Proof.
  unfold step_generator_reset_reached_end.
  destruct (xyze_get _ i) as [g|]; [|discriminate]. now intros [= <-].
Qed.

Lemma step_generator_state_init_markers move s s' :
  marker_flag_wf ->
  step_generator_state_init move s = Some s' ->
  markers_balanced s -> initialized (step_generator_state s) = false ->
  markers_balanced s' /\ initialized (step_generator_state s') = true.
Proof.
  intros Hwf H Hb Hi. unfold step_generator_state_init in H.
  destruct (_ !! move) as [m|]; [|discriminate].
  cbn [mbind option_bind] in H.
  destruct (_ <? _)%float; [discriminate|]. cbv zeta in H.
  match type of H with
  | context [step_generator_reset_reached_end X_AXIS ?x] => set (s0 := x) in H
  end.
  assert (Hs0 : Z.land (sflags (step_generator_state s0))
                  STEP_EVENT_FLAG_BEGINNING_OF_MOVE_SEGMENT = 0) by reflexivity.
  repeat match type of H with
         | context [step_generator_reset_reached_end ?i ?x] =>
             let E := fresh "E" in
             let V := fresh "V" in
             let S := fresh "S" in
             destruct (step_generator_reset_reached_end i x) as [?s|] eqn:E;
             [apply step_generator_reset_reached_end_markers in E as (V & S)|discriminate];
             cbn [mbind option_bind] in H
         end.
  repeat match type of H with
         | context [classic_step_generator_init ?mv ?a ?x] =>
             let E := fresh "E" in
             let V := fresh "V" in
             let S := fresh "S" in
             destruct (classic_step_generator_init mv a x) as [?s|] eqn:E;
             [apply (classic_step_generator_init_markers _ _ _ _ Hwf) in E as (V & S)|discriminate];
             cbn [mbind option_bind] in H
         end.
  injection H as <-. split; [|reflexivity].
  assert (Hs8 : Z.land (sflags (step_generator_state s8))
                  STEP_EVENT_FLAG_BEGINNING_OF_MOVE_SEGMENT = 0).
  { apply S6, S5, S4, S3. now rewrite S2, S1, S0, S. }
  assert (Hv : marker_view s8 = marker_view s0) by congruence.
  unfold marker_view in Hv. cbn in Hv. injection Hv as El Eh Et Eu Eq Ei Eb Ep En.
  destruct Hb as (Hc & Hq & Hbal & Hl & Hs & Hp & Hu).
  destruct (Hu Hi) as [Hu1 Hu2].
  unfold markers_balanced, cursors_in_order, move_segment_queue_wf, segments_to_retire,
    markers_pending in *. cbn.
  rewrite El, Eh, Et, Eu, Eq, Ei, Eb, Ep. cbn.
  rewrite Hu1, Hu2 in Hbal.
  change (begins_move_segment
            (StepEvent (time_ticks (buffered_step (step_generator_state s))) 0))
    with (negb (Z.land 0 STEP_EVENT_FLAG_BEGINNING_OF_MOVE_SEGMENT =? 0)).
  rewrite Z.land_0_l. cbn.
  split_and!; try easy; try lia.
  intros a. now destruct a.
Qed.

(** *** [process_one_move_segment_from_queue] keeps the balance *)

Lemma process_one_move_segment_from_queue_markers s r s' :
  marker_flag_wf -> restart_keeps_markers ->
  process_one_move_segment_from_queue s = Some (r, s') ->
  markers_balanced s -> markers_balanced s'.
Proof.
  intros Hwf Hrs H Hb. unfold process_one_move_segment_from_queue in H.
  destruct (get_current_unprocessed_move_segment _) as [move|].
  - (* initialisation *)
    assert (Hinit : forall s1,
               (if initialized (step_generator_state s) then Some s
                else step_generator_state_init move s) = Some s1 ->
               markers_balanced s1 /\ initialized (step_generator_state s1) = true).
    { intros s1 H1. destruct (initialized (step_generator_state s)) eqn:Ei.
      - now injection H1 as <-.
      - now apply (step_generator_state_init_markers move s). }
    destruct (if initialized _ then _ else _) as [s1|]; [|discriminate].
    destruct (Hinit s1 eq_refl) as (Hb1 & Hi1). clear Hinit.
    cbn [mbind option_bind] in H. cbv zeta in H.
    (* restart *)
    pose proof (Hrs (step_generator_state s1) (step_generators_pool s1)) as Hr.
    cbv zeta in Hr.
    destruct (step_generator_state_restart _ _) as [sgs pool]. cbn [fst] in Hr.
    destruct Hr as (Hrl & Hrb & Hrf & Hri & Hrp).
    set (s2 := set_step_generators_pool pool (set_step_generator_state sgs s1)) in H.
    assert (Hb2 : markers_balanced s2 /\ initialized (step_generator_state s2) = true).
    { split; [|subst s2; cbn; congruence].
      destruct Hb1 as (Hc & Hq & Hbal & Hl & Hs & Hp & Hu).
      unfold markers_balanced, markers_pending. subst s2. cbn.
      rewrite Hrl, Hrb, Hrf, Hri. split_and!; try easy.
      intros a. rewrite Hrp. apply Hp. }
    destruct (produce_step_events _ _ s2) as [[pr s3]|] eqn:Ep; [|discriminate].
    cbn [mbind option_bind] in H.
    apply produce_step_events_markers in Ep as (Hb3 & Hi3); try easy.
    destruct pr as [|[|n]].
    + now injection H as <- <-.
    + now apply finish_ending_move_markers in H.
    + now injection H as <- <-.
  - cbn [mbind option_bind] in H. now apply finish_ending_move_markers in H.
Qed.

(** *** Block intake *)

Lemma segments_queued_refl s : segments_queued s s.
Proof. unfold segments_queued. split_and!; try easy. intros (_ & Hh & _). split; [easy|lia]. Qed.

Lemma segments_queued_trans s1 s2 s3 :
  segments_queued s1 s2 -> segments_queued s2 s3 -> segments_queued s1 s3.
Proof.
  intros (Hq1 & Hg1 & Hl1 & Ht1 & Hu1 & Hh1) (Hq2 & Hg2 & Hl2 & Ht2 & Hu2 & Hh2).
  unfold segments_queued. split_and!; try congruence.
  intros Hwf. destruct (Hh1 Hwf) as [Ha Hb].
  assert (Hwf2 : move_segment_queue_wf (move_segment_queue s2)).
  { destruct Hwf as (Hlen & _ & Ht). unfold move_segment_queue_wf.
    rewrite Hl1, Ht1. easy. }
  destruct (Hh2 Hwf2) as [Hc Hd]. rewrite Ht1 in Hd. split; [easy|lia].
Qed.

(** What is not a queue or the merger plays no part. *)
Lemma segments_queued_ext s s' :
  move_segment_queue s' = move_segment_queue s ->
  step_event_queue s' = step_event_queue s ->
  step_generator_state s' = step_generator_state s ->
  segments_queued s s'.
Proof.
  intros Hm Hq Hg. unfold segments_queued. rewrite Hm. split_and!; try easy.
  intros (_ & Hh & _). split; [easy|lia].
Qed.

Lemma segments_queued_push m s s' :
  is_move_segment_queue_full (move_segment_queue s) = false ->
  move_segment_queue s'
  = mq_set_head (move_segment_queue_next_index (mq_head (move_segment_queue s)))
      (mq_set_data (<[mq_head (move_segment_queue s) := m]> (mq_data (move_segment_queue s)))
         (move_segment_queue s)) ->
  step_event_queue s' = step_event_queue s ->
  step_generator_state s' = step_generator_state s ->
  segments_queued s s'.
Proof.
  intros Hfull Hm Hq Hg. unfold segments_queued. rewrite Hm. cbn.
  rewrite length_insert. split_and!; try easy.
  intros (Hlen & Hh & Ht).
  unfold is_move_segment_queue_full in Hfull. apply Nat.eqb_neq in Hfull.
  rewrite (ring_distance_push _ _ Ht Hh Hfull). split; [|lia].
  unfold move_segment_queue_next_index. apply Nat.mod_upper_bound. lia.
Qed.

Lemma append_move_segment_to_queue_queued mt sv ha pt ar sp fl s :
  segments_queued s (snd (append_move_segment_to_queue mt sv ha pt ar sp fl s)).
Proof.
  unfold append_move_segment_to_queue, get_next_free_move_segment.
  destruct (is_move_segment_queue_full _) eqn:Hfull; [apply segments_queued_refl|].
  cbn [snd]. now eapply segments_queued_push.
Qed.

Lemma append_beginning_empty_move_queued s :
  segments_queued s (snd (append_beginning_empty_move s)).
Proof.
  unfold append_beginning_empty_move, get_next_free_move_segment.
  destruct (is_move_segment_queue_full _) eqn:Hfull; [apply segments_queued_refl|].
  cbn [snd]. now eapply segments_queued_push.
Qed.

Lemma append_ending_empty_move_queued s :
  segments_queued s (snd (append_ending_empty_move s)).
Proof.
  unfold append_ending_empty_move, get_next_free_move_segment.
  destruct (is_move_segment_queue_full _) eqn:Hfull; [apply segments_queued_refl|].
  cbn [snd]. now eapply segments_queued_push.
Qed.

Lemma append_block_discarding_move_queued s :
  segments_queued s (snd (append_block_discarding_move s)).
Proof.
  unfold append_block_discarding_move, get_next_free_move_segment.
  destruct (is_move_segment_queue_full _) eqn:Hfull; [apply segments_queued_refl|].
  cbn [snd]. now eapply segments_queued_push.
Qed.

Lemma append_move_segments_to_queue_queued b s :
  segments_queued s (snd (append_move_segments_to_queue b s)).
Proof.
  unfold append_move_segments_to_queue.
  destruct (_ <? _); [apply segments_queued_refl|].
  destruct (fneq (accel_dist _) 0), (fneq (cruise_dist _) 0), (fneq (decel_dist _) 0);
    cbv zeta; cbn [snd];
    match goal with
    | |- segments_queued s
           (reset_reached_end_of_move_queue_flag
              (set_total_print_time _
                 (set_total_start_pos _ (set_total_start_pos_steps _ ?x)))) =>
        apply (segments_queued_trans s x); [|now apply segments_queued_ext]
    end;
    repeat first
      [ apply segments_queued_refl
      | eapply segments_queued_trans; [|apply append_move_segment_to_queue_queued] ].
Qed.

Lemma fetch_next_block_queued fuel s : segments_queued s (snd (fetch_next_block fuel s)).
Proof.
  revert s. induction fuel as [|fuel IH]; intros s; cbn [fetch_next_block].
  - destruct (get_current_unprocessed_block _) as [b|]; [|apply segments_queued_refl].
    destruct (is_move b); apply segments_queued_refl.
  - destruct (get_current_unprocessed_block _) as [b|]; [|apply segments_queued_refl].
    destruct (is_move b); [apply segments_queued_refl|].
    destruct (_ =? _)%float.
    + eapply segments_queued_trans; [|apply IH]. now apply segments_queued_ext.
    + pose proof (append_block_discarding_move_queued s) as Ha.
      destruct (append_block_discarding_move s) as [[m|] s1]; [|exact Ha].
      cbn [snd] in Ha.
      eapply segments_queued_trans; [exact Ha|].
      eapply segments_queued_trans; [|apply IH]. now apply segments_queued_ext.
Qed.

(** While the motion goes on, that is, as long as it does not reset from a
    halt, [process_queue_of_blocks] only queues move segments. *)
Lemma process_queue_of_blocks_queued now s :
  (MAX_PRINT_TIME <=? total_print_time s)%float = false ->
  segments_queued s (process_queue_of_blocks now s).
Proof.
  intros Hrun. unfold process_queue_of_blocks.
  assert (Hw : segments_queued s (snd (is_waiting_before_delivering now s))
               /\ total_print_time (snd (is_waiting_before_delivering now s))
                  = total_print_time s).
  { unfold is_waiting_before_delivering.
    repeat match goal with
           | |- context [if ?c then _ else _] => destruct c
           end; cbn; (split; [now apply segments_queued_ext|reflexivity]). }
  destruct (is_waiting_before_delivering now s) as [w s1]. cbn [snd] in Hw.
  destruct Hw as [Hw Ht]. destruct w; [exact Hw|].
  rewrite Ht, Hrun.
  eapply segments_queued_trans; [exact Hw|].
  pose proof (fetch_next_block_queued (length (block_buffer (planner s1))) s1) as Hf.
  destruct (fetch_next_block _ s1) as [[|[b|]] s2]; cbn [snd] in Hf; [exact Hf| |].
  - eapply segments_queued_trans; [exact Hf|].
    pose proof (append_beginning_empty_move_queued s2) as Hb.
    assert (Hs : match (if (total_print_time s2 =? 0)%float
                        then match append_beginning_empty_move s2 with
                             | (None, _) => None
                             | (Some _, s0) => Some s0
                             end
                        else Some s2) with
                 | Some s3 => segments_queued s2 s3
                 | None => True
                 end).
    { destruct (_ =? _)%float; [|apply segments_queued_refl].
      now destruct (append_beginning_empty_move s2) as [[m|] s3]. }
    destruct (if (total_print_time s2 =? 0)%float then _ else _) as [s3|];
      [|apply segments_queued_refl].
    eapply segments_queued_trans; [exact Hs|].
    pose proof (append_move_segments_to_queue_queued b s3) as Ha.
    destruct (append_move_segments_to_queue b s3) as [[|] s4]; cbn [snd] in Ha; [|exact Ha].
    eapply segments_queued_trans; [exact Ha|]. now apply segments_queued_ext.
  - eapply segments_queued_trans; [exact Hf|].
    destruct (_ && _); [|apply segments_queued_refl]. apply append_ending_empty_move_queued.
Qed.

Lemma markers_balanced_queued s s' :
  segments_queued s s' -> markers_balanced s -> markers_balanced s'.
Proof.
  intros (Hq & Hg & Hl & Ht & Hu & Hh) (((Hlen & Hhd & Htl) & Hut & Hord) & Hsq & Hbal & Hrest).
  destruct (Hh (conj Hlen (conj Hhd Htl))) as [Hh' Hd].
  unfold markers_balanced, cursors_in_order, move_segment_queue_wf, segments_to_retire,
    markers_pending in *.
  rewrite Hq, Hg, Hl, Ht, Hu. split_and!; try easy. lia.
Qed.

End MarkerBalance.

(** ** The two ISRs together *)

Section MarkerConsumer.

Context `{cfg : Config} `{scfg : StepperConfig}.

Lemma omap_seq_shift {A} (f g : nat -> option A) (a m : nat) :
  (forall k, f (S k) = g k) -> omap f (seq (S a) m) = omap g (seq a m).
Proof.
  intros H. revert a. induction m as [|m IH]; intros a; [reflexivity|].
  cbn [seq omap list_omap]. now rewrite H, IH.
Qed.

(** Taking the oldest element off a ring. *)
Lemma ring_pop {A} (n : nat) (data : list A) (head tail : nat) (x : A) :
  length data = n -> (head < n)%nat -> (tail < n)%nat -> tail <> head ->
  data !! tail = Some x ->
  ring_contents n data head tail = x :: ring_contents n data head ((tail + 1) mod n)%nat.
Proof.
  intros Hlen Hh Ht Hne Hx. unfold ring_contents.
  assert (Hn : (0 < n)%nat) by lia.
  assert (Hsz : ((head + n - tail) mod n
                 = S ((head + n - (tail + 1) mod n) mod n))%nat).
  { rewrite (mod_cases (tail + 1) n) by lia.
    destruct (Nat.ltb_spec (tail + 1) n); rewrite !mod_cases by lia;
      repeat match goal with |- context [(?a <? ?b)%nat] => destruct (Nat.ltb_spec a b) end;
      lia. }
  rewrite Hsz. cbn [seq omap list_omap].
  rewrite Nat.add_0_r, Nat.mod_small, Hx by lia. f_equal.
  apply omap_seq_shift. intros k. f_equal.
  rewrite Nat.Div0.add_mod_idemp_l. f_equal. lia.
Qed.

Lemma count_markers_nonneg l : 0 <= count_markers l.
Proof.
  induction l as [|ev l IH]; [easy|].
  unfold count_markers in *. cbn. destruct (begins_move_segment ev); cbn; lia.
Qed.

Lemma count_markers_cons ev l :
  count_markers (ev :: l) = Z.b2z (begins_move_segment ev) + count_markers l.
Proof. reflexivity. Qed.

(** Taking the oldest step event off the queue. *)
Lemma discard_current_step_event_contents q slot ev :
  step_event_queue_wf q ->
  get_current_step_event q = Some slot ->
  sq_data q !! slot = Some ev ->
  step_event_queue_wf (discard_current_step_event q)
  /\ step_event_queue_contents q = ev :: step_event_queue_contents (discard_current_step_event q).
Proof.
  intros (Hlen & Hh & Ht). unfold get_current_step_event, discard_current_step_event.
  destruct (Nat.eqb_spec (sq_tail q) (sq_head q)) as [|Hne]; [discriminate|].
  intros [= <-] Hev. split.
  - unfold step_event_queue_wf, step_event_queue_next_index. cbn.
    split_and!; try easy. apply Nat.mod_upper_bound. lia.
  - rewrite !step_event_queue_contents_ring. cbn. now apply ring_pop.
Qed.

(** Retiring the move segment at [tail] when the generators are through
    with it. *)
Lemma discard_current_move_segment_cursors q :
  cursors_in_order q ->
  (1 <= ring_distance (mq_tail q) (mq_unprocessed_tail q))%nat ->
  let q' := discard_current_move_segment q in
  cursors_in_order q'
  /\ get_current_move_segment q = Some (mq_tail q)
  /\ segments_to_retire q' = segments_to_retire q - 1.
Proof.
  intros ((Hlen & Hh & Ht) & Hut & Hord) Hpos.
  unfold discard_current_move_segment, get_current_move_segment.
  destruct (Nat.eqb_spec (mq_tail q) (mq_head q)) as [E|Hne].
  { exfalso. rewrite <- E in Hord. unfold ring_distance in *.
    replace (mq_tail q + MOVE_SEGMENT_QUEUE_SIZE - mq_tail q)%nat
      with (1 * MOVE_SEGMENT_QUEUE_SIZE)%nat in Hord by lia.
    rewrite Nat.Div0.mod_mul in Hord. lia. }
  cbv zeta. unfold cursors_in_order, move_segment_queue_wf, segments_to_retire. cbn.
  unfold ring_distance, move_segment_queue_next_index in *.
  repeat match goal with
         | H : context [(?a mod MOVE_SEGMENT_QUEUE_SIZE)%nat] |- _ =>
             rewrite (mod_cases a MOVE_SEGMENT_QUEUE_SIZE) in H by lia
         | |- context [(?a mod MOVE_SEGMENT_QUEUE_SIZE)%nat] =>
             rewrite (mod_cases a MOVE_SEGMENT_QUEUE_SIZE) by lia
         | H : context [(?a <? ?b)%nat] |- _ => destruct (Nat.ltb_spec a b)
         | |- context [(?a <? ?b)%nat] => destruct (Nat.ltb_spec a b)
         end;
    split_and!; try easy; lia.
Qed.

(** The Step-ISR consumer keeps the balance of markers. *)
Lemma process_one_step_event_from_queue_markers st ticks st' :
  process_one_step_event_from_queue st = Some (ticks, st') ->
  markers_balanced (engine st) -> markers_balanced (engine st').
Proof.
  intros H Hb.
  destruct (get_current_step_event (step_event_queue (engine st))) as [slot|] eqn:Hcur.
  2:{ unfold process_one_step_event_from_queue in H. rewrite Hcur in H.
      injection H as <- <-. cbn.
      apply (markers_balanced_view (engine st)); [reflexivity|apply Hb|exact Hb]. }
  destruct (sq_data (step_event_queue (engine st)) !! slot) as [ev|] eqn:Hev.
  2:{ unfold process_one_step_event_from_queue in H. rewrite Hcur in H.
      cbn [mbind option_bind] in H. now rewrite Hev in H. }
  destruct (process_one_step_event_from_queue_engine _ _ _ _ _ Hcur Hev H)
    as (st1 & Eret & He' & _).
  destruct Hb as (Hc & Hq & Hbal & Hl & Hs & Hp & Hu).
  destruct (discard_current_step_event_contents _ _ _ Hq Hcur Hev) as (Hq' & Hcont).
  unfold markers_pending in Hbal. rewrite Hcont, count_markers_cons in Hbal.
  pose proof (count_markers_nonneg
                (step_event_queue_contents
                   (discard_current_step_event (step_event_queue (engine st))))) as Hnn.
  unfold begins_move_segment in Hbal at 2.
  destruct (Z.land (flags ev) STEP_EVENT_FLAG_BEGINNING_OF_MOVE_SEGMENT =? 0).
  - injection Eret as <-.
    unfold markers_balanced, markers_pending. rewrite He'.
    cbn [negb Z.b2z] in Hbal. cbn.
    split_and!; easy.
  - apply retire_move_segment_view in Eret as (cur & m & _ & _ & He1 & _ & _).
    cbn [negb Z.b2z] in Hbal.
    assert (Hpos : (1 <= ring_distance (mq_tail (move_segment_queue (engine st)))
                          (mq_unprocessed_tail (move_segment_queue (engine st))))%nat).
    { unfold segments_to_retire in Hbal.
      destruct (begins_move_segment (buffered_step _)); cbn [Z.b2z] in Hbal; lia. }
    destruct (discard_current_move_segment_cursors _ Hc Hpos) as (Hc' & _ & Hseg).
    unfold markers_balanced, markers_pending. rewrite He', He1. cbn.
    split_and!; try easy. rewrite Hseg. lia.
Qed.

(** Once the marker of a step event is dealt with, the call returns: the
    queue it reads the next event from is laid out as expected. *)
Lemma process_one_step_event_from_queue_rest st slot ev st1 :
  step_event_queue_wf (step_event_queue (engine st)) ->
  get_current_step_event (step_event_queue (engine st)) = Some slot ->
  sq_data (step_event_queue (engine st)) !! slot = Some ev ->
  (if Z.land (flags ev) STEP_EVENT_FLAG_BEGINNING_OF_MOVE_SEGMENT =? 0 then Some st
   else retire_move_segment st) = Some st1 ->
  is_Some (process_one_step_event_from_queue st).
Proof.
  intros Hq Hcur Hev Eret.
  assert (Hq1 : step_event_queue (engine st1) = step_event_queue (engine st)).
  { destruct (Z.land (flags ev) STEP_EVENT_FLAG_BEGINNING_OF_MOVE_SEGMENT =? 0).
    - now injection Eret as <-.
    - apply retire_move_segment_view in Eret as (cur & m & _ & _ & He & _). now rewrite He. }
  destruct (discard_current_step_event_contents _ _ _ Hq Hcur Hev) as ((Hlen & Hh & Ht) & _).
  unfold process_one_step_event_from_queue. rewrite Hcur.
  cbn [mbind option_bind]. rewrite Hev. cbn [mbind option_bind]. rewrite Eret.
  cbn [mbind option_bind]. cbv zeta.
  match goal with
  | |- context [step_axis E_AXIS ?f (step_axis Z_AXIS ?f (step_axis Y_AXIS ?f (step_axis X_AXIS ?f ?x)))] =>
      set (st3 := x);
      set (st4 := step_axis E_AXIS f (step_axis Z_AXIS f (step_axis Y_AXIS f (step_axis X_AXIS f st3))))
  end.
  assert (Hq4 : step_event_queue (engine st4)
                = discard_current_step_event (step_event_queue (engine st))).
  { subst st4. rewrite step_axes_engine. cbn. subst st3. rewrite <- Hq1.
    destruct (uint8 _ =? 0); [reflexivity|]. now rewrite !apply_changed_dir_engine. }
  rewrite Hq4.
  destruct (get_current_step_event (discard_current_step_event _)) as [next|] eqn:En.
  - unfold get_current_step_event in En.
    destruct (Nat.eqb _ _); [discriminate|]. injection En as <-.
    destruct (lookup_lt_is_Some_2
                (sq_data (discard_current_step_event (step_event_queue (engine st))))
                (sq_tail (discard_current_step_event (step_event_queue (engine st)))))
      as [nev Hn]; [lia|].
    rewrite Hn. cbn [mbind option_bind]. eauto.
  - destruct (Z.land (flags ev) STEP_EVENT_END_OF_MOTION =? 0); eauto.
Qed.

(** *** The engine in any interleaving of its parts *)

Lemma isr_step_markers st st' :
  marker_flag_wf -> restart_keeps_markers ->
  isr_step st st' -> markers_balanced (engine st) -> markers_balanced (engine st').
Proof.
  intros Hwf Hrs [st0 r s' H|st0 now Hrun|st0 ticks st1 H] Hb.
  - cbn. now apply (process_one_move_segment_from_queue_markers _ _ _ Hwf Hrs H).
  - cbn. eapply markers_balanced_queued; [|exact Hb].
    now apply process_queue_of_blocks_queued.
  - now apply (process_one_step_event_from_queue_markers _ _ _ H).
Qed.

(** X25: [process_one_move_segment_from_queue] keeps the balance of
    markers. With a BeginningOfMoveSegment flag of one bit that lies in the
    merge mask and is no axis bit, and a [step_generator_state_restart] that
    leaves the merger's markers alone: if every move segment between [tail]
    and [unprocessed_tail] has exactly one marker owed, buffered or queued
    before the call, the same holds after it. *)
Theorem process_one_move_segment_from_queue_balance (s : state) (r : StepGeneratorStatus)
    (s' : state) :
  marker_flag_wf -> restart_keeps_markers ->
  markers_balanced s ->
  process_one_move_segment_from_queue s = Some (r, s') ->
  markers_balanced s'.
Proof.
  intros Hwf Hrs Hb H. now apply (process_one_move_segment_from_queue_markers _ _ _ Hwf Hrs H).
Qed.

(** X26: the Step-ISR consumer keeps the balance of markers, and a marker
    it meets always has its move segment: when the oldest step event carries
    the BeginningOfMoveSegment flag, the move segment at [tail] is one the
    generators are through with, so [tail] never passes
    [unprocessed_tail]. *)
Theorem process_one_step_event_from_queue_balance st ticks st' :
  markers_balanced (engine st) ->
  process_one_step_event_from_queue st = Some (ticks, st') ->
  markers_balanced (engine st')
  /\ forall slot ev,
       get_current_step_event (step_event_queue (engine st)) = Some slot ->
       sq_data (step_event_queue (engine st)) !! slot = Some ev ->
       begins_move_segment ev = true ->
       mq_tail (move_segment_queue (engine st))
       <> mq_unprocessed_tail (move_segment_queue (engine st))
       /\ get_current_move_segment (move_segment_queue (engine st))
          = Some (mq_tail (move_segment_queue (engine st)))
       /\ segments_to_retire (move_segment_queue (engine st'))
          = segments_to_retire (move_segment_queue (engine st)) - 1.
Proof.
  intros Hb H. split; [now apply (process_one_step_event_from_queue_markers _ _ _ H)|].
  intros slot ev Hcur Hev Hbeg.
  destruct (process_one_step_event_from_queue_engine _ _ _ _ _ Hcur Hev H)
    as (st1 & Eret & He' & _).
  destruct Hb as (Hc & Hq & Hbal & Hl & _).
  destruct (discard_current_step_event_contents _ _ _ Hq Hcur Hev) as (_ & Hcont).
  unfold markers_pending in Hbal. rewrite Hcont, count_markers_cons, Hbeg in Hbal.
  pose proof (count_markers_nonneg
                (step_event_queue_contents
                   (discard_current_step_event (step_event_queue (engine st))))) as Hnn.
  assert (Hpos : (1 <= ring_distance (mq_tail (move_segment_queue (engine st)))
                        (mq_unprocessed_tail (move_segment_queue (engine st))))%nat).
  { unfold segments_to_retire in Hbal.
    destruct (begins_move_segment (buffered_step _)); cbn [Z.b2z] in Hbal; lia. }
  destruct (discard_current_move_segment_cursors _ Hc Hpos) as (_ & Hget & Hseg).
  split; [|split; [exact Hget|]].
  - intros E. rewrite <- E in Hpos. unfold ring_distance in Hpos.
    replace (mq_tail (move_segment_queue (engine st)) + MOVE_SEGMENT_QUEUE_SIZE
             - mq_tail (move_segment_queue (engine st)))%nat
      with (1 * MOVE_SEGMENT_QUEUE_SIZE)%nat in Hpos
      by (destruct Hc as ((_ & _ & ?) & _); lia).
    rewrite Nat.Div0.mod_mul in Hpos. lia.
  - unfold begins_move_segment in Hbeg. apply negb_true_iff in Hbeg. rewrite Hbeg in Eret.
    apply retire_move_segment_view in Eret as (cur & m & _ & _ & He1 & _ & _).
    rewrite He', He1. cbn. exact Hseg.
Qed.

(** X27: with the markers in balance the Step-ISR reads no missing step
    event and no missing move segment. A call of
    [process_one_step_event_from_queue] has a result unless the oldest step
    event carries the marker, the move segment at [tail] is the last of its
    block, and the planner has no processed block to free. *)
Theorem process_one_step_event_from_queue_returns st :
  markers_balanced (engine st) ->
  process_one_step_event_from_queue st = None ->
  exists slot ev m,
    get_current_step_event (step_event_queue (engine st)) = Some slot
    /\ sq_data (step_event_queue (engine st)) !! slot = Some ev
    /\ begins_move_segment ev = true
    /\ mq_data (move_segment_queue (engine st)) !! mq_tail (move_segment_queue (engine st))
       = Some m
    /\ Z.land (mflags m) MOVE_FLAG_LAST_MOVE_SEGMENT_OF_BLOCK <> 0
    /\ get_current_processed_block (planner (engine st)) = None.
Proof.
  intros Hb Hnone.
  destruct (get_current_step_event (step_event_queue (engine st))) as [slot|] eqn:Hcur.
  2:{ unfold process_one_step_event_from_queue in Hnone. now rewrite Hcur in Hnone. }
  destruct Hb as (Hc & Hq & Hbal & Hl & _).
  assert (Hslot : (slot < length (sq_data (step_event_queue (engine st))))%nat).
  { unfold get_current_step_event in Hcur. destruct (Nat.eqb _ _); [discriminate|].
    injection Hcur as <-. destruct Hq as (-> & _ & ?). easy. }
  destruct (lookup_lt_is_Some_2 _ _ Hslot) as [ev Hev].
  destruct (if Z.land (flags ev) STEP_EVENT_FLAG_BEGINNING_OF_MOVE_SEGMENT =? 0
            then Some st else retire_move_segment st) as [st1|] eqn:Eret.
  { destruct (process_one_step_event_from_queue_rest _ _ _ _ Hq Hcur Hev Eret) as [r Hr].
    congruence. }
  destruct (Z.land (flags ev) STEP_EVENT_FLAG_BEGINNING_OF_MOVE_SEGMENT =? 0) eqn:Em;
    [discriminate|].
  assert (Hbeg : begins_move_segment ev = true)
    by (unfold begins_move_segment; now rewrite Em).
  destruct (discard_current_step_event_contents _ _ _ Hq Hcur Hev) as (_ & Hcont).
  unfold markers_pending in Hbal. rewrite Hcont, count_markers_cons, Hbeg in Hbal.
  pose proof (count_markers_nonneg
                (step_event_queue_contents
                   (discard_current_step_event (step_event_queue (engine st))))) as Hnn.
  assert (Hpos : (1 <= ring_distance (mq_tail (move_segment_queue (engine st)))
                        (mq_unprocessed_tail (move_segment_queue (engine st))))%nat).
  { unfold segments_to_retire in Hbal.
    destruct (begins_move_segment (buffered_step _)); cbn [Z.b2z] in Hbal; lia. }
  destruct (discard_current_move_segment_cursors _ Hc Hpos) as (_ & Hget & _).
  destruct Hc as ((Hlen & _ & Ht) & _).
  destruct (lookup_lt_is_Some_2 (mq_data (move_segment_queue (engine st)))
              (mq_tail (move_segment_queue (engine st)))) as [m Hm]; [lia|].
  unfold retire_move_segment in Eret. rewrite Hget in Eret.
  cbn [mbind option_bind] in Eret. rewrite Hm in Eret. cbn [mbind option_bind] in Eret.
  destruct (Z.eqb_spec (Z.land (mflags m) MOVE_FLAG_LAST_MOVE_SEGMENT_OF_BLOCK) 0) as [|Hlast];
    [discriminate|].
  destruct (get_current_processed_block _) as [blk|] eqn:Eblk; [discriminate|].
  now exists slot, ev, m.
Qed.

(** X28: the balance of markers is an invariant of the engine while the
    motion goes on. Over any interleaving of passes of the Move-ISR
    producer, calls of [process_queue_of_blocks] that do not reset from a
    halt, and calls of the Step-ISR consumer, every move segment from [tail]
    up to [unprocessed_tail] keeps exactly one BeginningOfMoveSegment marker
    that is owed by the merger, buffered, or in the step event queue. *)
Theorem isr_steps_balance st st' :
  marker_flag_wf -> restart_keeps_markers ->
  markers_balanced (engine st) ->
  rtc isr_step st st' ->
  markers_balanced (engine st').
Proof.
  intros Hwf Hrs Hb Hrun. induction Hrun as [st|st st1 st' Hstep _ IH]; [exact Hb|].
  apply IH. now apply (isr_step_markers st).
Qed.

End MarkerConsumer.

(** ** The Move-ISR *)

Section MoveIsrProperties.

Context `{cfg : Config}.

(** *** What the producer leaves alone *)

Lemma move_segment_processed_handler_rest s :
  engine_rest (move_segment_processed_handler s) = engine_rest s.
Proof.
  unfold move_segment_processed_handler.
  destruct (get_current_unprocessed_move_segment _) as [mv|]; [|easy].
  destruct (_ !! mv) as [m|]; [|easy].
  now destruct (_ =? 0).
Qed.

Lemma classic_step_generator_next_step_event_loop_rest fuel a ft s ev s' :
  classic_step_generator_next_step_event_loop fuel a ft s = Some (ev, s') ->
  engine_rest s' = engine_rest s.
Proof.
  revert s. induction fuel as [|fuel IH]; intros s H; [discriminate|].
  cbn [classic_step_generator_next_step_event_loop] in H.
  destruct (current_move _) as [cur|]; [|discriminate].
  cbn [mbind option_bind] in H.
  destruct (_ !! cur) as [move|]; [|discriminate].
  cbn [mbind option_bind] in H.
  destruct (_ || _) in H.
  - destruct (move_segment_queue_next_move _ cur) as [next|].
    + destruct (_ !! next) as [current|]; [|discriminate].
      cbn [mbind option_bind] in H. apply IH in H.
      now rewrite H, move_segment_processed_handler_rest.
    + now injection H as <- <-.
  - destruct (_ <? _)%float in H; now injection H as <- <-.
Qed.

Lemma generate_next_step_event_rest ev0 ft s d ev s' :
  generate_next_step_event ev0 ft s = Some (d, ev, s') -> engine_rest s' = engine_rest s.
Proof.
  unfold generate_next_step_event. cbv zeta. intros H.
  match type of H with
  | (?o ≫= _) = _ => destruct o as [[ev1 s1]|] eqn:E1; [|discriminate]
  end.
  cbn [mbind option_bind] in H.
  assert (H1 : engine_rest s1 = engine_rest s).
  { destruct (_ && _); [|now injection E1 as <- <-].
    destruct (double_to_int32 _); [|discriminate]. cbn [mbind option_bind] in E1.
    destruct (_ =? 0); now injection E1 as <- <-. }
  unfold step_generator_next_step_event in H.
  destruct (xyze_get (next_step_func _) _) as [[]|]; [|discriminate].
  destruct (xyze_get (step_generator _) _) as [g|]; [|discriminate].
  cbn [mbind option_bind] in H.
  destruct (classic_step_generator_next_step_event _ _ _) as [[nev s2]|] eqn:E2;
    [|discriminate].
  cbn [mbind option_bind] in H. injection H as <- <- <-.
  apply classic_step_generator_next_step_event_loop_rest in E2.
  now rewrite <- H1, <- E2.
Qed.

Lemma buffer_step_event_rest nse new s s' :
  buffer_step_event nse new s = Some s' -> engine_rest s' = engine_rest s.
Proof.
  unfold buffer_step_event. intros H.
  destruct (_ =? 0); [now injection H as <-|].
  destruct (_ =? 0); [now injection H as <-|].
  destruct (_ && _); [now injection H as <-|].
  destruct nse as [[slot nh]|]; [|discriminate]. now injection H as <-.
Qed.

Lemma produce_step_events_rest n ft s r s' :
  produce_step_events n ft s = Some (r, s') -> engine_rest s' = engine_rest s.
Proof.
  revert s. induction n as [|n IH]; intros s H; [now injection H as <- <-|].
  cbn [produce_step_events] in H.
  destruct (_ && _); [now injection H as <- <-|].
  destruct (generate_next_step_event _ ft s) as [[[d ev] s1]|] eqn:Eg; [|discriminate].
  cbn [mbind option_bind] in H.
  destruct (buffer_step_event _ ev s1) as [s2|] eqn:Eb; [|discriminate].
  cbn [mbind option_bind] in H.
  apply generate_next_step_event_rest in Eg. apply buffer_step_event_rest in Eb.
  destruct d; [injection H as <- <-; congruence|].
  apply IH in H. congruence.
Qed.

Lemma append_move_discarding_step_event_rest extra s :
  engine_rest (snd (append_move_discarding_step_event extra s)) = engine_rest s.
Proof.
  unfold append_move_discarding_step_event.
  now destruct (get_next_free_step_event _) as [[slot nh]|].
Qed.

Lemma append_pending_discarding_step_events_rest fuel s :
  engine_rest (append_pending_discarding_step_events fuel s) = engine_rest s.
Proof.
  revert s. induction fuel as [|fuel IH]; intros s; [reflexivity|].
  cbn [append_pending_discarding_step_events].
  destruct (0 <? _); [|reflexivity].
  pose proof (append_move_discarding_step_event_rest 0 s) as Ha.
  destruct (append_move_discarding_step_event 0 s) as [[|] s1]; cbn [snd] in Ha; [|exact Ha].
  now rewrite IH.
Qed.

Lemma finish_ending_move_rest s r s' :
  finish_ending_move s = Some (r, s') -> engine_rest s' = engine_rest s.
Proof.
  unfold finish_ending_move. intros H.
  destruct (get_current_unprocessed_move_segment _) as [um|]; [|now injection H as <- <-].
  destruct (_ !! um) as [m|]; [|discriminate].
  cbn [mbind option_bind] in H.
  destruct (is_ending_empty_move m); [|now injection H as <- <-].
  cbv zeta in H.
  match type of H with
  | match ?f with _ => _ end = _ => destruct f as [sf|] eqn:Ef
  end; [|now injection H as <- <-].
  assert (Hf : engine_rest sf = engine_rest s).
  { destruct (_ =? 0); [now injection Ef as <-|].
    destruct (get_next_free_step_event _) as [[slot nh]|]; [|discriminate].
    now injection Ef as <-. }
  injection H as <- <-.
  set (s2 := append_pending_discarding_step_events _ sf).
  assert (H2 : engine_rest s2 = engine_rest s)
    by (unfold s2; now rewrite append_pending_discarding_step_events_rest).
  destruct (left_insert_start_of_move_segment (step_generator_state s2) =? 0); [|exact H2].
  destruct (is_step_event_queue_full _); [exact H2|].
  now rewrite append_move_discarding_step_event_rest.
Qed.

Lemma step_generator_reset_reached_end_rest i s s' :
  step_generator_reset_reached_end i s = Some s' -> engine_rest s' = engine_rest s.
Proof.
  unfold step_generator_reset_reached_end.
  destruct (xyze_get _ i) as [g|]; [|discriminate]. now intros [= <-].
Qed.

Lemma classic_step_generator_init_rest move a s s' :
  classic_step_generator_init move a s = Some s' -> engine_rest s' = engine_rest s.
Proof.
  unfold classic_step_generator_init.
  destruct (_ !! move) as [m|]; [|discriminate].
  cbn [mbind option_bind]. now intros [= <-].
Qed.

Lemma step_generator_state_init_rest move s s' :
  step_generator_state_init move s = Some s' -> engine_rest s' = engine_rest s.
Proof.
  unfold step_generator_state_init. intros H.
  destruct (_ !! move) as [m|]; [|discriminate].
  cbn [mbind option_bind] in H.
  destruct (_ <? _)%float; [discriminate|]. cbv zeta in H.
  match type of H with
  | context [step_generator_reset_reached_end X_AXIS ?x] => set (s0 := x) in H
  end.
  assert (H0 : engine_rest s0 = engine_rest s) by reflexivity.
  clearbody s0.
  repeat match type of H with
         | context [step_generator_reset_reached_end ?i ?x] =>
             let E := fresh "E" in
             destruct (step_generator_reset_reached_end i x) as [?s|] eqn:E;
             [apply step_generator_reset_reached_end_rest in E|discriminate];
             cbn [mbind option_bind] in H
         end.
  repeat match type of H with
         | context [classic_step_generator_init ?mv ?a ?x] =>
             let E := fresh "E" in
             destruct (classic_step_generator_init mv a x) as [?s|] eqn:E;
             [apply classic_step_generator_init_rest in E|discriminate];
             cbn [mbind option_bind] in H
         end.
  injection H as <-.
  change (engine_rest s8 = engine_rest s). congruence.
Qed.

(** [process_one_move_segment_from_queue] writes the two queues, the
    merger's state and the generators, and nothing else. *)
Lemma process_one_move_segment_from_queue_rest s r s' :
  process_one_move_segment_from_queue s = Some (r, s') -> engine_rest s' = engine_rest s.
Proof.
  unfold process_one_move_segment_from_queue. intros H.
  match type of H with
  | (?o ≫= _) = _ => destruct o as [[pr s1]|] eqn:E1; [|discriminate]
  end.
  cbn [mbind option_bind] in H.
  assert (H1 : engine_rest s1 = engine_rest s).
  { destruct (get_current_unprocessed_move_segment _) as [move|];
      [|now injection E1 as <- <-].
    destruct (if initialized _ then _ else _) as [s0|] eqn:E0; [|discriminate].
    cbn [mbind option_bind] in E1. cbv zeta in E1.
    assert (H0 : engine_rest s0 = engine_rest s).
    { destruct (initialized _); [now injection E0 as <-|].
      now apply step_generator_state_init_rest in E0. }
    destruct (step_generator_state_restart _ _) as [sgs pool].
    apply produce_step_events_rest in E1. now rewrite E1. }
  destruct pr as [|[|n]].
  - now injection H as <- <-.
  - apply finish_ending_move_rest in H. congruence.
  - now injection H as <- <-.
Qed.

(** *** What block intake leaves alone *)

Lemma intake_frame_refl s : intake_frame s s.
Proof. unfold intake_frame. split_and!; try easy; lia. Qed.

Lemma intake_frame_trans s1 s2 s3 :
  intake_frame s1 s2 -> intake_frame s2 s3 -> intake_frame s1 s3.
Proof.
  intros (Hq1 & Ht1 & Hl1) (Hq2 & Ht2 & Hl2). unfold intake_frame.
  split_and!; try congruence; lia.
Qed.

Lemma intake_frame_ext s s' :
  step_event_queue s' = step_event_queue s -> ticks_per_sec s' = ticks_per_sec s ->
  block_buffer (planner s') = block_buffer (planner s) ->
  intake_frame s s'.
Proof. intros Hq Ht Hp. unfold intake_frame. rewrite Hq, Ht, Hp. split_and!; try easy; lia. Qed.

Lemma discard_current_unprocessed_block_buffer p :
  block_buffer (discard_current_unprocessed_block p) = block_buffer p.
Proof. unfold discard_current_unprocessed_block. now destruct (bool_decide _). Qed.

Lemma append_move_segment_to_queue_intake mt sv ha pt ar sp fl s :
  intake_frame s (snd (append_move_segment_to_queue mt sv ha pt ar sp fl s)).
Proof.
  unfold append_move_segment_to_queue.
  destruct (get_next_free_move_segment _) as [[m h]|]; [|apply intake_frame_refl].
  now apply intake_frame_ext.
Qed.

Lemma append_move_segments_to_queue_intake b s :
  intake_frame s (snd (append_move_segments_to_queue b s)).
Proof.
  unfold append_move_segments_to_queue.
  destruct (_ <? _); [apply intake_frame_refl|].
  destruct (fneq (accel_dist _) 0), (fneq (cruise_dist _) 0), (fneq (decel_dist _) 0);
    cbv zeta; cbn [snd];
    match goal with
    | |- intake_frame s
           (reset_reached_end_of_move_queue_flag
              (set_total_print_time _
                 (set_total_start_pos _ (set_total_start_pos_steps _ ?x)))) =>
        apply (intake_frame_trans s x); [|now apply intake_frame_ext]
    end;
    repeat first
      [ apply intake_frame_refl
      | eapply intake_frame_trans; [|apply append_move_segment_to_queue_intake] ].
Qed.

Lemma fetch_next_block_intake fuel s : intake_frame s (snd (fetch_next_block fuel s)).
Proof.
  revert s. induction fuel as [|fuel IH]; intros s; cbn [fetch_next_block].
  - destruct (get_current_unprocessed_block _) as [b|]; [|apply intake_frame_refl].
    destruct (is_move b); apply intake_frame_refl.
  - destruct (get_current_unprocessed_block _) as [b|]; [|apply intake_frame_refl].
    destruct (is_move b); [apply intake_frame_refl|].
    destruct (_ =? _)%float.
    + eapply intake_frame_trans; [|apply IH].
      unfold intake_frame. cbn. rewrite discard_current_unprocessed_block_buffer. cbn.
      split_and!; try easy. destruct (block_buffer (planner s)); cbn; lia.
    + unfold append_block_discarding_move.
      destruct (get_next_free_move_segment _) as [[m h]|]; [|apply intake_frame_refl].
      eapply intake_frame_trans; [|apply IH].
      apply intake_frame_ext; try easy. cbn.
      now rewrite discard_current_unprocessed_block_buffer.
Qed.

(** [process_queue_of_blocks], halt or not, leaves the step event queue and
    the tick rate alone and adds no block to the planner. *)
Lemma process_queue_of_blocks_intake now s : intake_frame s (process_queue_of_blocks now s).
Proof.
  unfold process_queue_of_blocks.
  assert (Hw : intake_frame s (snd (is_waiting_before_delivering now s))).
  { unfold is_waiting_before_delivering.
    repeat match goal with
           | |- context [if ?c then _ else _] => destruct c
           end; cbn; now apply intake_frame_ext. }
  destruct (is_waiting_before_delivering now s) as [w s1]. cbn [snd] in Hw.
  destruct w; [exact Hw|].
  eapply intake_frame_trans; [exact Hw|].
  assert (Hh : match (if (MAX_PRINT_TIME <=? total_print_time s1)%float
                      then if has_blocks_queued s1 then None else Some (reset_from_halt s1)
                      else Some s1) with
               | Some s2 => intake_frame s1 s2
               | None => True
               end).
  { destruct (_ <=? _)%float; [|apply intake_frame_refl].
    destruct (has_blocks_queued s1); [exact I|]. now apply intake_frame_ext. }
  destruct (if (MAX_PRINT_TIME <=? total_print_time s1)%float then _ else _) as [s2|];
    [|apply intake_frame_refl].
  eapply intake_frame_trans; [exact Hh|].
  pose proof (fetch_next_block_intake (length (block_buffer (planner s2))) s2) as Hf.
  destruct (fetch_next_block _ s2) as [[|[b|]] s3]; cbn [snd] in Hf; [exact Hf| |].
  - eapply intake_frame_trans; [exact Hf|].
    assert (Hs : match (if (total_print_time s3 =? 0)%float
                        then match append_beginning_empty_move s3 with
                             | (None, _) => None
                             | (Some _, s0) => Some s0
                             end
                        else Some s3) with
                 | Some s4 => intake_frame s3 s4
                 | None => True
                 end).
    { destruct (_ =? _)%float; [|apply intake_frame_refl].
      unfold append_beginning_empty_move.
      destruct (get_next_free_move_segment _) as [[m h]|]; [|exact I].
      now apply intake_frame_ext. }
    destruct (if (total_print_time s3 =? 0)%float then _ else _) as [s4|];
      [|apply intake_frame_refl].
    eapply intake_frame_trans; [exact Hs|].
    pose proof (append_move_segments_to_queue_intake b s4) as Ha.
    destruct (append_move_segments_to_queue b s4) as [[|] s5]; cbn [snd] in Ha; [|exact Ha].
    eapply intake_frame_trans; [exact Ha|].
    apply intake_frame_ext; try easy. cbn.
    now rewrite discard_current_unprocessed_block_buffer.
  - eapply intake_frame_trans; [exact Hf|].
    destruct (_ && _); [|apply intake_frame_refl].
    unfold append_ending_empty_move.
    destruct (get_next_free_move_segment _) as [[m h]|]; [|apply intake_frame_refl].
    now apply intake_frame_ext.
Qed.

(** *** [move_isr] *)

(** One pass of the producer only appends step events, none of them
    empty. *)
Lemma process_one_move_segment_from_queue_appends s r s' :
  STEP_EVENT_FLAG_BEGINNING_OF_MOVE_SEGMENT <> 0 ->
  step_event_queue_wf (step_event_queue s) ->
  process_one_move_segment_from_queue s = Some (r, s') ->
  step_event_queue_wf (step_event_queue s')
  /\ producer_writes (fun ev => flags ev <> 0) s s'.
Proof.
  intros Hbegin Hwf H.
  pose (P := fun ev : step_event_t => flags ev <> 0).
  assert (Hd : forall sf extra,
             P (StepEvent 0 (Z.lor (Z.lor sf STEP_EVENT_FLAG_BEGINNING_OF_MOVE_SEGMENT) extra))).
  { intros sf extra. unfold P. cbn. rewrite !Z.lor_eq_0_iff. tauto. }
  assert (Hm : forall b n, P b -> flags b <> 0 ->
             P (StepEvent (time_ticks b) (Z.lor (flags b) (flags n)))).
  { intros b n _ Hb. unfold P. cbn. rewrite Z.lor_eq_0_iff. tauto. }
  assert (Hg : forall ev0 ft s0 d ev s1,
             ticks_per_sec s0 = ticks_per_sec s ->
             generate_next_step_event ev0 ft s0 = Some (d, ev, s1) ->
             flags ev <> 0 -> P ev) by (intros; assumption).
  assert (Hr : forall sgs pool,
             (flags (buffered_step sgs) <> 0 -> P (buffered_step sgs)) ->
             flags (buffered_step (fst (step_generator_state_restart sgs pool))) <> 0 ->
             P (buffered_step (fst (step_generator_state_restart sgs pool))))
    by (intros; assumption).
  assert (Hinv : producer_inv P (ticks_per_sec s) s) by (unfold producer_inv, P; tauto).
  destruct (process_one_move_segment_from_queue_writes P (ticks_per_sec s)
              Hd Hm Hg Hr s r s' Hinv H) as [(Hwf' & _) Hw].
  now split.
Qed.

Lemma process_queue_of_blocks_appends now s :
  step_event_queue_wf (step_event_queue s) ->
  step_event_queue_wf (step_event_queue (process_queue_of_blocks now s))
  /\ producer_writes (fun ev => flags ev <> 0) s (process_queue_of_blocks now s).
Proof.
  intros Hwf. destruct (process_queue_of_blocks_intake now s) as (Hq & _).
  rewrite Hq. split; [exact Hwf|]. now apply producer_writes_refl.
Qed.

Lemma planner_rest s s' : engine_rest s' = engine_rest s -> planner s' = planner s.
Proof. unfold engine_rest. now intros [= _ _ _ _ _ _ _ _ _ _ -> _]. Qed.

Lemma move_isr_loop_appends fuel i now s s' :
  STEP_EVENT_FLAG_BEGINNING_OF_MOVE_SEGMENT <> 0 ->
  step_event_queue_wf (step_event_queue s) ->
  move_isr_loop fuel i now s = Some s' ->
  step_event_queue_wf (step_event_queue s')
  /\ producer_writes (fun ev => flags ev <> 0) s s'
  /\ (length (block_buffer (planner s')) <= length (block_buffer (planner s)))%nat.
Proof.
  intros Hbegin. revert i s. induction fuel as [|fuel IH]; intros i s Hwf H.
  - cbn [move_isr_loop] in H. destruct (_ <=? _); [discriminate|]. injection H as <-.
    split; [exact Hwf|]. split; [now apply producer_writes_refl|lia].
  - cbn [move_isr_loop] in H. destruct (_ <=? _).
    2:{ injection H as <-. split; [exact Hwf|]. split; [now apply producer_writes_refl|lia]. }
    cbv zeta in H.
    destruct (process_queue_of_blocks_appends (now i) s Hwf) as (Hwf1 & Hw1).
    destruct (process_queue_of_blocks_intake (now i) s) as (_ & _ & Hl1).
    set (s1 := process_queue_of_blocks (now i) s) in *.
    destruct (negb _).
    { injection H as <-. easy. }
    destruct (process_one_move_segment_from_queue s1) as [[status s2]|] eqn:E2;
      [|discriminate].
    cbn [mbind option_bind] in H.
    pose proof (planner_rest _ _ (process_one_move_segment_from_queue_rest _ _ _ E2)) as Hp2.
    apply process_one_move_segment_from_queue_appends in E2 as (Hwf2 & Hw2); try easy.
    assert (H2 : step_event_queue_wf (step_event_queue s2)
                 /\ producer_writes (fun ev => flags ev <> 0) s s2
                 /\ (length (block_buffer (planner s2))
                     <= length (block_buffer (planner s)))%nat).
    { split; [exact Hwf2|]. split; [eauto using producer_writes_trans|]. now rewrite Hp2. }
    destruct status; try (injection H as <-; exact H2).
    apply IH in H as (Hwf3 & Hw3 & Hl3); [|exact Hwf2].
    destruct H2 as (_ & Hw02 & Hl2).
    split; [exact Hwf3|]. split; [eauto using producer_writes_trans|lia].
Qed.

(** X29: the Move-ISR is a producer only. A run of [move_isr] does nothing
    when [stop_pending] is set; otherwise the step event queue holds what it
    held, untouched and in the same order, followed by the events the run
    appended, none of which has empty flags; and the planner has no more
    blocks than before. *)
Theorem move_isr_appends (now : nat -> Z) (s s' : state) :
  STEP_EVENT_FLAG_BEGINNING_OF_MOVE_SEGMENT <> 0 ->
  step_event_queue_wf (step_event_queue s) ->
  move_isr now s = Some s' ->
  (stop_pending s = true -> s' = s)
  /\ step_event_queue_wf (step_event_queue s')
  /\ (exists new : list step_event_t,
        step_event_queue_contents (step_event_queue s')
        = step_event_queue_contents (step_event_queue s) ++ new
        /\ Forall (fun ev => flags ev <> 0) new)
  /\ (length (block_buffer (planner s')) <= length (block_buffer (planner s)))%nat.
Proof.
  intros Hbegin Hwf H. unfold move_isr in H.
  destruct (stop_pending s).
  { injection H as <-. split; [easy|]. split; [exact Hwf|].
    split; [exists []; now rewrite app_nil_r|lia]. }
  split; [discriminate|].
  destruct (process_one_move_segment_from_queue s) as [[status s1]|] eqn:E1; [|discriminate].
  cbn [mbind option_bind] in H.
  pose proof (planner_rest _ _ (process_one_move_segment_from_queue_rest _ _ _ E1)) as Hp1.
  apply process_one_move_segment_from_queue_appends in E1 as (Hwf1 & Hw1); try easy.
  destruct status.
  - injection H as <-. rewrite Hp1. split; [exact Hwf1|]. split; [exact Hw1|lia].
  - injection H as <-.
    destruct (process_queue_of_blocks_appends (now 0%nat) s1 Hwf1) as (Hwf2 & Hw2).
    destruct (process_queue_of_blocks_intake (now 0%nat) s1) as (_ & _ & Hl2).
    split; [exact Hwf2|]. split; [exact (producer_writes_trans _ _ _ _ Hw1 Hw2)|].
    now rewrite <- Hp1.
  - apply move_isr_loop_appends in H as (Hwf2 & Hw2 & Hl2); try easy.
    split; [exact Hwf2|]. split; [exact (producer_writes_trans _ _ _ _ Hw1 Hw2)|].
    now rewrite <- Hp1.
Qed.

(** The loop of [move_isr] has made [i] passes; the planner holds not more
    than [fuel + i - 1] blocks. *)
Lemma move_isr_loop_fuel fuel extra i now s :
  (length (block_buffer (planner s)) + 1 - i <= fuel)%nat ->
  move_isr_loop (fuel + extra) i now s = move_isr_loop fuel i now s.
Proof.
  revert i s. induction fuel as [|fuel IH]; intros i s Hf.
  - destruct extra as [|extra]; [reflexivity|].
    cbn [Nat.add move_isr_loop]. unfold movesplanned.
    destruct (Z.leb_spec (Z.of_nat i) (Z.of_nat (length (block_buffer (planner s)))));
      [lia|reflexivity].
  - cbn [Nat.add move_isr_loop]. unfold movesplanned.
    destruct (Z.leb_spec (Z.of_nat i) (Z.of_nat (length (block_buffer (planner s)))));
      [|reflexivity].
    cbv zeta.
    destruct (process_queue_of_blocks_intake (now i) s) as (_ & _ & Hl1).
    set (s1 := process_queue_of_blocks (now i) s) in *.
    destruct (negb _); [reflexivity|].
    destruct (process_one_move_segment_from_queue s1) as [[status s2]|] eqn:E2;
      [|reflexivity].
    cbn [mbind option_bind].
    destruct status; try reflexivity.
    apply IH.
    rewrite (planner_rest _ _ (process_one_move_segment_from_queue_rest _ _ _ E2)). lia.
Qed.

(** X30: the loop of [move_isr] makes at most [movesplanned() + 1] passes,
    counted from the blocks the planner holds when the loop starts: the
    planner gets no block while the loop runs, so more passes are never
    made. *)
Theorem move_isr_loop_passes (extra : nat) (now : nat -> Z) (s : state) :
  move_isr_loop (S (Z.to_nat (movesplanned (planner s))) + extra) 0 now s
  = move_isr_loop (S (Z.to_nat (movesplanned (planner s)))) 0 now s.
Proof.
  apply move_isr_loop_fuel. unfold movesplanned. lia.
Qed.

End MoveIsrProperties.

(** ** Reference counts across the engine *)

Section ReferenceCountSystem.

Context `{cfg : Config} `{scfg : StepperConfig}.






End ReferenceCountSystem.

(** ** The further properties on the sample runs *)

Module ExtraRuns.

Import Sample SampleIsr.

Ltac run := vm_compute; first [reflexivity | discriminate | lia].

Lemma sample_running_in_queue : generators_in_queue (cfg := sample_config) sample_running.
Proof.
  exact (proj1 (proj2 (proj2 (proj2 (proj2 (proj2 (proj2 SampleRuns.sample_reference_cnt))))))).
Qed.

Lemma sample_running_ready : merger_ready sample_running.
Proof.
  intros a. destruct a; vm_compute;
    (split; [reflexivity|]); eexists; (split; [reflexivity|]); eexists; reflexivity.
Qed.

Lemma sample_short_closing_wf :
  step_event_queue_wf (cfg := sample_isr_config) (step_event_queue sample_short_closing).
Proof. unfold step_event_queue_wf. repeat split; run. Qed.

Lemma sample_sync_motion_wf :
  move_segment_queue_wf (cfg := sample_isr_config) (move_segment_queue sample_sync_motion).
Proof. unfold move_segment_queue_wf. repeat split; run. Qed.

Lemma sample_short_drained_wf :
  move_segment_queue_wf (cfg := sample_isr_config) (move_segment_queue sample_short_drained).
Proof. unfold move_segment_queue_wf. repeat split; run. Qed.

Lemma sample_start_wf :
  move_segment_queue_wf (cfg := sample_config) (move_segment_queue sample_start).
Proof. unfold move_segment_queue_wf. repeat split; run. Qed.

(** X1, at the queue that holds the beginning empty move. *)
Lemma append_move_segment_to_queue_cases_witness :
  let q := move_segment_queue sample_begun in
  let r := append_move_segment_to_queue (cfg := sample_config) 1 2 3 4
             (XYZE 0 0 0 0)%float (XYZE 0 0 0 0)%float 5 sample_begun in
  if is_move_segment_queue_full (cfg := sample_config) q then r = (false, sample_begun)
  else
    let q' := move_segment_queue (snd r) in
    fst r = true
    /\ snd r = set_move_segment_queue q' sample_begun
    /\ move_segment_queue_wf (cfg := sample_config) q'
    /\ mq_tail q' = mq_tail q
    /\ mq_unprocessed_tail q' = mq_unprocessed_tail q
    /\ move_segment_queue_contents (cfg := sample_config) q'
       = move_segment_queue_contents (cfg := sample_config) q
         ++ [Move 1 2 3 4 (XYZE 0 0 0 0)%float (XYZE 0 0 0 0)%float 5 0]
    /\ move_segment_queue_free_slots (cfg := sample_config) q'
       = move_segment_queue_free_slots (cfg := sample_config) q - 1.
Proof.
  exact (append_move_segment_to_queue_cases (cfg := sample_config) 1 2 3 4
           (XYZE 0 0 0 0)%float (XYZE 0 0 0 0)%float 5 sample_begun SampleRuns.sample_begun_wf).
Defined.

(** X2, at block S2 and the queue that holds the beginning empty move. *)
Lemma append_move_segments_to_queue_reserve_witness :
  let free :=
    move_segment_queue_free_slots (cfg := sample_config) (move_segment_queue sample_begun) in
  let r := append_move_segments_to_queue (cfg := sample_config) block_S2 sample_begun in
  (3 + MOVE_SEGMENT_QUEUE_MIN_FREE_SLOTS (Config := sample_config) <= free -> fst r = true)
  /\ (fst r = true ->
      move_segment_queue_wf (cfg := sample_config) (move_segment_queue (snd r))
      /\ move_segment_queue_free_slots (cfg := sample_config) (move_segment_queue (snd r))
         = free - move_blocks_required (block_trapezoid (cfg := sample_config) block_S2)
      /\ MOVE_SEGMENT_QUEUE_MIN_FREE_SLOTS (Config := sample_config)
         <= move_segment_queue_free_slots (cfg := sample_config) (move_segment_queue (snd r)))
  /\ (fst r = false -> snd r = sample_begun).
Proof.
  apply (append_move_segments_to_queue_reserve (cfg := sample_config) block_S2 sample_begun).
  - exact SampleRuns.sample_begun_wf.
  - run.
Defined.

(** X3, at block S2. *)
Lemma append_move_segments_to_queue_segments_witness :
  exists segs : list move_t,
    move_segment_queue_contents (cfg := sample_config) (move_segment_queue sample_compiled)
    = move_segment_queue_contents (cfg := sample_config) (move_segment_queue sample_begun) ++ segs
    /\ Z.of_nat (length segs)
       = move_blocks_required (block_trapezoid (cfg := sample_config) block_S2)
    /\ Forall (fun m =>
                 axes_r m = calc_axes_r_from_block (cfg := sample_config) block_S2
                 /\ reference_cnt m = 0
                 /\ Z.land (mflags m) (block_dir_flags (cfg := sample_config) block_S2)
                    = block_dir_flags (cfg := sample_config) block_S2
                 /\ Z.land (mflags m)
                      (get_active_axis_flags_from_block (cfg := sample_config) block_S2)
                    = get_active_axis_flags_from_block (cfg := sample_config) block_S2
                 /\ (start_v m = initial_speed block_S2
                     \/ start_v m = cruise_v (block_trapezoid (cfg := sample_config) block_S2)))
              segs
    /\ (forall m, head segs = Some m ->
          start_pos m = total_start_pos sample_begun
          /\ print_time m = total_print_time sample_begun).
Proof.
  apply (append_move_segments_to_queue_segments (cfg := sample_config) block_S2 sample_begun
           sample_compiled).
  - exact SampleRuns.sample_begun_wf.
  - run.
  - run.
Defined.

(** X4, at block S1, which makes no step along Y, and its first segment. *)
Lemma classic_step_generator_update_inactive_axis_witness :
  let m := default zero_move (mq_data (move_segment_queue sample_loaded) !! 1%nat) in
  let g := boot_generator Y_AXIS in
  g_start_v (classic_step_generator_update (cfg := sample_config) m g) = 0%float
  /\ g_accel (classic_step_generator_update (cfg := sample_config) m g) = 0%float
  /\ get_move_axis_r m (axis g) = 0%float.
Proof.
  apply (classic_step_generator_update_inactive_axis (cfg := sample_config) block_S1
           (default zero_move (mq_data (move_segment_queue sample_loaded) !! 1%nat))
           (boot_generator Y_AXIS)).
  - run.
  - run.
Defined.

(** X5, at the first step event of block S1. *)
Lemma classic_step_generator_next_step_event_steps_witness :
  let s := sample_initialized in
  let ev := fst sample_advanced in
  let s' := snd sample_advanced in
  let flush_time := (total_print_time s - max_lookback_time s)%float in
  let g' := xyze_get (step_generators_pool s') X_AXIS in
  let cd := xyze_get (current_distance (step_generator_state s)) (axis g') in
  (ev = StepEventInfo DBL_MAX 0
   /\ reached_end_of_move_queue g' = true
   /\ current_distance (step_generator_state s') = current_distance (step_generator_state s))
  \/ (exists cur m,
        current_move g' = Some cur
        /\ mq_data (move_segment_queue s') !! cur = Some m
        /\ isnan (classic_step_time (cfg := sample_config) g' cd) = false
        /\ (move_time m + EPSILON (Config := sample_config)
            <? classic_step_time (cfg := sample_config) g' cd)%float = false
        /\ time ev = (classic_step_time (cfg := sample_config) g' cd + print_time m)%float
        /\ (flush_time <? time ev)%float = false
        /\ iflags ev = Z.lor (step_bit (cfg := sample_config) (axis g'))
                             (sflags (step_generator_state s'))
        /\ current_distance (step_generator_state s')
           = xyze_set (current_distance (step_generator_state s)) (axis g')
               (int32 (cd + (if step_dir g' then 1 else -1)))).
Proof.
  apply (classic_step_generator_next_step_event_steps (cfg := sample_config) X_AXIS
           (total_print_time sample_initialized - max_lookback_time sample_initialized)%float
           sample_initialized (fst sample_advanced) (snd sample_advanced)).
  run.
Defined.

(** X6, in the middle of block S1. *)
Lemma classic_step_generator_next_step_event_returns_witness :
  exists ev s',
    classic_step_generator_next_step_event (cfg := sample_config) X_AXIS sample_flush_time
      sample_running = Some (ev, s')
    /\ generators_in_queue (cfg := sample_config) s'
    /\ is_Some (current_move (xyze_get (step_generators_pool s') X_AXIS)).
Proof.
  apply (classic_step_generator_next_step_event_returns (cfg := sample_config) X_AXIS
           sample_flush_time sample_running).
  - exact sample_running_in_queue.
  - vm_compute. now eexists.
Defined.

(** X7, in the middle of block S1. *)
Lemma generate_next_step_event_returns_witness :
  exists d ev s',
    generate_next_step_event (cfg := sample_config) (StepEvent 0 0) sample_flush_time
      sample_running = Some (d, ev, s')
    /\ generators_in_queue (cfg := sample_config) s'
    /\ merger_ready s'.
Proof.
  apply (generate_next_step_event_returns (cfg := sample_config) (StepEvent 0 0)
           sample_flush_time sample_running).
  - exact sample_running_in_queue.
  - exact sample_running_ready.
  - cbv zeta. intros _. vm_compute. now eexists.
Defined.

(** X8, at the beginning empty move of the loaded queue. *)
Lemma step_generator_state_init_attaches_witness :
  let m := default zero_move (mq_data (move_segment_queue sample_loaded) !! 0%nat) in
  if (move_time m <? max_lookback_time sample_loaded)%float
  then step_generator_state_init (cfg := sample_config) 0 sample_loaded = None
  else
    exists s',
      step_generator_state_init (cfg := sample_config) 0 sample_loaded = Some s'
      /\ merger_ready s'
      /\ (forall a, current_move (xyze_get (step_generators_pool s') a) = Some 0%nat)
      /\ reference_cnt_changed sample_loaded s' (fun i => if Nat.eqb i 0 then 4 else 0)
      /\ initialized (step_generator_state s') = true
      /\ left_insert_start_of_move_segment (step_generator_state s') = 0
      /\ current_distance (step_generator_state s') = xyze_all 0.
Proof.
  apply (step_generator_state_init_attaches (cfg := sample_config) 0
           (default zero_move (mq_data (move_segment_queue sample_loaded) !! 0%nat))
           sample_loaded).
  - run.
  - intros a. destruct a; vm_compute; now eexists.
  - intros a. destruct a; run.
Defined.

(** X9, at a full step event queue. *)
Lemma process_one_move_segment_from_queue_full_witness :
  is_step_event_queue_full (cfg := sample_config) (step_event_queue sample_full) = true
  /\ flags (buffered_step (step_generator_state sample_full)) <> 0.
Proof.
  apply (process_one_move_segment_from_queue_full (cfg := sample_config) sample_full
           sample_full).
  run.
Defined.

(** X10, in the middle of block S1. *)
Lemma process_one_move_segment_from_queue_bounded_witness :
  exists new : list step_event_t,
    step_event_queue_contents (cfg := sample_config) (step_event_queue sample_after)
    = step_event_queue_contents (cfg := sample_config) (step_event_queue sample_running) ++ new
    /\ (length new <= MAX_STEP_EVENTS_PRODUCED_PER_ONE_CALL (Config := sample_config))%nat.
Proof.
  apply (process_one_move_segment_from_queue_bounded (cfg := sample_config) sample_running
           STEP_GENERATOR_STATUS_OK sample_after).
  - exact SampleRuns.sample_running_wf.
  - run.
  - discriminate.
Defined.

(** X11, at the end of the short block. *)
Lemma finish_ending_move_end_of_motion_witness :
  let s := sample_short_closing in
  let s' := sample_short_done in
  let end_of_motion :=
    StepEvent 0 (Z.lor (Z.lor (sflags (step_generator_state s))
                              (STEP_EVENT_FLAG_BEGINNING_OF_MOVE_SEGMENT
                                 (Config := sample_isr_config)))
                       (STEP_EVENT_END_OF_MOTION (Config := sample_isr_config))) in
  (mq_unprocessed_tail (move_segment_queue s') <> mq_unprocessed_tail (move_segment_queue s) ->
   STEP_GENERATOR_STATUS_NO_STEP_EVENT_PRODUCED = STEP_GENERATOR_STATUS_NO_STEP_EVENT_PRODUCED
   /\ flags (buffered_step (step_generator_state s')) = 0
   /\ left_insert_start_of_move_segment (step_generator_state s') = 0
   /\ last (step_event_queue_contents (cfg := sample_isr_config) (step_event_queue s'))
      = Some end_of_motion
   /\ mq_unprocessed_tail (move_segment_queue s')
      = move_segment_queue_next_index (cfg := sample_isr_config)
          (mq_unprocessed_tail (move_segment_queue s)))
  /\ (forall u m,
        get_current_unprocessed_move_segment (move_segment_queue s) = Some u ->
        mq_data (move_segment_queue s) !! u = Some m ->
        is_ending_empty_move (cfg := sample_isr_config) m = true ->
        flags (buffered_step (step_generator_state s)) = 0 ->
        left_insert_start_of_move_segment (step_generator_state s) = 0 ->
        is_step_event_queue_full (cfg := sample_isr_config) (step_event_queue s) = false ->
        step_event_queue_contents (cfg := sample_isr_config) (step_event_queue s')
        = step_event_queue_contents (cfg := sample_isr_config) (step_event_queue s)
          ++ [end_of_motion]
        /\ mq_unprocessed_tail (move_segment_queue s')
           = move_segment_queue_next_index (cfg := sample_isr_config) u).
Proof.
  apply (finish_ending_move_end_of_motion (cfg := sample_isr_config) sample_short_closing
           STEP_GENERATOR_STATUS_NO_STEP_EVENT_PRODUCED sample_short_done).
  - exact sample_short_closing_wf.
  - run.
Defined.

(** X12, at a sync block ahead of the first move. *)
Lemma fetch_next_block_before_motion_witness :
  let s := sample_sync_start in
  let r := fst (fetch_next_block (cfg := sample_config) 2 s) in
  let s' := snd (fetch_next_block (cfg := sample_config) 2 s) in
  exists skipped : list block_t,
    unprocessed_blocks (planner s) = skipped ++ unprocessed_blocks (planner s')
    /\ Forall (fun b => is_move (Config := sample_config) b = false) skipped
    /\ r = FetchBlock (get_current_unprocessed_block (planner s'))
    /\ (forall b, get_current_unprocessed_block (planner s') = Some b ->
                  is_move (Config := sample_config) b = true)
    /\ processed (planner s') = processed (planner s)
    /\ (length (block_buffer (planner s')) + length skipped
        = length (block_buffer (planner s)))%nat
    /\ count_position (stepper s')
       = default (count_position (stepper s)) (position <$> last skipped)
    /\ move_segment_queue s' = move_segment_queue s
    /\ step_event_queue s' = step_event_queue s
    /\ total_print_time s' = total_print_time s.
Proof.
  apply (fetch_next_block_before_motion (cfg := sample_config) 2 sample_sync_start
           (fst (fetch_next_block (cfg := sample_config) 2 sample_sync_start))
           (snd (fetch_next_block (cfg := sample_config) 2 sample_sync_start))).
  - run.
  - run.
  - apply surjective_pairing.
Defined.

(** X13, at a sync block behind a compiled move. *)
Lemma fetch_next_block_in_motion_witness :
  let s := sample_sync_motion in
  let r := fst (fetch_next_block (cfg := sample_isr_config) 2 s) in
  let s' := snd (fetch_next_block (cfg := sample_isr_config) 2 s) in
  exists skipped : list block_t,
    unprocessed_blocks (planner s) = skipped ++ unprocessed_blocks (planner s')
    /\ Forall (fun b => is_move (Config := sample_isr_config) b = false) skipped
    /\ block_buffer (planner s') = block_buffer (planner s)
    /\ processed (planner s') = (processed (planner s) + length skipped)%nat
    /\ move_segment_queue_contents (cfg := sample_isr_config) (move_segment_queue s')
       = move_segment_queue_contents (cfg := sample_isr_config) (move_segment_queue s)
         ++ replicate (length skipped) (block_discarding_move (cfg := sample_isr_config) s)
    /\ stepper s' = stepper s
    /\ total_print_time s' = total_print_time s
    /\ step_event_queue s' = step_event_queue s
    /\ match r with
       | FetchReturn =>
           is_move_segment_queue_full (cfg := sample_isr_config) (move_segment_queue s') = true
           /\ exists b, get_current_unprocessed_block (planner s') = Some b
                        /\ is_move (Config := sample_isr_config) b = false
       | FetchBlock current_block =>
           current_block = get_current_unprocessed_block (planner s')
           /\ forall b, current_block = Some b -> is_move (Config := sample_isr_config) b = true
       end.
Proof.
  apply (fetch_next_block_in_motion (cfg := sample_isr_config) 2 sample_sync_motion
           (fst (fetch_next_block (cfg := sample_isr_config) 2 sample_sync_motion))
           (snd (fetch_next_block (cfg := sample_isr_config) 2 sample_sync_motion))).
  - run.
  - exact sample_sync_motion_wf.
  - run.
  - apply surjective_pairing.
Defined.

(** X15, at the end of the short block. *)
Lemma process_queue_of_blocks_ending_move_witness :
  let s := sample_short_drained in
  let s' := process_queue_of_blocks (cfg := sample_isr_config) 0 s in
  move_segment_queue_contents (cfg := sample_isr_config) (move_segment_queue s')
  = move_segment_queue_contents (cfg := sample_isr_config) (move_segment_queue s)
    ++ [Move (MAX_PRINT_TIME (Config := sample_isr_config)) 0%float 0%float
          (total_print_time s) (XYZE 0 0 0 0)%float (total_start_pos s)
          (MOVE_FLAG_ENDING_EMPTY_MOVE (Config := sample_isr_config)) 0]
  /\ total_print_time s'
     = (total_print_time s + MAX_PRINT_TIME (Config := sample_isr_config))%float
  /\ has_all_generators_reached_end_of_move_queue s' = false
  /\ forall now',
       move_segment_queue (process_queue_of_blocks (cfg := sample_isr_config) now' s')
       = move_segment_queue s'.
Proof.
  assert (Hfull : is_move_segment_queue_full (cfg := sample_isr_config)
                    (move_segment_queue sample_short_drained) = false) by run.
  pose proof (process_queue_of_blocks_ending_move (cfg := sample_isr_config) 0
                sample_short_drained sample_short_drained_wf) as H.
  cbv zeta in H. rewrite Hfull in H. apply H; run.
Defined.

(** X16, at block S1 on a freshly started board whose delivery delay of
    100 ms, armed at tick 5, has run out at tick 200: the delivery gate opens on this
    call and the block is taken. *)
Lemma process_queue_of_blocks_first_block_witness :
  let s := set_waiting_before_delivering_start_time 5
             (set_planner (Planner (block_buffer (planner sample_start)) 0 100) sample_start) in
  let s' := process_queue_of_blocks (cfg := sample_config) 200 s in
  let beginning :=
    Move (max_lookback_time s + 0.001)%float 0%float 0%float 0%float (XYZE 0 0 0 0)%float
      (total_start_pos s) (MOVE_FLAG_BEGINNING_EMPTY_MOVE (Config := sample_config)) 0 in
  delay_before_delivering (planner s) = 100
  /\ delay_before_delivering (planner s') = 0
  /\ exists segs : list move_t,
    move_segment_queue_contents (cfg := sample_config) (move_segment_queue s')
    = move_segment_queue_contents (cfg := sample_config) (move_segment_queue s)
      ++ beginning :: segs
    /\ Z.of_nat (length segs)
       = move_blocks_required (block_trapezoid (cfg := sample_config) block_S1)
    /\ (forall m, head segs = Some m ->
          print_time m = (0 + (max_lookback_time s + 0.001))%float)
    /\ processed (planner s') = S (processed (planner s))
    /\ block_buffer (planner s') = block_buffer (planner s).
Proof.
  intros s s' beginning. split; [reflexivity|]. split; [run|].
  apply (process_queue_of_blocks_first_block (cfg := sample_config) 200 s block_S1).
  - exact sample_start_wf.
  - run.
  - run.
  - run.
  - run.
  - run.
  - run.
  - run.
Defined.

End ExtraRuns.

(** ** The Step-ISR on the sample run *)

Module StepIsrRuns.

Import Sample SampleIsr.

#[local] Existing Instance sample_isr_config.
#[local] Existing Instance sample_stepper_config.

Ltac run := vm_compute; first [reflexivity | discriminate | lia].

Lemma sample_flags_wf : step_event_flags_wf.
Proof. split; [run|intros a; destruct a; reflexivity..]. Qed.

Lemma sample_isr_done_cache : direction_cache_ok sample_isr_done.
Proof. intros a. destruct a; reflexivity. Qed.

Lemma sample_isr_done_current :
  get_current_step_event (step_event_queue (engine sample_isr_done)) = Some 0%nat.
Proof. run. Qed.

Lemma sample_isr_done_event :
  sq_data (step_event_queue (engine sample_isr_done)) !! 0%nat = Some (StepEvent 4162 4369).
Proof. run. Qed.

Lemma sample_isr_done_step :
  process_one_step_event_from_queue sample_isr_done
  = Some (2314, sample_consume 1 sample_isr_done).
Proof. run. Qed.

Lemma sample_isr_done_consumes :
  consumes sample_isr_done [StepEvent 4162 4369; StepEvent 2314 273]
    (sample_consume 2 sample_isr_done).
Proof.
  apply (consumes_cons sample_isr_done 0%nat _ 2314 (sample_consume 1 sample_isr_done));
    [run..|].
  apply (consumes_cons _ 1%nat _ 2314 (sample_consume 2 sample_isr_done)); [run..|].
  apply consumes_nil.
Qed.

(** X17, at the first step event of the short block. *)
Lemma process_one_step_event_from_queue_counts_witness :
  let st := sample_isr_done in
  let ev := StepEvent 4162 4369 in
  let st' := sample_consume 1 sample_isr_done in
  direction_cache_ok st'
  /\ (forall a,
        xyze_get (count_position_from_startup st') a
        = if Z.land (flags ev) (step_flag a) =? 0
          then xyze_get (count_position_from_startup st) a
          else int32 (xyze_get (count_position_from_startup st) a + step_delta ev a))
  /\ (Z.land (flags ev) STEP_EVENT_FLAG_BEGINNING_OF_MOVE_SEGMENT = 0 ->
      forall a,
        xyze_get (count_position (stepper (engine st'))) a
        = if Z.land (flags ev) (step_flag a) =? 0
          then xyze_get (count_position (stepper (engine st))) a
          else int32 (xyze_get (count_position (stepper (engine st))) a + step_delta ev a)).
Proof.
  exact (process_one_step_event_from_queue_counts sample_isr_done 0%nat _ _ _
           sample_flags_wf sample_isr_done_cache sample_isr_done_current
           sample_isr_done_event sample_isr_done_step).
Defined.

Lemma sample_isr_done_range :
  (forall a, - 2 ^ 31 <= xyze_get (count_position_from_startup sample_isr_done) a < 2 ^ 31)
  /\ (forall a,
        - 2 ^ 31 <= xyze_get (count_position (stepper (engine sample_isr_done))) a < 2 ^ 31).
Proof. split; intros a; destruct a; vm_compute; (split; [discriminate|reflexivity]). Qed.

(** X18, over the first two step events of the short block. *)
Lemma consumes_count_position_witness :
  let st := sample_isr_done in
  let l := [StepEvent 4162 4369; StepEvent 2314 273] in
  let st' := sample_consume 2 sample_isr_done in
  direction_cache_ok st'
  /\ (forall a,
        xyze_get (count_position_from_startup st') a
        = int32 (xyze_get (count_position_from_startup st) a + steps_made l a))
  /\ (Forall (fun ev => Z.land (flags ev) STEP_EVENT_FLAG_BEGINNING_OF_MOVE_SEGMENT = 0) l ->
      forall a,
        xyze_get (count_position (stepper (engine st'))) a
        = int32 (xyze_get (count_position (stepper (engine st))) a + steps_made l a)).
Proof.
  exact (consumes_count_position sample_isr_done _ _ sample_flags_wf sample_isr_done_cache
           (proj1 sample_isr_done_range) (proj2 sample_isr_done_range)
           sample_isr_done_consumes).
Defined.

(** X19, at the first step event of the short block. *)
Lemma process_one_step_event_from_queue_underrun_witness :
  let st := sample_isr_done in
  let ev := StepEvent 4162 4369 in
  let st' := sample_consume 1 sample_isr_done in
  step_event_queue (engine st') = discard_current_step_event (step_event_queue (engine st))
  /\ match get_current_step_event (step_event_queue (engine st')) with
     | Some next =>
         exists nev,
           sq_data (step_event_queue (engine st')) !! next = Some nev
           /\ 2314 = uint32 (time_ticks nev)
           /\ step_ev_miss (engine st') = step_ev_miss (engine st)
     | None =>
         2314 = stepper_isr_period_in_ticks st
         /\ step_ev_miss (engine st')
            = if Z.land (flags ev) STEP_EVENT_END_OF_MOTION =? 0
              then uint8 (step_ev_miss (engine st) + 1)
              else step_ev_miss (engine st)
     end.
Proof.
  exact (process_one_step_event_from_queue_underrun sample_isr_done 0%nat _ _ _
           sample_isr_done_current sample_isr_done_event sample_isr_done_step).
Defined.

(** X20, at the first step event of the short block, which carries the
    marker. *)
Lemma process_one_step_event_from_queue_retires_witness :
  let st := sample_isr_done in
  let ev := StepEvent 4162 4369 in
  let st' := sample_consume 1 sample_isr_done in
  if Z.land (flags ev) STEP_EVENT_FLAG_BEGINNING_OF_MOVE_SEGMENT =? 0
  then move_segment_queue (engine st') = move_segment_queue (engine st)
       /\ planner (engine st') = planner (engine st)
       /\ count_position_last_block st' = count_position_last_block st
  else exists cur m,
         get_current_move_segment (move_segment_queue (engine st)) = Some cur
         /\ mq_data (move_segment_queue (engine st)) !! cur = Some m
         /\ move_segment_queue (engine st')
            = discard_current_move_segment (move_segment_queue (engine st))
         /\ if Z.land (mflags m) MOVE_FLAG_LAST_MOVE_SEGMENT_OF_BLOCK =? 0
            then planner (engine st') = planner (engine st)
                 /\ count_position_last_block st' = count_position_last_block st
            else exists blk,
                 get_current_processed_block (planner (engine st)) = Some blk
                 /\ planner (engine st') = discard_current_block (planner (engine st))
                 /\ count_position_last_block st'
                    = if sync_position blk then position blk
                      else count_position (stepper (engine st)).
Proof.
  exact (process_one_step_event_from_queue_retires sample_isr_done 0%nat _ _ _
           sample_isr_done_current sample_isr_done_event sample_isr_done_step).
Defined.

(** X21, at the first step event of the short block. *)
Lemma process_one_step_event_from_queue_pins_witness :
  let st := sample_isr_done in
  let ev := StepEvent 4162 4369 in
  let st' := sample_consume 1 sample_isr_done in
  hw st'
  = hw st
    ++ flat_map (dir_write (inverted_dirs st) (last_direction_bits st) ev) all_axes
    ++ flat_map (step_pulse ev) all_axes
  /\ axis_did_move (stepper (engine st'))
     = uint8 (Z.shiftr (Z.land (flags ev) STEP_EVENT_FLAG_AXIS_ACTIVE_MASK)
                STEP_EVENT_FLAG_AXIS_ACTIVE_SHIFT).
Proof.
  exact (process_one_step_event_from_queue_pins sample_isr_done 0%nat _ _ _
           sample_flags_wf sample_isr_done_current sample_isr_done_event
           sample_isr_done_step).
Defined.

Lemma sample_isr_done_step_isr :
  step_isr 100 101 102 sample_isr_done = Some (sample_step_isr sample_isr_done).
Proof. run. Qed.

(** X22, at one run of [step_isr] on the step events of the short block. *)
Lemma step_isr_never_spin_waits_witness :
  exists ws next,
    hw (sample_step_isr sample_isr_done) = hw sample_isr_done ++ ws ++ [SetCompare next]
    /\ Forall is_pin_write ws.
Proof.
  exact (step_isr_never_spin_waits 100 101 102 sample_isr_done _ sample_isr_done_step_isr).
Defined.

(** X24, at a board whose [last_direction_bits] is 0x35 when [init] runs:
    the direction flags of X and Y, bits 4 and 5, are set, so both count
    down; bit 1, where the Step-ISR keeps the direction of Y, is not, so
    [count_direction] is not in step with that cache. *)
Lemma init_direction_cache_witness :
  let st := set_last_direction_bits 53 power_on_isr in
  last_direction_bits (init st) = 53
  /\ count_direction (init st) = XYZE (-1) (-1) 1 1
  /\ ~ direction_cache_ok (init st)
  /\ get_current_step_event (step_event_queue (engine (init st))) = None.
Proof.
  intros st.
  destruct (init_direction_cache st sample_flags_wf) as (Hl & Hd & Hiff & Hq & _).
  split; [exact Hl|]. split; [|split; [|exact Hq]].
  - pose proof (Hd X_AXIS) as Hx. pose proof (Hd Y_AXIS) as Hy.
    pose proof (Hd Z_AXIS) as Hz. pose proof (Hd E_AXIS) as He.
    destruct (count_direction (init st)) as [x y z e]. cbn in Hx, Hy, Hz, He.
    now rewrite Hx, Hy, Hz, He.
  - intros Hok. pose proof (proj1 Hiff Hok Y_AXIS) as Hy. discriminate Hy.
Defined.

End StepIsrRuns.

(** ** The two ISRs on the sample run *)

Module SystemRuns.

Import Sample SampleIsr.

#[local] Existing Instance sample_isr_config.
#[local] Existing Instance sample_stepper_config.

Ltac run := vm_compute; first [reflexivity | discriminate | lia].

Ltac balanced :=
  unfold markers_balanced, cursors_in_order, move_segment_queue_wf, step_event_queue_wf;
  split_and!;
  [run .. | intros a; destruct a; run | intros H; vm_compute in H; first [discriminate H | split; run]].

Lemma sample_marker_flag_wf : marker_flag_wf.
Proof.
  split; [exists 12; split; [lia|reflexivity]|reflexivity|].
  intros a. destruct a; repeat split; reflexivity.
Qed.

Lemma sample_restart_keeps_markers : restart_keeps_markers.
Proof.
  intros sgs pool. cbn. split_and!; try reflexivity.
  intros a. destruct a; cbn; now destruct (_ =? _)%float.
Qed.

Lemma sample_buffered_balanced : markers_balanced (sample_move_isr 2 sample_short_start).
Proof. balanced. Qed.

Lemma sample_buffered_step :
  process_one_move_segment_from_queue (sample_move_isr 2 sample_short_start)
  = Some (STEP_GENERATOR_STATUS_OK, sample_move_isr 3 sample_short_start).
Proof. run. Qed.

(** X25, at the pass of the producer that queues the first step event of the
    short block. *)
Lemma process_one_move_segment_from_queue_balance_witness :
  markers_balanced (sample_move_isr 3 sample_short_start).
Proof.
  exact (process_one_move_segment_from_queue_balance _ _ _ sample_marker_flag_wf
           sample_restart_keeps_markers sample_buffered_balanced sample_buffered_step).
Defined.

Lemma sample_isr_done_balanced : markers_balanced (engine sample_isr_done).
Proof. balanced. Qed.

(** X26, at the first step event of the short block. *)
Lemma process_one_step_event_from_queue_balance_witness :
  let st := sample_isr_done in
  let st' := sample_consume 1 sample_isr_done in
  markers_balanced (engine st')
  /\ forall slot ev,
       get_current_step_event (step_event_queue (engine st)) = Some slot ->
       sq_data (step_event_queue (engine st)) !! slot = Some ev ->
       begins_move_segment ev = true ->
       mq_tail (move_segment_queue (engine st))
       <> mq_unprocessed_tail (move_segment_queue (engine st))
       /\ get_current_move_segment (move_segment_queue (engine st))
          = Some (mq_tail (move_segment_queue (engine st)))
       /\ segments_to_retire (move_segment_queue (engine st'))
          = segments_to_retire (move_segment_queue (engine st)) - 1.
Proof.
  exact (process_one_step_event_from_queue_balance sample_isr_done _ _
           sample_isr_done_balanced StepIsrRuns.sample_isr_done_step).
Defined.

Lemma sample_isr_no_block_balanced : markers_balanced (engine sample_isr_no_block).
Proof. balanced. Qed.

Lemma sample_isr_no_block_fails :
  process_one_step_event_from_queue sample_isr_no_block = None.
Proof. run. Qed.

(** X27, at a planner that has lost the block of the segment to retire. *)
Lemma process_one_step_event_from_queue_returns_witness :
  let st := sample_isr_no_block in
  exists slot ev m,
    get_current_step_event (step_event_queue (engine st)) = Some slot
    /\ sq_data (step_event_queue (engine st)) !! slot = Some ev
    /\ begins_move_segment ev = true
    /\ mq_data (move_segment_queue (engine st)) !! mq_tail (move_segment_queue (engine st))
       = Some m
    /\ Z.land (mflags m) MOVE_FLAG_LAST_MOVE_SEGMENT_OF_BLOCK <> 0
    /\ get_current_processed_block (planner (engine st)) = None.
Proof.
  exact (process_one_step_event_from_queue_returns sample_isr_no_block
           sample_isr_no_block_balanced sample_isr_no_block_fails).
Defined.

Lemma sample_start_balanced : markers_balanced (engine (sample_isr sample_short_start)).
Proof. balanced. Qed.

Lemma sample_produce_isr_step st r s' :
  process_one_move_segment_from_queue (engine st) = Some (r, s') ->
  isr_step st (sample_produce_isr st).
Proof. intros H. unfold sample_produce_isr. rewrite H. now apply (isr_step_produce st r). Qed.

Lemma sample_consume_step st ticks st' :
  process_one_step_event_from_queue st = Some (ticks, st') ->
  isr_step st (sample_consume 1 st).
Proof. intros H. cbn. rewrite H. now apply (isr_step_consume st ticks). Qed.

Lemma sample_interleaved_run : rtc isr_step (sample_isr sample_short_start) sample_interleaved.
Proof.
  unfold sample_interleaved.
  set (st0 := sample_isr sample_short_start).
  set (st1 := sample_blocks_isr st0).
  set (st2 := sample_produce_isr st1).
  set (st3 := sample_produce_isr st2).
  set (st4 := sample_produce_isr st3).
  apply rtc_l with st1; [apply (isr_step_blocks st0 0); run|].
  apply rtc_l with st2;
    [apply (sample_produce_isr_step st1 STEP_GENERATOR_STATUS_OK (engine st2)); run|].
  apply rtc_l with st3;
    [apply (sample_produce_isr_step st2 STEP_GENERATOR_STATUS_OK (engine st3)); run|].
  apply rtc_l with st4;
    [apply (sample_produce_isr_step st3 STEP_GENERATOR_STATUS_OK (engine st4)); run|].
  apply rtc_once.
  apply (sample_consume_step st4 1000 (sample_consume 1 st4)). run.
Qed.

(** X28, over the short block taken in, three passes of the producer and
    the first step event consumed. *)
Lemma isr_steps_balance_witness : markers_balanced (engine sample_interleaved).
Proof.
  exact (isr_steps_balance _ _ sample_marker_flag_wf sample_restart_keeps_markers
           sample_start_balanced sample_interleaved_run).
Defined.

Lemma sample_marker_nonzero : STEP_EVENT_FLAG_BEGINNING_OF_MOVE_SEGMENT <> 0.
Proof. run. Qed.

Lemma sample_short_start_wf : step_event_queue_wf (step_event_queue sample_short_start).
Proof. unfold step_event_queue_wf. repeat split; run. Qed.

Lemma sample_short_start_move_isr :
  move_isr (fun _ => 0) sample_short_start = Some (sample_move_isr 1 sample_short_start).
Proof. run. Qed.

(** X29, at the first run of the Move-ISR on the short block. *)
Lemma move_isr_appends_witness :
  let s := sample_short_start in
  let s' := sample_move_isr 1 sample_short_start in
  (stop_pending s = true -> s' = s)
  /\ step_event_queue_wf (step_event_queue s')
  /\ (exists new : list step_event_t,
        step_event_queue_contents (step_event_queue s')
        = step_event_queue_contents (step_event_queue s) ++ new
        /\ Forall (fun ev => flags ev <> 0) new)
  /\ (length (block_buffer (planner s')) <= length (block_buffer (planner s)))%nat.
Proof.
  exact (move_isr_appends (fun _ => 0) sample_short_start _ sample_marker_nonzero
           sample_short_start_wf sample_short_start_move_isr).
Defined.



End SystemRuns.
